(** * The CDO equation controller of Code_Saturne (src/cdo/cs_equation.c)

    A shallow embedding of the parameter store and of the equation controller:
    the key/value setter, the term and boundary-condition registration, the
    lock performed by [cs_equation_last_setup], the selection of the linear
    solver, the staleness flag around build and solve, and the accessors.

    Conventions of the embedding.
    - A C string is a [string]; [strcmp (a, b) == 0] is [String.eqb] and
      [strncmp (a, b, n) == 0] compares the prefixes of length [n].
    - [cs_real_t] and [double] are binary64 numbers ([float]); [int] and
      [cs_flag_t] are [Z], the masks combined with [Z.lor] and [Z.land].
    - A pointer to an object this file does not look into is a [ptr].
    - An array grown by [BFT_REALLOC] is the list of the entries stored so
      far, next to the counter the structure keeps for it.
    - [bft_error] stops the run: a function returns an [outcome], either
      [Normal] with its result, or [Fatal] with the error and the state
      reached when [bft_error] was called, or [Undefined] where C gives the
      execution no meaning (a call through a null function pointer, an access
      through a null pointer).
    - Everything the file receives from its environment (the C library's
      [atof] and [atoi], the macros of the headers, the build configuration,
      the answers of the collaborators) is a field of [environment]. *)

From Stdlib Require Import ZArith String Ascii List Bool Floats Lia.
From Stdlib Require Import DecimalString.
Import ListNotations.
Local Open Scope string_scope.
Local Open Scope Z_scope.

Set Implicit Arguments.
Set Warnings "-inexact-float".

(** ** C strings *)

Definition strcmp_eq (a b : string) : bool := String.eqb a b.

Definition strncmp_eq (a b : string) (n : nat) : bool :=
  String.eqb (substring 0 n a) (substring 0 n b).

(** ** Pointers to collaborators' objects *)

Inductive ptr : Type :=
| NULL
| Addr (a : positive).

Definition ptr_eqb (p q : ptr) : bool :=
  match p, q with
  | NULL, NULL => true
  | Addr a, Addr b => Pos.eqb a b
  | _, _ => false
  end.

(** ** Enumerations

    The enumerations are declared in cs_param.h, cs_cdo.h, cs_quadrature.h and
    cs_equation.h; each type lists the enumerators cs_equation.c names. *)

Inductive cs_space_scheme_t : Type :=
| CS_SPACE_SCHEME_CDOVB
| CS_SPACE_SCHEME_CDOFB
| CS_SPACE_N_SCHEMES.

Inductive cs_param_hodge_type_t : Type :=
| CS_PARAM_HODGE_TYPE_VPCD
| CS_PARAM_HODGE_TYPE_EPFD
| CS_PARAM_HODGE_TYPE_CPVD
| CS_PARAM_HODGE_TYPE_EDFP
| CS_PARAM_N_HODGE_TYPES.

Inductive cs_param_hodge_algo_t : Type :=
| CS_PARAM_HODGE_ALGO_VORONOI
| CS_PARAM_HODGE_ALGO_WBS
| CS_PARAM_HODGE_ALGO_COST
| CS_PARAM_N_HODGE_ALGOS.

Inductive cs_time_scheme_t : Type :=
| CS_TIME_SCHEME_IMPLICIT
| CS_TIME_SCHEME_EXPLICIT
| CS_TIME_SCHEME_CRANKNICO
| CS_TIME_SCHEME_THETA.

Inductive cs_param_advection_form_t : Type :=
| CS_PARAM_ADVECTION_FORM_CONSERV
| CS_PARAM_ADVECTION_FORM_NONCONS.

Inductive cs_param_advection_weight_algo_t : Type :=
| CS_PARAM_ADVECTION_WEIGHT_ALGO_CENTERED
| CS_PARAM_ADVECTION_WEIGHT_ALGO_UPWIND
| CS_PARAM_ADVECTION_WEIGHT_ALGO_SAMARSKII
| CS_PARAM_ADVECTION_WEIGHT_ALGO_SG
| CS_PARAM_ADVECTION_WEIGHT_ALGO_D10G5.

Inductive cs_param_advection_weight_t : Type :=
| CS_PARAM_ADVECTION_WEIGHT_FLUX
| CS_PARAM_ADVECTION_WEIGHT_XEXC.

Inductive cs_quadra_type_t : Type :=
| CS_QUADRATURE_BARY
| CS_QUADRATURE_HIGHER
| CS_QUADRATURE_HIGHEST.

Inductive cs_equation_algo_type_t : Type :=
| CS_EQUATION_ALGO_CS_ITSOL
| CS_EQUATION_ALGO_PETSC_ITSOL.

Inductive cs_param_itsol_type_t : Type :=
| CS_PARAM_ITSOL_CG
| CS_PARAM_ITSOL_BICG
| CS_PARAM_ITSOL_GMRES
| CS_PARAM_ITSOL_AMG.

Inductive cs_param_precond_type_t : Type :=
| CS_PARAM_PRECOND_DIAG
| CS_PARAM_PRECOND_POLY1
| CS_PARAM_PRECOND_SSOR
| CS_PARAM_PRECOND_ILU0
| CS_PARAM_PRECOND_ICC0
| CS_PARAM_PRECOND_AMG
| CS_PARAM_PRECOND_AS.

Inductive cs_param_bc_type_t : Type :=
| CS_PARAM_BC_HMG_DIRICHLET
| CS_PARAM_BC_DIRICHLET
| CS_PARAM_BC_HMG_NEUMANN
| CS_PARAM_BC_NEUMANN
| CS_PARAM_BC_ROBIN
| CS_PARAM_N_BC_TYPES.

Inductive cs_param_bc_enforce_t : Type :=
| CS_PARAM_BC_ENFORCE_STRONG
| CS_PARAM_BC_ENFORCE_WEAK_PENA
| CS_PARAM_BC_ENFORCE_WEAK_NITSCHE
| CS_PARAM_BC_ENFORCE_WEAK_SYM.

Inductive cs_param_def_type_t : Type :=
| CS_PARAM_DEF_BY_ANALYTIC_FUNCTION
| CS_PARAM_DEF_BY_ARRAY
| CS_PARAM_DEF_BY_USER_FUNCTION
| CS_PARAM_DEF_BY_VALUE
| CS_PARAM_N_DEF_TYPES.

Inductive cs_param_var_type_t : Type :=
| CS_PARAM_VAR_SCAL
| CS_PARAM_VAR_VECT
| CS_PARAM_VAR_TENS
| CS_PARAM_N_VAR_TYPES.

Inductive cs_equation_type_t : Type :=
| CS_EQUATION_TYPE_USER
| CS_EQUATION_TYPE_PREDEFINED
| CS_EQUATION_TYPE_GROUNDWATER
| CS_EQUATION_N_TYPES.

Inductive cs_param_reaction_type_t : Type :=
| CS_PARAM_REACTION_TYPE_LINEAR
| CS_PARAM_N_REACTION_TYPES.

(** Iterative solvers of the in-house layer (cs_sles_it.h). *)
Inductive cs_sles_it_type_t : Type :=
| CS_SLES_PCG
| CS_SLES_JACOBI
| CS_SLES_BICGSTAB
| CS_SLES_GMRES.

(** The keys of [cs_equation_set_option], in the order of the source. *)
Inductive eqkey_t : Type :=
| EQKEY_HODGE_DIFF_ALGO
| EQKEY_HODGE_DIFF_COEF
| EQKEY_HODGE_TIME_ALGO
| EQKEY_HODGE_TIME_COEF
| EQKEY_ITSOL
| EQKEY_ITSOL_EPS
| EQKEY_ITSOL_MAX_ITER
| EQKEY_ITSOL_RESNORM
| EQKEY_PRECOND
| EQKEY_SOLVER_FAMILY
| EQKEY_SPACE_SCHEME
| EQKEY_VERBOSITY
| EQKEY_SLES_VERBOSITY
| EQKEY_BC_ENFORCEMENT
| EQKEY_BC_QUADRATURE
| EQKEY_EXTRA_OP
| EQKEY_ADV_OP_TYPE
| EQKEY_ADV_WEIGHT_ALGO
| EQKEY_ADV_WEIGHT_CRIT
| EQKEY_ADV_FLUX_QUADRA
| EQKEY_TIME_SCHEME
| EQKEY_TIME_THETA
| EQKEY_ERROR.

(** ** Structures *)

Record cs_param_hodge_t : Type := {
  inv_pty : bool;
  hodge_type : cs_param_hodge_type_t;
  hodge_algo : cs_param_hodge_algo_t;
  hodge_coef : float
}.

Record cs_param_def_t : Type := {
  ml_name : string;
  ic_def_type : cs_param_def_type_t;
  ic_def : string
}.

Record cs_param_time_t : Type := {
  time_scheme : cs_time_scheme_t;
  theta : float;
  time_do_lumping : bool;
  n_ic_definitions : Z;
  ic_definitions : list cs_param_def_t
}.

Record cs_param_advection_t : Type := {
  formulation : cs_param_advection_form_t;
  weight_algo : cs_param_advection_weight_algo_t;
  weight_criterion : cs_param_advection_weight_t;
  adv_quad_type : cs_quadra_type_t
}.

Record cs_param_reaction_t : Type := {
  reaction_name : string;
  reaction_type : cs_param_reaction_type_t;
  reaction_hodge : cs_param_hodge_t;
  reaction_do_lumping : bool
}.

Record cs_param_bc_def_t : Type := {
  loc_id : Z;
  bc_type : cs_param_bc_type_t;
  bc_var_type : cs_param_var_type_t;
  bc_def_type : cs_param_def_type_t;
  bc_def_coef1 : string;
  bc_def_coef2 : option string
}.

Record cs_param_bc_t : Type := {
  default_bc : cs_param_bc_type_t;
  enforcement : cs_param_bc_enforce_t;
  bc_quad_type : cs_quadra_type_t;
  use_subdiv : bool;
  n_defs : Z;
  defs : list cs_param_bc_def_t
}.

Record cs_equation_algo_t : Type := {
  algo_type : cs_equation_algo_type_t;
  n_iters : Z;
  n_max_iters : Z;
  n_cumulated_iters : Z;
  n_max_cumulated_iters : Z;
  algo_eps : float
}.

Record cs_param_itsol_t : Type := {
  precond : cs_param_precond_type_t;
  solver : cs_param_itsol_type_t;
  n_max_iter : Z;
  eps : float;
  output_freq : Z;
  resid_normalized : bool
}.

Record cs_equation_param_t : Type := {
  eq_type : cs_equation_type_t;
  var_type : cs_param_var_type_t;
  verbosity : Z;
  sles_verbosity : Z;
  process_flag : Z;
  flag : Z;
  space_scheme : cs_space_scheme_t;
  time_hodge : cs_param_hodge_t;
  time_property : ptr;
  time_info : cs_param_time_t;
  diffusion_property : ptr;
  diffusion_hodge : cs_param_hodge_t;
  advection_info : cs_param_advection_t;
  advection_field : ptr;
  n_reaction_terms : Z;
  reaction_terms : list cs_param_reaction_t;
  reaction_properties : list ptr;
  n_source_terms : Z;
  source_terms : list ptr;
  bc : cs_param_bc_t;
  algo_info : cs_equation_algo_t;
  itsol_info : cs_param_itsol_t
}.

(** The functions of the two scheme builders (cs_cdovb_scaleq.h and
    cs_cdofb_scaleq.h) a function pointer of the equation can hold. *)
Inductive scheme_function : Type :=
| cs_cdovb_scaleq_init
| cs_cdovb_scaleq_free
| cs_cdovb_scaleq_build_system
| cs_cdovb_scaleq_compute_source
| cs_cdovb_scaleq_update_field
| cs_cdovb_scaleq_extra_op
| cs_cdovb_scaleq_get_tmpbuf
| cs_cdofb_scaleq_init
| cs_cdofb_scaleq_free
| cs_cdofb_scaleq_build_system
| cs_cdofb_scaleq_compute_source
| cs_cdofb_scaleq_update_field
| cs_cdofb_scaleq_extra_op
| cs_cdofb_scaleq_get_tmpbuf
| cs_cdofb_scaleq_get_face_values.

(** [struct _cs_equation_t]; a function pointer is [None] when it is NULL. *)
Record cs_equation_t : Type := {
  name : string;
  param : cs_equation_param_t;
  varname : string;
  field_id : Z;
  main_ts_id : Z;
  pre_ts_id : Z;
  solve_ts_id : Z;
  extra_op_ts_id : Z;
  do_build : bool;
  ms : ptr;
  matrix : ptr;
  rhs : ptr;
  builder : ptr;
  init_builder : option scheme_function;
  free_builder : option scheme_function;
  build_system : option scheme_function;
  compute_source : option scheme_function;
  update_field : option scheme_function;
  postprocess : option scheme_function;
  get_f_values : option scheme_function;
  get_tmpbuf : option scheme_function
}.

(** ** Assignments to one member

    [set_f v x] is the structure [x] after the assignment [x.f = v]. *)

Definition set_hodge_type (v : cs_param_hodge_type_t) (h : cs_param_hodge_t) : cs_param_hodge_t :=
  {| inv_pty := inv_pty h; hodge_type := v; hodge_algo := hodge_algo h;
     hodge_coef := hodge_coef h |}.

Definition set_hodge_algo (v : cs_param_hodge_algo_t) (h : cs_param_hodge_t) : cs_param_hodge_t :=
  {| inv_pty := inv_pty h; hodge_type := hodge_type h; hodge_algo := v;
     hodge_coef := hodge_coef h |}.

Definition set_hodge_coef (v : float) (h : cs_param_hodge_t) : cs_param_hodge_t :=
  {| inv_pty := inv_pty h; hodge_type := hodge_type h; hodge_algo :=
     hodge_algo h; hodge_coef := v |}.

Definition set_time_scheme (v : cs_time_scheme_t) (t : cs_param_time_t) : cs_param_time_t :=
  {| time_scheme := v; theta := theta t; time_do_lumping := time_do_lumping
     t; n_ic_definitions := n_ic_definitions t; ic_definitions :=
     ic_definitions t |}.

Definition set_theta (v : float) (t : cs_param_time_t) : cs_param_time_t :=
  {| time_scheme := time_scheme t; theta := v; time_do_lumping :=
     time_do_lumping t; n_ic_definitions := n_ic_definitions t;
     ic_definitions := ic_definitions t |}.

Definition set_formulation (v : cs_param_advection_form_t) (a : cs_param_advection_t) : cs_param_advection_t :=
  {| formulation := v; weight_algo := weight_algo a; weight_criterion :=
     weight_criterion a; adv_quad_type := adv_quad_type a |}.

Definition set_weight_algo (v : cs_param_advection_weight_algo_t) (a : cs_param_advection_t) : cs_param_advection_t :=
  {| formulation := formulation a; weight_algo := v; weight_criterion :=
     weight_criterion a; adv_quad_type := adv_quad_type a |}.

Definition set_weight_criterion (v : cs_param_advection_weight_t) (a : cs_param_advection_t) : cs_param_advection_t :=
  {| formulation := formulation a; weight_algo := weight_algo a;
     weight_criterion := v; adv_quad_type := adv_quad_type a |}.

Definition set_adv_quad_type (v : cs_quadra_type_t) (a : cs_param_advection_t) : cs_param_advection_t :=
  {| formulation := formulation a; weight_algo := weight_algo a;
     weight_criterion := weight_criterion a; adv_quad_type := v |}.

Definition set_enforcement (v : cs_param_bc_enforce_t) (b : cs_param_bc_t) : cs_param_bc_t :=
  {| default_bc := default_bc b; enforcement := v; bc_quad_type :=
     bc_quad_type b; use_subdiv := use_subdiv b; n_defs := n_defs b; defs :=
     defs b |}.

Definition set_bc_quad_type (v : cs_quadra_type_t) (b : cs_param_bc_t) : cs_param_bc_t :=
  {| default_bc := default_bc b; enforcement := enforcement b; bc_quad_type
     := v; use_subdiv := use_subdiv b; n_defs := n_defs b; defs := defs b
     |}.

Definition set_use_subdiv (v : bool) (b : cs_param_bc_t) : cs_param_bc_t :=
  {| default_bc := default_bc b; enforcement := enforcement b; bc_quad_type
     := bc_quad_type b; use_subdiv := v; n_defs := n_defs b; defs := defs b
     |}.

Definition set_n_defs (v : Z) (b : cs_param_bc_t) : cs_param_bc_t :=
  {| default_bc := default_bc b; enforcement := enforcement b; bc_quad_type
     := bc_quad_type b; use_subdiv := use_subdiv b; n_defs := v; defs :=
     defs b |}.

Definition set_defs (v : list cs_param_bc_def_t) (b : cs_param_bc_t) : cs_param_bc_t :=
  {| default_bc := default_bc b; enforcement := enforcement b; bc_quad_type
     := bc_quad_type b; use_subdiv := use_subdiv b; n_defs := n_defs b; defs
     := v |}.

Definition set_algo_type (v : cs_equation_algo_type_t) (a : cs_equation_algo_t) : cs_equation_algo_t :=
  {| algo_type := v; n_iters := n_iters a; n_max_iters := n_max_iters a;
     n_cumulated_iters := n_cumulated_iters a; n_max_cumulated_iters :=
     n_max_cumulated_iters a; algo_eps := algo_eps a |}.

Definition set_precond (v : cs_param_precond_type_t) (i : cs_param_itsol_t) : cs_param_itsol_t :=
  {| precond := v; solver := solver i; n_max_iter := n_max_iter i; eps :=
     eps i; output_freq := output_freq i; resid_normalized :=
     resid_normalized i |}.

Definition set_solver (v : cs_param_itsol_type_t) (i : cs_param_itsol_t) : cs_param_itsol_t :=
  {| precond := precond i; solver := v; n_max_iter := n_max_iter i; eps :=
     eps i; output_freq := output_freq i; resid_normalized :=
     resid_normalized i |}.

Definition set_n_max_iter (v : Z) (i : cs_param_itsol_t) : cs_param_itsol_t :=
  {| precond := precond i; solver := solver i; n_max_iter := v; eps := eps
     i; output_freq := output_freq i; resid_normalized := resid_normalized i
     |}.

Definition set_eps (v : float) (i : cs_param_itsol_t) : cs_param_itsol_t :=
  {| precond := precond i; solver := solver i; n_max_iter := n_max_iter i;
     eps := v; output_freq := output_freq i; resid_normalized :=
     resid_normalized i |}.

Definition set_resid_normalized (v : bool) (i : cs_param_itsol_t) : cs_param_itsol_t :=
  {| precond := precond i; solver := solver i; n_max_iter := n_max_iter i;
     eps := eps i; output_freq := output_freq i; resid_normalized := v |}.

Definition set_verbosity (v : Z) (p : cs_equation_param_t) : cs_equation_param_t :=
  {| eq_type := eq_type p; var_type := var_type p; verbosity := v;
     sles_verbosity := sles_verbosity p; process_flag := process_flag p;
     flag := flag p; space_scheme := space_scheme p; time_hodge :=
     time_hodge p; time_property := time_property p; time_info := time_info
     p; diffusion_property := diffusion_property p; diffusion_hodge :=
     diffusion_hodge p; advection_info := advection_info p; advection_field
     := advection_field p; n_reaction_terms := n_reaction_terms p;
     reaction_terms := reaction_terms p; reaction_properties :=
     reaction_properties p; n_source_terms := n_source_terms p; source_terms
     := source_terms p; bc := bc p; algo_info := algo_info p; itsol_info :=
     itsol_info p |}.

Definition set_sles_verbosity (v : Z) (p : cs_equation_param_t) : cs_equation_param_t :=
  {| eq_type := eq_type p; var_type := var_type p; verbosity := verbosity p;
     sles_verbosity := v; process_flag := process_flag p; flag := flag p;
     space_scheme := space_scheme p; time_hodge := time_hodge p;
     time_property := time_property p; time_info := time_info p;
     diffusion_property := diffusion_property p; diffusion_hodge :=
     diffusion_hodge p; advection_info := advection_info p; advection_field
     := advection_field p; n_reaction_terms := n_reaction_terms p;
     reaction_terms := reaction_terms p; reaction_properties :=
     reaction_properties p; n_source_terms := n_source_terms p; source_terms
     := source_terms p; bc := bc p; algo_info := algo_info p; itsol_info :=
     itsol_info p |}.

Definition set_process_flag (v : Z) (p : cs_equation_param_t) : cs_equation_param_t :=
  {| eq_type := eq_type p; var_type := var_type p; verbosity := verbosity p;
     sles_verbosity := sles_verbosity p; process_flag := v; flag := flag p;
     space_scheme := space_scheme p; time_hodge := time_hodge p;
     time_property := time_property p; time_info := time_info p;
     diffusion_property := diffusion_property p; diffusion_hodge :=
     diffusion_hodge p; advection_info := advection_info p; advection_field
     := advection_field p; n_reaction_terms := n_reaction_terms p;
     reaction_terms := reaction_terms p; reaction_properties :=
     reaction_properties p; n_source_terms := n_source_terms p; source_terms
     := source_terms p; bc := bc p; algo_info := algo_info p; itsol_info :=
     itsol_info p |}.

Definition set_flag (v : Z) (p : cs_equation_param_t) : cs_equation_param_t :=
  {| eq_type := eq_type p; var_type := var_type p; verbosity := verbosity p;
     sles_verbosity := sles_verbosity p; process_flag := process_flag p;
     flag := v; space_scheme := space_scheme p; time_hodge := time_hodge p;
     time_property := time_property p; time_info := time_info p;
     diffusion_property := diffusion_property p; diffusion_hodge :=
     diffusion_hodge p; advection_info := advection_info p; advection_field
     := advection_field p; n_reaction_terms := n_reaction_terms p;
     reaction_terms := reaction_terms p; reaction_properties :=
     reaction_properties p; n_source_terms := n_source_terms p; source_terms
     := source_terms p; bc := bc p; algo_info := algo_info p; itsol_info :=
     itsol_info p |}.

Definition set_space_scheme (v : cs_space_scheme_t) (p : cs_equation_param_t) : cs_equation_param_t :=
  {| eq_type := eq_type p; var_type := var_type p; verbosity := verbosity p;
     sles_verbosity := sles_verbosity p; process_flag := process_flag p;
     flag := flag p; space_scheme := v; time_hodge := time_hodge p;
     time_property := time_property p; time_info := time_info p;
     diffusion_property := diffusion_property p; diffusion_hodge :=
     diffusion_hodge p; advection_info := advection_info p; advection_field
     := advection_field p; n_reaction_terms := n_reaction_terms p;
     reaction_terms := reaction_terms p; reaction_properties :=
     reaction_properties p; n_source_terms := n_source_terms p; source_terms
     := source_terms p; bc := bc p; algo_info := algo_info p; itsol_info :=
     itsol_info p |}.

Definition set_time_hodge (v : cs_param_hodge_t) (p : cs_equation_param_t) : cs_equation_param_t :=
  {| eq_type := eq_type p; var_type := var_type p; verbosity := verbosity p;
     sles_verbosity := sles_verbosity p; process_flag := process_flag p;
     flag := flag p; space_scheme := space_scheme p; time_hodge := v;
     time_property := time_property p; time_info := time_info p;
     diffusion_property := diffusion_property p; diffusion_hodge :=
     diffusion_hodge p; advection_info := advection_info p; advection_field
     := advection_field p; n_reaction_terms := n_reaction_terms p;
     reaction_terms := reaction_terms p; reaction_properties :=
     reaction_properties p; n_source_terms := n_source_terms p; source_terms
     := source_terms p; bc := bc p; algo_info := algo_info p; itsol_info :=
     itsol_info p |}.

Definition set_time_property (v : ptr) (p : cs_equation_param_t) : cs_equation_param_t :=
  {| eq_type := eq_type p; var_type := var_type p; verbosity := verbosity p;
     sles_verbosity := sles_verbosity p; process_flag := process_flag p;
     flag := flag p; space_scheme := space_scheme p; time_hodge :=
     time_hodge p; time_property := v; time_info := time_info p;
     diffusion_property := diffusion_property p; diffusion_hodge :=
     diffusion_hodge p; advection_info := advection_info p; advection_field
     := advection_field p; n_reaction_terms := n_reaction_terms p;
     reaction_terms := reaction_terms p; reaction_properties :=
     reaction_properties p; n_source_terms := n_source_terms p; source_terms
     := source_terms p; bc := bc p; algo_info := algo_info p; itsol_info :=
     itsol_info p |}.

Definition set_time_info (v : cs_param_time_t) (p : cs_equation_param_t) : cs_equation_param_t :=
  {| eq_type := eq_type p; var_type := var_type p; verbosity := verbosity p;
     sles_verbosity := sles_verbosity p; process_flag := process_flag p;
     flag := flag p; space_scheme := space_scheme p; time_hodge :=
     time_hodge p; time_property := time_property p; time_info := v;
     diffusion_property := diffusion_property p; diffusion_hodge :=
     diffusion_hodge p; advection_info := advection_info p; advection_field
     := advection_field p; n_reaction_terms := n_reaction_terms p;
     reaction_terms := reaction_terms p; reaction_properties :=
     reaction_properties p; n_source_terms := n_source_terms p; source_terms
     := source_terms p; bc := bc p; algo_info := algo_info p; itsol_info :=
     itsol_info p |}.

Definition set_diffusion_property (v : ptr) (p : cs_equation_param_t) : cs_equation_param_t :=
  {| eq_type := eq_type p; var_type := var_type p; verbosity := verbosity p;
     sles_verbosity := sles_verbosity p; process_flag := process_flag p;
     flag := flag p; space_scheme := space_scheme p; time_hodge :=
     time_hodge p; time_property := time_property p; time_info := time_info
     p; diffusion_property := v; diffusion_hodge := diffusion_hodge p;
     advection_info := advection_info p; advection_field := advection_field
     p; n_reaction_terms := n_reaction_terms p; reaction_terms :=
     reaction_terms p; reaction_properties := reaction_properties p;
     n_source_terms := n_source_terms p; source_terms := source_terms p; bc
     := bc p; algo_info := algo_info p; itsol_info := itsol_info p |}.

Definition set_diffusion_hodge (v : cs_param_hodge_t) (p : cs_equation_param_t) : cs_equation_param_t :=
  {| eq_type := eq_type p; var_type := var_type p; verbosity := verbosity p;
     sles_verbosity := sles_verbosity p; process_flag := process_flag p;
     flag := flag p; space_scheme := space_scheme p; time_hodge :=
     time_hodge p; time_property := time_property p; time_info := time_info
     p; diffusion_property := diffusion_property p; diffusion_hodge := v;
     advection_info := advection_info p; advection_field := advection_field
     p; n_reaction_terms := n_reaction_terms p; reaction_terms :=
     reaction_terms p; reaction_properties := reaction_properties p;
     n_source_terms := n_source_terms p; source_terms := source_terms p; bc
     := bc p; algo_info := algo_info p; itsol_info := itsol_info p |}.

Definition set_advection_info (v : cs_param_advection_t) (p : cs_equation_param_t) : cs_equation_param_t :=
  {| eq_type := eq_type p; var_type := var_type p; verbosity := verbosity p;
     sles_verbosity := sles_verbosity p; process_flag := process_flag p;
     flag := flag p; space_scheme := space_scheme p; time_hodge :=
     time_hodge p; time_property := time_property p; time_info := time_info
     p; diffusion_property := diffusion_property p; diffusion_hodge :=
     diffusion_hodge p; advection_info := v; advection_field :=
     advection_field p; n_reaction_terms := n_reaction_terms p;
     reaction_terms := reaction_terms p; reaction_properties :=
     reaction_properties p; n_source_terms := n_source_terms p; source_terms
     := source_terms p; bc := bc p; algo_info := algo_info p; itsol_info :=
     itsol_info p |}.

Definition set_advection_field (v : ptr) (p : cs_equation_param_t) : cs_equation_param_t :=
  {| eq_type := eq_type p; var_type := var_type p; verbosity := verbosity p;
     sles_verbosity := sles_verbosity p; process_flag := process_flag p;
     flag := flag p; space_scheme := space_scheme p; time_hodge :=
     time_hodge p; time_property := time_property p; time_info := time_info
     p; diffusion_property := diffusion_property p; diffusion_hodge :=
     diffusion_hodge p; advection_info := advection_info p; advection_field
     := v; n_reaction_terms := n_reaction_terms p; reaction_terms :=
     reaction_terms p; reaction_properties := reaction_properties p;
     n_source_terms := n_source_terms p; source_terms := source_terms p; bc
     := bc p; algo_info := algo_info p; itsol_info := itsol_info p |}.

Definition set_n_reaction_terms (v : Z) (p : cs_equation_param_t) : cs_equation_param_t :=
  {| eq_type := eq_type p; var_type := var_type p; verbosity := verbosity p;
     sles_verbosity := sles_verbosity p; process_flag := process_flag p;
     flag := flag p; space_scheme := space_scheme p; time_hodge :=
     time_hodge p; time_property := time_property p; time_info := time_info
     p; diffusion_property := diffusion_property p; diffusion_hodge :=
     diffusion_hodge p; advection_info := advection_info p; advection_field
     := advection_field p; n_reaction_terms := v; reaction_terms :=
     reaction_terms p; reaction_properties := reaction_properties p;
     n_source_terms := n_source_terms p; source_terms := source_terms p; bc
     := bc p; algo_info := algo_info p; itsol_info := itsol_info p |}.

Definition set_reaction_terms (v : list cs_param_reaction_t) (p : cs_equation_param_t) : cs_equation_param_t :=
  {| eq_type := eq_type p; var_type := var_type p; verbosity := verbosity p;
     sles_verbosity := sles_verbosity p; process_flag := process_flag p;
     flag := flag p; space_scheme := space_scheme p; time_hodge :=
     time_hodge p; time_property := time_property p; time_info := time_info
     p; diffusion_property := diffusion_property p; diffusion_hodge :=
     diffusion_hodge p; advection_info := advection_info p; advection_field
     := advection_field p; n_reaction_terms := n_reaction_terms p;
     reaction_terms := v; reaction_properties := reaction_properties p;
     n_source_terms := n_source_terms p; source_terms := source_terms p; bc
     := bc p; algo_info := algo_info p; itsol_info := itsol_info p |}.

Definition set_reaction_properties (v : list ptr) (p : cs_equation_param_t) : cs_equation_param_t :=
  {| eq_type := eq_type p; var_type := var_type p; verbosity := verbosity p;
     sles_verbosity := sles_verbosity p; process_flag := process_flag p;
     flag := flag p; space_scheme := space_scheme p; time_hodge :=
     time_hodge p; time_property := time_property p; time_info := time_info
     p; diffusion_property := diffusion_property p; diffusion_hodge :=
     diffusion_hodge p; advection_info := advection_info p; advection_field
     := advection_field p; n_reaction_terms := n_reaction_terms p;
     reaction_terms := reaction_terms p; reaction_properties := v;
     n_source_terms := n_source_terms p; source_terms := source_terms p; bc
     := bc p; algo_info := algo_info p; itsol_info := itsol_info p |}.

Definition set_bc (v : cs_param_bc_t) (p : cs_equation_param_t) : cs_equation_param_t :=
  {| eq_type := eq_type p; var_type := var_type p; verbosity := verbosity p;
     sles_verbosity := sles_verbosity p; process_flag := process_flag p;
     flag := flag p; space_scheme := space_scheme p; time_hodge :=
     time_hodge p; time_property := time_property p; time_info := time_info
     p; diffusion_property := diffusion_property p; diffusion_hodge :=
     diffusion_hodge p; advection_info := advection_info p; advection_field
     := advection_field p; n_reaction_terms := n_reaction_terms p;
     reaction_terms := reaction_terms p; reaction_properties :=
     reaction_properties p; n_source_terms := n_source_terms p; source_terms
     := source_terms p; bc := v; algo_info := algo_info p; itsol_info :=
     itsol_info p |}.

Definition set_algo_info (v : cs_equation_algo_t) (p : cs_equation_param_t) : cs_equation_param_t :=
  {| eq_type := eq_type p; var_type := var_type p; verbosity := verbosity p;
     sles_verbosity := sles_verbosity p; process_flag := process_flag p;
     flag := flag p; space_scheme := space_scheme p; time_hodge :=
     time_hodge p; time_property := time_property p; time_info := time_info
     p; diffusion_property := diffusion_property p; diffusion_hodge :=
     diffusion_hodge p; advection_info := advection_info p; advection_field
     := advection_field p; n_reaction_terms := n_reaction_terms p;
     reaction_terms := reaction_terms p; reaction_properties :=
     reaction_properties p; n_source_terms := n_source_terms p; source_terms
     := source_terms p; bc := bc p; algo_info := v; itsol_info := itsol_info
     p |}.

Definition set_itsol_info (v : cs_param_itsol_t) (p : cs_equation_param_t) : cs_equation_param_t :=
  {| eq_type := eq_type p; var_type := var_type p; verbosity := verbosity p;
     sles_verbosity := sles_verbosity p; process_flag := process_flag p;
     flag := flag p; space_scheme := space_scheme p; time_hodge :=
     time_hodge p; time_property := time_property p; time_info := time_info
     p; diffusion_property := diffusion_property p; diffusion_hodge :=
     diffusion_hodge p; advection_info := advection_info p; advection_field
     := advection_field p; n_reaction_terms := n_reaction_terms p;
     reaction_terms := reaction_terms p; reaction_properties :=
     reaction_properties p; n_source_terms := n_source_terms p; source_terms
     := source_terms p; bc := bc p; algo_info := algo_info p; itsol_info :=
     v |}.

Definition set_param (v : cs_equation_param_t) (e : cs_equation_t) : cs_equation_t :=
  {| name := name e; param := v; varname := varname e; field_id := field_id
     e; main_ts_id := main_ts_id e; pre_ts_id := pre_ts_id e; solve_ts_id :=
     solve_ts_id e; extra_op_ts_id := extra_op_ts_id e; do_build := do_build
     e; ms := ms e; matrix := matrix e; rhs := rhs e; builder := builder e;
     init_builder := init_builder e; free_builder := free_builder e;
     build_system := build_system e; compute_source := compute_source e;
     update_field := update_field e; postprocess := postprocess e;
     get_f_values := get_f_values e; get_tmpbuf := get_tmpbuf e |}.

Definition set_main_ts_id (v : Z) (e : cs_equation_t) : cs_equation_t :=
  {| name := name e; param := param e; varname := varname e; field_id :=
     field_id e; main_ts_id := v; pre_ts_id := pre_ts_id e; solve_ts_id :=
     solve_ts_id e; extra_op_ts_id := extra_op_ts_id e; do_build := do_build
     e; ms := ms e; matrix := matrix e; rhs := rhs e; builder := builder e;
     init_builder := init_builder e; free_builder := free_builder e;
     build_system := build_system e; compute_source := compute_source e;
     update_field := update_field e; postprocess := postprocess e;
     get_f_values := get_f_values e; get_tmpbuf := get_tmpbuf e |}.

Definition set_pre_ts_id (v : Z) (e : cs_equation_t) : cs_equation_t :=
  {| name := name e; param := param e; varname := varname e; field_id :=
     field_id e; main_ts_id := main_ts_id e; pre_ts_id := v; solve_ts_id :=
     solve_ts_id e; extra_op_ts_id := extra_op_ts_id e; do_build := do_build
     e; ms := ms e; matrix := matrix e; rhs := rhs e; builder := builder e;
     init_builder := init_builder e; free_builder := free_builder e;
     build_system := build_system e; compute_source := compute_source e;
     update_field := update_field e; postprocess := postprocess e;
     get_f_values := get_f_values e; get_tmpbuf := get_tmpbuf e |}.

Definition set_solve_ts_id (v : Z) (e : cs_equation_t) : cs_equation_t :=
  {| name := name e; param := param e; varname := varname e; field_id :=
     field_id e; main_ts_id := main_ts_id e; pre_ts_id := pre_ts_id e;
     solve_ts_id := v; extra_op_ts_id := extra_op_ts_id e; do_build :=
     do_build e; ms := ms e; matrix := matrix e; rhs := rhs e; builder :=
     builder e; init_builder := init_builder e; free_builder := free_builder
     e; build_system := build_system e; compute_source := compute_source e;
     update_field := update_field e; postprocess := postprocess e;
     get_f_values := get_f_values e; get_tmpbuf := get_tmpbuf e |}.

Definition set_extra_op_ts_id (v : Z) (e : cs_equation_t) : cs_equation_t :=
  {| name := name e; param := param e; varname := varname e; field_id :=
     field_id e; main_ts_id := main_ts_id e; pre_ts_id := pre_ts_id e;
     solve_ts_id := solve_ts_id e; extra_op_ts_id := v; do_build := do_build
     e; ms := ms e; matrix := matrix e; rhs := rhs e; builder := builder e;
     init_builder := init_builder e; free_builder := free_builder e;
     build_system := build_system e; compute_source := compute_source e;
     update_field := update_field e; postprocess := postprocess e;
     get_f_values := get_f_values e; get_tmpbuf := get_tmpbuf e |}.

Definition set_do_build (v : bool) (e : cs_equation_t) : cs_equation_t :=
  {| name := name e; param := param e; varname := varname e; field_id :=
     field_id e; main_ts_id := main_ts_id e; pre_ts_id := pre_ts_id e;
     solve_ts_id := solve_ts_id e; extra_op_ts_id := extra_op_ts_id e;
     do_build := v; ms := ms e; matrix := matrix e; rhs := rhs e; builder :=
     builder e; init_builder := init_builder e; free_builder := free_builder
     e; build_system := build_system e; compute_source := compute_source e;
     update_field := update_field e; postprocess := postprocess e;
     get_f_values := get_f_values e; get_tmpbuf := get_tmpbuf e |}.

Definition set_ms (v : ptr) (e : cs_equation_t) : cs_equation_t :=
  {| name := name e; param := param e; varname := varname e; field_id :=
     field_id e; main_ts_id := main_ts_id e; pre_ts_id := pre_ts_id e;
     solve_ts_id := solve_ts_id e; extra_op_ts_id := extra_op_ts_id e;
     do_build := do_build e; ms := v; matrix := matrix e; rhs := rhs e;
     builder := builder e; init_builder := init_builder e; free_builder :=
     free_builder e; build_system := build_system e; compute_source :=
     compute_source e; update_field := update_field e; postprocess :=
     postprocess e; get_f_values := get_f_values e; get_tmpbuf := get_tmpbuf
     e |}.

Definition set_matrix (v : ptr) (e : cs_equation_t) : cs_equation_t :=
  {| name := name e; param := param e; varname := varname e; field_id :=
     field_id e; main_ts_id := main_ts_id e; pre_ts_id := pre_ts_id e;
     solve_ts_id := solve_ts_id e; extra_op_ts_id := extra_op_ts_id e;
     do_build := do_build e; ms := ms e; matrix := v; rhs := rhs e; builder
     := builder e; init_builder := init_builder e; free_builder :=
     free_builder e; build_system := build_system e; compute_source :=
     compute_source e; update_field := update_field e; postprocess :=
     postprocess e; get_f_values := get_f_values e; get_tmpbuf := get_tmpbuf
     e |}.

Definition set_rhs (v : ptr) (e : cs_equation_t) : cs_equation_t :=
  {| name := name e; param := param e; varname := varname e; field_id :=
     field_id e; main_ts_id := main_ts_id e; pre_ts_id := pre_ts_id e;
     solve_ts_id := solve_ts_id e; extra_op_ts_id := extra_op_ts_id e;
     do_build := do_build e; ms := ms e; matrix := matrix e; rhs := v;
     builder := builder e; init_builder := init_builder e; free_builder :=
     free_builder e; build_system := build_system e; compute_source :=
     compute_source e; update_field := update_field e; postprocess :=
     postprocess e; get_f_values := get_f_values e; get_tmpbuf := get_tmpbuf
     e |}.

Definition set_builder (v : ptr) (e : cs_equation_t) : cs_equation_t :=
  {| name := name e; param := param e; varname := varname e; field_id :=
     field_id e; main_ts_id := main_ts_id e; pre_ts_id := pre_ts_id e;
     solve_ts_id := solve_ts_id e; extra_op_ts_id := extra_op_ts_id e;
     do_build := do_build e; ms := ms e; matrix := matrix e; rhs := rhs e;
     builder := v; init_builder := init_builder e; free_builder :=
     free_builder e; build_system := build_system e; compute_source :=
     compute_source e; update_field := update_field e; postprocess :=
     postprocess e; get_f_values := get_f_values e; get_tmpbuf := get_tmpbuf
     e |}.

(** The equation after the assignments of the function pointers
    [cs_equation_last_setup] makes for the vertex-based scheme, and for the
    face-based scheme. *)
Definition cdovb_functions (e : cs_equation_t) : cs_equation_t :=
  {| name := name e; param := param e; varname := varname e;
     field_id := field_id e; main_ts_id := main_ts_id e;
     pre_ts_id := pre_ts_id e; solve_ts_id := solve_ts_id e;
     extra_op_ts_id := extra_op_ts_id e; do_build := do_build e;
     ms := ms e; matrix := matrix e; rhs := rhs e;
     builder := builder e;
     init_builder := Some cs_cdovb_scaleq_init;
     free_builder := Some cs_cdovb_scaleq_free;
     build_system := Some cs_cdovb_scaleq_build_system;
     compute_source := Some cs_cdovb_scaleq_compute_source;
     update_field := Some cs_cdovb_scaleq_update_field;
     postprocess := Some cs_cdovb_scaleq_extra_op;
     get_f_values := None;
     get_tmpbuf := Some cs_cdovb_scaleq_get_tmpbuf |}.

Definition cdofb_functions (e : cs_equation_t) : cs_equation_t :=
  {| name := name e; param := param e; varname := varname e;
     field_id := field_id e; main_ts_id := main_ts_id e;
     pre_ts_id := pre_ts_id e; solve_ts_id := solve_ts_id e;
     extra_op_ts_id := extra_op_ts_id e; do_build := do_build e;
     ms := ms e; matrix := matrix e; rhs := rhs e;
     builder := builder e;
     init_builder := Some cs_cdofb_scaleq_init;
     free_builder := Some cs_cdofb_scaleq_free;
     build_system := Some cs_cdofb_scaleq_build_system;
     compute_source := Some cs_cdofb_scaleq_compute_source;
     update_field := Some cs_cdofb_scaleq_update_field;
     postprocess := Some cs_cdofb_scaleq_extra_op;
     get_f_values := Some cs_cdofb_scaleq_get_face_values;
     get_tmpbuf := Some cs_cdofb_scaleq_get_tmpbuf |}.

(** [in_m f p] is [p] after [f] has been applied to its member [m]. *)
Definition in_time_hodge (f : cs_param_hodge_t -> cs_param_hodge_t)
  (p : cs_equation_param_t) : cs_equation_param_t :=
  set_time_hodge (f (time_hodge p)) p.

Definition in_diffusion_hodge (f : cs_param_hodge_t -> cs_param_hodge_t)
  (p : cs_equation_param_t) : cs_equation_param_t :=
  set_diffusion_hodge (f (diffusion_hodge p)) p.

Definition in_algo_info (f : cs_equation_algo_t -> cs_equation_algo_t)
  (p : cs_equation_param_t) : cs_equation_param_t :=
  set_algo_info (f (algo_info p)) p.

Definition in_itsol_info (f : cs_param_itsol_t -> cs_param_itsol_t)
  (p : cs_equation_param_t) : cs_equation_param_t :=
  set_itsol_info (f (itsol_info p)) p.

Definition in_bc (f : cs_param_bc_t -> cs_param_bc_t)
  (p : cs_equation_param_t) : cs_equation_param_t :=
  set_bc (f (bc p)) p.

Definition in_advection_info (f : cs_param_advection_t -> cs_param_advection_t)
  (p : cs_equation_param_t) : cs_equation_param_t :=
  set_advection_info (f (advection_info p)) p.

Definition in_time_info (f : cs_param_time_t -> cs_param_time_t)
  (p : cs_equation_param_t) : cs_equation_param_t :=
  set_time_info (f (time_info p)) p.

(** [p] after [eqp->flag |= mask] and after [eqp->process_flag |= mask]. *)
Definition raise_flag (mask : Z) (p : cs_equation_param_t) : cs_equation_param_t :=
  set_flag (Z.lor (flag p) mask) p.

Definition raise_process_flag (mask : Z) (p : cs_equation_param_t)
  : cs_equation_param_t :=
  set_process_flag (Z.lor (process_flag p) mask) p.

(** ** The environment of the file *)

(** What the builder's [build_system] hands back: the right-hand side it
    allocated or reused, and whether the matrix it assembled is stored in the
    MSR format the controller asserts. *)
Record built_system_t : Type := {
  built_rhs : ptr;
  sla_mat_is_msr : bool
}.

Record environment : Type := {
  (** build configuration: [#if defined(HAVE_PETSC)] *)
  HAVE_PETSC : bool;
  (** masks of [eqp->flag], macros of cs_equation.h *)
  CS_EQUATION_LOCKED : Z;
  CS_EQUATION_UNSTEADY : Z;
  CS_EQUATION_CONVECTION : Z;
  CS_EQUATION_DIFFUSION : Z;
  CS_EQUATION_REACTION : Z;
  CS_EQUATION_HCONF_ST : Z;
  (** masks of [eqp->process_flag], macros of cs_equation.h *)
  CS_EQUATION_POST_PECLET : Z;
  CS_EQUATION_POST_NONE : Z;
  CS_EQUATION_POST_UPWIND_COEF : Z;
  (** the C library *)
  atof : string -> float;
  atoi : string -> Z;
  (** what [BFT_MALLOC] left in [eqp->time_hodge.coef], a member
      [_create_equation_param] does not assign *)
  malloc_time_hodge_coef : float;
  (** cs_param.h: the members of a new set of boundary conditions and of a
      new reaction term the specification does not describe *)
  new_bc_enforcement : cs_param_bc_enforce_t;
  new_bc_quad_type : cs_quadra_type_t;
  new_bc_use_subdiv : bool;
  new_reaction_inv_pty : bool;
  new_reaction_coef : float;
  new_reaction_do_lumping : bool;
  (** cs_mesh_location.h: the id of a named location, -1 when there is none *)
  cs_mesh_location_get_id_by_name : string -> Z;
  (** cs_timer_stats.h: the id given to a new timer, by the name of its
      parent, its name and its label *)
  cs_timer_stats_create : string -> string -> string -> Z;
  (** cs_field.h: the field of a given id, and the members [dim] and [val]
      of a field *)
  cs_field_by_id : Z -> ptr;
  cs_field_dim : ptr -> Z;
  cs_field_val : ptr -> ptr;
  (** PETSc: the answer of [PetscInitialized] *)
  PetscInitialized : bool;
  (** the scheme builders: [None] when [build_system] stops in [bft_error] on
      a combination of options it does not implement *)
  scheme_build_system : scheme_function -> ptr -> option built_system_t;
  (** cs_matrix.h *)
  cs_matrix_structure_create_msr : ptr;
  cs_matrix_create : ptr -> ptr;
  cs_matrix_get_n_rows : ptr -> Z;
  (** cs_blas.h: the Euclidean norm of the right-hand side *)
  cs_euclidean_norm : Z -> ptr -> float;
  (** the values a face-based builder returns for the faces *)
  scheme_get_face_values : scheme_function -> ptr -> Z -> ptr;
  (** the buffer the function [get_tmpbuf] of a scheme returns *)
  scheme_tmpbuf : scheme_function -> ptr
}.

(** ** Errors

    One constructor for each kind of message handed to [bft_error], named
    after the error taxonomy of the specification where it has a name for it;
    the arguments are those formatted into the message. *)

Inductive bft_error_t : Type :=
| EmptyEquation
    (* " Stop setting an empty cs_equation_t structure." *)
| IncompatiblePreconditioner
    (* " Incompatible preconditioner with Code_Saturne solvers." *)
| UndefinedIterativeSolver (eqname : string)
    (* " Undefined iterative solver for solving %s equation." *)
| PetscCoupleNotHandled
    (* " Couple (solver, preconditioner) not handled with PETSc." *)
| PetscSolverNotHandled
    (* " Solver not handled." *)
| BackendUnavailable (eqname : string)
    (* " PETSC algorithms used to solve %s are not linked." *)
| InvalidMeshLocation (ml : string)
    (* " Invalid mesh location name %s." *)
| InvalidKey (keyname eqname : string)
    (* " Invalid key %s for setting equation %s." *)
| Locked (eqname : string)
    (* " Equation %s is not modifiable anymore." *)
| InvalidValue (val keyname : string)
    (* " Invalid val %s related to key %s", " Invalid key value %s for ..." *)
| KeyNotImplemented (keyname : string)
    (* " Key %s is not implemented yet." *)
| InvalidTerm (keyword : string)
    (* " Invalid keyword for linking an equation." *)
| InvalidDefinitionKind (def_key : string)
    (* " Invalid key for setting the type of definition." *)
| InvalidBCKind (bc_key : string)
    (* " Invalid key for setting the type of boundary condition." *)
| InvalidReactionType (eqname : string)
    (* " Invalid type of reaction term for equation %s." *)
| NotImplementedYet
    (* "This case is not implemented yet." *)
| InvalidSpaceScheme
    (* " Invalid scheme for the space discretization." *)
| NotFound (r_name eqname : string)
    (* " Cannot find the reaction term %s in equation %s." *)
| EquationWithoutType (eqname : string)
    (* " Eq. %s has no type." *)
| UnsupportedSchemeCombination (f : scheme_function)
    (* raised inside the builder *)
| AssertionFailed.
    (* assert (...) *)

(** The two errors of the solver binding the specification groups under
    UnsupportedSolverCombination. *)
Definition is_unsupported_solver_combination (e : bft_error_t) : bool :=
  match e with
  | IncompatiblePreconditioner | UndefinedIterativeSolver _
  | PetscCoupleNotHandled | PetscSolverNotHandled => true
  | _ => false
  end.

(** ** Calls to the collaborators

    The calls that leave a trace outside the equation structure, in the order
    they are made.  A listing is named by what it shows, not by its text. *)

Inductive listing_t : Type :=
| listing_possible_keys (keyname : string)
| listing_summary_header (eqname var : string)
| listing_summary_settings (eqname : string) (eqp : cs_equation_param_t)
| listing_sla_sumup (eqname : string)
| listing_solve_header (eqname : string)
| listing_sles_cvg (eqname : string)
| listing_solve_result (eqname : string).

Inductive petsc_mat_t : Type := MATMPIAIJ | MATSEQAIJ.

Inductive petsc_hook_t : Type :=
| _cg_diag_setup_hook
| _cg_ssor_setup_hook
| _cg_as_setup_hook
| _cg_icc_setup_hook
| _cg_gamg_setup_hook
| _cg_bamg_setup_hook
| _gmres_ilu_setup_hook
| _gmres_bjacobi_setup_hook
| _bicg_ilu_setup_hook
| _bicg_bjacobi_setup_hook.

Inductive event : Type :=
| bft_printf (l : listing_t)
| printf (l : listing_t)
| cs_timer_stats_start (id : Z)
| cs_timer_stats_stop (id : Z)
| cs_timer_stats_set_plot (id : Z)
| cs_sles_it_define (f_id : Z) (t : cs_sles_it_type_t) (poly_degree n_max_iter : Z)
| cs_multigrid_define (f_id : Z)
| cs_multigrid_set_solver_options
    (f_id : Z) (descent ascent coarse : cs_sles_it_type_t)
    (n_max_cycles n_max_iter_descent n_max_iter_ascent n_max_iter_coarse : Z)
    (poly_degree_descent poly_degree_ascent poly_degree_coarse : Z)
    (precision_mult_descent precision_mult_ascent precision_mult_coarse : float)
| cs_sles_find_or_add (f_id : Z)
| cs_sles_set_verbosity (f_id verb : Z)
| cs_sles_it_set_plot_options (f_id : Z) (eqname : string)
| PetscInitializeNoArguments
| PetscOptionsSetValue (opt val : string)
| cs_sles_petsc_define (f_id : Z) (m : petsc_mat_t) (hook : petsc_hook_t)
| cs_sles_solve (f_id : Z) (matrix : ptr) (precision r_norm : float) (rhs : ptr)
| cs_sles_free (f_id : Z)
| cs_field_current_to_previous (f_id : Z)
| cs_matrix_transfer_coefficients_msr (matrix : ptr)
| cs_source_term_free (st : ptr)
| cs_matrix_structure_destroy (ms : ptr)
| cs_matrix_destroy (matrix : ptr)
| scheme_call (f : scheme_function) (builder : ptr).

(** ** Execution *)

(** The structure [eq] points to ([None] when [eq] is NULL) and the calls
    made so far. *)
Record state : Type := {
  obj : option cs_equation_t;
  log : list event
}.

Inductive undefined_t : Type :=
| null_pointer_access
| null_function_call
| out_of_bounds_access.

Inductive outcome (A : Type) : Type :=
| Normal (a : A) (s : state)
| Fatal (e : bft_error_t) (s : state)
| Undefined (u : undefined_t).

Arguments Fatal {A} e s.
Arguments Undefined {A} u.

Definition M (A : Type) : Type := state -> outcome A.

Definition ret {A : Type} (a : A) : M A := fun s => Normal a s.

Definition bind {A B : Type} (c : M A) (k : A -> M B) : M B :=
  fun s =>
    match c s with
    | Normal a s' => k a s'
    | Fatal e s' => Fatal e s'
    | Undefined u => Undefined u
    end.

Notation "x <- c ;; k" := (bind c (fun x => k))
  (at level 61, c at next level, right associativity).
Notation "c ;; k" := (bind c (fun _ => k))
  (at level 61, right associativity).

Definition bft_error {A : Type} (e : bft_error_t) : M A := fun s => Fatal e s.

Definition undefined {A : Type} (u : undefined_t) : M A := fun _ => Undefined u.

Definition call (ev : event) : M unit :=
  fun s => Normal tt {| obj := obj s; log := log s ++ [ev] |}.

(** [eq == NULL] *)
Definition eq_is_null : M bool :=
  fun s => Normal (match obj s with None => true | Some _ => false end) s.

(** An access [eq->...] *)
Definition deref : M cs_equation_t :=
  fun s =>
    match obj s with
    | Some e => Normal e s
    | None => Undefined null_pointer_access
    end.

Definition store (e : cs_equation_t) : M unit :=
  fun s => Normal tt {| obj := Some e; log := log s |}.

(** [eq->m = ...] *)
Definition assign (f : cs_equation_t -> cs_equation_t) : M unit :=
  e <- deref ;; store (f e).

(** [eqp->m = ...], with [eqp = eq->param] *)
Definition assign_param (f : cs_equation_param_t -> cs_equation_param_t) : M unit :=
  assign (fun e => set_param (f (param e)) e).

Definition when (b : bool) (c : M unit) : M unit := if b then c else ret tt.

(** A loop over the entries of an array. *)
Fixpoint for_each {A : Type} (a : list A) (body : A -> M unit) : M unit :=
  match a with
  | [] => ret tt
  | x :: a' => body x ;; for_each a' body
  end.

(** A call through a function pointer of the equation. *)
Definition through (f : option scheme_function) : M scheme_function :=
  match f with
  | Some g => ret g
  | None => undefined null_function_call
  end.

(** A store [a[i] = v] into an array whose entries before [i] are stored. *)
Definition array_store {A : Type} (a : list A) (i : Z) (v : A) : list A :=
  firstn (Z.to_nat i) a ++ v :: skipn (S (Z.to_nat i)) a.

(** ** Keys *)

Definition _print_eqkey (key : eqkey_t) : option string :=
  match key with
  | EQKEY_HODGE_DIFF_ALGO => Some "hodge_diff_algo"
  | EQKEY_HODGE_DIFF_COEF => Some "hodge_diff_coef"
  | EQKEY_HODGE_TIME_ALGO => Some "hodge_time_algo"
  | EQKEY_HODGE_TIME_COEF => Some "hodge_time_coef"
  | EQKEY_ITSOL => Some "itsol"
  | EQKEY_ITSOL_EPS => Some "itsol_eps"
  | EQKEY_ITSOL_MAX_ITER => Some "itsol_max_iter"
  | EQKEY_ITSOL_RESNORM => Some "itsol_resnorm"
  | EQKEY_PRECOND => Some "precond"
  | EQKEY_SOLVER_FAMILY => Some "solver_family"
  | EQKEY_SPACE_SCHEME => Some "space_scheme"
  | EQKEY_VERBOSITY => Some "verbosity"
  | EQKEY_SLES_VERBOSITY => Some "itsol_verbosity"
  | EQKEY_BC_ENFORCEMENT => Some "bc_enforcement"
  | EQKEY_BC_QUADRATURE => Some "bc_quadrature"
  | EQKEY_EXTRA_OP => Some "extra_op"
  | EQKEY_ADV_OP_TYPE => Some "adv_formulation"
  | EQKEY_ADV_WEIGHT_ALGO => Some "adv_weight"
  | EQKEY_ADV_WEIGHT_CRIT => Some "adv_weight_criterion"
  | EQKEY_ADV_FLUX_QUADRA => Some "adv_flux_quad"
  | EQKEY_TIME_SCHEME => Some "time_scheme"
  | EQKEY_TIME_THETA => Some "time_theta"
  | EQKEY_ERROR => None
  end.

Definition _get_eqkey (keyname : string) : eqkey_t :=
  if strncmp_eq keyname "hodge" 5 then
    if strcmp_eq keyname "hodge_diff_coef" then EQKEY_HODGE_DIFF_COEF
    else if strcmp_eq keyname "hodge_diff_algo" then EQKEY_HODGE_DIFF_ALGO
    else if strcmp_eq keyname "hodge_time_coef" then EQKEY_HODGE_TIME_COEF
    else if strcmp_eq keyname "hodge_time_algo" then EQKEY_HODGE_TIME_ALGO
    else EQKEY_ERROR
  else if strncmp_eq keyname "itsol" 5 then
    if strcmp_eq keyname "itsol" then EQKEY_ITSOL
    else if strcmp_eq keyname "itsol_eps" then EQKEY_ITSOL_EPS
    else if strcmp_eq keyname "itsol_max_iter" then EQKEY_ITSOL_MAX_ITER
    else if strcmp_eq keyname "itsol_resnorm" then EQKEY_ITSOL_RESNORM
    else if strcmp_eq keyname "itsol_verbosity" then EQKEY_SLES_VERBOSITY
    else EQKEY_ERROR
  else if strcmp_eq keyname "precond" then EQKEY_PRECOND
  else if strcmp_eq keyname "solver_family" then EQKEY_SOLVER_FAMILY
  else if strcmp_eq keyname "space_scheme" then EQKEY_SPACE_SCHEME
  else if strcmp_eq keyname "verbosity" then EQKEY_VERBOSITY
  else if strncmp_eq keyname "bc" 2 then
    if strcmp_eq keyname "bc_enforcement" then EQKEY_BC_ENFORCEMENT
    else if strcmp_eq keyname "bc_quadrature" then EQKEY_BC_QUADRATURE
    else EQKEY_ERROR
  else if strcmp_eq keyname "extra_op" then EQKEY_EXTRA_OP
  else if strncmp_eq keyname "adv_" 4 then
    if strcmp_eq keyname "adv_formulation" then EQKEY_ADV_OP_TYPE
    else if strcmp_eq keyname "adv_weight_criterion" then EQKEY_ADV_WEIGHT_CRIT
    else if strcmp_eq keyname "adv_weight" then EQKEY_ADV_WEIGHT_ALGO
    else if strcmp_eq keyname "adv_flux_quad" then EQKEY_ADV_FLUX_QUADRA
    else EQKEY_ERROR
  else if strncmp_eq keyname "time_" 5 then
    if strcmp_eq keyname "time_scheme" then EQKEY_TIME_SCHEME
    else if strcmp_eq keyname "time_theta" then EQKEY_TIME_THETA
    else EQKEY_ERROR
  else EQKEY_ERROR.

(** [(double) n] for an [int] *)
Definition double_of_int (n : Z) : float :=
  if n <? 0 then PrimFloat.opp (PrimFloat.of_uint63 (Uint63.of_Z (- n)))
  else PrimFloat.of_uint63 (Uint63.of_Z n).

Definition DBL_MIN : float := 0x1p-1022%float.

(** The text [sprintf] writes for the conversion [%02d]. *)
Definition sprintf_02d (n : Z) : string :=
  let s := NilZero.string_of_int (Z.to_int n) in
  if (String.length s <? 2)%nat then "0" ++ s else s.

(** [flag & mask] as a condition *)
Definition has_flag (flag mask : Z) : bool := negb (Z.land flag mask =? 0).

Section Equation.

Variable X : environment.

(** ** Default settings *)

Definition _algo_info_by_default : cs_equation_algo_t :=
  {| algo_type := if HAVE_PETSC X then CS_EQUATION_ALGO_PETSC_ITSOL
                  else CS_EQUATION_ALGO_CS_ITSOL;
     n_iters := 0;
     n_max_iters := 50;
     n_cumulated_iters := 0;
     n_max_cumulated_iters := 10000;
     algo_eps := 1e-6%float |}.

Definition _itsol_info_by_default : cs_param_itsol_t :=
  {| precond := if HAVE_PETSC X then CS_PARAM_PRECOND_ILU0
                else CS_PARAM_PRECOND_DIAG;
     solver := if HAVE_PETSC X then CS_PARAM_ITSOL_BICG
               else CS_PARAM_ITSOL_CG;
     n_max_iter := 2500;
     eps := 1e-12%float;
     output_freq := 150;
     resid_normalized := false |}.

(** ** Initialization of the linear solver *)

Definition _sles_initialization : M unit :=
  eq <- deref ;;
  let eqp := param eq in
  let algo := algo_info eqp in
  let itsol := itsol_info eqp in
  match algo_type algo with
  | CS_EQUATION_ALGO_CS_ITSOL =>
      let poly_degree :=
        match precond itsol with CS_PARAM_PRECOND_POLY1 => 1 | _ => 0 end in
      match precond itsol with
      | CS_PARAM_PRECOND_POLY1 | CS_PARAM_PRECOND_DIAG => ret tt
      | _ => bft_error IncompatiblePreconditioner
      end ;;
      match solver itsol with
      | CS_PARAM_ITSOL_CG =>
          call (cs_sles_it_define (field_id eq) CS_SLES_PCG
                  poly_degree (n_max_iter itsol))
      | CS_PARAM_ITSOL_BICG =>
          call (cs_sles_it_define (field_id eq) CS_SLES_BICGSTAB
                  poly_degree (n_max_iter itsol))
      | CS_PARAM_ITSOL_GMRES =>
          call (cs_sles_it_define (field_id eq) CS_SLES_GMRES
                  poly_degree (n_max_iter itsol))
      | CS_PARAM_ITSOL_AMG =>
          call (cs_multigrid_define (field_id eq)) ;;
          call (cs_multigrid_set_solver_options (field_id eq)
                  CS_SLES_JACOBI CS_SLES_JACOBI CS_SLES_PCG
                  (n_max_iter itsol) 5 5 1000
                  0 0 0
                  1%float 1%float 1%float) ;;
          (* the case has no break: control goes on into the default label *)
          bft_error (UndefinedIterativeSolver (name eq))
      end ;;
      let sles_verbosity := sles_verbosity (param eq) in
      when (sles_verbosity >? 1)
        (call (cs_sles_find_or_add (field_id eq)) ;;
         call (cs_sles_set_verbosity (field_id eq) sles_verbosity) ;;
         when (sles_verbosity >? 2)
           (call (cs_sles_it_set_plot_options (field_id eq) (name eq))))
  | CS_EQUATION_ALGO_PETSC_ITSOL =>
      if HAVE_PETSC X then
        when (negb (PetscInitialized X)) (call PetscInitializeNoArguments) ;;
        match solver (itsol_info eqp) with
        | CS_PARAM_ITSOL_CG =>
            match precond (itsol_info eqp) with
            | CS_PARAM_PRECOND_DIAG =>
                call (cs_sles_petsc_define (field_id eq) MATMPIAIJ
                        _cg_diag_setup_hook)
            | CS_PARAM_PRECOND_SSOR =>
                call (cs_sles_petsc_define (field_id eq) MATSEQAIJ
                        _cg_ssor_setup_hook)
            | CS_PARAM_PRECOND_ICC0 =>
                call (cs_sles_petsc_define (field_id eq) MATSEQAIJ
                        _cg_icc_setup_hook)
            | CS_PARAM_PRECOND_AMG =>
                let amg_type := 1 in
                if amg_type =? 0 then
                  call (PetscOptionsSetValue "-pc_gamg_agg_nsmooths" "1") ;;
                  call (PetscOptionsSetValue "-mg_levels_ksp_type" "richardson") ;;
                  call (PetscOptionsSetValue "-mg_levels_pc_type" "sor") ;;
                  call (PetscOptionsSetValue "-mg_levels_ksp_max_it" "1") ;;
                  call (PetscOptionsSetValue "-pc_gamg_threshold" "0.02") ;;
                  call (PetscOptionsSetValue "-pc_gamg_reuse_interpolation" "TRUE") ;;
                  call (PetscOptionsSetValue "-pc_gamg_square_graph" "4") ;;
                  call (cs_sles_petsc_define (field_id eq) MATMPIAIJ
                          _cg_gamg_setup_hook)
                else if amg_type =? 1 then
                  call (PetscOptionsSetValue "-pc_type" "hypre") ;;
                  call (PetscOptionsSetValue "-pc_hypre_type" "boomeramg") ;;
                  call (PetscOptionsSetValue "-pc_hypre_boomeramg_coarsen_type" "HMIS") ;;
                  call (PetscOptionsSetValue "-pc_hypre_boomeramg_interp_type" "ext+i-cc") ;;
                  call (PetscOptionsSetValue "-pc_hypre_boomeramg_agg_nl" "2") ;;
                  call (PetscOptionsSetValue "-pc_hypre_boomeramg_P_max" "4") ;;
                  call (PetscOptionsSetValue "-pc_hypre_boomeramg_strong_threshold" "0.5") ;;
                  call (PetscOptionsSetValue "-pc_hypre_boomeramg_no_CF" EmptyString) ;;
                  call (cs_sles_petsc_define (field_id eq) MATMPIAIJ
                          _cg_bamg_setup_hook)
                else ret tt
            | CS_PARAM_PRECOND_AS =>
                call (cs_sles_petsc_define (field_id eq) MATMPIAIJ
                        _cg_as_setup_hook)
            | _ => bft_error PetscCoupleNotHandled
            end
        | CS_PARAM_ITSOL_GMRES =>
            match precond (itsol_info eqp) with
            | CS_PARAM_PRECOND_ILU0 =>
                call (cs_sles_petsc_define (field_id eq) MATSEQAIJ
                        _gmres_ilu_setup_hook)
            | CS_PARAM_PRECOND_DIAG =>
                call (cs_sles_petsc_define (field_id eq) MATMPIAIJ
                        _gmres_bjacobi_setup_hook)
            | _ => bft_error PetscCoupleNotHandled
            end
        | CS_PARAM_ITSOL_BICG =>
            match precond (itsol_info eqp) with
            | CS_PARAM_PRECOND_ILU0 =>
                call (cs_sles_petsc_define (field_id eq) MATSEQAIJ
                        _bicg_ilu_setup_hook)
            | CS_PARAM_PRECOND_DIAG =>
                call (cs_sles_petsc_define (field_id eq) MATMPIAIJ
                        _bicg_bjacobi_setup_hook)
            | _ => bft_error PetscCoupleNotHandled
            end
        | _ => bft_error PetscSolverNotHandled
        end
      else
        bft_error (BackendUnavailable (name eq))
  end.

(** [_check_ml_name]: the id of the mesh location, which has to exist *)
Definition _check_ml_name (ml_name : string) : M Z :=
  let ml_id := cs_mesh_location_get_id_by_name X ml_name in
  if ml_id =? -1 then bft_error (InvalidMeshLocation ml_name)
  else ret ml_id.

(** ** Creation *)

(** Modelled from the spec: [cs_param_bc_create] is defined in cs_param.c; the
    specification gives a new parameter set the default kind it was asked for
    and an empty list of boundary-condition definitions. *)
Definition cs_param_bc_create (default_bc : cs_param_bc_type_t) : cs_param_bc_t :=
  {| default_bc := default_bc;
     enforcement := new_bc_enforcement X;
     bc_quad_type := new_bc_quad_type X;
     use_subdiv := new_bc_use_subdiv X;
     n_defs := 0;
     defs := [] |}.

Definition _create_equation_param
  (type : cs_equation_type_t) (var_type : cs_param_var_type_t)
  (default_bc : cs_param_bc_type_t) : cs_equation_param_t :=
  {| eq_type := type;
     var_type := var_type;
     verbosity := 0;
     sles_verbosity := 0;
     process_flag := 0;
     flag := 0;
     space_scheme := CS_SPACE_SCHEME_CDOVB;
     time_hodge := {| inv_pty := false;
                      hodge_type := CS_PARAM_HODGE_TYPE_VPCD;
                      hodge_algo := CS_PARAM_HODGE_ALGO_VORONOI;
                      hodge_coef := malloc_time_hodge_coef X |};
     time_property := NULL;
     time_info := {| time_scheme := CS_TIME_SCHEME_IMPLICIT;
                     theta := 1%float;
                     time_do_lumping := false;
                     n_ic_definitions := 0;
                     ic_definitions := [] |};
     diffusion_property := NULL;
     diffusion_hodge := {| inv_pty := false;
                           hodge_type := CS_PARAM_HODGE_TYPE_EPFD;
                           hodge_algo := CS_PARAM_HODGE_ALGO_COST;
                           hodge_coef := (1 / 3)%float |};
     advection_info :=
       {| formulation := CS_PARAM_ADVECTION_FORM_CONSERV;
          weight_algo := CS_PARAM_ADVECTION_WEIGHT_ALGO_UPWIND;
          weight_criterion := CS_PARAM_ADVECTION_WEIGHT_XEXC;
          adv_quad_type := CS_QUADRATURE_BARY |};
     advection_field := NULL;
     n_reaction_terms := 0;
     reaction_terms := [];
     reaction_properties := [];
     n_source_terms := 0;
     source_terms := [];
     bc := cs_param_bc_create default_bc;
     algo_info := _algo_info_by_default;
     itsol_info := _itsol_info_by_default |}.

(** [cs_equation_create], for an equation name and a variable name that are
    not NULL. *)
Definition cs_equation_create
  (eqname varname : string) (eqtype : cs_equation_type_t)
  (vartype : cs_param_var_type_t) (default_bc : cs_param_bc_type_t)
  : cs_equation_t :=
  {| name := eqname;
     param := _create_equation_param eqtype vartype default_bc;
     varname := varname;
     field_id := -1;
     main_ts_id := -1;
     pre_ts_id := -1;
     solve_ts_id := -1;
     extra_op_ts_id := -1;
     do_build := true;
     ms := NULL;
     matrix := NULL;
     rhs := NULL;
     builder := NULL;
     init_builder := None;
     free_builder := None;
     build_system := None;
     compute_source := None;
     update_field := None;
     postprocess := None;
     get_f_values := None;
     get_tmpbuf := None |}.

(** ** Destruction and summary *)

(** [cs_equation_free]; the result is the structure the returned pointer
    points to, [None] for NULL.  The releases of the memory the equation owns
    ([BFT_FREE]) leave no trace; the calls to the collaborators do. *)
Definition cs_equation_free : M (option cs_equation_t) :=
  null <- eq_is_null ;;
  if null then ret None
  else
    eq <- deref ;;
    when (main_ts_id eq >? -1) (call (cs_timer_stats_stop (main_ts_id eq))) ;;
    let eqp := param eq in
    when (n_source_terms eqp >? 0)
      (for_each
         (firstn (Z.to_nat (n_source_terms eqp)) (source_terms eqp))
         (fun st => call (cs_source_term_free st))) ;;
    call (cs_matrix_structure_destroy (ms eq)) ;;
    call (cs_matrix_destroy (matrix eq)) ;;
    f <- through (free_builder eq) ;;
    call (scheme_call f (builder eq)) ;;
    when (main_ts_id eq >? -1) (call (cs_timer_stats_stop (main_ts_id eq))) ;;
    (fun s => Normal None {| obj := None; log := log s |}).

(** [cs_equation_summary]: the lines written for an equation are grouped in
    two listings, before and after the test of the type of the equation. *)
Definition cs_equation_summary : M unit :=
  null <- eq_is_null ;;
  if null then ret tt
  else
    eq <- deref ;;
    let eqp := param eq in
    call (bft_printf (listing_summary_header (name eq) (varname eq))) ;;
    match eq_type eqp with
    | CS_EQUATION_TYPE_USER
    | CS_EQUATION_TYPE_PREDEFINED
    | CS_EQUATION_TYPE_GROUNDWATER => ret tt
    | CS_EQUATION_N_TYPES => bft_error (EquationWithoutType (name eq))
    end ;;
    call (bft_printf (listing_summary_settings (name eq) eqp)).

(** ** Last setup: the function pointers, the solver, the lock *)

Definition cs_equation_last_setup : M unit :=
  null <- eq_is_null ;;
  if null then ret tt
  else
    eq <- deref ;;
    let eqp := param eq in
    when (verbosity eqp >? 0)
      (assign (set_main_ts_id
                 (cs_timer_stats_create X "stages" (name eq) (name eq))) ;;
       eq <- deref ;;
       call (cs_timer_stats_start (main_ts_id eq)) ;;
       call (cs_timer_stats_set_plot (main_ts_id eq)) ;;
       when (verbosity eqp >? 1)
         (let label := name eq ++ "_pre" in
          assign (set_pre_ts_id (cs_timer_stats_create X (name eq) label label)) ;;
          eq <- deref ;;
          call (cs_timer_stats_set_plot (pre_ts_id eq)) ;;
          let label := name eq ++ "_solve" in
          assign (set_solve_ts_id
                    (cs_timer_stats_create X (name eq) label label)) ;;
          eq <- deref ;;
          call (cs_timer_stats_set_plot (solve_ts_id eq)) ;;
          let label := name eq ++ "_extra_op" in
          assign (set_extra_op_ts_id
                    (cs_timer_stats_create X (name eq) label label)) ;;
          eq <- deref ;;
          call (cs_timer_stats_set_plot (extra_op_ts_id eq)))) ;;
    match space_scheme eqp with
    | CS_SPACE_SCHEME_CDOVB =>
        assign cdovb_functions
    | CS_SPACE_SCHEME_CDOFB =>
        assign cdofb_functions
    | CS_SPACE_N_SCHEMES => bft_error InvalidSpaceScheme
    end ;;
    when (match space_scheme eqp with CS_SPACE_SCHEME_CDOVB => true | _ => false end
          && has_flag (flag eqp) (CS_EQUATION_REACTION X)
          && existsb
               (fun r_info =>
                  match hodge_algo (reaction_hodge r_info) with
                  | CS_PARAM_HODGE_ALGO_WBS => true
                  | _ => false
                  end)
               (firstn (Z.to_nat (n_reaction_terms eqp)) (reaction_terms eqp)))
      (assign_param (raise_flag (CS_EQUATION_HCONF_ST X))) ;;
    _sles_initialization ;;
    assign_param (raise_flag (CS_EQUATION_LOCKED X)) ;;
    eq <- deref ;;
    when (main_ts_id eq >? -1) (call (cs_timer_stats_stop (main_ts_id eq))).

(** ** Setting options *)

(** Assignments to a member of a member of [eqp]. *)
Definition assign_time_hodge (f : cs_param_hodge_t -> cs_param_hodge_t) : M unit :=
  assign_param (in_time_hodge f).

Definition assign_diffusion_hodge (f : cs_param_hodge_t -> cs_param_hodge_t) : M unit :=
  assign_param (in_diffusion_hodge f).

Definition assign_algo_info (f : cs_equation_algo_t -> cs_equation_algo_t) : M unit :=
  assign_param (in_algo_info f).

Definition assign_itsol_info (f : cs_param_itsol_t -> cs_param_itsol_t) : M unit :=
  assign_param (in_itsol_info f).

Definition assign_bc (f : cs_param_bc_t -> cs_param_bc_t) : M unit :=
  assign_param (in_bc f).

Definition assign_advection_info
  (f : cs_param_advection_t -> cs_param_advection_t) : M unit :=
  assign_param (in_advection_info f).

Definition assign_time_info (f : cs_param_time_t -> cs_param_time_t) : M unit :=
  assign_param (in_time_info f).

Definition cs_equation_set_option (keyname val : string) : M unit :=
  null <- eq_is_null ;;
  when null (bft_error EmptyEquation) ;;
  eq <- deref ;;
  when (main_ts_id eq >? -1) (call (cs_timer_stats_start (main_ts_id eq))) ;;
  let eqp := param eq in
  let key := _get_eqkey keyname in
  match key with
  | EQKEY_ERROR =>
      call (bft_printf (listing_possible_keys keyname)) ;;
      bft_error (InvalidKey keyname (name eq))
  | _ => ret tt
  end ;;
  when (has_flag (flag eqp) (CS_EQUATION_LOCKED X))
    (bft_error (Locked (name eq))) ;;
  match key with
  | EQKEY_SPACE_SCHEME =>
      if strcmp_eq val "cdo_vb" then
        assign_param (set_space_scheme CS_SPACE_SCHEME_CDOVB) ;;
        assign_time_hodge (set_hodge_type CS_PARAM_HODGE_TYPE_VPCD) ;;
        assign_diffusion_hodge (set_hodge_type CS_PARAM_HODGE_TYPE_EPFD)
      else if strcmp_eq val "cdo_fb" then
        assign_param (set_space_scheme CS_SPACE_SCHEME_CDOFB) ;;
        assign_time_hodge (set_hodge_type CS_PARAM_HODGE_TYPE_CPVD) ;;
        assign_diffusion_hodge (set_hodge_type CS_PARAM_HODGE_TYPE_EDFP)
      else bft_error (InvalidValue val keyname)
  | EQKEY_HODGE_DIFF_ALGO =>
      if strcmp_eq val "cost" then
        assign_diffusion_hodge (set_hodge_algo CS_PARAM_HODGE_ALGO_COST)
      else if strcmp_eq val "voronoi" then
        assign_diffusion_hodge (set_hodge_algo CS_PARAM_HODGE_ALGO_VORONOI)
      else if strcmp_eq val "wbs" then
        assign_diffusion_hodge (set_hodge_algo CS_PARAM_HODGE_ALGO_WBS)
      else bft_error (InvalidValue val keyname)
  | EQKEY_HODGE_TIME_ALGO =>
      if strcmp_eq val "cost" then
        assign_time_hodge (set_hodge_algo CS_PARAM_HODGE_ALGO_COST)
      else if strcmp_eq val "voronoi" then
        assign_time_hodge (set_hodge_algo CS_PARAM_HODGE_ALGO_VORONOI)
      else if strcmp_eq val "wbs" then
        assign_time_hodge (set_hodge_algo CS_PARAM_HODGE_ALGO_WBS)
      else bft_error (InvalidValue val keyname)
  | EQKEY_HODGE_DIFF_COEF =>
      if strcmp_eq val "dga" then
        assign_diffusion_hodge (set_hodge_coef (1 / 3)%float)
      else if strcmp_eq val "sushi" then
        assign_diffusion_hodge (set_hodge_coef (1 / PrimFloat.sqrt 3)%float)
      else if strcmp_eq val "gcr" then
        assign_diffusion_hodge (set_hodge_coef 1%float)
      else assign_diffusion_hodge (set_hodge_coef (atof X val))
  | EQKEY_HODGE_TIME_COEF =>
      if strcmp_eq val "dga" then
        assign_time_hodge (set_hodge_coef (1 / 3)%float)
      else if strcmp_eq val "sushi" then
        assign_time_hodge (set_hodge_coef (1 / PrimFloat.sqrt 3)%float)
      else if strcmp_eq val "gcr" then
        assign_time_hodge (set_hodge_coef 1%float)
      else assign_time_hodge (set_hodge_coef (atof X val))
  | EQKEY_SOLVER_FAMILY =>
      if strcmp_eq val "cs" then
        assign_algo_info (set_algo_type CS_EQUATION_ALGO_CS_ITSOL)
      else if strcmp_eq val "petsc" then
        assign_algo_info (set_algo_type CS_EQUATION_ALGO_PETSC_ITSOL)
      else bft_error (InvalidValue val keyname)
  | EQKEY_ITSOL =>
      if strcmp_eq val "cg" then
        assign_itsol_info (set_solver CS_PARAM_ITSOL_CG)
      else if strcmp_eq val "bicg" then
        assign_itsol_info (set_solver CS_PARAM_ITSOL_BICG)
      else if strcmp_eq val "gmres" then
        assign_itsol_info (set_solver CS_PARAM_ITSOL_GMRES)
      else if strcmp_eq val "amg" then
        assign_itsol_info (set_solver CS_PARAM_ITSOL_AMG)
      else bft_error (InvalidValue val keyname)
  | EQKEY_PRECOND =>
      if strcmp_eq val "jacobi" then
        assign_itsol_info (set_precond CS_PARAM_PRECOND_DIAG)
      else if strcmp_eq val "poly1" then
        assign_itsol_info (set_precond CS_PARAM_PRECOND_POLY1)
      else if strcmp_eq val "ssor" then
        assign_itsol_info (set_precond CS_PARAM_PRECOND_SSOR)
      else if strcmp_eq val "ilu0" then
        assign_itsol_info (set_precond CS_PARAM_PRECOND_ILU0)
      else if strcmp_eq val "icc0" then
        assign_itsol_info (set_precond CS_PARAM_PRECOND_ICC0)
      else if strcmp_eq val "amg" then
        assign_itsol_info (set_precond CS_PARAM_PRECOND_AMG)
      else if strcmp_eq val "as" then
        assign_itsol_info (set_precond CS_PARAM_PRECOND_AS)
      else bft_error (InvalidValue val keyname)
  | EQKEY_ITSOL_MAX_ITER =>
      assign_itsol_info (set_n_max_iter (atoi X val))
  | EQKEY_ITSOL_EPS =>
      assign_itsol_info (set_eps (atof X val))
  | EQKEY_ITSOL_RESNORM =>
      if strcmp_eq val "true" then
        assign_itsol_info (set_resid_normalized true)
      else if strcmp_eq val "false" then
        assign_itsol_info (set_resid_normalized false)
      else ret tt
  | EQKEY_VERBOSITY =>
      assign_param (set_verbosity (atoi X val))
  | EQKEY_SLES_VERBOSITY =>
      assign_param (set_sles_verbosity (atoi X val))
  | EQKEY_BC_ENFORCEMENT =>
      if strcmp_eq val "strong" then
        assign_bc (set_enforcement CS_PARAM_BC_ENFORCE_STRONG)
      else if strcmp_eq val "penalization" then
        assign_bc (set_enforcement CS_PARAM_BC_ENFORCE_WEAK_PENA)
      else if strcmp_eq val "weak_sym" then
        assign_bc (set_enforcement CS_PARAM_BC_ENFORCE_WEAK_SYM)
      else if strcmp_eq val "weak" then
        assign_bc (set_enforcement CS_PARAM_BC_ENFORCE_WEAK_NITSCHE)
      else bft_error (InvalidValue val keyname)
  | EQKEY_BC_QUADRATURE =>
      if strcmp_eq val "subdiv" then
        assign_bc (set_use_subdiv true)
      else if strcmp_eq val "bary" then
        assign_bc (set_bc_quad_type CS_QUADRATURE_BARY)
      else if strcmp_eq val "higher" then
        assign_bc (set_bc_quad_type CS_QUADRATURE_HIGHER)
      else if strcmp_eq val "highest" then
        assign_bc (set_bc_quad_type CS_QUADRATURE_HIGHEST)
      else bft_error (InvalidValue val keyname)
  | EQKEY_EXTRA_OP =>
      if strcmp_eq val "peclet" then
        assign_param (raise_process_flag (CS_EQUATION_POST_PECLET X))
      else if strcmp_eq val "none" then
        assign_param (raise_process_flag (CS_EQUATION_POST_NONE X))
      else if strcmp_eq val "upwind_coef" then
        assign_param (raise_process_flag (CS_EQUATION_POST_UPWIND_COEF X))
      else ret tt
  | EQKEY_ADV_OP_TYPE =>
      if strcmp_eq val "conservative" then
        assign_advection_info (set_formulation CS_PARAM_ADVECTION_FORM_CONSERV)
      else if strcmp_eq val "non_conservative" then
        assign_advection_info (set_formulation CS_PARAM_ADVECTION_FORM_NONCONS)
      else bft_error (InvalidValue val keyname)
  | EQKEY_ADV_WEIGHT_ALGO =>
      if strcmp_eq val "upwind" then
        assign_advection_info
          (set_weight_algo CS_PARAM_ADVECTION_WEIGHT_ALGO_UPWIND)
      else if strcmp_eq val "samarskii" then
        assign_advection_info
          (set_weight_algo CS_PARAM_ADVECTION_WEIGHT_ALGO_SAMARSKII)
      else if strcmp_eq val "sg" then
        assign_advection_info
          (set_weight_algo CS_PARAM_ADVECTION_WEIGHT_ALGO_SG)
      else if strcmp_eq val "d10g5" then
        assign_advection_info
          (set_weight_algo CS_PARAM_ADVECTION_WEIGHT_ALGO_D10G5)
      else if strcmp_eq val "centered" then
        assign_advection_info
          (set_weight_algo CS_PARAM_ADVECTION_WEIGHT_ALGO_CENTERED)
      else bft_error (InvalidValue val keyname)
  | EQKEY_ADV_WEIGHT_CRIT =>
      if strcmp_eq val "xexc" then
        assign_advection_info
          (set_weight_criterion CS_PARAM_ADVECTION_WEIGHT_XEXC)
      else if strcmp_eq val "flux" then
        assign_advection_info
          (set_weight_criterion CS_PARAM_ADVECTION_WEIGHT_FLUX)
      else bft_error (InvalidValue val keyname)
  | EQKEY_ADV_FLUX_QUADRA =>
      if strcmp_eq val "bary" then
        assign_advection_info (set_adv_quad_type CS_QUADRATURE_BARY)
      else if strcmp_eq val "higher" then
        assign_advection_info (set_adv_quad_type CS_QUADRATURE_HIGHER)
      else if strcmp_eq val "highest" then
        assign_advection_info (set_adv_quad_type CS_QUADRATURE_HIGHEST)
      else bft_error (InvalidValue val keyname)
  | EQKEY_TIME_SCHEME =>
      if strcmp_eq val "implicit" then
        assign_time_info (set_time_scheme CS_TIME_SCHEME_IMPLICIT) ;;
        assign_time_info (set_theta 1%float)
      else if strcmp_eq val "explicit" then
        assign_time_info (set_time_scheme CS_TIME_SCHEME_EXPLICIT) ;;
        assign_time_info (set_theta 0%float)
      else if strcmp_eq val "crank_nicolson" then
        assign_time_info (set_time_scheme CS_TIME_SCHEME_CRANKNICO) ;;
        assign_time_info (set_theta 0.5%float)
      else if strcmp_eq val "theta_scheme" then
        assign_time_info (set_time_scheme CS_TIME_SCHEME_THETA)
      else bft_error (InvalidValue val keyname)
  | EQKEY_TIME_THETA =>
      assign_time_info (set_theta (atof X val))
  | EQKEY_ERROR => bft_error (KeyNotImplemented keyname)
  end ;;
  eq <- deref ;;
  when (main_ts_id eq >? -1) (call (cs_timer_stats_stop (main_ts_id eq))).

(** ** Terms of the equation *)

Definition cs_equation_link (keyword : string) (pointer : ptr) : M unit :=
  null <- eq_is_null ;;
  when null (bft_error EmptyEquation) ;;
  if strcmp_eq "diffusion" keyword then
    assign_param (raise_flag (CS_EQUATION_DIFFUSION X)) ;;
    assign_param (set_diffusion_property pointer)
  else if strcmp_eq "time" keyword then
    assign_param (raise_flag (CS_EQUATION_UNSTEADY X)) ;;
    assign_param (set_time_property pointer)
  else if strcmp_eq "advection" keyword then
    assign_param (raise_flag (CS_EQUATION_CONVECTION X)) ;;
    assign_param (set_advection_field pointer)
  else bft_error (InvalidTerm keyword).

(** Modelled from the spec: [cs_param_bc_def_set] is defined in cs_param.c; a
    boundary-condition definition is the record of its mesh location, its
    boundary-condition kind, its definition kind and its payload. *)
Definition cs_param_bc_def_set
  (loc_id : Z) (bc_type : cs_param_bc_type_t) (var_type : cs_param_var_type_t)
  (def_type : cs_param_def_type_t) (coef1 : string) (coef2 : option string)
  : cs_param_bc_def_t :=
  {| loc_id := loc_id; bc_type := bc_type; bc_var_type := var_type;
     bc_def_type := def_type; bc_def_coef1 := coef1; bc_def_coef2 := coef2 |}.

Definition cs_equation_add_bc (ml_name bc_key def_key val : string) : M unit :=
  null <- eq_is_null ;;
  when null (bft_error EmptyEquation) ;;
  eq <- deref ;;
  let eqp := param eq in
  let def_id := n_defs (bc eqp) in
  assign_bc (fun b => set_n_defs (n_defs b + 1) b) ;;
  ml_id <- _check_ml_name ml_name ;;
  def_type <-
    (if strcmp_eq def_key "value" then ret CS_PARAM_DEF_BY_VALUE
     else if strcmp_eq def_key "array" then ret CS_PARAM_DEF_BY_ARRAY
     else if strcmp_eq def_key "analytic" then
       ret CS_PARAM_DEF_BY_ANALYTIC_FUNCTION
     else if strcmp_eq def_key "user" then ret CS_PARAM_DEF_BY_USER_FUNCTION
     else bft_error (InvalidDefinitionKind def_key)) ;;
  bc_type <-
    (if strcmp_eq bc_key "dirichlet" then ret CS_PARAM_BC_DIRICHLET
     else if strcmp_eq bc_key "neumann" then ret CS_PARAM_BC_NEUMANN
     else if strcmp_eq bc_key "robin" then ret CS_PARAM_BC_ROBIN
     else bft_error (InvalidBCKind bc_key)) ;;
  let bc_type :=
    match def_type, var_type eqp with
    | CS_PARAM_DEF_BY_VALUE, CS_PARAM_VAR_SCAL =>
        let value := atof X val in
        if (PrimFloat.abs value <? DBL_MIN)%float then
          let bc_type :=
            match bc_type with
            | CS_PARAM_BC_DIRICHLET => CS_PARAM_BC_HMG_DIRICHLET
            | _ => bc_type
            end in
          match bc_type with
          | CS_PARAM_BC_NEUMANN => CS_PARAM_BC_HMG_NEUMANN
          | _ => bc_type
          end
        else bc_type
    | _, _ => bc_type
    end in
  assign_bc (fun b =>
    set_defs (array_store (defs b) def_id
                (cs_param_bc_def_set ml_id bc_type (var_type eqp)
                   def_type val None)) b).

(** Modelled from the spec: [cs_param_reaction_add] is defined in cs_param.c;
    a reaction term is the record of its name, its kind, its Hodge descriptor
    and its lumping flag. *)
Definition cs_param_reaction_add
  (r_name : string) (h_type : cs_param_hodge_type_t)
  (h_algo : cs_param_hodge_algo_t) (r_type : cs_param_reaction_type_t)
  : cs_param_reaction_t :=
  {| reaction_name := r_name;
     reaction_type := r_type;
     reaction_hodge := {| inv_pty := new_reaction_inv_pty X;
                          hodge_type := h_type;
                          hodge_algo := h_algo;
                          hodge_coef := new_reaction_coef X |};
     reaction_do_lumping := new_reaction_do_lumping X |}.

(** [r_name] is [None] when the caller passes NULL. *)
Definition cs_equation_add_reaction
  (r_name : option string) (type_name : string) (property : ptr) : M unit :=
  null <- eq_is_null ;;
  when null (bft_error EmptyEquation) ;;
  eq <- deref ;;
  let eqp := param eq in
  let r_id := n_reaction_terms eqp in
  assign_param (fun p => set_n_reaction_terms (n_reaction_terms p + 1) p) ;;
  assign_param (fun p =>
    set_reaction_properties (array_store (reaction_properties p) r_id property) p) ;;
  rname <-
    match r_name with
    | None =>
        when (negb (r_id <? 100)) (bft_error AssertionFailed) ;;
        ret ("reaction_" ++ sprintf_02d r_id)
    | Some n => ret n
    end ;;
  r_type <-
    (if strcmp_eq type_name "linear" then ret CS_PARAM_REACTION_TYPE_LINEAR
     else bft_error (InvalidReactionType (name eq))) ;;
  h <-
    match space_scheme eqp with
    | CS_SPACE_SCHEME_CDOVB =>
        ret (CS_PARAM_HODGE_TYPE_VPCD, CS_PARAM_HODGE_ALGO_WBS)
    | CS_SPACE_SCHEME_CDOFB => bft_error NotImplementedYet
    | CS_SPACE_N_SCHEMES => bft_error InvalidSpaceScheme
    end ;;
  assign_param (fun p =>
    set_reaction_terms
      (array_store (reaction_terms p) r_id
         (cs_param_reaction_add rname (fst h) (snd h) r_type)) p) ;;
  assign_param (raise_flag (CS_EQUATION_REACTION X)).

(** ** Build and solve *)

Definition cs_equation_needs_build : M bool :=
  eq <- deref ;;
  ret (do_build eq).

(** [field->dim] and [field->val] *)
Definition field_dim (field : ptr) : M Z :=
  if ptr_eqb field NULL then undefined null_pointer_access
  else ret (cs_field_dim X field).

Definition field_values (field : ptr) : M ptr :=
  if ptr_eqb field NULL then undefined null_pointer_access
  else ret (cs_field_val X field).

(** [nt_cur] is [time_step->nt_cur].  The argument [fld->val] of the call
    through [eq->build_system] is read before the call. *)
Definition cs_equation_build_system (nt_cur : Z) : M unit :=
  eq <- deref ;;
  let eqp := param eq in
  let fld := cs_field_by_id X (field_id eq) in
  when (pre_ts_id eq >? -1) (call (cs_timer_stats_start (pre_ts_id eq))) ;;
  field_values fld ;;
  f <- through (build_system eq) ;;
  call (scheme_call f (builder eq)) ;;
  sla_mat <-
    match scheme_build_system X f (builder eq) with
    | Some b => ret b
    | None => bft_error (UnsupportedSchemeCombination f)
    end ;;
  assign (set_rhs (built_rhs sla_mat)) ;;
  when ((verbosity eqp >? 1) && (nt_cur =? 0))
    (call (bft_printf (listing_sla_sumup (name eq)))) ;;
  when (negb (sla_mat_is_msr sla_mat)) (bft_error AssertionFailed) ;;
  eq <- deref ;;
  when (ptr_eqb (ms eq) NULL)
    (assign (set_ms (cs_matrix_structure_create_msr X))) ;;
  eq <- deref ;;
  when (ptr_eqb (matrix eq) NULL)
    (assign (set_matrix (cs_matrix_create X (ms eq)))) ;;
  eq <- deref ;;
  call (cs_matrix_transfer_coefficients_msr (matrix eq)) ;;
  assign (set_do_build false) ;;
  eq <- deref ;;
  when (pre_ts_id eq >? -1) (call (cs_timer_stats_stop (pre_ts_id eq))).

(** The copy of the [n_rows] values of the field into the buffer leaves no
    trace; it reads through [fld->val] and writes through [x] as soon as
    there is a row.  The sizes of the two arrays are those the scheme and the
    field give them, which the file does not describe. *)
Definition cs_equation_solve (do_logcvg : bool) : M unit :=
  eq <- deref ;;
  when (solve_ts_id eq >? -1) (call (cs_timer_stats_start (solve_ts_id eq))) ;;
  tmpbuf <- through (get_tmpbuf eq) ;;
  call (scheme_call tmpbuf (builder eq)) ;;
  let x := scheme_tmpbuf X tmpbuf in
  call (cs_sles_find_or_add (field_id eq)) ;;
  let fld := cs_field_by_id X (field_id eq) in
  let n_rows := cs_matrix_get_n_rows X (matrix eq) in
  let itsol_info := itsol_info (param eq) in
  when (sles_verbosity (param eq) >? 0)
    (call (printf (listing_solve_header (name eq)))) ;;
  let r_norm :=
    if resid_normalized itsol_info then
      (cs_euclidean_norm X n_rows (rhs eq) / double_of_int n_rows)%float
    else 1%float in
  dim <- field_dim fld ;;
  when (negb (dim =? 1)) (bft_error AssertionFailed) ;;
  when (0 <? n_rows)
    (val <- field_values fld ;;
     when (ptr_eqb val NULL || ptr_eqb x NULL)
       (undefined null_pointer_access)) ;;
  call (cs_sles_solve (field_id eq) (matrix eq) (eps itsol_info) r_norm
          (rhs eq)) ;;
  when do_logcvg (call (bft_printf (listing_sles_cvg (name eq)))) ;;
  when (sles_verbosity (param eq) >? 0)
    (call (printf (listing_solve_result (name eq)))) ;;
  when (solve_ts_id eq >? -1) (call (cs_timer_stats_stop (solve_ts_id eq))) ;;
  when (extra_op_ts_id eq >? -1)
    (call (cs_timer_stats_start (extra_op_ts_id eq))) ;;
  call (cs_field_current_to_previous (field_id eq)) ;;
  field_values fld ;;
  update <- through (update_field eq) ;;
  call (scheme_call update (builder eq)) ;;
  when (extra_op_ts_id eq >? -1)
    (call (cs_timer_stats_stop (extra_op_ts_id eq))) ;;
  when (has_flag (flag (param eq)) (CS_EQUATION_UNSTEADY X))
    (assign (set_do_build true)) ;;
  call (cs_sles_free (field_id eq)).

Definition cs_equation_extra_op : M unit :=
  null <- eq_is_null ;;
  if null then ret tt
  else
    eq <- deref ;;
    let eqp := param eq in
    if has_flag (process_flag eqp) (CS_EQUATION_POST_NONE X) then ret tt
    else
      when (extra_op_ts_id eq >? -1)
        (call (cs_timer_stats_start (extra_op_ts_id eq))) ;;
      f <- through (postprocess eq) ;;
      call (scheme_call f (builder eq)) ;;
      when (extra_op_ts_id eq >? -1)
        (call (cs_timer_stats_stop (extra_op_ts_id eq))).

Definition cs_equation_is_steady : M bool :=
  eq <- deref ;;
  ret (negb (has_flag (flag (param eq)) (CS_EQUATION_UNSTEADY X))).

(** ** Accessors *)

Definition cs_equation_get_face_values : M ptr :=
  null <- eq_is_null ;;
  if null then ret NULL
  else
    eq <- deref ;;
    f <- through (get_f_values eq) ;;
    call (scheme_call f (builder eq)) ;;
    ret (scheme_get_face_values X f (builder eq) (field_id eq)).

Definition cs_equation_get_name : M (option string) :=
  null <- eq_is_null ;;
  if null then ret None
  else eq <- deref ;; ret (Some (name eq)).

Definition cs_equation_get_field : M ptr :=
  null <- eq_is_null ;;
  if null then ret NULL
  else eq <- deref ;; ret (cs_field_by_id X (field_id eq)).

Definition cs_equation_get_flag : M Z :=
  let ret_flag := 0 in
  null <- eq_is_null ;;
  if null then ret ret_flag
  else eq <- deref ;; ret (flag (param eq)).

Definition cs_equation_get_param : M (option cs_equation_param_t) :=
  null <- eq_is_null ;;
  if null then ret None
  else eq <- deref ;; ret (Some (param eq)).

Definition cs_equation_get_diffusion_property : M ptr :=
  null <- eq_is_null ;;
  if null then ret NULL
  else eq <- deref ;; ret (diffusion_property (param eq)).

Definition cs_equation_get_time_property : M ptr :=
  null <- eq_is_null ;;
  if null then ret NULL
  else eq <- deref ;; ret (time_property (param eq)).

(** The search loop of [cs_equation_get_reaction_property]: the index of the
    first of the [n] terms named [r_name], counted from [i], or -1. *)
Fixpoint find_reaction_term
  (r_name : string) (terms : list cs_param_reaction_t) (n : nat) (i : Z) : Z :=
  match n, terms with
  | S n', t :: terms' =>
      if strcmp_eq (reaction_name t) r_name then i
      else find_reaction_term r_name terms' n' (i + 1)
  | _, _ => -1
  end.

(** [r_name] is [None] when the caller passes NULL. *)
Definition cs_equation_get_reaction_property (r_name : option string) : M ptr :=
  null <- eq_is_null ;;
  if null then ret NULL
  else
    match r_name with
    | None => ret NULL
    | Some r_name =>
        eq <- deref ;;
        let eqp := param eq in
        let r_id :=
          find_reaction_term r_name (reaction_terms eqp)
            (Z.to_nat (n_reaction_terms eqp)) 0 in
        when (r_id =? -1) (bft_error (NotFound r_name (name eq))) ;;
        match nth_error (reaction_properties eqp) (Z.to_nat r_id) with
        | Some p => ret p
        | None => undefined out_of_bounds_access
        end
    end.

Definition cs_equation_get_space_scheme : M cs_space_scheme_t :=
  null <- eq_is_null ;;
  if null then ret CS_SPACE_N_SCHEMES
  else eq <- deref ;; ret (space_scheme (param eq)).

Definition cs_equation_get_var_type : M cs_param_var_type_t :=
  null <- eq_is_null ;;
  if null then ret CS_PARAM_N_VAR_TYPES
  else eq <- deref ;; ret (var_type (param eq)).

Definition cs_equation_get_type : M cs_equation_type_t :=
  null <- eq_is_null ;;
  if null then ret CS_EQUATION_N_TYPES
  else eq <- deref ;; ret (eq_type (param eq)).

End Equation.

(** ** The effect of a key on the parameter set *)

(** [option_update X key val] is what the switch of [cs_equation_set_option]
    does to the parameter set for the key [key] and the value [val]; it is
    [None] where the case ends in [bft_error]. *)
Definition option_update (X : environment) (key : eqkey_t) (val : string)
  : option (cs_equation_param_t -> cs_equation_param_t) :=
  let val_is := strcmp_eq val in
  let id := fun p : cs_equation_param_t => p in
  match key with
  | EQKEY_SPACE_SCHEME =>
      if val_is "cdo_vb" then
        Some (fun p =>
          in_diffusion_hodge (set_hodge_type CS_PARAM_HODGE_TYPE_EPFD)
            (in_time_hodge (set_hodge_type CS_PARAM_HODGE_TYPE_VPCD)
               (set_space_scheme CS_SPACE_SCHEME_CDOVB p)))
      else if val_is "cdo_fb" then
        Some (fun p =>
          in_diffusion_hodge (set_hodge_type CS_PARAM_HODGE_TYPE_EDFP)
            (in_time_hodge (set_hodge_type CS_PARAM_HODGE_TYPE_CPVD)
               (set_space_scheme CS_SPACE_SCHEME_CDOFB p)))
      else None
  | EQKEY_HODGE_DIFF_ALGO =>
      if val_is "cost" then
        Some (in_diffusion_hodge (set_hodge_algo CS_PARAM_HODGE_ALGO_COST))
      else if val_is "voronoi" then
        Some (in_diffusion_hodge (set_hodge_algo CS_PARAM_HODGE_ALGO_VORONOI))
      else if val_is "wbs" then
        Some (in_diffusion_hodge (set_hodge_algo CS_PARAM_HODGE_ALGO_WBS))
      else None
  | EQKEY_HODGE_TIME_ALGO =>
      if val_is "cost" then
        Some (in_time_hodge (set_hodge_algo CS_PARAM_HODGE_ALGO_COST))
      else if val_is "voronoi" then
        Some (in_time_hodge (set_hodge_algo CS_PARAM_HODGE_ALGO_VORONOI))
      else if val_is "wbs" then
        Some (in_time_hodge (set_hodge_algo CS_PARAM_HODGE_ALGO_WBS))
      else None
  | EQKEY_HODGE_DIFF_COEF =>
      Some (in_diffusion_hodge (set_hodge_coef
        (if val_is "dga" then 1 / 3
         else if val_is "sushi" then 1 / PrimFloat.sqrt 3
         else if val_is "gcr" then 1
         else atof X val)%float))
  | EQKEY_HODGE_TIME_COEF =>
      Some (in_time_hodge (set_hodge_coef
        (if val_is "dga" then 1 / 3
         else if val_is "sushi" then 1 / PrimFloat.sqrt 3
         else if val_is "gcr" then 1
         else atof X val)%float))
  | EQKEY_SOLVER_FAMILY =>
      if val_is "cs" then
        Some (in_algo_info (set_algo_type CS_EQUATION_ALGO_CS_ITSOL))
      else if val_is "petsc" then
        Some (in_algo_info (set_algo_type CS_EQUATION_ALGO_PETSC_ITSOL))
      else None
  | EQKEY_ITSOL =>
      if val_is "cg" then Some (in_itsol_info (set_solver CS_PARAM_ITSOL_CG))
      else if val_is "bicg" then Some (in_itsol_info (set_solver CS_PARAM_ITSOL_BICG))
      else if val_is "gmres" then Some (in_itsol_info (set_solver CS_PARAM_ITSOL_GMRES))
      else if val_is "amg" then Some (in_itsol_info (set_solver CS_PARAM_ITSOL_AMG))
      else None
  | EQKEY_PRECOND =>
      if val_is "jacobi" then Some (in_itsol_info (set_precond CS_PARAM_PRECOND_DIAG))
      else if val_is "poly1" then Some (in_itsol_info (set_precond CS_PARAM_PRECOND_POLY1))
      else if val_is "ssor" then Some (in_itsol_info (set_precond CS_PARAM_PRECOND_SSOR))
      else if val_is "ilu0" then Some (in_itsol_info (set_precond CS_PARAM_PRECOND_ILU0))
      else if val_is "icc0" then Some (in_itsol_info (set_precond CS_PARAM_PRECOND_ICC0))
      else if val_is "amg" then Some (in_itsol_info (set_precond CS_PARAM_PRECOND_AMG))
      else if val_is "as" then Some (in_itsol_info (set_precond CS_PARAM_PRECOND_AS))
      else None
  | EQKEY_ITSOL_MAX_ITER => Some (in_itsol_info (set_n_max_iter (atoi X val)))
  | EQKEY_ITSOL_EPS => Some (in_itsol_info (set_eps (atof X val)))
  | EQKEY_ITSOL_RESNORM =>
      if val_is "true" then Some (in_itsol_info (set_resid_normalized true))
      else if val_is "false" then Some (in_itsol_info (set_resid_normalized false))
      else Some id
  | EQKEY_VERBOSITY => Some (set_verbosity (atoi X val))
  | EQKEY_SLES_VERBOSITY => Some (set_sles_verbosity (atoi X val))
  | EQKEY_BC_ENFORCEMENT =>
      if val_is "strong" then Some (in_bc (set_enforcement CS_PARAM_BC_ENFORCE_STRONG))
      else if val_is "penalization" then
        Some (in_bc (set_enforcement CS_PARAM_BC_ENFORCE_WEAK_PENA))
      else if val_is "weak_sym" then
        Some (in_bc (set_enforcement CS_PARAM_BC_ENFORCE_WEAK_SYM))
      else if val_is "weak" then
        Some (in_bc (set_enforcement CS_PARAM_BC_ENFORCE_WEAK_NITSCHE))
      else None
  | EQKEY_BC_QUADRATURE =>
      if val_is "subdiv" then Some (in_bc (set_use_subdiv true))
      else if val_is "bary" then Some (in_bc (set_bc_quad_type CS_QUADRATURE_BARY))
      else if val_is "higher" then Some (in_bc (set_bc_quad_type CS_QUADRATURE_HIGHER))
      else if val_is "highest" then Some (in_bc (set_bc_quad_type CS_QUADRATURE_HIGHEST))
      else None
  | EQKEY_EXTRA_OP =>
      if val_is "peclet" then Some (raise_process_flag (CS_EQUATION_POST_PECLET X))
      else if val_is "none" then Some (raise_process_flag (CS_EQUATION_POST_NONE X))
      else if val_is "upwind_coef" then
        Some (raise_process_flag (CS_EQUATION_POST_UPWIND_COEF X))
      else Some id
  | EQKEY_ADV_OP_TYPE =>
      if val_is "conservative" then
        Some (in_advection_info (set_formulation CS_PARAM_ADVECTION_FORM_CONSERV))
      else if val_is "non_conservative" then
        Some (in_advection_info (set_formulation CS_PARAM_ADVECTION_FORM_NONCONS))
      else None
  | EQKEY_ADV_WEIGHT_ALGO =>
      if val_is "upwind" then
        Some (in_advection_info
                (set_weight_algo CS_PARAM_ADVECTION_WEIGHT_ALGO_UPWIND))
      else if val_is "samarskii" then
        Some (in_advection_info
                (set_weight_algo CS_PARAM_ADVECTION_WEIGHT_ALGO_SAMARSKII))
      else if val_is "sg" then
        Some (in_advection_info (set_weight_algo CS_PARAM_ADVECTION_WEIGHT_ALGO_SG))
      else if val_is "d10g5" then
        Some (in_advection_info
                (set_weight_algo CS_PARAM_ADVECTION_WEIGHT_ALGO_D10G5))
      else if val_is "centered" then
        Some (in_advection_info
                (set_weight_algo CS_PARAM_ADVECTION_WEIGHT_ALGO_CENTERED))
      else None
  | EQKEY_ADV_WEIGHT_CRIT =>
      if val_is "xexc" then
        Some (in_advection_info (set_weight_criterion CS_PARAM_ADVECTION_WEIGHT_XEXC))
      else if val_is "flux" then
        Some (in_advection_info (set_weight_criterion CS_PARAM_ADVECTION_WEIGHT_FLUX))
      else None
  | EQKEY_ADV_FLUX_QUADRA =>
      if val_is "bary" then Some (in_advection_info (set_adv_quad_type CS_QUADRATURE_BARY))
      else if val_is "higher" then
        Some (in_advection_info (set_adv_quad_type CS_QUADRATURE_HIGHER))
      else if val_is "highest" then
        Some (in_advection_info (set_adv_quad_type CS_QUADRATURE_HIGHEST))
      else None
  | EQKEY_TIME_SCHEME =>
      if val_is "implicit" then
        Some (fun p => in_time_info (set_theta 1%float)
                         (in_time_info (set_time_scheme CS_TIME_SCHEME_IMPLICIT) p))
      else if val_is "explicit" then
        Some (fun p => in_time_info (set_theta 0%float)
                         (in_time_info (set_time_scheme CS_TIME_SCHEME_EXPLICIT) p))
      else if val_is "crank_nicolson" then
        Some (fun p => in_time_info (set_theta 0.5%float)
                         (in_time_info (set_time_scheme CS_TIME_SCHEME_CRANKNICO) p))
      else if val_is "theta_scheme" then
        Some (in_time_info (set_time_scheme CS_TIME_SCHEME_THETA))
      else None
  | EQKEY_TIME_THETA => Some (in_time_info (set_theta (atof X val)))
  | EQKEY_ERROR => None
  end.

(** The error of a case that ends in [bft_error]. *)
Definition option_error (key : eqkey_t) (keyname val : string) : bft_error_t :=
  match key with
  | EQKEY_ERROR => KeyNotImplemented keyname
  | _ => InvalidValue val keyname
  end.

(** ** The vocabulary of [cs_equation_set_option]

    The keys are those [_print_eqkey] names; the values of a key are those
    its case of the switch compares the value with. *)

Definition eqkeys : list eqkey_t :=
  [EQKEY_HODGE_DIFF_ALGO; EQKEY_HODGE_DIFF_COEF; EQKEY_HODGE_TIME_ALGO;
   EQKEY_HODGE_TIME_COEF; EQKEY_ITSOL; EQKEY_ITSOL_EPS; EQKEY_ITSOL_MAX_ITER;
   EQKEY_ITSOL_RESNORM; EQKEY_PRECOND; EQKEY_SOLVER_FAMILY; EQKEY_SPACE_SCHEME;
   EQKEY_VERBOSITY; EQKEY_SLES_VERBOSITY; EQKEY_BC_ENFORCEMENT;
   EQKEY_BC_QUADRATURE; EQKEY_EXTRA_OP; EQKEY_ADV_OP_TYPE;
   EQKEY_ADV_WEIGHT_ALGO; EQKEY_ADV_WEIGHT_CRIT; EQKEY_ADV_FLUX_QUADRA;
   EQKEY_TIME_SCHEME; EQKEY_TIME_THETA].

Definition key_vocabulary : list string :=
  flat_map (fun k => match _print_eqkey k with Some n => [n] | None => [] end)
    eqkeys.

Definition value_vocabulary (key : eqkey_t) : list string :=
  match key with
  | EQKEY_SPACE_SCHEME => ["cdo_vb"; "cdo_fb"]
  | EQKEY_HODGE_DIFF_ALGO | EQKEY_HODGE_TIME_ALGO => ["cost"; "voronoi"; "wbs"]
  | EQKEY_HODGE_DIFF_COEF | EQKEY_HODGE_TIME_COEF => ["dga"; "sushi"; "gcr"]
  | EQKEY_SOLVER_FAMILY => ["cs"; "petsc"]
  | EQKEY_ITSOL => ["cg"; "bicg"; "gmres"; "amg"]
  | EQKEY_PRECOND => ["jacobi"; "poly1"; "ssor"; "ilu0"; "icc0"; "amg"; "as"]
  | EQKEY_ITSOL_RESNORM => ["true"; "false"]
  | EQKEY_BC_ENFORCEMENT => ["strong"; "penalization"; "weak"; "weak_sym"]
  | EQKEY_BC_QUADRATURE => ["subdiv"; "bary"; "higher"; "highest"]
  | EQKEY_EXTRA_OP => ["peclet"; "none"; "upwind_coef"]
  | EQKEY_ADV_OP_TYPE => ["conservative"; "non_conservative"]
  | EQKEY_ADV_WEIGHT_ALGO => ["upwind"; "samarskii"; "sg"; "d10g5"; "centered"]
  | EQKEY_ADV_WEIGHT_CRIT => ["xexc"; "flux"]
  | EQKEY_ADV_FLUX_QUADRA => ["bary"; "higher"; "highest"]
  | EQKEY_TIME_SCHEME =>
      ["implicit"; "explicit"; "crank_nicolson"; "theta_scheme"]
  | EQKEY_ITSOL_MAX_ITER | EQKEY_ITSOL_EPS | EQKEY_VERBOSITY
  | EQKEY_SLES_VERBOSITY | EQKEY_TIME_THETA | EQKEY_ERROR => []
  end.

(** The keys whose value is a choice in a closed list: any other value is an
    error of the case. *)
Definition choice_key (key : eqkey_t) : bool :=
  match key with
  | EQKEY_SPACE_SCHEME | EQKEY_HODGE_DIFF_ALGO | EQKEY_HODGE_TIME_ALGO
  | EQKEY_SOLVER_FAMILY | EQKEY_ITSOL | EQKEY_PRECOND | EQKEY_BC_ENFORCEMENT
  | EQKEY_BC_QUADRATURE | EQKEY_ADV_OP_TYPE | EQKEY_ADV_WEIGHT_ALGO
  | EQKEY_ADV_WEIGHT_CRIT | EQKEY_ADV_FLUX_QUADRA | EQKEY_TIME_SCHEME => true
  | _ => false
  end.

(** The keys whose value is a number, read by [atof] or [atoi]; the two
    coefficient keys also have three named values. *)
Definition number_key (key : eqkey_t) : bool :=
  match key with
  | EQKEY_HODGE_DIFF_COEF | EQKEY_HODGE_TIME_COEF | EQKEY_ITSOL_MAX_ITER
  | EQKEY_ITSOL_EPS | EQKEY_VERBOSITY | EQKEY_SLES_VERBOSITY
  | EQKEY_TIME_THETA => true
  | _ => false
  end.

(** The documented pairs of a key and a value, each with the change of the
    parameter set it stands for. *)
Definition documented_options (X : environment)
  : list (string * string * (cs_equation_param_t -> cs_equation_param_t)) :=
  [ ("space_scheme", "cdo_vb", fun p =>
       in_diffusion_hodge (set_hodge_type CS_PARAM_HODGE_TYPE_EPFD)
         (in_time_hodge (set_hodge_type CS_PARAM_HODGE_TYPE_VPCD)
            (set_space_scheme CS_SPACE_SCHEME_CDOVB p)));
    ("space_scheme", "cdo_fb", fun p =>
       in_diffusion_hodge (set_hodge_type CS_PARAM_HODGE_TYPE_EDFP)
         (in_time_hodge (set_hodge_type CS_PARAM_HODGE_TYPE_CPVD)
            (set_space_scheme CS_SPACE_SCHEME_CDOFB p)));
    ("hodge_diff_algo", "cost",
       in_diffusion_hodge (set_hodge_algo CS_PARAM_HODGE_ALGO_COST));
    ("hodge_diff_algo", "voronoi",
       in_diffusion_hodge (set_hodge_algo CS_PARAM_HODGE_ALGO_VORONOI));
    ("hodge_diff_algo", "wbs",
       in_diffusion_hodge (set_hodge_algo CS_PARAM_HODGE_ALGO_WBS));
    ("hodge_time_algo", "cost",
       in_time_hodge (set_hodge_algo CS_PARAM_HODGE_ALGO_COST));
    ("hodge_time_algo", "voronoi",
       in_time_hodge (set_hodge_algo CS_PARAM_HODGE_ALGO_VORONOI));
    ("hodge_time_algo", "wbs",
       in_time_hodge (set_hodge_algo CS_PARAM_HODGE_ALGO_WBS));
    ("hodge_diff_coef", "dga", in_diffusion_hodge (set_hodge_coef (1 / 3)%float));
    ("hodge_diff_coef", "sushi",
       in_diffusion_hodge (set_hodge_coef (1 / PrimFloat.sqrt 3)%float));
    ("hodge_diff_coef", "gcr", in_diffusion_hodge (set_hodge_coef 1%float));
    ("hodge_time_coef", "dga", in_time_hodge (set_hodge_coef (1 / 3)%float));
    ("hodge_time_coef", "sushi",
       in_time_hodge (set_hodge_coef (1 / PrimFloat.sqrt 3)%float));
    ("hodge_time_coef", "gcr", in_time_hodge (set_hodge_coef 1%float));
    ("solver_family", "cs", in_algo_info (set_algo_type CS_EQUATION_ALGO_CS_ITSOL));
    ("solver_family", "petsc",
       in_algo_info (set_algo_type CS_EQUATION_ALGO_PETSC_ITSOL));
    ("itsol", "cg", in_itsol_info (set_solver CS_PARAM_ITSOL_CG));
    ("itsol", "bicg", in_itsol_info (set_solver CS_PARAM_ITSOL_BICG));
    ("itsol", "gmres", in_itsol_info (set_solver CS_PARAM_ITSOL_GMRES));
    ("itsol", "amg", in_itsol_info (set_solver CS_PARAM_ITSOL_AMG));
    ("precond", "jacobi", in_itsol_info (set_precond CS_PARAM_PRECOND_DIAG));
    ("precond", "poly1", in_itsol_info (set_precond CS_PARAM_PRECOND_POLY1));
    ("precond", "ssor", in_itsol_info (set_precond CS_PARAM_PRECOND_SSOR));
    ("precond", "ilu0", in_itsol_info (set_precond CS_PARAM_PRECOND_ILU0));
    ("precond", "icc0", in_itsol_info (set_precond CS_PARAM_PRECOND_ICC0));
    ("precond", "amg", in_itsol_info (set_precond CS_PARAM_PRECOND_AMG));
    ("precond", "as", in_itsol_info (set_precond CS_PARAM_PRECOND_AS));
    ("itsol_resnorm", "true", in_itsol_info (set_resid_normalized true));
    ("itsol_resnorm", "false", in_itsol_info (set_resid_normalized false));
    ("bc_enforcement", "strong",
       in_bc (set_enforcement CS_PARAM_BC_ENFORCE_STRONG));
    ("bc_enforcement", "penalization",
       in_bc (set_enforcement CS_PARAM_BC_ENFORCE_WEAK_PENA));
    ("bc_enforcement", "weak",
       in_bc (set_enforcement CS_PARAM_BC_ENFORCE_WEAK_NITSCHE));
    ("bc_enforcement", "weak_sym",
       in_bc (set_enforcement CS_PARAM_BC_ENFORCE_WEAK_SYM));
    ("bc_quadrature", "subdiv", in_bc (set_use_subdiv true));
    ("bc_quadrature", "bary", in_bc (set_bc_quad_type CS_QUADRATURE_BARY));
    ("bc_quadrature", "higher", in_bc (set_bc_quad_type CS_QUADRATURE_HIGHER));
    ("bc_quadrature", "highest", in_bc (set_bc_quad_type CS_QUADRATURE_HIGHEST));
    ("extra_op", "peclet", raise_process_flag (CS_EQUATION_POST_PECLET X));
    ("extra_op", "none", raise_process_flag (CS_EQUATION_POST_NONE X));
    ("extra_op", "upwind_coef",
       raise_process_flag (CS_EQUATION_POST_UPWIND_COEF X));
    ("adv_formulation", "conservative",
       in_advection_info (set_formulation CS_PARAM_ADVECTION_FORM_CONSERV));
    ("adv_formulation", "non_conservative",
       in_advection_info (set_formulation CS_PARAM_ADVECTION_FORM_NONCONS));
    ("adv_weight", "upwind",
       in_advection_info (set_weight_algo CS_PARAM_ADVECTION_WEIGHT_ALGO_UPWIND));
    ("adv_weight", "samarskii",
       in_advection_info
         (set_weight_algo CS_PARAM_ADVECTION_WEIGHT_ALGO_SAMARSKII));
    ("adv_weight", "sg",
       in_advection_info (set_weight_algo CS_PARAM_ADVECTION_WEIGHT_ALGO_SG));
    ("adv_weight", "d10g5",
       in_advection_info (set_weight_algo CS_PARAM_ADVECTION_WEIGHT_ALGO_D10G5));
    ("adv_weight", "centered",
       in_advection_info
         (set_weight_algo CS_PARAM_ADVECTION_WEIGHT_ALGO_CENTERED));
    ("adv_weight_criterion", "xexc",
       in_advection_info (set_weight_criterion CS_PARAM_ADVECTION_WEIGHT_XEXC));
    ("adv_weight_criterion", "flux",
       in_advection_info (set_weight_criterion CS_PARAM_ADVECTION_WEIGHT_FLUX));
    ("adv_flux_quad", "bary",
       in_advection_info (set_adv_quad_type CS_QUADRATURE_BARY));
    ("adv_flux_quad", "higher",
       in_advection_info (set_adv_quad_type CS_QUADRATURE_HIGHER));
    ("adv_flux_quad", "highest",
       in_advection_info (set_adv_quad_type CS_QUADRATURE_HIGHEST));
    ("time_scheme", "implicit", fun p =>
       in_time_info (set_theta 1%float)
         (in_time_info (set_time_scheme CS_TIME_SCHEME_IMPLICIT) p));
    ("time_scheme", "explicit", fun p =>
       in_time_info (set_theta 0%float)
         (in_time_info (set_time_scheme CS_TIME_SCHEME_EXPLICIT) p));
    ("time_scheme", "crank_nicolson", fun p =>
       in_time_info (set_theta 0.5%float)
         (in_time_info (set_time_scheme CS_TIME_SCHEME_CRANKNICO) p));
    ("time_scheme", "theta_scheme",
       in_time_info (set_time_scheme CS_TIME_SCHEME_THETA)) ].

(** The change a number key makes for the number read from the value. *)
Definition number_update (X : environment) (key : eqkey_t) (val : string)
  : cs_equation_param_t -> cs_equation_param_t :=
  match key with
  | EQKEY_HODGE_DIFF_COEF => in_diffusion_hodge (set_hodge_coef (atof X val))
  | EQKEY_HODGE_TIME_COEF => in_time_hodge (set_hodge_coef (atof X val))
  | EQKEY_ITSOL_MAX_ITER => in_itsol_info (set_n_max_iter (atoi X val))
  | EQKEY_ITSOL_EPS => in_itsol_info (set_eps (atof X val))
  | EQKEY_VERBOSITY => set_verbosity (atoi X val)
  | EQKEY_SLES_VERBOSITY => set_sles_verbosity (atoi X val)
  | EQKEY_TIME_THETA => in_time_info (set_theta (atof X val))
  | _ => fun p => p
  end.

(** ** The members of the parameter set and the group of each key *)

Inductive member : Type :=
| eqp_type
| eqp_var_type
| eqp_verbosity
| eqp_sles_verbosity
| eqp_process_flag
| eqp_flag
| eqp_space_scheme
| eqp_time_hodge_inv_pty
| eqp_time_hodge_type
| eqp_time_hodge_algo
| eqp_time_hodge_coef
| eqp_time_property
| eqp_time_scheme
| eqp_time_theta
| eqp_time_do_lumping
| eqp_n_ic_definitions
| eqp_ic_definitions
| eqp_diffusion_property
| eqp_diffusion_hodge_inv_pty
| eqp_diffusion_hodge_type
| eqp_diffusion_hodge_algo
| eqp_diffusion_hodge_coef
| eqp_advection_formulation
| eqp_advection_weight_algo
| eqp_advection_weight_criterion
| eqp_advection_quad_type
| eqp_advection_field
| eqp_n_reaction_terms
| eqp_reaction_terms
| eqp_reaction_properties
| eqp_n_source_terms
| eqp_source_terms
| eqp_bc_default_bc
| eqp_bc_enforcement
| eqp_bc_quad_type
| eqp_bc_use_subdiv
| eqp_bc_n_defs
| eqp_bc_defs
| eqp_algo_type
| eqp_algo_n_iters
| eqp_algo_n_max_iters
| eqp_algo_n_cumulated_iters
| eqp_algo_n_max_cumulated_iters
| eqp_algo_eps
| eqp_itsol_precond
| eqp_itsol_solver
| eqp_itsol_n_max_iter
| eqp_itsol_eps
| eqp_itsol_output_freq
| eqp_itsol_resid_normalized.

(** [agree m p q]: the member [m] has the same value in [p] and in [q]. *)
Definition agree (m : member) (p q : cs_equation_param_t) : Prop :=
  match m with
  | eqp_type => eq_type p = eq_type q
  | eqp_var_type => var_type p = var_type q
  | eqp_verbosity => verbosity p = verbosity q
  | eqp_sles_verbosity => sles_verbosity p = sles_verbosity q
  | eqp_process_flag => process_flag p = process_flag q
  | eqp_flag => flag p = flag q
  | eqp_space_scheme => space_scheme p = space_scheme q
  | eqp_time_hodge_inv_pty => inv_pty (time_hodge p) = inv_pty (time_hodge q)
  | eqp_time_hodge_type => hodge_type (time_hodge p) = hodge_type (time_hodge q)
  | eqp_time_hodge_algo => hodge_algo (time_hodge p) = hodge_algo (time_hodge q)
  | eqp_time_hodge_coef => hodge_coef (time_hodge p) = hodge_coef (time_hodge q)
  | eqp_time_property => time_property p = time_property q
  | eqp_time_scheme => time_scheme (time_info p) = time_scheme (time_info q)
  | eqp_time_theta => theta (time_info p) = theta (time_info q)
  | eqp_time_do_lumping => time_do_lumping (time_info p) = time_do_lumping (time_info q)
  | eqp_n_ic_definitions => n_ic_definitions (time_info p) = n_ic_definitions (time_info q)
  | eqp_ic_definitions => ic_definitions (time_info p) = ic_definitions (time_info q)
  | eqp_diffusion_property => diffusion_property p = diffusion_property q
  | eqp_diffusion_hodge_inv_pty => inv_pty (diffusion_hodge p) = inv_pty (diffusion_hodge q)
  | eqp_diffusion_hodge_type => hodge_type (diffusion_hodge p) = hodge_type (diffusion_hodge q)
  | eqp_diffusion_hodge_algo => hodge_algo (diffusion_hodge p) = hodge_algo (diffusion_hodge q)
  | eqp_diffusion_hodge_coef => hodge_coef (diffusion_hodge p) = hodge_coef (diffusion_hodge q)
  | eqp_advection_formulation => formulation (advection_info p) = formulation (advection_info q)
  | eqp_advection_weight_algo => weight_algo (advection_info p) = weight_algo (advection_info q)
  | eqp_advection_weight_criterion => weight_criterion (advection_info p) = weight_criterion (advection_info q)
  | eqp_advection_quad_type => adv_quad_type (advection_info p) = adv_quad_type (advection_info q)
  | eqp_advection_field => advection_field p = advection_field q
  | eqp_n_reaction_terms => n_reaction_terms p = n_reaction_terms q
  | eqp_reaction_terms => reaction_terms p = reaction_terms q
  | eqp_reaction_properties => reaction_properties p = reaction_properties q
  | eqp_n_source_terms => n_source_terms p = n_source_terms q
  | eqp_source_terms => source_terms p = source_terms q
  | eqp_bc_default_bc => default_bc (bc p) = default_bc (bc q)
  | eqp_bc_enforcement => enforcement (bc p) = enforcement (bc q)
  | eqp_bc_quad_type => bc_quad_type (bc p) = bc_quad_type (bc q)
  | eqp_bc_use_subdiv => use_subdiv (bc p) = use_subdiv (bc q)
  | eqp_bc_n_defs => n_defs (bc p) = n_defs (bc q)
  | eqp_bc_defs => defs (bc p) = defs (bc q)
  | eqp_algo_type => algo_type (algo_info p) = algo_type (algo_info q)
  | eqp_algo_n_iters => n_iters (algo_info p) = n_iters (algo_info q)
  | eqp_algo_n_max_iters => n_max_iters (algo_info p) = n_max_iters (algo_info q)
  | eqp_algo_n_cumulated_iters => n_cumulated_iters (algo_info p) = n_cumulated_iters (algo_info q)
  | eqp_algo_n_max_cumulated_iters => n_max_cumulated_iters (algo_info p) = n_max_cumulated_iters (algo_info q)
  | eqp_algo_eps => algo_eps (algo_info p) = algo_eps (algo_info q)
  | eqp_itsol_precond => precond (itsol_info p) = precond (itsol_info q)
  | eqp_itsol_solver => solver (itsol_info p) = solver (itsol_info q)
  | eqp_itsol_n_max_iter => n_max_iter (itsol_info p) = n_max_iter (itsol_info q)
  | eqp_itsol_eps => eps (itsol_info p) = eps (itsol_info q)
  | eqp_itsol_output_freq => output_freq (itsol_info p) = output_freq (itsol_info q)
  | eqp_itsol_resid_normalized => resid_normalized (itsol_info p) = resid_normalized (itsol_info q)
  end.

(** The members the case of a key assigns. *)
Definition field_group (key : eqkey_t) : list member :=
  match key with
  | EQKEY_SPACE_SCHEME =>
      [eqp_space_scheme; eqp_time_hodge_type; eqp_diffusion_hodge_type]
  | EQKEY_HODGE_DIFF_ALGO => [eqp_diffusion_hodge_algo]
  | EQKEY_HODGE_DIFF_COEF => [eqp_diffusion_hodge_coef]
  | EQKEY_HODGE_TIME_ALGO => [eqp_time_hodge_algo]
  | EQKEY_HODGE_TIME_COEF => [eqp_time_hodge_coef]
  | EQKEY_ITSOL => [eqp_itsol_solver]
  | EQKEY_ITSOL_EPS => [eqp_itsol_eps]
  | EQKEY_ITSOL_MAX_ITER => [eqp_itsol_n_max_iter]
  | EQKEY_ITSOL_RESNORM => [eqp_itsol_resid_normalized]
  | EQKEY_PRECOND => [eqp_itsol_precond]
  | EQKEY_SOLVER_FAMILY => [eqp_algo_type]
  | EQKEY_VERBOSITY => [eqp_verbosity]
  | EQKEY_SLES_VERBOSITY => [eqp_sles_verbosity]
  | EQKEY_BC_ENFORCEMENT => [eqp_bc_enforcement]
  | EQKEY_BC_QUADRATURE => [eqp_bc_use_subdiv; eqp_bc_quad_type]
  | EQKEY_EXTRA_OP => [eqp_process_flag]
  | EQKEY_ADV_OP_TYPE => [eqp_advection_formulation]
  | EQKEY_ADV_WEIGHT_ALGO => [eqp_advection_weight_algo]
  | EQKEY_ADV_WEIGHT_CRIT => [eqp_advection_weight_criterion]
  | EQKEY_ADV_FLUX_QUADRA => [eqp_advection_quad_type]
  | EQKEY_TIME_SCHEME => [eqp_time_scheme; eqp_time_theta]
  | EQKEY_TIME_THETA => [eqp_time_theta]
  | EQKEY_ERROR => []
  end.

Definition member_eqb (m n : member) : bool :=
  match m, n with
  | eqp_type, eqp_type => true
  | eqp_var_type, eqp_var_type => true
  | eqp_verbosity, eqp_verbosity => true
  | eqp_sles_verbosity, eqp_sles_verbosity => true
  | eqp_process_flag, eqp_process_flag => true
  | eqp_flag, eqp_flag => true
  | eqp_space_scheme, eqp_space_scheme => true
  | eqp_time_hodge_inv_pty, eqp_time_hodge_inv_pty => true
  | eqp_time_hodge_type, eqp_time_hodge_type => true
  | eqp_time_hodge_algo, eqp_time_hodge_algo => true
  | eqp_time_hodge_coef, eqp_time_hodge_coef => true
  | eqp_time_property, eqp_time_property => true
  | eqp_time_scheme, eqp_time_scheme => true
  | eqp_time_theta, eqp_time_theta => true
  | eqp_time_do_lumping, eqp_time_do_lumping => true
  | eqp_n_ic_definitions, eqp_n_ic_definitions => true
  | eqp_ic_definitions, eqp_ic_definitions => true
  | eqp_diffusion_property, eqp_diffusion_property => true
  | eqp_diffusion_hodge_inv_pty, eqp_diffusion_hodge_inv_pty => true
  | eqp_diffusion_hodge_type, eqp_diffusion_hodge_type => true
  | eqp_diffusion_hodge_algo, eqp_diffusion_hodge_algo => true
  | eqp_diffusion_hodge_coef, eqp_diffusion_hodge_coef => true
  | eqp_advection_formulation, eqp_advection_formulation => true
  | eqp_advection_weight_algo, eqp_advection_weight_algo => true
  | eqp_advection_weight_criterion, eqp_advection_weight_criterion => true
  | eqp_advection_quad_type, eqp_advection_quad_type => true
  | eqp_advection_field, eqp_advection_field => true
  | eqp_n_reaction_terms, eqp_n_reaction_terms => true
  | eqp_reaction_terms, eqp_reaction_terms => true
  | eqp_reaction_properties, eqp_reaction_properties => true
  | eqp_n_source_terms, eqp_n_source_terms => true
  | eqp_source_terms, eqp_source_terms => true
  | eqp_bc_default_bc, eqp_bc_default_bc => true
  | eqp_bc_enforcement, eqp_bc_enforcement => true
  | eqp_bc_quad_type, eqp_bc_quad_type => true
  | eqp_bc_use_subdiv, eqp_bc_use_subdiv => true
  | eqp_bc_n_defs, eqp_bc_n_defs => true
  | eqp_bc_defs, eqp_bc_defs => true
  | eqp_algo_type, eqp_algo_type => true
  | eqp_algo_n_iters, eqp_algo_n_iters => true
  | eqp_algo_n_max_iters, eqp_algo_n_max_iters => true
  | eqp_algo_n_cumulated_iters, eqp_algo_n_cumulated_iters => true
  | eqp_algo_n_max_cumulated_iters, eqp_algo_n_max_cumulated_iters => true
  | eqp_algo_eps, eqp_algo_eps => true
  | eqp_itsol_precond, eqp_itsol_precond => true
  | eqp_itsol_solver, eqp_itsol_solver => true
  | eqp_itsol_n_max_iter, eqp_itsol_n_max_iter => true
  | eqp_itsol_eps, eqp_itsol_eps => true
  | eqp_itsol_output_freq, eqp_itsol_output_freq => true
  | eqp_itsol_resid_normalized, eqp_itsol_resid_normalized => true
  | _, _ => false
  end.

Definition in_group (m : member) (key : eqkey_t) : bool :=
  existsb (member_eqb m) (field_group key).

(** ** The registrations in one step *)

(** What [cs_equation_link] does to the parameter set, [None] for a keyword
    it does not know. *)
Definition link_update (X : environment) (keyword : string) (pointer : ptr)
  : option (cs_equation_param_t -> cs_equation_param_t) :=
  if strcmp_eq "diffusion" keyword then
    Some (fun p =>
      set_diffusion_property pointer (raise_flag (CS_EQUATION_DIFFUSION X) p))
  else if strcmp_eq "time" keyword then
    Some (fun p => set_time_property pointer (raise_flag (CS_EQUATION_UNSTEADY X) p))
  else if strcmp_eq "advection" keyword then
    Some (fun p =>
      set_advection_field pointer (raise_flag (CS_EQUATION_CONVECTION X) p))
  else None.

Definition def_type_of_key (def_key : string) : option cs_param_def_type_t :=
  if strcmp_eq def_key "value" then Some CS_PARAM_DEF_BY_VALUE
  else if strcmp_eq def_key "array" then Some CS_PARAM_DEF_BY_ARRAY
  else if strcmp_eq def_key "analytic" then Some CS_PARAM_DEF_BY_ANALYTIC_FUNCTION
  else if strcmp_eq def_key "user" then Some CS_PARAM_DEF_BY_USER_FUNCTION
  else None.

Definition bc_type_of_key (bc_key : string) : option cs_param_bc_type_t :=
  if strcmp_eq bc_key "dirichlet" then Some CS_PARAM_BC_DIRICHLET
  else if strcmp_eq bc_key "neumann" then Some CS_PARAM_BC_NEUMANN
  else if strcmp_eq bc_key "robin" then Some CS_PARAM_BC_ROBIN
  else None.

(** The kind [cs_equation_add_bc] records for the kind [bc_type] asked for:
    the test of a homogeneous boundary condition. *)
Definition recorded_bc_type (X : environment) (var_type : cs_param_var_type_t)
  (def_type : cs_param_def_type_t) (bc_type : cs_param_bc_type_t) (val : string)
  : cs_param_bc_type_t :=
  match def_type, var_type with
  | CS_PARAM_DEF_BY_VALUE, CS_PARAM_VAR_SCAL =>
      if (PrimFloat.abs (atof X val) <? DBL_MIN)%float then
        match bc_type with
        | CS_PARAM_BC_DIRICHLET => CS_PARAM_BC_HMG_DIRICHLET
        | CS_PARAM_BC_NEUMANN => CS_PARAM_BC_HMG_NEUMANN
        | _ => bc_type
        end
      else bc_type
  | _, _ => bc_type
  end.

(** The parameter set once [cs_equation_add_bc] has counted the new
    definition, and once it has stored it. *)
Definition bc_counted (p : cs_equation_param_t) : cs_equation_param_t :=
  in_bc (fun b => set_n_defs (n_defs b + 1) b) p.

Definition bc_stored (d : cs_param_bc_def_t) (p : cs_equation_param_t)
  : cs_equation_param_t :=
  in_bc (fun b => set_defs (array_store (defs b) (n_defs (bc p)) d) b)
    (bc_counted p).

(** The parameter set once [cs_equation_add_reaction] has counted the new
    term and stored its property, and once it has stored the term. *)
Definition reaction_counted (property : ptr) (p : cs_equation_param_t)
  : cs_equation_param_t :=
  set_reaction_properties
    (array_store (reaction_properties p) (n_reaction_terms p) property)
    (set_n_reaction_terms (n_reaction_terms p + 1) p).

Definition reaction_stored (X : environment) (r : cs_param_reaction_t)
  (property : ptr) (p : cs_equation_param_t) : cs_equation_param_t :=
  raise_flag (CS_EQUATION_REACTION X)
    (set_reaction_terms
       (array_store (reaction_terms p) (n_reaction_terms p) r)
       (reaction_counted property p)).

(** The name of a reaction term registered without a name. *)
Definition reaction_default_name (r_id : Z) : string :=
  "reaction_" ++ sprintf_02d r_id.

(** All the terms of the list have another name than [r_name]. *)
Definition unused_name (r_name : string) (terms : list cs_param_reaction_t) : Prop :=
  Forall (fun t => strcmp_eq (reaction_name t) r_name = false) terms.

(** The counters of the reaction terms agree with the arrays. *)
Definition reactions_consistent (p : cs_equation_param_t) : Prop :=
  n_reaction_terms p = Z.of_nat (length (reaction_terms p))
  /\ length (reaction_properties p) = length (reaction_terms p).

(** The counter of the boundary-condition definitions agrees with the array. *)
Definition definitions_consistent (p : cs_equation_param_t) : Prop :=
  n_defs (bc p) = Z.of_nat (length (defs (bc p))).

(** ** The field of an equation

    [cs_equation_build_system] reads the values of the field of the
    equation, and [cs_equation_solve] its dimension and its values. *)

(** The field of the equation exists. *)
Definition field_exists (X : environment) (e : cs_equation_t) : bool :=
  negb (ptr_eqb (cs_field_by_id X (field_id e)) NULL).

(** The field of the equation exists and is scalar and, when the matrix has
    a row, the values of the field and the buffer the function [t] of the
    scheme returns are allocated. *)
Definition field_solvable (X : environment) (e : cs_equation_t)
  (t : scheme_function) : bool :=
  let fld := cs_field_by_id X (field_id e) in
  field_exists X e
  && (cs_field_dim X fld =? 1)
  && (negb (0 <? cs_matrix_get_n_rows X (matrix e))
      || negb (ptr_eqb (cs_field_val X fld) NULL
               || ptr_eqb (scheme_tmpbuf X t) NULL)).

(** ** The lock and the calls that configure an equation *)

Definition is_locked (X : environment) (s : state) : Prop :=
  exists e, obj s = Some e
            /\ has_flag (flag (param e)) (CS_EQUATION_LOCKED X) = true.

(** One call that configures the equation and returns. *)
Inductive configures (X : environment) : state -> state -> Prop :=
| configures_set_option (keyname val : string) (s s' : state) :
    cs_equation_set_option X keyname val s = Normal tt s' ->
    configures X s s'
| configures_link (keyword : string) (pointer : ptr) (s s' : state) :
    cs_equation_link X keyword pointer s = Normal tt s' ->
    configures X s s'
| configures_add_bc (ml_name bc_key def_key val : string) (s s' : state) :
    cs_equation_add_bc X ml_name bc_key def_key val s = Normal tt s' ->
    configures X s s'
| configures_add_reaction (r_name : option string) (type_name : string)
    (property : ptr) (s s' : state) :
    cs_equation_add_reaction X r_name type_name property s = Normal tt s' ->
    configures X s s'.

(** Any number of such calls, one after the other. *)
Inductive later (X : environment) : state -> state -> Prop :=
| later_now (s : state) : later X s s
| later_call (s s1 s2 : state) :
    configures X s s1 -> later X s1 s2 -> later X s s2.

(** ** The pairs of the in-house family

    The pairs of an iterative solver and a preconditioner the specification
    lists for the in-house family, and those for which [_sles_initialization]
    returns. *)

Definition in_house_documented (sv : cs_param_itsol_type_t)
  (pc : cs_param_precond_type_t) : bool :=
  match pc with
  | CS_PARAM_PRECOND_DIAG | CS_PARAM_PRECOND_POLY1 => true
  | _ => false
  end.

Definition in_house_initialized (sv : cs_param_itsol_type_t)
  (pc : cs_param_precond_type_t) : bool :=
  match sv with
  | CS_PARAM_ITSOL_AMG => false
  | _ => in_house_documented sv pc
  end.

(** The equation with the in-house family, a solver and a preconditioner. *)
Definition in_house (sv : cs_param_itsol_type_t) (pc : cs_param_precond_type_t)
  (e : cs_equation_t) : cs_equation_t :=
  set_param
    (in_algo_info (set_algo_type CS_EQUATION_ALGO_CS_ITSOL)
       (in_itsol_info (fun i => set_solver sv (set_precond pc i)) (param e)))
    e.

(** ** A reference environment

    A build without PETSc, the masks as successive bits, the four mesh
    locations every run defines, and the C library's [atoi] and [atof] on
    decimal text ([atof] rounds to the nearest binary64, ties to even). *)

Module Reference.

Definition digit_of (c : ascii) : option Z :=
  let n := Z.of_nat (nat_of_ascii c) in
  if (48 <=? n) && (n <=? 57) then Some (n - 48) else None.

Definition isspace (c : ascii) : bool :=
  let n := Z.of_nat (nat_of_ascii c) in
  (n =? 32) || ((9 <=? n) && (n <=? 13)).

Fixpoint skip_spaces (s : string) : string :=
  match s with
  | String c s' => if isspace c then skip_spaces s' else s
  | EmptyString => s
  end.

Fixpoint read_digits (s : string) (acc count : Z) : Z * Z * string :=
  match s with
  | String c s' =>
      match digit_of c with
      | Some d => read_digits s' (10 * acc + d) (count + 1)
      | None => (acc, count, s)
      end
  | EmptyString => (acc, count, s)
  end.

Definition read_sign (s : string) : bool * string :=
  match s with
  | String "-" s' => (true, s')
  | String "+" s' => (false, s')
  | _ => (false, s)
  end.

Definition atoi_decimal (s : string) : Z :=
  let '(neg, s) := read_sign (skip_spaces s) in
  let '(v, _, _) := read_digits s 0 0 in
  if neg then - v else v.

(** The binary64 number nearest to [n / d], for [0 <= n] and [0 < d]. *)
Definition round_ratio (n d : Z) : float :=
  if n =? 0 then 0%float
  else
    let scaled (e2 : Z) : Z * Z :=
      if 0 <=? e2 then (n, d * 2 ^ e2) else (n * 2 ^ (- e2), d) in
    let quot (e2 : Z) : Z := let '(a, b) := scaled e2 in a / b in
    let e0 := Z.log2 n - Z.log2 d - 52 in
    let e1 := if 2 ^ 53 <=? quot e0 then e0 + 1
              else if quot e0 <? 2 ^ 52 then e0 - 1 else e0 in
    let e2 := Z.max e1 (-1074) in
    let '(a, b) := scaled e2 in
    let q := a / b in
    let r := a mod b in
    let q' := if (b <? 2 * r) || ((b =? 2 * r) && Z.odd q) then q + 1 else q in
    if 1024 <? e2 then infinity
    else Z.ldexp (PrimFloat.of_uint63 (Uint63.of_Z q')) e2.

Definition atof_decimal (s : string) : float :=
  let '(neg, s) := read_sign (skip_spaces s) in
  let '(ip, ni, s) := read_digits s 0 0 in
  let '(m, nf, s) :=
    match s with
    | String "." s' => read_digits s' ip 0
    | _ => (ip, 0, s)
    end in
  if ni + nf =? 0 then 0%float
  else
    let e10 :=
      match s with
      | String c s' =>
          if (Ascii.eqb c "e" || Ascii.eqb c "E")%char then
            let '(eneg, s'') := read_sign s' in
            let '(ev, ne, _) := read_digits s'' 0 0 in
            if ne =? 0 then 0 else if eneg then - ev else ev
          else 0
      | EmptyString => 0
      end in
    let ex := e10 - nf in
    let v := round_ratio (m * 10 ^ Z.max ex 0) (10 ^ Z.max (- ex) 0) in
    if neg then PrimFloat.opp v else v.

Definition mesh_location_id (ml_name : string) : Z :=
  if strcmp_eq ml_name "cells" then 1
  else if strcmp_eq ml_name "interior_faces" then 2
  else if strcmp_eq ml_name "boundary_faces" then 3
  else if strcmp_eq ml_name "vertices" then 4
  else -1.

Definition env : environment :=
  {| HAVE_PETSC := false;
     CS_EQUATION_LOCKED := 1;
     CS_EQUATION_UNSTEADY := 2;
     CS_EQUATION_CONVECTION := 4;
     CS_EQUATION_DIFFUSION := 8;
     CS_EQUATION_REACTION := 16;
     CS_EQUATION_HCONF_ST := 32;
     CS_EQUATION_POST_PECLET := 1;
     CS_EQUATION_POST_UPWIND_COEF := 2;
     CS_EQUATION_POST_NONE := 4;
     atof := atof_decimal;
     atoi := atoi_decimal;
     malloc_time_hodge_coef := 0%float;
     new_bc_enforcement := CS_PARAM_BC_ENFORCE_WEAK_PENA;
     new_bc_quad_type := CS_QUADRATURE_BARY;
     new_bc_use_subdiv := false;
     new_reaction_inv_pty := false;
     new_reaction_coef := 1%float;
     new_reaction_do_lumping := false;
     cs_mesh_location_get_id_by_name := mesh_location_id;
     cs_timer_stats_create := fun _ _ _ => 0;
     cs_field_by_id := fun id => if id <? 0 then NULL else Addr (Z.to_pos (id + 1));
     cs_field_dim := fun _ => 1;
     cs_field_val := fun _ => Addr 30;
     PetscInitialized := false;
     scheme_build_system := fun _ _ =>
       Some {| built_rhs := Addr 1; sla_mat_is_msr := true |};
     cs_matrix_structure_create_msr := Addr 2;
     cs_matrix_create := fun _ => Addr 3;
     cs_matrix_get_n_rows := fun _ => 8;
     cs_euclidean_norm := fun _ _ => 1%float;
     scheme_get_face_values := fun _ _ _ => Addr 4;
     scheme_tmpbuf := fun _ => Addr 9 |}.

(** The same, built with PETSc. *)
Definition env_petsc : environment :=
  {| HAVE_PETSC := true;
     CS_EQUATION_LOCKED := CS_EQUATION_LOCKED env;
     CS_EQUATION_UNSTEADY := CS_EQUATION_UNSTEADY env;
     CS_EQUATION_CONVECTION := CS_EQUATION_CONVECTION env;
     CS_EQUATION_DIFFUSION := CS_EQUATION_DIFFUSION env;
     CS_EQUATION_REACTION := CS_EQUATION_REACTION env;
     CS_EQUATION_HCONF_ST := CS_EQUATION_HCONF_ST env;
     CS_EQUATION_POST_PECLET := CS_EQUATION_POST_PECLET env;
     CS_EQUATION_POST_UPWIND_COEF := CS_EQUATION_POST_UPWIND_COEF env;
     CS_EQUATION_POST_NONE := CS_EQUATION_POST_NONE env;
     atof := atof_decimal;
     atoi := atoi_decimal;
     malloc_time_hodge_coef := malloc_time_hodge_coef env;
     new_bc_enforcement := new_bc_enforcement env;
     new_bc_quad_type := new_bc_quad_type env;
     new_bc_use_subdiv := new_bc_use_subdiv env;
     new_reaction_inv_pty := new_reaction_inv_pty env;
     new_reaction_coef := new_reaction_coef env;
     new_reaction_do_lumping := new_reaction_do_lumping env;
     cs_mesh_location_get_id_by_name := mesh_location_id;
     cs_timer_stats_create := cs_timer_stats_create env;
     cs_field_by_id := cs_field_by_id env;
     cs_field_dim := cs_field_dim env;
     cs_field_val := cs_field_val env;
     PetscInitialized := false;
     scheme_build_system := scheme_build_system env;
     cs_matrix_structure_create_msr := cs_matrix_structure_create_msr env;
     cs_matrix_create := cs_matrix_create env;
     cs_matrix_get_n_rows := cs_matrix_get_n_rows env;
     cs_euclidean_norm := cs_euclidean_norm env;
     scheme_get_face_values := scheme_get_face_values env;
     scheme_tmpbuf := scheme_tmpbuf env |}.

(** A scalar user equation as [cs_equation_create] returns it, and the state
    in which [eq] points to it and no call has been made. *)
Definition eq0 : cs_equation_t :=
  cs_equation_create env "WallDistance" "WallDistance"
    CS_EQUATION_TYPE_PREDEFINED CS_PARAM_VAR_SCAL CS_PARAM_BC_HMG_NEUMANN.

Definition start (e : cs_equation_t) : state := {| obj := Some e; log := [] |}.

Definition null_state : state := {| obj := None; log := [] |}.

(** The state a computation ends in, [s] when it has none. *)
Definition final (A : Type) (r : outcome A) (s : state) : state :=
  match r with
  | Normal _ s' => s'
  | Fatal _ s' => s'
  | Undefined _ => s
  end.

(** The equation after [cs_equation_last_setup]. *)
Definition locked_state : state :=
  final (cs_equation_last_setup env (start eq0)) (start eq0).

(** The equation an outcome ends with, [eq0] when it has none. *)
Definition final_eq (s : state) : cs_equation_t :=
  match obj s with
  | Some e => e
  | None => eq0
  end.

(** An unsteady equation: [eq0] linked to a property for its time term, then
    set up. *)
Definition unsteady_eq : cs_equation_t :=
  let s := start eq0 in
  let s := final (cs_equation_link env "time" (Addr 5) s) s in
  let s := final (cs_equation_last_setup env s) s in
  final_eq s.

End Reference.

(** * The operations of a run

    What the operations leave, written in one step, and the sequences of
    operations a run makes. *)

(** ** Last setup in one step *)

(** The equation once [cs_equation_last_setup] has created the timers its
    verbosity asks for. *)
Definition timers_created (X : environment) (e : cs_equation_t) : cs_equation_t :=
  if verbosity (param e) >? 0 then
    let e1 :=
      set_main_ts_id (cs_timer_stats_create X "stages" (name e) (name e)) e in
    if verbosity (param e) >? 1 then
      let pre := name e ++ "_pre" in
      let solve := name e ++ "_solve" in
      let extra_op := name e ++ "_extra_op" in
      set_extra_op_ts_id (cs_timer_stats_create X (name e) extra_op extra_op)
        (set_solve_ts_id (cs_timer_stats_create X (name e) solve solve)
           (set_pre_ts_id (cs_timer_stats_create X (name e) pre pre) e1))
    else e1
  else e.

(** The test of the loop on the reaction terms: a vertex-based scheme, the
    flag of a reaction and a term whose Hodge operator is built by WBS. *)
Definition needs_hconf_st (X : environment) (p : cs_equation_param_t) : bool :=
  match space_scheme p with CS_SPACE_SCHEME_CDOVB => true | _ => false end
  && has_flag (flag p) (CS_EQUATION_REACTION X)
  && existsb
       (fun r_info =>
          match hodge_algo (reaction_hodge r_info) with
          | CS_PARAM_HODGE_ALGO_WBS => true
          | _ => false
          end)
       (firstn (Z.to_nat (n_reaction_terms p)) (reaction_terms p)).

(** The equation [cs_equation_last_setup] leaves when it returns. *)
Definition set_up (X : environment) (e : cs_equation_t) : cs_equation_t :=
  let e1 := timers_created X e in
  let e2 :=
    match space_scheme (param e) with
    | CS_SPACE_SCHEME_CDOFB => cdofb_functions e1
    | _ => cdovb_functions e1
    end in
  let p := param e in
  let p1 := if needs_hconf_st X p then raise_flag (CS_EQUATION_HCONF_ST X) p else p in
  set_param (raise_flag (CS_EQUATION_LOCKED X) p1) e2.

(** ** The operations of a run *)

(** One call that returns, of an operation that configures the equation,
    sets it up, builds its system, solves it or post-processes it. *)
Inductive operates (X : environment) : state -> state -> Prop :=
| operates_configures (s s' : state) :
    configures X s s' -> operates X s s'
| operates_last_setup (s s' : state) :
    cs_equation_last_setup X s = Normal tt s' -> operates X s s'
| operates_build_system (nt_cur : Z) (s s' : state) :
    cs_equation_build_system X nt_cur s = Normal tt s' -> operates X s s'
| operates_solve (do_logcvg : bool) (s s' : state) :
    cs_equation_solve X do_logcvg s = Normal tt s' -> operates X s s'
| operates_extra_op (s s' : state) :
    cs_equation_extra_op X s = Normal tt s' -> operates X s s'.

(** Any number of calls of a kind, one after the other. *)
Inductive many (call : state -> state -> Prop) : state -> state -> Prop :=
| many_none (s : state) : many call s s
| many_more (s s1 s2 : state) : call s s1 -> many call s1 s2 -> many call s s2.

(** The bits raised in [flag] are raised in [flag']. *)
Definition bits_kept (flag flag' : Z) : Prop := Z.lor flag flag' = flag'.

(** The function pointers the operations of a time step call through. *)
Definition functions_set (e : cs_equation_t) : Prop :=
  init_builder e <> None /\ free_builder e <> None /\ build_system e <> None
  /\ compute_source e <> None /\ update_field e <> None
  /\ postprocess e <> None /\ get_tmpbuf e <> None.

(** The system [cs_equation_build_system] leaves: the right-hand side of the
    builder, the matrix structure and the matrix created when the equation
    has none, the flag of staleness cleared. *)
Definition system_built (X : environment) (b : built_system_t)
  (e : cs_equation_t) : cs_equation_t :=
  let e1 := set_rhs (built_rhs b) e in
  let e2 := if ptr_eqb (ms e1) NULL
            then set_ms (cs_matrix_structure_create_msr X) e1 else e1 in
  let e3 := if ptr_eqb (matrix e2) NULL
            then set_matrix (cs_matrix_create X (ms e2)) e2 else e2 in
  set_do_build false e3.

(** One call that returns, of an operation of a time step that leaves the
    system as it is. *)
Inductive advances (X : environment) : state -> state -> Prop :=
| advances_solve (do_logcvg : bool) (s s' : state) :
    cs_equation_solve X do_logcvg s = Normal tt s' -> advances X s s'
| advances_extra_op (s s' : state) :
    cs_equation_extra_op X s = Normal tt s' -> advances X s s'.

(** The three terms [cs_equation_link] knows, each with the flag of its
    presence and the member that holds what is linked. *)
Definition linked_terms (X : environment) : list (string * Z * member) :=
  [("diffusion", CS_EQUATION_DIFFUSION X, eqp_diffusion_property);
   ("time", CS_EQUATION_UNSTEADY X, eqp_time_property);
   ("advection", CS_EQUATION_CONVECTION X, eqp_advection_field)].

(** The pointer a member of the parameter set holds, for the members that
    hold one. *)
Definition linked (m : member) (p : cs_equation_param_t) : ptr :=
  match m with
  | eqp_diffusion_property => diffusion_property p
  | eqp_time_property => time_property p
  | eqp_advection_field => advection_field p
  | _ => NULL
  end.

(** Two keys whose cases assign no common member. *)
Definition independent (k1 k2 : eqkey_t) : bool :=
  forallb (fun m => negb (in_group m k2)) (field_group k1).

(** ** The couples of the PETSc family

    The matrix type and the setup hook [_sles_initialization] registers for
    a solver and a preconditioner, and the options it sets before. *)

Definition petsc_couple (sv : cs_param_itsol_type_t) (pc : cs_param_precond_type_t)
  : option (petsc_mat_t * petsc_hook_t) :=
  match sv, pc with
  | CS_PARAM_ITSOL_CG, CS_PARAM_PRECOND_DIAG => Some (MATMPIAIJ, _cg_diag_setup_hook)
  | CS_PARAM_ITSOL_CG, CS_PARAM_PRECOND_SSOR => Some (MATSEQAIJ, _cg_ssor_setup_hook)
  | CS_PARAM_ITSOL_CG, CS_PARAM_PRECOND_ICC0 => Some (MATSEQAIJ, _cg_icc_setup_hook)
  | CS_PARAM_ITSOL_CG, CS_PARAM_PRECOND_AMG => Some (MATMPIAIJ, _cg_bamg_setup_hook)
  | CS_PARAM_ITSOL_CG, CS_PARAM_PRECOND_AS => Some (MATMPIAIJ, _cg_as_setup_hook)
  | CS_PARAM_ITSOL_GMRES, CS_PARAM_PRECOND_ILU0 =>
      Some (MATSEQAIJ, _gmres_ilu_setup_hook)
  | CS_PARAM_ITSOL_GMRES, CS_PARAM_PRECOND_DIAG =>
      Some (MATMPIAIJ, _gmres_bjacobi_setup_hook)
  | CS_PARAM_ITSOL_BICG, CS_PARAM_PRECOND_ILU0 =>
      Some (MATSEQAIJ, _bicg_ilu_setup_hook)
  | CS_PARAM_ITSOL_BICG, CS_PARAM_PRECOND_DIAG =>
      Some (MATMPIAIJ, _bicg_bjacobi_setup_hook)
  | _, _ => None
  end.

Definition petsc_options (sv : cs_param_itsol_type_t) (pc : cs_param_precond_type_t)
  : list event :=
  match sv, pc with
  | CS_PARAM_ITSOL_CG, CS_PARAM_PRECOND_AMG =>
      [PetscOptionsSetValue "-pc_type" "hypre";
       PetscOptionsSetValue "-pc_hypre_type" "boomeramg";
       PetscOptionsSetValue "-pc_hypre_boomeramg_coarsen_type" "HMIS";
       PetscOptionsSetValue "-pc_hypre_boomeramg_interp_type" "ext+i-cc";
       PetscOptionsSetValue "-pc_hypre_boomeramg_agg_nl" "2";
       PetscOptionsSetValue "-pc_hypre_boomeramg_P_max" "4";
       PetscOptionsSetValue "-pc_hypre_boomeramg_strong_threshold" "0.5";
       PetscOptionsSetValue "-pc_hypre_boomeramg_no_CF" EmptyString]
  | _, _ => []
  end.

(** The function pointers of an equation, in the order of the structure. *)
Definition functions (e : cs_equation_t) : list (option scheme_function) :=
  [init_builder e; free_builder e; build_system e; compute_source e;
   update_field e; postprocess e; get_f_values e; get_tmpbuf e].

(** The members of the equation that are neither a timer nor a function
    pointer nor the parameter set. *)
Definition same_system (e e' : cs_equation_t) : Prop :=
  name e' = name e /\ varname e' = varname e /\ field_id e' = field_id e
  /\ do_build e' = do_build e /\ ms e' = ms e /\ matrix e' = matrix e
  /\ rhs e' = rhs e /\ builder e' = builder e.

(** The reaction terms all have the name given to a term registered without
    a name: the term of index [i] is named after [i]. *)
Definition unnamed_terms (p : cs_equation_param_t) : Prop :=
  forall i t, nth_error (reaction_terms p) i = Some t ->
              reaction_name t = reaction_default_name (Z.of_nat i).

(** The first of the three tests of [cs_equation_add_bc] that fails. *)
Definition add_bc_error (X : environment) (ml_name bc_key def_key : string)
  : option bft_error_t :=
  if cs_mesh_location_get_id_by_name X ml_name =? -1
  then Some (InvalidMeshLocation ml_name)
  else match def_type_of_key def_key, bc_type_of_key bc_key with
       | None, _ => Some (InvalidDefinitionKind def_key)
       | Some _, None => Some (InvalidBCKind bc_key)
       | Some _, Some _ => None
       end.

(** What every operation keeps: the names, the bits raised in the two flags
    and, once they are set, the function pointers. *)
Definition kept (e e' : cs_equation_t) : Prop :=
  name e' = name e /\ varname e' = varname e
  /\ bits_kept (flag (param e)) (flag (param e'))
  /\ bits_kept (process_flag (param e)) (process_flag (param e'))
  /\ (functions_set e -> functions_set e').

(** * The options of the terms, the initial condition, the source terms, the
      field and the initialization of the system

    The operations of this part hand [bft_error] messages and call
    collaborators the operations above have no name for.  Their executions
    are written in the same way, with a prime: a trace of [event'], which is
    an [event] or one of the further calls, and errors of [bft_error_t'],
    which is a [bft_error_t] or one of the further messages. *)

(** ** Assignments to one member, continued *)

Definition set_inv_pty (v : bool) (h : cs_param_hodge_t) : cs_param_hodge_t :=
  {| inv_pty := v; hodge_type := hodge_type h; hodge_algo := hodge_algo h;
     hodge_coef := hodge_coef h |}.

Definition set_reaction_hodge (v : cs_param_hodge_t) (r : cs_param_reaction_t)
  : cs_param_reaction_t :=
  {| reaction_name := reaction_name r; reaction_type := reaction_type r;
     reaction_hodge := v; reaction_do_lumping := reaction_do_lumping r |}.

Definition set_reaction_do_lumping (v : bool) (r : cs_param_reaction_t)
  : cs_param_reaction_t :=
  {| reaction_name := reaction_name r; reaction_type := reaction_type r;
     reaction_hodge := reaction_hodge r; reaction_do_lumping := v |}.

(** [r] after [f] has been applied to its member [hodge]. *)
Definition in_reaction_hodge (f : cs_param_hodge_t -> cs_param_hodge_t)
  (r : cs_param_reaction_t) : cs_param_reaction_t :=
  set_reaction_hodge (f (reaction_hodge r)) r.

Definition set_n_ic_definitions (v : Z) (t : cs_param_time_t) : cs_param_time_t :=
  {| time_scheme := time_scheme t; theta := theta t;
     time_do_lumping := time_do_lumping t; n_ic_definitions := v;
     ic_definitions := ic_definitions t |}.

Definition set_ic_definitions (v : list cs_param_def_t) (t : cs_param_time_t)
  : cs_param_time_t :=
  {| time_scheme := time_scheme t; theta := theta t;
     time_do_lumping := time_do_lumping t;
     n_ic_definitions := n_ic_definitions t; ic_definitions := v |}.

Definition set_n_source_terms (v : Z) (p : cs_equation_param_t)
  : cs_equation_param_t :=
  {| eq_type := eq_type p; var_type := var_type p; verbosity := verbosity p;
     sles_verbosity := sles_verbosity p; process_flag := process_flag p;
     flag := flag p; space_scheme := space_scheme p;
     time_hodge := time_hodge p; time_property := time_property p;
     time_info := time_info p; diffusion_property := diffusion_property p;
     diffusion_hodge := diffusion_hodge p; advection_info := advection_info p;
     advection_field := advection_field p;
     n_reaction_terms := n_reaction_terms p;
     reaction_terms := reaction_terms p;
     reaction_properties := reaction_properties p; n_source_terms := v;
     source_terms := source_terms p; bc := bc p; algo_info := algo_info p;
     itsol_info := itsol_info p |}.

Definition set_source_terms (v : list ptr) (p : cs_equation_param_t)
  : cs_equation_param_t :=
  {| eq_type := eq_type p; var_type := var_type p; verbosity := verbosity p;
     sles_verbosity := sles_verbosity p; process_flag := process_flag p;
     flag := flag p; space_scheme := space_scheme p;
     time_hodge := time_hodge p; time_property := time_property p;
     time_info := time_info p; diffusion_property := diffusion_property p;
     diffusion_hodge := diffusion_hodge p; advection_info := advection_info p;
     advection_field := advection_field p;
     n_reaction_terms := n_reaction_terms p;
     reaction_terms := reaction_terms p;
     reaction_properties := reaction_properties p;
     n_source_terms := n_source_terms p; source_terms := v; bc := bc p;
     algo_info := algo_info p; itsol_info := itsol_info p |}.

Definition set_field_id (v : Z) (e : cs_equation_t) : cs_equation_t :=
  {| name := name e; param := param e; varname := varname e; field_id := v;
     main_ts_id := main_ts_id e; pre_ts_id := pre_ts_id e;
     solve_ts_id := solve_ts_id e; extra_op_ts_id := extra_op_ts_id e;
     do_build := do_build e; ms := ms e; matrix := matrix e; rhs := rhs e;
     builder := builder e; init_builder := init_builder e;
     free_builder := free_builder e; build_system := build_system e;
     compute_source := compute_source e; update_field := update_field e;
     postprocess := postprocess e; get_f_values := get_f_values e;
     get_tmpbuf := get_tmpbuf e |}.

(** ** The collaborators of this part *)

(** The types of source term cs_equation.c names (cs_source_term.h). *)
Inductive cs_source_term_type_t : Type :=
| CS_SOURCE_TERM_GRAVITY
| CS_SOURCE_TERM_USER.

Record collaborators : Type := {
  (** cs_source_term.h: the new source term of a name, a mesh location, a
      type and a type of variable; the name of a source term *)
  cs_source_term_create :
    string -> Z -> cs_source_term_type_t -> cs_param_var_type_t -> ptr;
  cs_source_term_get_name : ptr -> string;
  (** cs_param.h: the definition [cs_param_set_def] writes for a type of
      definition, a type of variable and a value *)
  cs_param_set_def :
    cs_param_def_type_t -> cs_param_var_type_t -> string -> string;
  (** cs_field.h: the masks of a field, the new field of a name, a mask, a
      location, a dimension and the two flags [interleaved] and
      [has_previous], the id of a key and the id of a named field *)
  CS_FIELD_INTENSIVE : Z;
  CS_FIELD_VARIABLE : Z;
  cs_field_create : string -> Z -> Z -> Z -> bool -> bool -> ptr;
  cs_field_key_id : string -> Z;
  cs_field_id_by_name : string -> Z;
  (** cs_cdo.h: the flags of the degrees of freedom *)
  CS_FLAG_SCAL : Z;
  CS_FLAG_VECT : Z;
  CS_FLAG_TENS : Z;
  cs_cdo_primal_vtx : Z;
  cs_cdo_primal_cell : Z;
  cs_cdo_primal_face : Z;
  (** the scheme builders: the builder [init_builder] allocates for a
      parameter set *)
  scheme_init_builder : scheme_function -> cs_equation_param_t -> ptr
}.

(** ** Errors and calls, continued *)

Inductive bft_error_t' : Type :=
| base_error (e : bft_error_t)
    (* one of the messages of the first part *)
| InvalidInitialConditionKey (def_key : string)
    (* " Invalid key for setting the initial condition." *)
| ReactionTermNotFound (r_name : string)
    (* " Cannot find the reaction term %s." *)
| InvalidReactionKey (r_name : option string)
    (* " Invalid key for setting a reaction term %s.", NULL when r_name is *)
| SourceTermNotFound (st_name eqname : string)
    (* " Cannot find source term %s among defined source terms." *)
| IncompatibleVariable (eqname : string)
    (* " Incompatible type of variable for equation %s." *)
| FieldOfIncompatibleType (eqname : string)
    (* " Type of equation for eq. %s is incompatible with the creation of a
       field structure." *)
| FieldOfIncompatibleScheme (eqname : string)
    (* " Space scheme for eq. %s is incompatible with a field." *)
| InvalidFieldLocation.
    (* " Invalid mesh location id (= -1) for the current field" *)

Inductive event' : Type :=
| base_event (ev : event)
    (* one of the calls of the first part *)
| bft_printf_possible_reakeys (keyname : string)
    (* the listing of the current key and of the possible keys *)
| cs_source_term_def_by_array (st : ptr) (array_desc : Z) (array_values : ptr)
| cs_source_term_def_by_value (st : ptr) (val : string)
| cs_source_term_def_by_analytic (st : ptr) (ana : ptr)
| cs_source_term_set_option (st : ptr) (keyname keyval : string)
| cs_field_set_key_int (fld : ptr) (key_id value : Z)
| cs_field_allocate_values (fld : ptr)
| scheme_init (f : scheme_function) (eqp : cs_equation_param_t)
| cs_evaluate_potential_from_value
    (dof_flag ml_id : Z) (get : string) (values : ptr)
| cs_evaluate_potential_from_analytic
    (dof_flag ml_id : Z) (analytic : string) (values : ptr).

(** ** Execution, continued *)

Record state' : Type := {
  obj' : option cs_equation_t;
  log' : list event'
}.

Inductive outcome' (A : Type) : Type :=
| Normal' (a : A) (s : state')
| Fatal' (e : bft_error_t') (s : state')
| Undefined' (u : undefined_t).

Arguments Fatal' {A} e s.
Arguments Undefined' {A} u.

Definition M' (A : Type) : Type := state' -> outcome' A.

Definition ret' {A : Type} (a : A) : M' A := fun s => Normal' a s.

Definition bind' {A B : Type} (c : M' A) (k : A -> M' B) : M' B :=
  fun s =>
    match c s with
    | Normal' a s' => k a s'
    | Fatal' e s' => Fatal' e s'
    | Undefined' u => Undefined' u
    end.

Declare Scope wide_scope.
Delimit Scope wide_scope with wide.

Notation "x <- c ;; k" := (bind' c (fun x => k))
  (at level 61, c at next level, right associativity) : wide_scope.
Notation "c ;; k" := (bind' c (fun _ => k))
  (at level 61, right associativity) : wide_scope.

Local Open Scope wide_scope.

Definition bft_error' {A : Type} (e : bft_error_t') : M' A := fun s => Fatal' e s.

Definition undefined' {A : Type} (u : undefined_t) : M' A :=
  fun _ => Undefined' u.

Definition call' (ev : event') : M' unit :=
  fun s => Normal' tt {| obj' := obj' s; log' := log' s ++ [ev] |}.

Definition eq_is_null' : M' bool :=
  fun s => Normal' (match obj' s with None => true | Some _ => false end) s.

Definition deref' : M' cs_equation_t :=
  fun s =>
    match obj' s with
    | Some e => Normal' e s
    | None => Undefined' null_pointer_access
    end.

Definition assign' (f : cs_equation_t -> cs_equation_t) : M' unit :=
  fun s =>
    match obj' s with
    | Some e => Normal' tt {| obj' := Some (f e); log' := log' s |}
    | None => Undefined' null_pointer_access
    end.

Definition assign_param' (f : cs_equation_param_t -> cs_equation_param_t)
  : M' unit :=
  assign' (fun e => set_param (f (param e)) e).

Definition when' (b : bool) (c : M' unit) : M' unit := if b then c else ret' tt.

Fixpoint for_each' {A : Type} (a : list A) (body : A -> M' unit) : M' unit :=
  match a with
  | [] => ret' tt
  | x :: a' => body x ;; for_each' a' body
  end.

Definition through' (f : option scheme_function) : M' scheme_function :=
  match f with
  | Some g => ret' g
  | None => undefined' null_function_call
  end.

(** A function of the first part called from this one: its calls and its
    error go on with those made so far. *)
Definition lift {A : Type} (c : M A) : M' A :=
  fun s =>
    match c {| obj := obj' s; log := [] |} with
    | Normal a s1 =>
        Normal' a {| obj' := obj s1;
                     log' := log' s ++ map base_event (log s1) |}
    | Fatal e s1 =>
        Fatal' (base_error e)
          {| obj' := obj s1; log' := log' s ++ map base_event (log s1) |}
    | Undefined u => Undefined' u
    end.

(** The entries [a[0]], ..., [a[n-1]] of an array, when it has that many. *)
Definition entries {A : Type} (a : list A) (n : Z) : M' (list A) :=
  if (length a <? Z.to_nat n)%nat then undefined' out_of_bounds_access
  else ret' (firstn (Z.to_nat n) a).

(** ** Keys of a reaction term *)

Inductive reakey_t : Type :=
| REAKEY_LUMPING
| REAKEY_HODGE_ALGO
| REAKEY_HODGE_COEF
| REAKEY_INV_PTY
| REAKEY_ERROR.

Definition _print_reakey (key : reakey_t) : option string :=
  match key with
  | REAKEY_LUMPING => Some "lumping"
  | REAKEY_HODGE_ALGO => Some "hodge_algo"
  | REAKEY_HODGE_COEF => Some "hodge_coef"
  | REAKEY_INV_PTY => Some "inv_pty"
  | REAKEY_ERROR => None
  end.

Definition _get_reakey (keyname : string) : reakey_t :=
  if strcmp_eq keyname "lumping" then REAKEY_LUMPING
  else if strcmp_eq keyname "hodge_algo" then REAKEY_HODGE_ALGO
  else if strcmp_eq keyname "hodge_coef" then REAKEY_HODGE_COEF
  else if strcmp_eq keyname "inv_pty" then REAKEY_INV_PTY
  else REAKEY_ERROR.

(** The text [sprintf] writes for the conversion [%2d]. *)
Definition sprintf_2d (n : Z) : string :=
  let s := NilZero.string_of_int (Z.to_int n) in
  if (String.length s <? 2)%nat then " " ++ s else s.

Section Terms.

Variable X : environment.
Variable Y : collaborators.

(** ** Options of the reaction terms *)

(** [eqp->reaction_terms[r_id].m = v] when [r_id] is not -1, and the same
    for every reaction term otherwise; [f] is the assignment to the member. *)
Definition assign_reaction_terms
  (r_id : Z) (f : cs_param_reaction_t -> cs_param_reaction_t) : M' unit :=
  eq <- deref' ;;
  let eqp := param eq in
  if negb (r_id =? -1) then
    match nth_error (reaction_terms eqp) (Z.to_nat r_id) with
    | Some r =>
        assign_param'
          (set_reaction_terms (array_store (reaction_terms eqp) r_id (f r)))
    | None => undefined' out_of_bounds_access
    end
  else
    terms <- entries (reaction_terms eqp) (n_reaction_terms eqp) ;;
    assign_param'
      (set_reaction_terms
         (map f terms
          ++ skipn (Z.to_nat (n_reaction_terms eqp)) (reaction_terms eqp))).

(** [r_name] is [None] when the caller passes NULL. *)
Definition cs_equation_set_reaction_option
  (r_name : option string) (keyname keyval : string) : M' unit :=
  null <- eq_is_null' ;;
  when' null (bft_error' (base_error EmptyEquation)) ;;
  eq <- deref' ;;
  when' (main_ts_id eq >? -1)
    (call' (base_event (cs_timer_stats_start (main_ts_id eq)))) ;;
  let eqp := param eq in
  r_id <-
    match r_name with
    | Some r_name =>
        let r_id :=
          find_reaction_term r_name (reaction_terms eqp)
            (Z.to_nat (n_reaction_terms eqp)) 0 in
        when' (r_id =? -1) (bft_error' (ReactionTermNotFound r_name)) ;;
        ret' r_id
    | None => ret' (-1)
    end ;;
  let key := _get_reakey keyname in
  match key with
  | REAKEY_ERROR =>
      call' (bft_printf_possible_reakeys keyname) ;;
      bft_error' (InvalidReactionKey r_name)
  | _ => ret' tt
  end ;;
  match key with
  | REAKEY_HODGE_ALGO =>
      h_algo <-
        (if strcmp_eq keyval "cost" then ret' CS_PARAM_HODGE_ALGO_COST
         else if strcmp_eq keyval "voronoi" then ret' CS_PARAM_HODGE_ALGO_VORONOI
         else if strcmp_eq keyval "wbs" then ret' CS_PARAM_HODGE_ALGO_WBS
         else bft_error' (base_error (InvalidValue keyval keyname))) ;;
      assign_reaction_terms r_id (in_reaction_hodge (set_hodge_algo h_algo))
  | REAKEY_HODGE_COEF =>
      let coef :=
        (if strcmp_eq keyval "dga" then 1 / 3
         else if strcmp_eq keyval "sushi" then 1 / PrimFloat.sqrt 3
         else if strcmp_eq keyval "gcr" then 1
         else atof X keyval)%float in
      assign_reaction_terms r_id (in_reaction_hodge (set_hodge_coef coef))
  | REAKEY_INV_PTY =>
      let inv_pty := if strcmp_eq keyval "true" then true else false in
      assign_reaction_terms r_id (in_reaction_hodge (set_inv_pty inv_pty))
  | REAKEY_LUMPING =>
      let do_lumping := if strcmp_eq keyval "true" then true else false in
      assign_reaction_terms r_id (set_reaction_do_lumping do_lumping)
  | REAKEY_ERROR => bft_error' (base_error (KeyNotImplemented keyname))
  end ;;
  eq <- deref' ;;
  when' (main_ts_id eq >? -1)
    (call' (base_event (cs_timer_stats_stop (main_ts_id eq)))).

(** ** Initial condition *)

(** [ml_name] is [None] when the caller passes NULL. *)
Definition cs_equation_set_ic
  (ml_name : option string) (def_key val : string) : M' unit :=
  null <- eq_is_null' ;;
  when' null (bft_error' (base_error EmptyEquation)) ;;
  eq <- deref' ;;
  let eqp := param eq in
  let t_info := time_info eqp in
  let id := n_ic_definitions t_info in
  def_type <-
    (if strcmp_eq def_key "value" then ret' CS_PARAM_DEF_BY_VALUE
     else if strcmp_eq def_key "analytic" then
       ret' CS_PARAM_DEF_BY_ANALYTIC_FUNCTION
     else bft_error' (InvalidInitialConditionKey def_key)) ;;
  let name := match ml_name with None => EmptyString | Some n => n end in
  let ic :=
    {| ml_name := name; ic_def_type := def_type;
       ic_def := cs_param_set_def Y def_type (var_type eqp) val |} in
  let t_info :=
    set_ic_definitions (array_store (ic_definitions t_info) id ic) t_info in
  let t_info := set_n_ic_definitions (n_ic_definitions t_info + 1) t_info in
  assign_param' (set_time_info t_info).

(** ** Source terms *)

(** [array_desc] is the mask of bits that describes the array. *)
Definition cs_equation_add_gravity_source_term
  (ml_id array_desc : Z) (array_values : ptr) : M' unit :=
  null <- eq_is_null' ;;
  when' null (bft_error' (base_error EmptyEquation)) ;;
  let st_type := CS_SOURCE_TERM_GRAVITY in
  eq <- deref' ;;
  let eqp := param eq in
  let st_id := n_source_terms eqp in
  assign_param' (fun p => set_n_source_terms (n_source_terms p + 1) p) ;;
  let st :=
    cs_source_term_create Y "gravity_source" ml_id st_type (var_type eqp) in
  assign_param' (fun p =>
    set_source_terms (array_store (source_terms p) st_id st) p) ;;
  call' (cs_source_term_def_by_array st array_desc array_values).

(** [st_name] is [None] when the caller passes NULL. *)
Definition cs_equation_add_source_term_by_val
  (st_name : option string) (ml_name : string) (val : string) : M' unit :=
  null <- eq_is_null' ;;
  when' null (bft_error' (base_error EmptyEquation)) ;;
  let st_type := CS_SOURCE_TERM_USER in
  eq <- deref' ;;
  let eqp := param eq in
  let st_id := n_source_terms eqp in
  assign_param' (fun p => set_n_source_terms (n_source_terms p + 1) p) ;;
  name <-
    match st_name with
    | None =>
        when' (negb (st_id <? 100)) (bft_error' (base_error AssertionFailed)) ;;
        ret' ("sourceterm_" ++ sprintf_2d st_id)
    | Some n => ret' n
    end ;;
  ml_id <- lift (_check_ml_name X ml_name) ;;
  let st := cs_source_term_create Y name ml_id st_type (var_type eqp) in
  assign_param' (fun p =>
    set_source_terms (array_store (source_terms p) st_id st) p) ;;
  call' (cs_source_term_def_by_value st val).

(** [st_name] is [None] when the caller passes NULL. *)
Definition cs_equation_add_source_term_by_analytic
  (st_name : option string) (ml_name : string) (ana : ptr) : M' unit :=
  null <- eq_is_null' ;;
  when' null (bft_error' (base_error EmptyEquation)) ;;
  let st_type := CS_SOURCE_TERM_USER in
  eq <- deref' ;;
  let eqp := param eq in
  let st_id := n_source_terms eqp in
  assign_param' (fun p => set_n_source_terms (n_source_terms p + 1) p) ;;
  name <-
    match st_name with
    | None =>
        when' (negb (st_id <? 100)) (bft_error' (base_error AssertionFailed)) ;;
        ret' ("sourceterm_" ++ sprintf_2d st_id)
    | Some n => ret' n
    end ;;
  ml_id <- lift (_check_ml_name X ml_name) ;;
  let st := cs_source_term_create Y name ml_id st_type (var_type eqp) in
  assign_param' (fun p =>
    set_source_terms (array_store (source_terms p) st_id st) p) ;;
  call' (cs_source_term_def_by_analytic st ana).

(** The search loop of [cs_equation_set_source_term_option]: the index of
    the first of the source terms named [st_name], counted from [i], or -1. *)
Fixpoint find_source_term (st_name : string) (terms : list ptr) (i : Z) : Z :=
  match terms with
  | st :: terms' =>
      if strcmp_eq (cs_source_term_get_name Y st) st_name then i
      else find_source_term st_name terms' (i + 1)
  | [] => -1
  end.

(** [st_name] is [None] when the caller passes NULL. *)
Definition cs_equation_set_source_term_option
  (st_name : option string) (keyname keyval : string) : M' unit :=
  null <- eq_is_null' ;;
  when' null (bft_error' (base_error EmptyEquation)) ;;
  eq <- deref' ;;
  when' (main_ts_id eq >? -1)
    (call' (base_event (cs_timer_stats_start (main_ts_id eq)))) ;;
  let eqp := param eq in
  st_id <-
    match st_name with
    | Some st_name =>
        let st_id :=
          find_source_term st_name
            (firstn (Z.to_nat (n_source_terms eqp)) (source_terms eqp)) 0 in
        when' (st_id =? -1)
          (bft_error' (SourceTermNotFound st_name (name eq))) ;;
        ret' st_id
    | None => ret' (-1)
    end ;;
  (if negb (st_id =? -1) then
     match nth_error (source_terms eqp) (Z.to_nat st_id) with
     | Some st => call' (cs_source_term_set_option st keyname keyval)
     | None => undefined' out_of_bounds_access
     end
   else
     terms <- entries (source_terms eqp) (n_source_terms eqp) ;;
     for_each' terms
       (fun st => call' (cs_source_term_set_option st keyname keyval))) ;;
  when' (main_ts_id eq >? -1)
    (call' (base_event (cs_timer_stats_stop (main_ts_id eq)))).

(** ** The field of the equation *)

Definition cs_equation_create_field : M' unit :=
  let field_mask := Z.lor (CS_FIELD_INTENSIVE Y) (CS_FIELD_VARIABLE Y) in
  null <- eq_is_null' ;;
  when' null (bft_error' (base_error AssertionFailed)) ;;
  eq <- deref' ;;
  let eqp := param eq in
  let has_previous := has_flag (flag eqp) (CS_EQUATION_UNSTEADY X) in
  when' (main_ts_id eq >? -1)
    (call' (base_event (cs_timer_stats_start (main_ts_id eq)))) ;;
  dim <-
    match var_type eqp with
    | CS_PARAM_VAR_SCAL => ret' 1
    | CS_PARAM_VAR_VECT => ret' 3
    | CS_PARAM_VAR_TENS => ret' 9
    | CS_PARAM_N_VAR_TYPES => bft_error' (FieldOfIncompatibleType (name eq))
    end ;;
  location_id <-
    match space_scheme eqp with
    | CS_SPACE_SCHEME_CDOVB =>
        ret' (cs_mesh_location_get_id_by_name X "vertices")
    | CS_SPACE_SCHEME_CDOFB =>
        ret' (cs_mesh_location_get_id_by_name X "cells")
    | CS_SPACE_N_SCHEMES => bft_error' (FieldOfIncompatibleScheme (name eq))
    end ;;
  when' (location_id =? -1) (bft_error' InvalidFieldLocation) ;;
  let fld :=
    cs_field_create Y (varname eq) field_mask location_id dim true
      has_previous in
  call' (cs_field_set_key_int fld (cs_field_key_id Y "log") 1) ;;
  call' (cs_field_set_key_int fld (cs_field_key_id Y "post_vis") 1) ;;
  assign' (set_field_id (cs_field_id_by_name Y (varname eq))) ;;
  call' (cs_field_allocate_values fld) ;;
  when' (main_ts_id eq >? -1)
    (call' (base_event (cs_timer_stats_stop (main_ts_id eq)))).

(** ** Initialization of the system *)

(** [field->val] *)
Definition field_values' (field : ptr) : M' ptr :=
  if ptr_eqb field NULL then undefined' null_pointer_access
  else ret' (cs_field_val X field).

Definition _initialize_field_from_ic : M' unit :=
  eq <- deref' ;;
  let eqp := param eq in
  dof_flag <-
    match var_type eqp with
    | CS_PARAM_VAR_SCAL => ret' (Z.lor 0 (CS_FLAG_SCAL Y))
    | CS_PARAM_VAR_VECT => ret' (Z.lor 0 (CS_FLAG_VECT Y))
    | CS_PARAM_VAR_TENS => ret' (Z.lor 0 (CS_FLAG_TENS Y))
    | CS_PARAM_N_VAR_TYPES => bft_error' (IncompatibleVariable (name eq))
    end ;;
  let field := cs_field_by_id X (field_id eq) in
  let t_info := time_info eqp in
  match space_scheme eqp with
  | CS_SPACE_SCHEME_CDOVB =>
      let dof_flag := Z.lor dof_flag (cs_cdo_primal_vtx Y) in
      definitions <- entries (ic_definitions t_info) (n_ic_definitions t_info) ;;
      for_each' definitions
        (fun ic =>
           let ml_id :=
             if (0 <? String.length (ml_name ic))%nat
             then cs_mesh_location_get_id_by_name X (ml_name ic)
             else cs_mesh_location_get_id_by_name X "vertices" in
           match ic_def_type ic with
           | CS_PARAM_DEF_BY_VALUE =>
               values <- field_values' field ;;
               call' (cs_evaluate_potential_from_value dof_flag ml_id
                        (ic_def ic) values)
           | CS_PARAM_DEF_BY_ANALYTIC_FUNCTION =>
               values <- field_values' field ;;
               call' (cs_evaluate_potential_from_analytic dof_flag ml_id
                        (ic_def ic) values)
           | _ => ret' tt
           end)
  | _ =>
      face_values <- lift (cs_equation_get_face_values X) ;;
      when' (ptr_eqb face_values NULL)
        (bft_error' (base_error AssertionFailed)) ;;
      definitions <- entries (ic_definitions t_info) (n_ic_definitions t_info) ;;
      for_each' definitions
        (fun ic =>
           let cell_flag := Z.lor dof_flag (cs_cdo_primal_cell Y) in
           let ml_id :=
             if (0 <? String.length (ml_name ic))%nat
             then cs_mesh_location_get_id_by_name X (ml_name ic)
             else cs_mesh_location_get_id_by_name X "cells" in
           match ic_def_type ic with
           | CS_PARAM_DEF_BY_VALUE =>
               values <- field_values' field ;;
               call' (cs_evaluate_potential_from_value cell_flag ml_id
                        (ic_def ic) values)
           | CS_PARAM_DEF_BY_ANALYTIC_FUNCTION =>
               values <- field_values' field ;;
               call' (cs_evaluate_potential_from_analytic cell_flag ml_id
                        (ic_def ic) values)
           | _ => ret' tt
           end ;;
           let face_flag := Z.lor dof_flag (cs_cdo_primal_face Y) in
           match ic_def_type ic with
           | CS_PARAM_DEF_BY_VALUE =>
               call' (cs_evaluate_potential_from_value face_flag ml_id
                        (ic_def ic) face_values)
           | CS_PARAM_DEF_BY_ANALYTIC_FUNCTION =>
               call' (cs_evaluate_potential_from_analytic face_flag ml_id
                        (ic_def ic) face_values)
           | _ => ret' tt
           end)
  end.

Definition cs_equation_init_system : M' unit :=
  null <- eq_is_null' ;;
  if null then ret' tt
  else
    eq <- deref' ;;
    when' (main_ts_id eq >? -1)
      (call' (base_event (cs_timer_stats_start (main_ts_id eq)))) ;;
    let eqp := param eq in
    init <- through' (init_builder eq) ;;
    call' (scheme_init init eqp) ;;
    assign' (set_builder (scheme_init_builder Y init eqp)) ;;
    eq <- deref' ;;
    source <- through' (compute_source eq) ;;
    call' (base_event (scheme_call source (builder eq))) ;;
    if negb (has_flag (flag eqp) (CS_EQUATION_UNSTEADY X)) then
      when' (main_ts_id eq >? -1)
        (call' (base_event (cs_timer_stats_stop (main_ts_id eq))))
    else
      let t_info := time_info eqp in
      if n_ic_definitions t_info =? 0 then
        when' (main_ts_id eq >? -1)
          (call' (base_event (cs_timer_stats_stop (main_ts_id eq))))
      else
        _initialize_field_from_ic ;;
        when' (main_ts_id eq >? -1)
          (call' (base_event (cs_timer_stats_stop (main_ts_id eq)))).

End Terms.

Local Close Scope wide_scope.

(** ** The options of the reaction terms, in one step *)

(** The assignment the case of a key makes to a reaction term, [None] where
    the case ends in [bft_error]. *)
Definition reaction_update (X : environment) (key : reakey_t) (keyval : string)
  : option (cs_param_reaction_t -> cs_param_reaction_t) :=
  match key with
  | REAKEY_HODGE_ALGO =>
      if strcmp_eq keyval "cost" then
        Some (in_reaction_hodge (set_hodge_algo CS_PARAM_HODGE_ALGO_COST))
      else if strcmp_eq keyval "voronoi" then
        Some (in_reaction_hodge (set_hodge_algo CS_PARAM_HODGE_ALGO_VORONOI))
      else if strcmp_eq keyval "wbs" then
        Some (in_reaction_hodge (set_hodge_algo CS_PARAM_HODGE_ALGO_WBS))
      else None
  | REAKEY_HODGE_COEF =>
      Some (in_reaction_hodge (set_hodge_coef
        (if strcmp_eq keyval "dga" then 1 / 3
         else if strcmp_eq keyval "sushi" then 1 / PrimFloat.sqrt 3
         else if strcmp_eq keyval "gcr" then 1
         else atof X keyval)%float))
  | REAKEY_INV_PTY =>
      Some (in_reaction_hodge
              (set_inv_pty (if strcmp_eq keyval "true" then true else false)))
  | REAKEY_LUMPING =>
      Some (set_reaction_do_lumping
              (if strcmp_eq keyval "true" then true else false))
  | REAKEY_ERROR => None
  end.

(** The reaction terms once [f] is applied to the term [r_id], or to all of
    them when [r_id] is -1; [None] when a term is outside the array. *)
Definition reaction_terms_updated
  (r_id : Z) (f : cs_param_reaction_t -> cs_param_reaction_t)
  (p : cs_equation_param_t) : option (list cs_param_reaction_t) :=
  if negb (r_id =? -1) then
    match nth_error (reaction_terms p) (Z.to_nat r_id) with
    | Some r => Some (array_store (reaction_terms p) r_id (f r))
    | None => None
    end
  else if (length (reaction_terms p) <? Z.to_nat (n_reaction_terms p))%nat
  then None
  else Some (map f (firstn (Z.to_nat (n_reaction_terms p)) (reaction_terms p))
             ++ skipn (Z.to_nat (n_reaction_terms p)) (reaction_terms p))%list.

(** The calls to the main timer at the beginning and at the end of an
    operation. *)
Definition timer_started (e : cs_equation_t) : list event' :=
  if main_ts_id e >? -1
  then [base_event (cs_timer_stats_start (main_ts_id e))] else [].

Definition timer_stopped (e : cs_equation_t) : list event' :=
  if main_ts_id e >? -1
  then [base_event (cs_timer_stats_stop (main_ts_id e))] else [].

(** ** The registration of a source term, in one step *)

(** The name of a source term registered without a name. *)
Definition source_term_default_name (st_id : Z) : string :=
  "sourceterm_" ++ sprintf_2d st_id.

(** The parameter set once a registration has counted the new source term,
    and once it has stored it. *)
Definition source_term_counted (p : cs_equation_param_t) : cs_equation_param_t :=
  set_n_source_terms (n_source_terms p + 1) p.

Definition source_term_stored (st : ptr) (p : cs_equation_param_t)
  : cs_equation_param_t :=
  set_source_terms (array_store (source_terms p) (n_source_terms p) st)
    (source_term_counted p).

(** The source term a registration made by a user creates, [None] when the
    registration stops before. *)
Definition user_source_term (X : environment) (Y : collaborators)
  (p : cs_equation_param_t) (st_name : option string) (ml_name : string)
  : bft_error_t + ptr :=
  let st_id := n_source_terms p in
  if match st_name with None => negb (st_id <? 100) | Some _ => false end
  then inl AssertionFailed
  else if cs_mesh_location_get_id_by_name X ml_name =? -1
  then inl (InvalidMeshLocation ml_name)
  else inr (cs_source_term_create Y
              match st_name with
              | Some n => n
              | None => source_term_default_name st_id
              end
              (cs_mesh_location_get_id_by_name X ml_name)
              CS_SOURCE_TERM_USER (var_type p)).

(** What a registration of a source term leaves, for the test of the name
    [unnamed] it makes, the source term [st] it creates when it goes that far
    and the call [def] that defines it: the source term is appended and
    counted, or the registration stops once the source term is counted. *)
Definition source_term_registered (X : environment) (e : cs_equation_t)
  (calls : list event') (unnamed : bool) (ml_name : option string)
  (st : ptr) (def : event') (r : outcome' unit) : Prop :=
  let p := param e in
  match r with
  | Normal' _ s' =>
      exists p',
        s' = {| obj' := Some (set_param p' e); log' := (calls ++ [def])%list |}
        /\ source_terms p' = (source_terms p ++ [st])%list
        /\ n_source_terms p' = n_source_terms p + 1
        /\ (forall m, m <> eqp_n_source_terms -> m <> eqp_source_terms ->
                      agree m p p')
        /\ (unnamed = true -> n_source_terms p < 100)
        /\ (forall n, ml_name = Some n ->
                      cs_mesh_location_get_id_by_name X n <> -1)
  | Fatal' err s' =>
      exists p',
        s' = {| obj' := Some (set_param p' e); log' := calls |}
        /\ source_terms p' = source_terms p
        /\ n_source_terms p' = n_source_terms p + 1
        /\ (err = base_error AssertionFailed /\ unnamed = true
            /\ 100 <= n_source_terms p
            \/ exists n, ml_name = Some n
                         /\ err = base_error (InvalidMeshLocation n)
                         /\ cs_mesh_location_get_id_by_name X n = -1)
  | Undefined' _ => False
  end.

(** All the source terms of the list have another name than [st_name]. *)
Definition unused_source_name (Y : collaborators) (st_name : string)
  (terms : list ptr) : Prop :=
  Forall (fun st => strcmp_eq (cs_source_term_get_name Y st) st_name = false)
    terms.

(** ** The field, in one step *)

(** The dimension of the field of a type of variable, and the name of the
    mesh location of the field of a space scheme. *)
Definition field_dimension (var_type : cs_param_var_type_t) : option Z :=
  match var_type with
  | CS_PARAM_VAR_SCAL => Some 1
  | CS_PARAM_VAR_VECT => Some 3
  | CS_PARAM_VAR_TENS => Some 9
  | CS_PARAM_N_VAR_TYPES => None
  end.

Definition field_location (scheme : cs_space_scheme_t) : option string :=
  match scheme with
  | CS_SPACE_SCHEME_CDOVB => Some "vertices"
  | CS_SPACE_SCHEME_CDOFB => Some "cells"
  | CS_SPACE_N_SCHEMES => None
  end.

(** ** The initial conditions, in one step *)

(** The flag of the degrees of freedom of a type of variable. *)
Definition dof_flag_of (Y : collaborators) (var_type : cs_param_var_type_t)
  : option Z :=
  match var_type with
  | CS_PARAM_VAR_SCAL => Some (Z.lor 0 (CS_FLAG_SCAL Y))
  | CS_PARAM_VAR_VECT => Some (Z.lor 0 (CS_FLAG_VECT Y))
  | CS_PARAM_VAR_TENS => Some (Z.lor 0 (CS_FLAG_TENS Y))
  | CS_PARAM_N_VAR_TYPES => None
  end.

(** The mesh location of an initial condition: its own when it has a name,
    the one of all the entities otherwise. *)
Definition ic_location (X : environment) (all : string) (ic : cs_param_def_t)
  : Z :=
  if (0 <? String.length (ml_name ic))%nat
  then cs_mesh_location_get_id_by_name X (ml_name ic)
  else cs_mesh_location_get_id_by_name X all.

(** The evaluation of one initial condition into an array of values. *)
Definition ic_evaluated (X : environment) (dof_flag : Z) (all : string)
  (values : ptr) (ic : cs_param_def_t) : list event' :=
  match ic_def_type ic with
  | CS_PARAM_DEF_BY_VALUE =>
      [cs_evaluate_potential_from_value dof_flag (ic_location X all ic)
         (ic_def ic) values]
  | CS_PARAM_DEF_BY_ANALYTIC_FUNCTION =>
      [cs_evaluate_potential_from_analytic dof_flag (ic_location X all ic)
         (ic_def ic) values]
  | _ => []
  end.

(** * A run of reference, continued

    The collaborators of the second part and equations that have terms, an
    initial condition and a field. *)

Module Sample.

Definition source_term_name (st : ptr) : string :=
  match st with
  | Addr 11 => "gravity_source"
  | Addr 12 => "heat"
  | _ => "sourceterm"
  end.

Definition collab : collaborators :=
  {| cs_source_term_create := fun name _ _ _ =>
       if strcmp_eq name "gravity_source" then Addr 11
       else if strcmp_eq name "heat" then Addr 12
       else Addr 13;
     cs_source_term_get_name := source_term_name;
     cs_param_set_def := fun _ _ val => val;
     CS_FIELD_INTENSIVE := 1;
     CS_FIELD_VARIABLE := 4;
     cs_field_create := fun _ _ location_id _ _ _ =>
       Addr (Z.to_pos (20 + location_id));
     cs_field_key_id := fun key => if strcmp_eq key "log" then 1 else 2;
     cs_field_id_by_name := fun _ => 0;
     CS_FLAG_SCAL := 16;
     CS_FLAG_VECT := 32;
     CS_FLAG_TENS := 64;
     cs_cdo_primal_vtx := 1;
     cs_cdo_primal_face := 2;
     cs_cdo_primal_cell := 4;
     scheme_init_builder := fun _ _ => Addr 40 |}.

(** The equation an operation leaves of the equation [e], [e] itself when
    the operation does not return. *)
Definition after (c : M unit) (e : cs_equation_t) : cs_equation_t :=
  match c (Reference.start e) with
  | Normal _ {| obj := Some e' |} => e'
  | _ => e
  end.

Definition start' (e : cs_equation_t) : state' :=
  {| obj' := Some e; log' := [] |}.

Definition after' (c : M' unit) (e : cs_equation_t) : cs_equation_t :=
  match c (start' e) with
  | Normal' _ {| obj' := Some e' |} => e'
  | _ => e
  end.

(** The state an operation leaves of the state [s], [s] itself when the
    operation does not return. *)
Definition next (c : M unit) (s : state) : state :=
  match c s with
  | Normal _ s' => s'
  | _ => s
  end.

Definition next' (c : M' unit) (s : state') : state' :=
  match c s with
  | Normal' _ s' => s'
  | _ => s
  end.

(** [eq0] with its field, and the same set up. *)
Definition fielded_eq : cs_equation_t :=
  after' (cs_equation_create_field Reference.env collab) Reference.eq0.

Definition set_up_eq : cs_equation_t :=
  after (cs_equation_last_setup Reference.env) fielded_eq.

(** [eq0] set up, its system built once. *)
Definition built_eq : cs_equation_t :=
  after (cs_equation_build_system Reference.env 0) set_up_eq.

(** [eq0] with a reaction term registered without a name. *)
Definition reacting_eq : cs_equation_t :=
  after (cs_equation_add_reaction Reference.env None "linear" (Addr 6))
    Reference.eq0.

(** The same with a second one, and the reaction term registered without a
    name at the index [r_id]. *)
Definition reacting_twice : cs_equation_t :=
  after (cs_equation_add_reaction Reference.env None "linear" (Addr 7))
    reacting_eq.

Definition term (r_id : Z) : cs_param_reaction_t :=
  cs_param_reaction_add Reference.env (reaction_default_name r_id)
    CS_PARAM_HODGE_TYPE_VPCD CS_PARAM_HODGE_ALGO_WBS
    CS_PARAM_REACTION_TYPE_LINEAR.

(** [eq0] with the source term of the gravity and a source term of a user. *)
Definition heated_eq : cs_equation_t :=
  after' (cs_equation_add_source_term_by_val Reference.env collab
            (Some "heat") "cells" "1.0")
    (after' (cs_equation_add_gravity_source_term collab 1 0 (Addr 7))
       Reference.eq0).

(** The same, set up. *)
Definition heated_set_up : cs_equation_t :=
  after (cs_equation_last_setup Reference.env) heated_eq.

(** An unsteady equation with an initial condition and a field, set up,
    vertex-based and face-based. *)
Definition unsteady_vb : cs_equation_t :=
  after' (cs_equation_create_field Reference.env collab)
    (after (cs_equation_last_setup Reference.env)
       (after' (cs_equation_set_ic collab None "value" "1.0")
          (after (cs_equation_link Reference.env "time" (Addr 5))
             Reference.eq0))).

Definition unsteady_fb : cs_equation_t :=
  after' (cs_equation_create_field Reference.env collab)
    (after (cs_equation_last_setup Reference.env)
       (after' (cs_equation_set_ic collab (Some "cells") "analytic" "f")
          (after (cs_equation_link Reference.env "time" (Addr 5))
             (after (cs_equation_set_option Reference.env "space_scheme"
                       "cdo_fb")
                Reference.eq0)))).

End Sample.

(** * Properties *)

Unset Implicit Arguments.

(** ** Null safety of the operations that test their argument *)

(** C10. On a NULL equation pointer, [cs_equation_free] returns NULL,
    [cs_equation_summary] and [cs_equation_extra_op] return, and the getters
    of the name, the field, the parameter set, the space scheme, the type of
    variable, the type of equation, the flag and the diffusion, time and
    reaction properties return NULL or their sentinel ([CS_SPACE_N_SCHEMES],
    [CS_PARAM_N_VAR_TYPES], [CS_EQUATION_N_TYPES], the flag 0); none of them
    makes a call or changes the state. *)
Theorem null_pointer_operations (X : environment) (calls : list event)
    (r_name : option string) :
  let s := {| obj := None; log := calls |} in
  cs_equation_free s = Normal None s
  /\ cs_equation_summary s = Normal tt s
  /\ cs_equation_extra_op X s = Normal tt s
  /\ cs_equation_get_name s = Normal None s
  /\ cs_equation_get_field X s = Normal NULL s
  /\ cs_equation_get_param s = Normal None s
  /\ cs_equation_get_space_scheme s = Normal CS_SPACE_N_SCHEMES s
  /\ cs_equation_get_var_type s = Normal CS_PARAM_N_VAR_TYPES s
  /\ cs_equation_get_type s = Normal CS_EQUATION_N_TYPES s
  /\ cs_equation_get_flag s = Normal 0 s
  /\ cs_equation_get_diffusion_property s = Normal NULL s
  /\ cs_equation_get_time_property s = Normal NULL s
  /\ cs_equation_get_reaction_property r_name s = Normal NULL s.
Proof.
  intros s. repeat split; reflexivity.
Qed.

(** ** Running the operations *)

Ltac run :=
  cbv beta iota zeta delta
    [bind ret when eq_is_null deref call bft_error undefined assign
     assign_param store through assign_time_hodge assign_diffusion_hodge
     assign_algo_info assign_itsol_info assign_bc assign_advection_info
     assign_time_info _check_ml_name obj log].

Ltac split_tests val :=
  repeat match goal with
         | |- context [strcmp_eq val ?x] => destruct (strcmp_eq val x)
         end.

(** [cs_equation_set_option] in one step: the calls to the timer apart, it
    fails on an unknown key, then on a locked equation, then on a value the
    case of the key refuses, and otherwise applies [option_update]. *)
Lemma cs_equation_set_option_eq (X : environment) (e : cs_equation_t)
    (calls : list event) (keyname val : string) :
  cs_equation_set_option X keyname val {| obj := Some e; log := calls |} =
  let key := _get_eqkey keyname in
  let calls1 :=
    if main_ts_id e >? -1
    then (calls ++ [cs_timer_stats_start (main_ts_id e)])%list else calls in
  match key with
  | EQKEY_ERROR =>
      Fatal (InvalidKey keyname (name e))
        {| obj := Some e;
           log := (calls1 ++ [bft_printf (listing_possible_keys keyname)])%list |}
  | _ =>
      if has_flag (flag (param e)) (CS_EQUATION_LOCKED X) then
        Fatal (Locked (name e)) {| obj := Some e; log := calls1 |}
      else
        match option_update X key val with
        | None => Fatal (InvalidValue val keyname) {| obj := Some e; log := calls1 |}
        | Some f =>
            Normal tt
              {| obj := Some (set_param (f (param e)) e);
                 log := if main_ts_id e >? -1
                        then (calls1 ++ [cs_timer_stats_stop (main_ts_id e)])%list
                        else calls1 |}
        end
  end.
Proof.
  unfold cs_equation_set_option. destruct e. run. cbn [main_ts_id param flag name].
  match goal with |- context [?id >? -1] => destruct (id >? -1) eqn:Hts end;
    destruct (_get_eqkey keyname);
    try match goal with |- context [has_flag ?f ?m] => destruct (has_flag f m) end;
    try reflexivity;
    cbv beta iota zeta delta [option_update];
    split_tests val; cbn; rewrite ?Hts; reflexivity.
Qed.

Lemma bind_Normal (A B : Type) (c : M A) (k : A -> M B) (s s' : state) (b : B) :
  bind c k s = Normal b s' ->
  exists a s1, c s = Normal a s1 /\ k a s1 = Normal b s'.
Proof.
  unfold bind. destruct (c s) as [a s1| |]; intros H; try discriminate.
  exists a, s1. split; [reflexivity | exact H].
Qed.

(** ** Masks *)

Lemma has_flag_lor (flag mask other : Z) :
  has_flag flag mask = true -> has_flag (Z.lor flag other) mask = true.
Proof.
  unfold has_flag. rewrite !negb_true_iff, !Z.eqb_neq. intros H H0.
  rewrite Z.land_lor_distr_l in H0. apply Z.lor_eq_0_iff in H0.
  destruct H0 as [H0 _]. exact (H H0).
Qed.

Lemma has_flag_raised (flag mask : Z) :
  mask <> 0 -> has_flag (Z.lor flag mask) mask = true.
Proof.
  unfold has_flag. rewrite negb_true_iff, Z.eqb_neq. intros H H0.
  rewrite Z.land_lor_distr_l, Z.land_diag in H0.
  apply Z.lor_eq_0_iff in H0. destruct H0 as [_ H0]. exact (H H0).
Qed.

(** ** Arrays *)

Lemma array_store_end (A : Type) (a : list A) (v : A) :
  array_store a (Z.of_nat (length a)) v = (a ++ [v])%list.
Proof.
  unfold array_store. rewrite Nat2Z.id, firstn_all.
  rewrite skipn_all2 by lia. reflexivity.
Qed.

(** ** The registrations, in one step *)

Lemma cs_equation_link_eq (X : environment) (e : cs_equation_t)
    (calls : list event) (keyword : string) (pointer : ptr) :
  cs_equation_link X keyword pointer {| obj := Some e; log := calls |} =
  match link_update X keyword pointer with
  | Some f => Normal tt {| obj := Some (set_param (f (param e)) e); log := calls |}
  | None => Fatal (InvalidTerm keyword) {| obj := Some e; log := calls |}
  end.
Proof.
  unfold cs_equation_link, link_update. destruct e. run.
  repeat match goal with
         | |- context [strcmp_eq ?x keyword] => destruct (strcmp_eq x keyword)
         end; reflexivity.
Qed.

Lemma cs_equation_add_bc_eq (X : environment) (e : cs_equation_t)
    (calls : list event) (ml_name bc_key def_key val : string) :
  cs_equation_add_bc X ml_name bc_key def_key val {| obj := Some e; log := calls |} =
  let p := param e in
  let counted := {| obj := Some (set_param (bc_counted p) e); log := calls |} in
  let ml_id := cs_mesh_location_get_id_by_name X ml_name in
  if ml_id =? -1 then Fatal (InvalidMeshLocation ml_name) counted
  else
    match def_type_of_key def_key with
    | None => Fatal (InvalidDefinitionKind def_key) counted
    | Some def_type =>
        match bc_type_of_key bc_key with
        | None => Fatal (InvalidBCKind bc_key) counted
        | Some bc_type =>
            Normal tt
              {| obj := Some (set_param
                   (bc_stored
                      (cs_param_bc_def_set ml_id
                         (recorded_bc_type X (var_type p) def_type bc_type val)
                         (var_type p) def_type val None) p) e);
                 log := calls |}
        end
    end.
Proof.
  unfold cs_equation_add_bc, def_type_of_key, bc_type_of_key, recorded_bc_type.
  destruct e as [? p ? ? ? ? ? ? ? ? ? ? ? ? ? ? ? ? ? ? ?]. run.
  cbn [param].
  destruct (cs_mesh_location_get_id_by_name X ml_name =? -1); [reflexivity|].
  split_tests def_key; try reflexivity;
    split_tests bc_key; try reflexivity;
    cbn [param var_type in_bc bc_counted bc_stored set_bc bc];
    destruct p; cbn;
    repeat match goal with
           | |- context [PrimFloat.ltb ?a ?b] => destruct (PrimFloat.ltb a b)
           | |- context [match ?v with CS_PARAM_VAR_SCAL => _ | _ => _ end] =>
               destruct v
           end; reflexivity.
Qed.

Lemma cs_equation_add_reaction_eq (X : environment) (e : cs_equation_t)
    (calls : list event) (r_name : option string) (type_name : string)
    (property : ptr) :
  cs_equation_add_reaction X r_name type_name property
    {| obj := Some e; log := calls |} =
  let p := param e in
  let r_id := n_reaction_terms p in
  let counted :=
    {| obj := Some (set_param (reaction_counted property p) e); log := calls |} in
  if match r_name with None => negb (r_id <? 100) | Some _ => false end
  then Fatal AssertionFailed counted
  else if negb (strcmp_eq type_name "linear")
  then Fatal (InvalidReactionType (name e)) counted
  else
    match space_scheme p with
    | CS_SPACE_SCHEME_CDOVB =>
        Normal tt
          {| obj := Some (set_param
               (reaction_stored X
                  (cs_param_reaction_add X
                     match r_name with
                     | Some n => n
                     | None => reaction_default_name r_id
                     end
                     CS_PARAM_HODGE_TYPE_VPCD CS_PARAM_HODGE_ALGO_WBS
                     CS_PARAM_REACTION_TYPE_LINEAR)
                  property p) e);
             log := calls |}
    | CS_SPACE_SCHEME_CDOFB => Fatal NotImplementedYet counted
    | CS_SPACE_N_SCHEMES => Fatal InvalidSpaceScheme counted
    end.
Proof.
  unfold cs_equation_add_reaction, reaction_default_name.
  destruct e as [? p ? ? ? ? ? ? ? ? ? ? ? ? ? ? ? ? ? ? ?]. run. cbn [param name].
  destruct r_name as [n|]; run;
    [| destruct (n_reaction_terms p <? 100); cbn [negb]; [| reflexivity] ];
    destruct (strcmp_eq type_name "linear"); cbn [negb]; try reflexivity;
    destruct p as [? ? ? ? ? ? sch ? ? ? ? ? ? ? ? ? ? ? ? ? ? ?];
    destruct sch; reflexivity.
Qed.

(** The search finds nothing among terms that all have another name. *)
Lemma find_reaction_term_unused (r_name : string)
    (terms : list cs_param_reaction_t) (n : nat) (i : Z) :
  unused_name r_name terms -> find_reaction_term r_name terms n i = -1.
Proof.
  intros H. revert n i.
  induction H as [| t terms Ht _ IH]; intros n i; destruct n; cbn; try reflexivity.
  rewrite Ht. apply IH.
Qed.

(** The search finds the first term of the name after terms of other names. *)
Lemma find_reaction_term_first (r_name : string)
    (before after : list cs_param_reaction_t) (t : cs_param_reaction_t)
    (n : nat) (i : Z) :
  unused_name r_name before ->
  strcmp_eq (reaction_name t) r_name = true ->
  (length before < n)%nat ->
  find_reaction_term r_name (before ++ t :: after) n i
  = i + Z.of_nat (length before).
Proof.
  intros H Ht. revert n i.
  induction H as [| u before Hu _ IH]; intros n i Hn.
  - destruct n; [inversion Hn|]. cbn. rewrite Ht. lia.
  - destruct n; [inversion Hn|]. cbn [app find_reaction_term length].
    rewrite Hu, IH by (cbn in Hn; lia). lia.
Qed.

Lemma cs_equation_get_reaction_property_eq (e : cs_equation_t)
    (calls : list event) (r_name : string) :
  cs_equation_get_reaction_property (Some r_name)
    {| obj := Some e; log := calls |} =
  let p := param e in
  let r_id :=
    find_reaction_term r_name (reaction_terms p)
      (Z.to_nat (n_reaction_terms p)) 0 in
  if r_id =? -1
  then Fatal (NotFound r_name (name e)) {| obj := Some e; log := calls |}
  else
    match nth_error (reaction_properties p) (Z.to_nat r_id) with
    | Some q => Normal q {| obj := Some e; log := calls |}
    | None => Undefined out_of_bounds_access
    end.
Proof.
  unfold cs_equation_get_reaction_property. run.
  destruct (find_reaction_term _ _ _ _ =? -1); [reflexivity|].
  destruct (nth_error _ _); reflexivity.
Qed.

(** ** The lock *)







(** ** Keys and values *)

Lemma not_in_cons_eqb (a b : string) (l : list string) :
  ~ In a (b :: l) -> strcmp_eq a b = false /\ ~ In a l.
Proof.
  intros H. split.
  - unfold strcmp_eq. apply String.eqb_neq. intros ->. apply H. left. reflexivity.
  - intros Hin. apply H. right. exact Hin.
Qed.

Ltac not_in_vocabulary H :=
  repeat match type of H with
         | ~ In ?a (?b :: ?l) =>
             let E := fresh "E" in
             apply not_in_cons_eqb in H; destruct H as [E H]
         end.

(** [_get_eqkey] knows the keys [_print_eqkey] names, and only them. *)
Lemma _get_eqkey_unknown (keyname : string) :
  ~ In keyname key_vocabulary -> _get_eqkey keyname = EQKEY_ERROR.
Proof.
  intros H. cbv [key_vocabulary eqkeys flat_map _print_eqkey app] in H.
  not_in_vocabulary H. unfold _get_eqkey.
  repeat match goal with
         | E : strcmp_eq keyname ?x = false |- context [strcmp_eq keyname ?x] =>
             rewrite E
         end.
  repeat match goal with
         | |- context [strncmp_eq keyname ?x ?n] => destruct (strncmp_eq keyname x n)
         end; reflexivity.
Qed.

Lemma _get_eqkey_known (keyname : string) :
  In keyname key_vocabulary ->
  _get_eqkey keyname <> EQKEY_ERROR
  /\ _print_eqkey (_get_eqkey keyname) = Some keyname.
Proof.
  intros H. cbv [key_vocabulary eqkeys flat_map _print_eqkey app] in H.
  repeat (destruct H as [<- | H]; [split; [discriminate | reflexivity] |]).
  destruct H.
Qed.

Lemma option_update_refuses (X : environment) (key : eqkey_t) (val : string) :
  choice_key key = true -> ~ In val (value_vocabulary key) ->
  option_update X key val = None.
Proof.
  intros Hk H. destruct key; try discriminate Hk; cbn [value_vocabulary] in H;
    not_in_vocabulary H; cbv beta iota zeta delta [option_update];
    repeat match goal with
           | E : strcmp_eq val ?x = false |- context [strcmp_eq val ?x] =>
               rewrite E
           end; reflexivity.
Qed.

Lemma option_update_number (X : environment) (key : eqkey_t) (val : string) :
  number_key key = true -> ~ In val (value_vocabulary key) ->
  option_update X key val = Some (number_update X key val).
Proof.
  intros Hk H. destruct key; try discriminate Hk; cbn [value_vocabulary] in H;
    not_in_vocabulary H; cbv beta iota zeta delta [option_update number_update];
    repeat match goal with
           | E : strcmp_eq val ?x = false |- context [strcmp_eq val ?x] =>
               rewrite E
           end; reflexivity.
Qed.

Lemma option_update_documented (X : environment) (keyname val : string)
    (f : cs_equation_param_t -> cs_equation_param_t) :
  In (keyname, val, f) (documented_options X) ->
  _get_eqkey keyname <> EQKEY_ERROR
  /\ option_update X (_get_eqkey keyname) val = Some f.
Proof.
  intros H. unfold documented_options in H.
  repeat (destruct H as [H | H];
          [inversion H; subst; split; [discriminate | reflexivity] |]).
  destruct H.
Qed.

(** An unlocked equation takes the change of a key the vocabulary has and of
    a value the case of the key accepts. *)
Lemma cs_equation_set_option_accepts (X : environment) (e : cs_equation_t)
    (calls : list event) (keyname val : string)
    (f : cs_equation_param_t -> cs_equation_param_t) :
  has_flag (flag (param e)) (CS_EQUATION_LOCKED X) = false ->
  _get_eqkey keyname <> EQKEY_ERROR ->
  option_update X (_get_eqkey keyname) val = Some f ->
  exists calls',
    cs_equation_set_option X keyname val {| obj := Some e; log := calls |}
    = Normal tt {| obj := Some (set_param (f (param e)) e); log := calls' |}.
Proof.
  intros Hl Hk Hf. rewrite cs_equation_set_option_eq. cbv zeta.
  rewrite Hl, Hf. destruct (_get_eqkey keyname); try (now elim Hk);
    eexists; reflexivity.
Qed.

Lemma cs_equation_set_option_refuses (X : environment) (e : cs_equation_t)
    (calls : list event) (keyname val : string) :
  has_flag (flag (param e)) (CS_EQUATION_LOCKED X) = false ->
  _get_eqkey keyname <> EQKEY_ERROR ->
  option_update X (_get_eqkey keyname) val = None ->
  exists calls',
    cs_equation_set_option X keyname val {| obj := Some e; log := calls |}
    = Fatal (InvalidValue val keyname) {| obj := Some e; log := calls' |}.
Proof.
  intros Hl Hk Hf. rewrite cs_equation_set_option_eq. cbv zeta.
  rewrite Hl, Hf. destruct (_get_eqkey keyname); try (now elim Hk);
    eexists; reflexivity.
Qed.

(** C4, as the code has it.  On an equation that is not locked,
    [cs_equation_set_option]
    - stops with the error of an invalid key, the equation unchanged, for a
      key outside the vocabulary, and knows every key of the vocabulary;
    - stops with the error of an invalid value, the equation unchanged, for a
      key whose value is a choice and a value outside its choices;
    - returns, having made the documented change, for every documented pair
      of a key and a value;
    - returns for a key whose value is a number and any other value, the
      member set to what [atof] or [atoi] reads from the value. *)
Theorem set_option_key_validation (X : environment) (e : cs_equation_t)
    (calls : list event) (keyname val : string) :
  has_flag (flag (param e)) (CS_EQUATION_LOCKED X) = false ->
  let s := {| obj := Some e; log := calls |} in
  let key := _get_eqkey keyname in
  (~ In keyname key_vocabulary ->
   exists calls',
     cs_equation_set_option X keyname val s
     = Fatal (InvalidKey keyname (name e)) {| obj := Some e; log := calls' |})
  /\ (In keyname key_vocabulary -> _print_eqkey key = Some keyname)
  /\ (In keyname key_vocabulary -> choice_key key = true ->
      ~ In val (value_vocabulary key) ->
      exists calls',
        cs_equation_set_option X keyname val s
        = Fatal (InvalidValue val keyname) {| obj := Some e; log := calls' |})
  /\ (forall f, In (keyname, val, f) (documented_options X) ->
      exists calls',
        cs_equation_set_option X keyname val s
        = Normal tt {| obj := Some (set_param (f (param e)) e); log := calls' |})
  /\ (In keyname key_vocabulary -> number_key key = true ->
      ~ In val (value_vocabulary key) ->
      exists calls',
        cs_equation_set_option X keyname val s
        = Normal tt
            {| obj := Some (set_param (number_update X key val (param e)) e);
               log := calls' |}).
Proof.
  intros Hl s key. repeat split.
  - intros Hk. unfold s. rewrite cs_equation_set_option_eq. cbv zeta.
    rewrite (_get_eqkey_unknown keyname Hk). eexists; reflexivity.
  - intros Hk. apply (_get_eqkey_known keyname Hk).
  - intros Hk Hc Hv. apply cs_equation_set_option_refuses.
    + exact Hl.
    + apply (_get_eqkey_known keyname Hk).
    + apply option_update_refuses; assumption.
  - intros f Hf. destruct (option_update_documented X keyname val f Hf) as [Hk Hu].
    apply cs_equation_set_option_accepts; assumption.
  - intros Hk Hn Hv. apply cs_equation_set_option_accepts.
    + exact Hl.
    + apply (_get_eqkey_known keyname Hk).
    + apply option_update_number; assumption.
Qed.

Lemma set_option_key_validation_witness :
  has_flag (flag (param Reference.eq0)) (CS_EQUATION_LOCKED Reference.env) = false
  /\ In "space_scheme" key_vocabulary
  /\ exists e' calls',
       cs_equation_set_option Reference.env "space_scheme" "cdo_fb"
         (Reference.start Reference.eq0)
       = Normal tt {| obj := Some e'; log := calls' |}
       /\ space_scheme (param e') = CS_SPACE_SCHEME_CDOFB.
Proof.
  split; [reflexivity|]. split; [cbv; tauto|].
  destruct (set_option_key_validation Reference.env Reference.eq0 []
              "space_scheme" "cdo_fb" eq_refl) as (_ & _ & _ & H & _).
  edestruct H as [calls' Hc]; [right; left; reflexivity|].
  do 2 eexists. split; [exact Hc | reflexivity].
Defined.

(** C4, as it is stated, fails: a key whose value is a number takes a value
    that is no number, and the keys "itsol_resnorm" and "extra_op" take a
    value outside their choices and change nothing. *)
Lemma values_outside_the_vocabulary_accepted :
  (exists e' calls',
     cs_equation_set_option Reference.env "verbosity" "verbose"
       (Reference.start Reference.eq0)
     = Normal tt {| obj := Some e'; log := calls' |}
     /\ verbosity (param e') = 0)
  /\ (exists e' calls',
        cs_equation_set_option Reference.env "hodge_diff_coef" "large"
          (Reference.start Reference.eq0)
        = Normal tt {| obj := Some e'; log := calls' |}
        /\ hodge_coef (diffusion_hodge (param e')) = 0%float)
  /\ cs_equation_set_option Reference.env "itsol_resnorm" "maybe"
       (Reference.start Reference.eq0)
     = Normal tt (Reference.start Reference.eq0)
  /\ cs_equation_set_option Reference.env "extra_op" "everything"
       (Reference.start Reference.eq0)
     = Normal tt (Reference.start Reference.eq0).
Proof.
  split; [| split; [| split]].
  - do 2 eexists. split; [vm_compute; reflexivity | reflexivity].
  - do 2 eexists. split; [vm_compute; reflexivity | reflexivity].
  - vm_compute. reflexivity.
  - vm_compute. reflexivity.
Qed.

(** ** The frame of a key *)

Lemma option_update_frame (X : environment) (key : eqkey_t) (val : string)
    (f : cs_equation_param_t -> cs_equation_param_t) (p : cs_equation_param_t)
    (m : member) :
  option_update X key val = Some f ->
  in_group m key = false ->
  agree m p (f p).
Proof.
  intros H Hm.
  destruct key; cbv beta iota zeta delta [option_update] in H;
    repeat match type of H with
           | context [strcmp_eq val ?x] => destruct (strcmp_eq val x)
           end;
    try discriminate H; inversion H; subst f; clear H;
    destruct m; try discriminate Hm; reflexivity.
Qed.

Lemma cs_equation_set_option_Normal (X : environment) (s s' : state)
    (keyname val : string) :
  cs_equation_set_option X keyname val s = Normal tt s' ->
  exists e f,
    obj s = Some e
    /\ has_flag (flag (param e)) (CS_EQUATION_LOCKED X) = false
    /\ option_update X (_get_eqkey keyname) val = Some f
    /\ obj s' = Some (set_param (f (param e)) e).
Proof.
  destruct s as [[e|] calls]; [| discriminate].
  rewrite cs_equation_set_option_eq. cbv zeta. intros H.
  destruct (has_flag (flag (param e)) (CS_EQUATION_LOCKED X)) eqn:Hl;
    [destruct (_get_eqkey keyname); discriminate|].
  destruct (option_update X (_get_eqkey keyname) val) as [f|] eqn:Hf;
    [| destruct (_get_eqkey keyname); discriminate].
  exists e, f. do 3 (split; [first [assumption | reflexivity]|]).
  destruct (_get_eqkey keyname); try discriminate; injection H as <-; reflexivity.
Qed.

(** C8.  A call of [cs_equation_set_option] that returns changes, in the
    equation, the parameter set only, and there the members of the group of
    its key only: every other member keeps its value.  The key "space_scheme"
    with the value "cdo_vb" sets the scheme to the vertex-based one and the
    Hodge types of the time and diffusion terms to the vertex-based pair; with
    the value "cdo_fb" it sets the face-based scheme and the face-based pair. *)
Theorem set_option_frame (X : environment) (s s' : state) (keyname val : string) :
  cs_equation_set_option X keyname val s = Normal tt s' ->
  exists e e',
    obj s = Some e /\ obj s' = Some e'
    /\ e' = set_param (param e') e
    /\ (forall m, in_group m (_get_eqkey keyname) = false ->
                  agree m (param e) (param e'))
    /\ (keyname = "space_scheme" -> val = "cdo_vb" ->
        space_scheme (param e') = CS_SPACE_SCHEME_CDOVB
        /\ hodge_type (time_hodge (param e')) = CS_PARAM_HODGE_TYPE_VPCD
        /\ hodge_type (diffusion_hodge (param e')) = CS_PARAM_HODGE_TYPE_EPFD)
    /\ (keyname = "space_scheme" -> val = "cdo_fb" ->
        space_scheme (param e') = CS_SPACE_SCHEME_CDOFB
        /\ hodge_type (time_hodge (param e')) = CS_PARAM_HODGE_TYPE_CPVD
        /\ hodge_type (diffusion_hodge (param e')) = CS_PARAM_HODGE_TYPE_EDFP).
Proof.
  intros H.
  destruct (cs_equation_set_option_Normal X s s' keyname val H)
    as (e & f & He & _ & Hf & He').
  exists e, (set_param (f (param e)) e).
  split; [exact He|]. split; [exact He'|]. split; [reflexivity|].
  split; [| split].
  - intros m Hm. apply (option_update_frame X _ val f (param e) m Hf Hm).
  - intros -> ->. cbn in Hf. inversion Hf. repeat split.
  - intros -> ->. cbn in Hf. inversion Hf. repeat split.
Qed.

Lemma set_option_frame_witness :
  exists e',
    obj (Reference.final
           (cs_equation_set_option Reference.env "space_scheme" "cdo_fb"
              (Reference.start Reference.eq0))
           Reference.null_state) = Some e'
    /\ space_scheme (param e') = CS_SPACE_SCHEME_CDOFB
    /\ agree eqp_itsol_solver (param Reference.eq0) (param e').
Proof.
  destruct (set_option_frame Reference.env (Reference.start Reference.eq0)
              (Reference.final
                 (cs_equation_set_option Reference.env "space_scheme" "cdo_fb"
                    (Reference.start Reference.eq0))
                 Reference.null_state)
              "space_scheme" "cdo_fb")
    as (e & e' & He & He' & _ & Hframe & _ & Hfb).
  - vm_compute. reflexivity.
  - exists e'. split; [exact He'|]. split.
    + apply (Hfb eq_refl eq_refl).
    + inversion He; subst e. apply Hframe. reflexivity.
Defined.

(** ** Boundary conditions *)

(** C6, as the code has it.  On a scalar equation, a boundary condition defined
    by a value on an existing mesh location is appended to the definitions;
    its kind is the homogeneous one, for "dirichlet" and for "neumann", when
    the magnitude of the number [atof] reads is below [DBL_MIN], which zero
    is, and the kind asked for otherwise, as for any number with a magnitude
    of [DBL_MIN] at least. *)
Theorem add_bc_homogeneous (X : environment) (e : cs_equation_t)
    (calls : list event) (ml_name bc_key val : string) :
  var_type (param e) = CS_PARAM_VAR_SCAL ->
  cs_mesh_location_get_id_by_name X ml_name <> -1 ->
  definitions_consistent (param e) ->
  bc_key = "dirichlet" \/ bc_key = "neumann" ->
  exists e' d,
    cs_equation_add_bc X ml_name bc_key "value" val
      {| obj := Some e; log := calls |}
    = Normal tt {| obj := Some e'; log := calls |}
    /\ defs (bc (param e')) = (defs (bc (param e)) ++ [d])%list
    /\ n_defs (bc (param e')) = n_defs (bc (param e)) + 1
    /\ bc_type d =
       if (PrimFloat.abs (atof X val) <? DBL_MIN)%float then
         if strcmp_eq bc_key "dirichlet" then CS_PARAM_BC_HMG_DIRICHLET
         else CS_PARAM_BC_HMG_NEUMANN
       else
         if strcmp_eq bc_key "dirichlet" then CS_PARAM_BC_DIRICHLET
         else CS_PARAM_BC_NEUMANN.
Proof.
  intros Hvar Hml Hn Hkey. rewrite cs_equation_add_bc_eq. cbv zeta.
  apply Z.eqb_neq in Hml. rewrite Hml.
  change (def_type_of_key "value") with (Some CS_PARAM_DEF_BY_VALUE).
  destruct Hkey as [-> | ->].
  - change (bc_type_of_key "dirichlet") with (Some CS_PARAM_BC_DIRICHLET).
    do 2 eexists. split; [reflexivity|]. cbn. rewrite Hn, array_store_end, Hvar.
    repeat split.
  - change (bc_type_of_key "neumann") with (Some CS_PARAM_BC_NEUMANN).
    do 2 eexists. split; [reflexivity|]. cbn. rewrite Hn, array_store_end, Hvar.
    repeat split.
Qed.

Lemma add_bc_homogeneous_witness :
  (exists e' d,
     cs_equation_add_bc Reference.env "boundary_faces" "dirichlet" "value" "0.0"
       (Reference.start Reference.eq0)
     = Normal tt {| obj := Some e'; log := [] |}
     /\ defs (bc (param e')) = [d]
     /\ bc_type d = CS_PARAM_BC_HMG_DIRICHLET)
  /\ (exists e' d,
        cs_equation_add_bc Reference.env "boundary_faces" "dirichlet" "value" "0.1"
          (Reference.start Reference.eq0)
        = Normal tt {| obj := Some e'; log := [] |}
        /\ defs (bc (param e')) = [d]
        /\ bc_type d = CS_PARAM_BC_DIRICHLET).
Proof.
  split.
  - destruct (add_bc_homogeneous Reference.env Reference.eq0 []
                "boundary_faces" "dirichlet" "0.0")
      as (e' & d & H & Hd & _ & Ht);
      [reflexivity | discriminate | reflexivity | left; reflexivity |].
    exists e', d. split; [exact H|]. split; [exact Hd | exact Ht].
  - destruct (add_bc_homogeneous Reference.env Reference.eq0 []
                "boundary_faces" "dirichlet" "0.1")
      as (e' & d & H & Hd & _ & Ht);
      [reflexivity | discriminate | reflexivity | left; reflexivity |].
    exists e', d. split; [exact H|]. split; [exact Hd | exact Ht].
Defined.

(** C6, as it is stated, fails for a value that is not zero and whose
    magnitude is below [DBL_MIN]: the condition is recorded as homogeneous. *)
Lemma subnormal_value_recorded_homogeneous :
  PrimFloat.eqb (atof Reference.env "1e-320") 0%float = false
  /\ exists e' d,
       cs_equation_add_bc Reference.env "boundary_faces" "dirichlet" "value"
         "1e-320" (Reference.start Reference.eq0)
       = Normal tt {| obj := Some e'; log := [] |}
       /\ defs (bc (param e')) = [d]
       /\ bc_type d = CS_PARAM_BC_HMG_DIRICHLET.
Proof.
  split; [reflexivity|].
  do 2 eexists. split; [vm_compute; reflexivity|]. split; reflexivity.
Qed.

(** ** Reaction terms *)

(** Looking a name up returns the property stored for the first term of
    that name. *)
Lemma cs_equation_get_reaction_property_first (e : cs_equation_t)
    (calls : list event) (r_name : string)
    (before after : list cs_param_reaction_t) (t : cs_param_reaction_t)
    (q : ptr) :
  reaction_terms (param e) = (before ++ t :: after)%list ->
  reactions_consistent (param e) ->
  unused_name r_name before ->
  strcmp_eq (reaction_name t) r_name = true ->
  nth_error (reaction_properties (param e)) (length before) = Some q ->
  cs_equation_get_reaction_property (Some r_name)
    {| obj := Some e; log := calls |}
  = Normal q {| obj := Some e; log := calls |}.
Proof.
  intros Hterms [Hn _] Hbefore Ht Hq.
  rewrite cs_equation_get_reaction_property_eq. cbv zeta.
  rewrite Hn, Nat2Z.id, Hterms.
  rewrite find_reaction_term_first;
    [| exact Hbefore | exact Ht | rewrite length_app; cbn; lia].
  destruct (0 + Z.of_nat (length before) =? -1) eqn:E;
    [apply Z.eqb_eq in E; lia|].
  replace (Z.to_nat (0 + Z.of_nat (length before))) with (length before) by lia.
  rewrite Hq. reflexivity.
Qed.

(** C9, as the code has it.  On an equation whose counters agree with its
    arrays, and for a name no reaction term of the equation has yet: looking
    the name up stops with the error of a term that is not found; whenever
    the registration of a reaction term under the name returns, looking the
    name up then returns the property registered; and the registration of a
    linear term returns on a vertex-based equation. *)
Theorem reaction_property_lookup (X : environment) (e : cs_equation_t)
    (calls : list event) (r_name type_name : string) (property : ptr) :
  reactions_consistent (param e) ->
  unused_name r_name (reaction_terms (param e)) ->
  let s := {| obj := Some e; log := calls |} in
  cs_equation_get_reaction_property (Some r_name) s
  = Fatal (NotFound r_name (name e)) s
  /\ (forall s',
        cs_equation_add_reaction X (Some r_name) type_name property s
        = Normal tt s' ->
        cs_equation_get_reaction_property (Some r_name) s' = Normal property s')
  /\ (space_scheme (param e) = CS_SPACE_SCHEME_CDOVB ->
      exists s',
        cs_equation_add_reaction X (Some r_name) "linear" property s
        = Normal tt s').
Proof.
  intros [Hn Hlen] Hfresh s. split; [| split].
  - unfold s. rewrite cs_equation_get_reaction_property_eq. cbv zeta.
    rewrite (find_reaction_term_unused r_name _ _ 0 Hfresh). reflexivity.
  - intros s'. unfold s. rewrite cs_equation_add_reaction_eq. cbv zeta.
    destruct (negb (strcmp_eq type_name "linear")); [discriminate|].
    destruct (space_scheme (param e)); try discriminate.
    intros H. injection H as <-.
    rewrite cs_equation_get_reaction_property_eq. cbv zeta. cbn.
    rewrite Hn, !array_store_end.
    rewrite <- Hlen at 2. rewrite array_store_end.
    replace (Z.to_nat (Z.of_nat (length (reaction_terms (param e))) + 1))
      with (S (length (reaction_terms (param e)))) by lia.
    rewrite find_reaction_term_first;
      [| exact Hfresh | apply String.eqb_refl | lia].
    destruct (0 + Z.of_nat (length (reaction_terms (param e))) =? -1) eqn:E;
      [apply Z.eqb_eq in E; lia|].
    replace (Z.to_nat (0 + Z.of_nat (length (reaction_terms (param e)))))
      with (length (reaction_properties (param e))) by lia.
    rewrite nth_error_app2, Nat.sub_diag by lia. reflexivity.
  - intros Hsch. unfold s. rewrite cs_equation_add_reaction_eq. cbv zeta.
    change (negb (strcmp_eq "linear" "linear")) with false. cbv iota.
    rewrite Hsch. eexists. reflexivity.
Qed.

Lemma reaction_property_lookup_witness :
  cs_equation_get_reaction_property (Some "decay")
    (Reference.start Reference.eq0)
  = Fatal (NotFound "decay" "WallDistance") (Reference.start Reference.eq0)
  /\ exists s',
       cs_equation_add_reaction Reference.env (Some "decay") "linear" (Addr 7)
         (Reference.start Reference.eq0)
       = Normal tt s'
       /\ cs_equation_get_reaction_property (Some "decay") s'
          = Normal (Addr 7) s'.
Proof.
  destruct (reaction_property_lookup Reference.env Reference.eq0 [] "decay"
              "linear" (Addr 7))
    as (Hnone & Hget & Hadd).
  - split; reflexivity.
  - constructor.
  - split; [exact Hnone|].
    destruct (Hadd eq_refl) as [s' H]. exists s'.
    split; [exact H | exact (Hget s' H)].
Defined.

(** C9, as it is stated, fails when the name is registered twice: looking it
    up returns the property of the first registration, not the property
    passed at the second. *)
Lemma second_registration_not_returned :
  exists e1 e2,
    cs_equation_add_reaction Reference.env (Some "decay") "linear" (Addr 7)
      (Reference.start Reference.eq0)
    = Normal tt {| obj := Some e1; log := [] |}
    /\ cs_equation_add_reaction Reference.env (Some "decay") "linear" (Addr 8)
         {| obj := Some e1; log := [] |}
       = Normal tt {| obj := Some e2; log := [] |}
    /\ reaction_properties (param e2) = [Addr 7; Addr 8]
    /\ cs_equation_get_reaction_property (Some "decay")
         {| obj := Some e2; log := [] |}
       = Normal (Addr 7) {| obj := Some e2; log := [] |}.
Proof.
  do 2 eexists. split; [vm_compute; reflexivity|].
  split; [vm_compute; reflexivity|]. split; [reflexivity|].
  vm_compute. reflexivity.
Qed.

(** ** Build and solve *)

Lemma cs_equation_solve_eq (X : environment) (e : cs_equation_t)
    (calls : list event) (do_logcvg : bool) (t u : scheme_function) :
  get_tmpbuf e = Some t -> update_field e = Some u ->
  field_solvable X e t = true ->
  exists calls',
    cs_equation_solve X do_logcvg {| obj := Some e; log := calls |}
    = Normal tt
        {| obj := Some (if has_flag (flag (param e)) (CS_EQUATION_UNSTEADY X)
                        then set_do_build true e else e);
           log := calls' |}.
Proof.
  intros Ht Hu Hs. unfold field_solvable, field_exists in Hs. cbv zeta in Hs.
  apply andb_prop in Hs. destruct Hs as [Hs Hl].
  apply andb_prop in Hs. destruct Hs as [Hf Hd].
  apply negb_true_iff in Hf.
  unfold cs_equation_solve, field_dim, field_values. run.
  rewrite Ht, Hu, Hf, Hd. run.
  destruct (0 <? cs_matrix_get_n_rows X (matrix e));
    [cbn in Hl; apply negb_true_iff in Hl; rewrite Hl |];
    destruct (solve_ts_id e >? -1), (sles_verbosity (param e) >? 0), do_logcvg,
      (extra_op_ts_id e >? -1),
      (has_flag (flag (param e)) (CS_EQUATION_UNSTEADY X));
    eexists; reflexivity.
Qed.

Lemma cs_equation_solve_Normal (X : environment) (s s' : state)
    (do_logcvg : bool) :
  cs_equation_solve X do_logcvg s = Normal tt s' ->
  exists e,
    obj s = Some e
    /\ obj s' = Some (if has_flag (flag (param e)) (CS_EQUATION_UNSTEADY X)
                      then set_do_build true e else e).
Proof.
  destruct s as [[e|] calls]; [| discriminate].
  intros H. exists e. split; [reflexivity|]. revert H.
  unfold cs_equation_solve, field_dim, field_values. run.
  destruct (get_tmpbuf e) as [t|];
    [| destruct (solve_ts_id e >? -1); discriminate].
  run.
  destruct (ptr_eqb (cs_field_by_id X (field_id e)) NULL);
    [destruct (solve_ts_id e >? -1), (sles_verbosity (param e) >? 0);
     discriminate|].
  run.
  destruct (cs_field_dim X (cs_field_by_id X (field_id e)) =? 1);
    [| destruct (solve_ts_id e >? -1), (sles_verbosity (param e) >? 0);
       discriminate].
  cbn [negb]. run.
  destruct (update_field e) as [u|];
    destruct (0 <? cs_matrix_get_n_rows X (matrix e));
    try destruct (ptr_eqb (cs_field_val X (cs_field_by_id X (field_id e)))
                    NULL || ptr_eqb (scheme_tmpbuf X t) NULL);
    destruct (solve_ts_id e >? -1), (sles_verbosity (param e) >? 0), do_logcvg,
      (extra_op_ts_id e >? -1),
      (has_flag (flag (param e)) (CS_EQUATION_UNSTEADY X));
    run; intros H; try discriminate H; injection H as <-; reflexivity.
Qed.

Lemma cs_equation_build_system_Normal (X : environment) (s s' : state)
    (nt_cur : Z) :
  cs_equation_build_system X nt_cur s = Normal tt s' ->
  exists e', obj s' = Some e' /\ do_build e' = false.
Proof.
  destruct s as [[e|] calls]; [| discriminate].
  unfold cs_equation_build_system, field_values. run.
  destruct (ptr_eqb (cs_field_by_id X (field_id e)) NULL);
    [destruct (pre_ts_id e >? -1); discriminate|].
  run.
  destruct (build_system e) as [f|]; [| destruct (pre_ts_id e >? -1); discriminate].
  run.
  destruct (scheme_build_system X f (builder e)) as [b|];
    [| destruct (pre_ts_id e >? -1); discriminate].
  run. destruct e; cbn.
  repeat match goal with
         | |- context [if ?c then _ else _] => destruct c; cbn
         end;
    intros H; try discriminate H; injection H as <-;
    eexists; split; reflexivity.
Qed.

Lemma cs_equation_build_system_returns (X : environment) (e : cs_equation_t)
    (calls : list event) (nt_cur : Z) (f : scheme_function) (b : built_system_t) :
  field_exists X e = true ->
  build_system e = Some f ->
  scheme_build_system X f (builder e) = Some b ->
  sla_mat_is_msr b = true ->
  exists s', cs_equation_build_system X nt_cur {| obj := Some e; log := calls |}
             = Normal tt s'.
Proof.
  intros He Hf Hb Hm. apply negb_true_iff in He.
  unfold cs_equation_build_system, field_values. run. rewrite He, Hf. run.
  rewrite Hb. run. rewrite Hm. destruct e; cbn.
  repeat match goal with
         | |- context [if ?c then _ else _] => destruct c; cbn
         end; eexists; reflexivity.
Qed.

(** C2.  [cs_equation_solve] returns when the two functions it calls through
    the equation are set and the field of the equation exists, is scalar and
    can be copied into the buffer of the scheme; after it,
    [cs_equation_needs_build] reports true for an equation with the unsteady
    flag, and the value the flag of staleness had before for an equation
    without it.  [cs_equation_build_system] returns when the field of the
    equation exists, its builder function is set and assembles a matrix in
    the MSR format; whenever it returns, [cs_equation_needs_build] reports
    false. *)
Theorem staleness_round_trip (X : environment) (e : cs_equation_t)
    (calls : list event) (do_logcvg : bool) (nt_cur : Z) :
  let s := {| obj := Some e; log := calls |} in
  (forall t,
     get_tmpbuf e = Some t -> update_field e <> None ->
     field_solvable X e t = true ->
     exists s', cs_equation_solve X do_logcvg s = Normal tt s')
  /\ (forall s',
        cs_equation_solve X do_logcvg s = Normal tt s' ->
        cs_equation_needs_build s'
        = Normal (if has_flag (flag (param e)) (CS_EQUATION_UNSTEADY X)
                  then true else do_build e) s')
  /\ (forall f b,
        field_exists X e = true ->
        build_system e = Some f ->
        scheme_build_system X f (builder e) = Some b ->
        sla_mat_is_msr b = true ->
        exists s', cs_equation_build_system X nt_cur s = Normal tt s')
  /\ (forall s',
        cs_equation_build_system X nt_cur s = Normal tt s' ->
        cs_equation_needs_build s' = Normal false s').
Proof.
  intros s. split; [| split; [| split]].
  - intros t Et Hu Hs.
    destruct (update_field e) as [u|] eqn:Eu; [| now elim Hu].
    destruct (cs_equation_solve_eq X e calls do_logcvg t u Et Eu Hs) as [c Hc].
    eexists. exact Hc.
  - intros s' H.
    destruct (cs_equation_solve_Normal X s s' do_logcvg H) as (e0 & He0 & He').
    injection He0 as <-. destruct s' as [o c]. cbn in He'. subst o.
    unfold cs_equation_needs_build. run.
    destruct (has_flag (flag (param e)) (CS_EQUATION_UNSTEADY X)); reflexivity.
  - intros f b He Hf Hb Hm.
    exact (cs_equation_build_system_returns X e calls nt_cur f b He Hf Hb Hm).
  - intros s' H.
    destruct (cs_equation_build_system_Normal X s s' nt_cur H) as (e' & He' & Hd).
    destruct s' as [o c]. cbn in He'. subst o.
    unfold cs_equation_needs_build. run. rewrite Hd. reflexivity.
Qed.

Lemma staleness_round_trip_witness :
  has_flag (flag (param Sample.unsteady_vb))
    (CS_EQUATION_UNSTEADY Reference.env) = true
  /\ field_solvable Reference.env Sample.unsteady_vb
       cs_cdovb_scaleq_get_tmpbuf = true
  /\ (exists s',
        cs_equation_solve Reference.env true
          (Reference.start Sample.unsteady_vb) = Normal tt s'
        /\ cs_equation_needs_build s' = Normal true s')
  /\ (exists s',
        cs_equation_build_system Reference.env 0
          (Reference.start Sample.unsteady_vb) = Normal tt s'
        /\ cs_equation_needs_build s' = Normal false s').
Proof.
  destruct (staleness_round_trip Reference.env Sample.unsteady_vb [] true 0)
    as (Hs & Hs' & Hb & Hb').
  assert (Hf : field_solvable Reference.env Sample.unsteady_vb
                 cs_cdovb_scaleq_get_tmpbuf = true)
    by (vm_compute; reflexivity).
  split; [vm_compute; reflexivity|]. split; [exact Hf|]. split.
  - destruct (Hs cs_cdovb_scaleq_get_tmpbuf) as [s' H];
      [reflexivity | discriminate | exact Hf |].
    exists s'. split; [exact H |].
    rewrite (Hs' s' H). vm_compute. reflexivity.
  - destruct (Hb cs_cdovb_scaleq_build_system
                {| built_rhs := Addr 1; sla_mat_is_msr := true |})
      as [s' H];
      [vm_compute; reflexivity | reflexivity | reflexivity | reflexivity |].
    exists s'. split; [exact H | exact (Hb' s' H)].
Defined.

(** ** The solver of the in-house family *)

(** The pairs the code accepts.  With the in-house family,
    [_sles_initialization] returns exactly for CG, BiCGStab and GMRES with the
    diagonal or the degree-1 polynomial preconditioner, and stops in an error
    of an unsupported combination for every other pair; for the algebraic
    multigrid with either of the two preconditioners it defines the
    multigrid, sets its options and then stops with the error of an undefined
    iterative solver, the case of the switch having no break. *)
Theorem in_house_initialization (X : environment) (e : cs_equation_t)
    (calls : list event) (sv : cs_param_itsol_type_t)
    (pc : cs_param_precond_type_t) :
  let s := {| obj := Some (in_house sv pc e); log := calls |} in
  match _sles_initialization X s with
  | Normal _ s' =>
      in_house_initialized sv pc = true /\ obj s' = obj s
  | Fatal err s' =>
      in_house_initialized sv pc = false
      /\ is_unsupported_solver_combination err = true
      /\ obj s' = obj s
      /\ (sv = CS_PARAM_ITSOL_AMG -> in_house_documented sv pc = true ->
          err = UndefinedIterativeSolver (name e)
          /\ log s' =
             (calls ++
              [cs_multigrid_define (field_id e);
               cs_multigrid_set_solver_options (field_id e)
                 CS_SLES_JACOBI CS_SLES_JACOBI CS_SLES_PCG
                 (n_max_iter (itsol_info (param e))) 5 5 1000 0 0 0
                 1%float 1%float 1%float])%list)
  | Undefined _ => False
  end.
Proof.
  intros s. unfold s, _sles_initialization, in_house. run. cbn.
  destruct sv, pc; cbn;
    repeat match goal with
           | |- context [if ?c then _ else _] => destruct c; cbn
           end;
    repeat split; try discriminate; try (intros _ _; split);
    rewrite <- ?app_assoc; reflexivity.
Qed.

(** C3 at the failing input: the default in-house equation with the
    algebraic multigrid as its solver. *)
Lemma amg_initialization_stops :
  exists s',
    cs_equation_set_option Reference.env "itsol" "amg"
      (Reference.start Reference.eq0) = Normal tt s'
    /\ precond (itsol_info (param (Reference.final_eq s'))) = CS_PARAM_PRECOND_DIAG
    /\ exists s'',
         cs_equation_last_setup Reference.env s'
         = Fatal (UndefinedIterativeSolver "WallDistance") s''.
Proof.
  eexists. split; [vm_compute; reflexivity|]. split; [reflexivity|].
  eexists. vm_compute. reflexivity.
Qed.

(** ** Face values *)

(** Whatever the equation, once its function pointers are those of the
    vertex-based scheme [cs_equation_get_face_values] calls through NULL. *)
Lemma cs_equation_get_face_values_vertex_based (X : environment)
    (e : cs_equation_t) (calls : list event) :
  cs_equation_get_face_values X
    {| obj := Some (cdovb_functions e); log := calls |}
  = Undefined null_function_call.
Proof.
  reflexivity.
Qed.

Lemma cs_equation_get_face_values_face_based (X : environment)
    (e : cs_equation_t) (calls : list event) :
  cs_equation_get_face_values X
    {| obj := Some (cdofb_functions e); log := calls |}
  = Normal
      (scheme_get_face_values X cs_cdofb_scaleq_get_face_values (builder e)
         (field_id e))
      {| obj := Some (cdofb_functions e);
         log := (calls ++ [scheme_call cs_cdofb_scaleq_get_face_values
                             (builder e)])%list |}.
Proof.
  reflexivity.
Qed.

(** C5 at the failing input: once a vertex-based equation is set up,
    [cs_equation_get_face_values] calls through the pointer
    [cs_equation_last_setup] has set to NULL; it returns nothing. *)
Lemma face_values_of_vertex_based_equation :
  space_scheme (param Reference.eq0) = CS_SPACE_SCHEME_CDOVB
  /\ cs_equation_last_setup Reference.env (Reference.start Reference.eq0)
     = Normal tt Reference.locked_state
  /\ get_f_values (Reference.final_eq Reference.locked_state) = None
  /\ cs_equation_get_face_values Reference.env Reference.locked_state
     = Undefined null_function_call.
Proof.
  repeat split; vm_compute; reflexivity.
Qed.

(** ** Defaults *)

(** C7.  Whatever the type of equation, the type of variable and the default
    boundary condition, the parameter set [_create_equation_param] returns has
    the implicit time scheme with theta 1, the COST algorithm with the
    coefficient 1/3 for the Hodge operator of the diffusion term, the Voronoi
    algorithm for the one of the time term, no reaction term, no source term,
    no boundary-condition definition, and for the linear algebra the in-house
    family with CG and the diagonal preconditioner, or, in a build with
    PETSc, the PETSc family with BiCGStab and ILU0. *)
Theorem create_equation_param_defaults (X : environment)
    (type : cs_equation_type_t) (var_type : cs_param_var_type_t)
    (default_bc : cs_param_bc_type_t) :
  let p := _create_equation_param X type var_type default_bc in
  time_scheme (time_info p) = CS_TIME_SCHEME_IMPLICIT
  /\ theta (time_info p) = 1%float
  /\ hodge_algo (diffusion_hodge p) = CS_PARAM_HODGE_ALGO_COST
  /\ hodge_coef (diffusion_hodge p) = (1 / 3)%float
  /\ hodge_algo (time_hodge p) = CS_PARAM_HODGE_ALGO_VORONOI
  /\ n_reaction_terms p = 0
  /\ reaction_terms p = []
  /\ reaction_properties p = []
  /\ n_source_terms p = 0
  /\ source_terms p = []
  /\ n_defs (bc p) = 0
  /\ defs (bc p) = []
  /\ algo_type (algo_info p)
     = (if HAVE_PETSC X then CS_EQUATION_ALGO_PETSC_ITSOL
        else CS_EQUATION_ALGO_CS_ITSOL)
  /\ solver (itsol_info p)
     = (if HAVE_PETSC X then CS_PARAM_ITSOL_BICG else CS_PARAM_ITSOL_CG)
  /\ precond (itsol_info p)
     = (if HAVE_PETSC X then CS_PARAM_PRECOND_ILU0 else CS_PARAM_PRECOND_DIAG).
Proof.
  intros p. repeat split.
Qed.

(** ** The counters of an equation that is being configured

    The hypotheses on the counters made above hold of every equation
    [cs_equation_create] returns, and the calls that configure it keep them. *)

Lemma cs_equation_create_consistent (X : environment) (eqname varname : string)
    (eqtype : cs_equation_type_t) (vartype : cs_param_var_type_t)
    (default_bc : cs_param_bc_type_t) :
  let p := param (cs_equation_create X eqname varname eqtype vartype default_bc) in
  reactions_consistent p /\ definitions_consistent p.
Proof.
  repeat split.
Qed.

Lemma configures_keeps_counters (X : environment) (s s' : state)
    (e : cs_equation_t) :
  obj s = Some e ->
  reactions_consistent (param e) -> definitions_consistent (param e) ->
  configures X s s' ->
  exists e', obj s' = Some e'
             /\ reactions_consistent (param e')
             /\ definitions_consistent (param e').
Proof.
  intros He [Hn Hlen] Hd H. unfold definitions_consistent in Hd.
  destruct H as [keyname val s s' H | keyword pointer s s' H
                | ml_name bc_key def_key val s s' H
                | r_name type_name property s s' H].
  - destruct (cs_equation_set_option_Normal X s s' keyname val H)
      as (e0 & f & He0 & _ & Hf & He').
    rewrite He in He0. injection He0 as <-.
    exists (set_param (f (param e)) e). split; [exact He'|].
    assert (Hfr : forall m, in_group m (_get_eqkey keyname) = false ->
                            agree m (param e) (f (param e))).
    { intros m Hm. exact (option_update_frame X _ val f (param e) m Hf Hm). }
    assert (Hall : agree eqp_n_reaction_terms (param e) (f (param e))
                   /\ agree eqp_reaction_terms (param e) (f (param e))
                   /\ agree eqp_reaction_properties (param e) (f (param e))
                   /\ agree eqp_bc_n_defs (param e) (f (param e))
                   /\ agree eqp_bc_defs (param e) (f (param e))).
    { destruct (_get_eqkey keyname); repeat split; apply Hfr; reflexivity. }
    destruct Hall as (H1 & H2 & H3 & H4 & H5). cbn [agree] in *.
    unfold reactions_consistent, definitions_consistent. cbn [param set_param].
    rewrite <- H1, <- H2, <- H3, <- H4, <- H5. repeat split; assumption.
  - destruct s as [o calls]. cbn in He. subst o.
    rewrite cs_equation_link_eq in H. unfold link_update in H.
    repeat match type of H with
           | context [strcmp_eq ?x keyword] => destruct (strcmp_eq x keyword)
           end; inversion H; subst s'; clear H;
      (eexists; split; [reflexivity|]); repeat split; assumption.
  - destruct s as [o calls]. cbn in He. subst o.
    rewrite cs_equation_add_bc_eq in H. cbv zeta in H.
    destruct (_ =? -1); [discriminate|].
    destruct (def_type_of_key def_key); [|discriminate].
    destruct (bc_type_of_key bc_key); [|discriminate].
    inversion H; subst s'; clear H.
    eexists; split; [reflexivity|]. split; [split; assumption|].
    unfold definitions_consistent. cbn. rewrite Hd, array_store_end, length_app.
    cbn. lia.
  - destruct s as [o calls]. cbn in He. subst o.
    rewrite cs_equation_add_reaction_eq in H. cbv zeta in H.
    destruct (match r_name with None => _ | Some _ => _ end); [discriminate|].
    destruct (negb _); [discriminate|].
    destruct (space_scheme (param e)); try discriminate.
    inversion H; subst s'; clear H.
    eexists; split; [reflexivity|]. split; [| exact Hd].
    unfold reactions_consistent. cbn. rewrite Hn, array_store_end.
    rewrite <- Hlen at 2. rewrite array_store_end, !length_app. cbn. lia.
Qed.

Lemma later_keeps_counters (X : environment) (s s' : state) (e : cs_equation_t) :
  obj s = Some e ->
  reactions_consistent (param e) -> definitions_consistent (param e) ->
  later X s s' ->
  exists e', obj s' = Some e'
             /\ reactions_consistent (param e')
             /\ definitions_consistent (param e').
Proof.
  intros He Hr Hd H. revert e He Hr Hd.
  induction H as [s | s s1 s2 Hc _ IH]; intros e He Hr Hd.
  - exists e. split; [exact He | split; assumption].
  - destruct (configures_keeps_counters X s s1 e He Hr Hd Hc)
      as (e1 & He1 & Hr1 & Hd1).
    exact (IH e1 He1 Hr1 Hd1).
Qed.

(** ** Operations that do not test their argument *)

Lemma null_pointer_dereferenced (X : environment) (calls : list event)
    (nt_cur : Z) (do_logcvg : bool) :
  let s := {| obj := None; log := calls |} in
  cs_equation_needs_build s = Undefined null_pointer_access
  /\ cs_equation_is_steady X s = Undefined null_pointer_access
  /\ cs_equation_build_system X nt_cur s = Undefined null_pointer_access
  /\ cs_equation_solve X do_logcvg s = Undefined null_pointer_access.
Proof.
  repeat split.
Qed.

(** * Properties of the runs and of the other operations *)

(** ** The names of the keys *)

Lemma eqkey_round_trip (key : eqkey_t) (keyname : string) :
  _print_eqkey key = Some keyname
  <-> _get_eqkey keyname = key /\ key <> EQKEY_ERROR.
Proof.
  split.
  - destruct key; intros H; inversion H; split; (reflexivity || discriminate).
  - intros [H Hk]. subst key.
    destruct (in_dec string_dec keyname key_vocabulary) as [Hin | Hout].
    + apply (_get_eqkey_known keyname Hin).
    + elim Hk. apply (_get_eqkey_unknown keyname Hout).
Qed.

(** X1.  The names of the keys.  [_print_eqkey] and [_get_eqkey] are
    inverse of each other on the keys of an equation, and [_print_reakey] and
    [_get_reakey] on the keys of a reaction term: a key is printed as a name
    exactly when the name is read as that key, and a name that no key prints
    is read as the error key. *)
Theorem key_names_round_trip :
  (forall key keyname,
     _print_eqkey key = Some keyname
     <-> _get_eqkey keyname = key /\ key <> EQKEY_ERROR)
  /\ (forall key keyname,
        _print_reakey key = Some keyname
        <-> _get_reakey keyname = key /\ key <> REAKEY_ERROR).
Proof.
  split; [exact eqkey_round_trip|].
  intros key keyname. split.
  - destruct key; intros H; inversion H; split; (reflexivity || discriminate).
  - intros [H Hk]. subst key. unfold _get_reakey, strcmp_eq in *.
    repeat match goal with
           | |- context [(keyname =? ?x)%string] =>
               destruct (keyname =? x)%string eqn:E;
               [apply String.eqb_eq in E; subst keyname; reflexivity | clear E]
           end.
    elim Hk. reflexivity.
Qed.

(** ** Last setup, in one step *)

Ltac split_ifs :=
  repeat match goal with
         | |- context [if ?c then _ else _] => destruct c; cbn
         end.

Lemma _sles_initialization_obj (X : environment) (e : cs_equation_t)
    (calls : list event) :
  match _sles_initialization X {| obj := Some e; log := calls |} with
  | Normal _ s' => obj s' = Some e
  | Fatal _ s' => obj s' = Some e
  | Undefined _ => False
  end.
Proof.
  unfold _sles_initialization. run.
  destruct (algo_type (algo_info (param e))).
  - destruct (precond (itsol_info (param e))), (solver (itsol_info (param e)));
      cbn; split_ifs; reflexivity.
  - destruct (HAVE_PETSC X); [| reflexivity].
    destruct (PetscInitialized X); cbn;
      destruct (solver (itsol_info (param e))),
               (precond (itsol_info (param e))); reflexivity.
Qed.

Lemma set_param_param (e : cs_equation_t) : set_param (param e) e = e.
Proof.
  destruct e; reflexivity.
Qed.

Lemma assign_Normal (f : cs_equation_t -> cs_equation_t) (s s' : state) :
  assign f s = Normal tt s' ->
  exists e, obj s = Some e /\ s' = {| obj := Some (f e); log := log s |}.
Proof.
  unfold assign. run. destruct s as [[e|] l]; [| discriminate].
  intros H. injection H as <-. exists e. split; reflexivity.
Qed.

Lemma timers_created_Normal (X : environment) (e : cs_equation_t)
    (calls : list event) (s' : state) (c : M unit) :
  c = (when (verbosity (param e) >? 0)
      (assign (set_main_ts_id
                 (cs_timer_stats_create X "stages" (name e) (name e))) ;;
       eq <- deref ;;
       call (cs_timer_stats_start (main_ts_id eq)) ;;
       call (cs_timer_stats_set_plot (main_ts_id eq)) ;;
       when (verbosity (param e) >? 1)
         (let label := name eq ++ "_pre" in
          assign (set_pre_ts_id (cs_timer_stats_create X (name eq) label label)) ;;
          eq <- deref ;;
          call (cs_timer_stats_set_plot (pre_ts_id eq)) ;;
          let label := name eq ++ "_solve" in
          assign (set_solve_ts_id
                    (cs_timer_stats_create X (name eq) label label)) ;;
          eq <- deref ;;
          call (cs_timer_stats_set_plot (solve_ts_id eq)) ;;
          let label := name eq ++ "_extra_op" in
          assign (set_extra_op_ts_id
                    (cs_timer_stats_create X (name eq) label label)) ;;
          eq <- deref ;;
          call (cs_timer_stats_set_plot (extra_op_ts_id eq))))) ->
  c {| obj := Some e; log := calls |} = Normal tt s' ->
  obj s' = Some (timers_created X e).
Proof.
  intros ->. unfold timers_created.
  destruct e as [nm p vn fid ts1 ts2 ts3 ts4 db m mx r b f1 f2 f3 f4 f5 f6 f7 f8].
  cbn [param name].
  destruct (verbosity p >? 0); [destruct (verbosity p >? 1)|];
    intros H; injection H as <-; reflexivity.
Qed.

Lemma cs_equation_last_setup_Normal (X : environment) (e : cs_equation_t)
    (calls : list event) (s' : state) :
  cs_equation_last_setup X {| obj := Some e; log := calls |} = Normal tt s' ->
  obj s' = Some (set_up X e)
  /\ space_scheme (param e) <> CS_SPACE_N_SCHEMES.
Proof.
  intros H. unfold cs_equation_last_setup in H.
  apply bind_Normal in H. destruct H as (null & s0 & H0 & H).
  injection H0 as <- <-. cbv beta iota in H.
  apply bind_Normal in H. destruct H as (e0 & s0 & H0 & H).
  injection H0 as <- <-. cbv zeta in H.
  apply bind_Normal in H. destruct H as ([] & [o1 l1] & Ht & H).
  apply (timers_created_Normal X e calls _ _ eq_refl) in Ht. cbn in Ht. subst o1.
  apply bind_Normal in H. destruct H as ([] & [o2 l2] & Hf & H).
  apply bind_Normal in H. destruct H as ([] & [o3 l3] & Hh & H).
  apply bind_Normal in H. destruct H as ([] & [o4 l4] & Hs & H).
  apply bind_Normal in H. destruct H as ([] & [o5 l5] & Hl & H).
  apply bind_Normal in H. destruct H as (e5 & [o6 l6] & Hd & H).
  assert (Hsch : space_scheme (param e) <> CS_SPACE_N_SCHEMES
                 /\ o2 = Some match space_scheme (param e) with
                              | CS_SPACE_SCHEME_CDOFB =>
                                  cdofb_functions (timers_created X e)
                              | _ => cdovb_functions (timers_created X e)
                              end).
  { destruct (space_scheme (param e)); try discriminate Hf;
      apply assign_Normal in Hf; destruct Hf as (e1 & He1 & Hf);
      cbn in He1; injection He1 as <-; injection Hf as -> _;
      split; (reflexivity || discriminate). }
  destruct Hsch as [Hsch ->]. split; [| exact Hsch].
  set (e2 := match space_scheme (param e) with
             | CS_SPACE_SCHEME_CDOFB => cdofb_functions (timers_created X e)
             | _ => cdovb_functions (timers_created X e)
             end) in *.
  assert (Hp2 : param e2 = param e).
  { unfold e2, timers_created.
    destruct (space_scheme (param e)), (verbosity (param e) >? 0),
      (verbosity (param e) >? 1); reflexivity. }
  assert (Ho3 : o3 = Some (set_param
                     (if needs_hconf_st X (param e)
                      then raise_flag (CS_EQUATION_HCONF_ST X) (param e)
                      else param e) e2)).
  { unfold needs_hconf_st. revert Hh.
    destruct (_ && _ && _); run; intros Hh; injection Hh as <- _.
    - rewrite Hp2. reflexivity.
    - rewrite <- Hp2, set_param_param. reflexivity. }
  subst o3.
  match type of Hs with
  | _sles_initialization X {| obj := Some ?E; log := ?L |} = _ =>
      pose proof (_sles_initialization_obj X E L) as Hobj; rewrite Hs in Hobj
  end.
  cbn in Hobj. subst o4.
  revert Hl. run. intros Hl. injection Hl as <- _.
  revert Hd. run. intros Hd. injection Hd as <- <- _.
  cbn [main_ts_id set_param] in H.
  revert H. unfold when. destruct (_ >? -1); run; intros H; injection H as <-;
    cbn [obj]; unfold set_up; fold e2; reflexivity.
Qed.

(** ** Flags *)

Lemma bits_kept_refl (flag : Z) : bits_kept flag flag.
Proof.
  apply Z.lor_diag.
Qed.

Lemma bits_kept_lor (flag mask : Z) : bits_kept flag (Z.lor flag mask).
Proof.
  unfold bits_kept. rewrite Z.lor_assoc, Z.lor_diag. reflexivity.
Qed.

Lemma bits_kept_trans (a b c : Z) : bits_kept a b -> bits_kept b c -> bits_kept a c.
Proof.
  unfold bits_kept. intros Hab Hbc. rewrite <- Hbc, Z.lor_assoc, Hab. reflexivity.
Qed.

Lemma has_flag_kept (flag flag' mask : Z) :
  bits_kept flag flag' -> has_flag flag mask = true -> has_flag flag' mask = true.
Proof.
  intros <- H. apply has_flag_lor. exact H.
Qed.

(** ** What an operation that returns leaves of the equation *)

Lemma option_update_flags (X : environment) (key : eqkey_t) (val : string)
    (f : cs_equation_param_t -> cs_equation_param_t) (p : cs_equation_param_t) :
  option_update X key val = Some f ->
  flag (f p) = flag p /\ bits_kept (process_flag p) (process_flag (f p)).
Proof.
  intros H. split.
  - symmetry. apply (option_update_frame X key val f p eqp_flag H).
    destruct key; reflexivity.
  - destruct key;
      try (replace (process_flag (f p)) with (process_flag p);
           [apply bits_kept_refl
           | apply (option_update_frame X _ val f p eqp_process_flag H);
             reflexivity]).
    cbv beta iota zeta delta [option_update] in H.
    repeat match type of H with
           | context [strcmp_eq val ?x] => destruct (strcmp_eq val x)
           end; inversion H; subst f;
      first [apply bits_kept_lor | apply bits_kept_refl].
Qed.

Lemma configures_obj (X : environment) (s s' : state) (e : cs_equation_t) :
  configures X s s' -> obj s = Some e ->
  exists p', obj s' = Some (set_param p' e)
             /\ bits_kept (flag (param e)) (flag p')
             /\ bits_kept (process_flag (param e)) (process_flag p').
Proof.
  intros H He.
  destruct H as [keyname val s s' H | keyword pointer s s' H
                | ml_name bc_key def_key val s s' H
                | r_name type_name property s s' H].
  - destruct (cs_equation_set_option_Normal X s s' keyname val H)
      as (e0 & f & He0 & _ & Hf & He').
    rewrite He in He0. injection He0 as <-.
    destruct (option_update_flags X _ val f (param e) Hf) as [Hfl Hpf].
    exists (f (param e)). split; [exact He'|]. split; [| exact Hpf].
    rewrite Hfl. apply bits_kept_refl.
  - destruct s as [o calls]. cbn in He. subst o.
    rewrite cs_equation_link_eq in H. unfold link_update in H.
    repeat match type of H with
           | context [strcmp_eq ?x keyword] => destruct (strcmp_eq x keyword)
           end; inversion H; subst s'; clear H;
      (eexists; split; [reflexivity|]);
      (split; [apply bits_kept_lor | apply bits_kept_refl]).
  - destruct s as [o calls]. cbn in He. subst o.
    rewrite cs_equation_add_bc_eq in H. cbv zeta in H.
    destruct (_ =? -1); [discriminate|].
    destruct (def_type_of_key def_key); [|discriminate].
    destruct (bc_type_of_key bc_key); [|discriminate].
    inversion H; subst s'; clear H.
    eexists; split; [reflexivity|]. split; apply bits_kept_refl.
  - destruct s as [o calls]. cbn in He. subst o.
    rewrite cs_equation_add_reaction_eq in H. cbv zeta in H.
    destruct (match r_name with None => _ | Some _ => _ end); [discriminate|].
    destruct (negb _); [discriminate|].
    destruct (space_scheme (param e)); try discriminate.
    inversion H; subst s'; clear H.
    eexists; split; [reflexivity|].
    split; [apply bits_kept_lor | apply bits_kept_refl].
Qed.

Lemma cs_equation_build_system_eq (X : environment) (e : cs_equation_t)
    (calls : list event) (nt_cur : Z) (s' : state) :
  cs_equation_build_system X nt_cur {| obj := Some e; log := calls |}
  = Normal tt s' ->
  exists f b,
    build_system e = Some f
    /\ scheme_build_system X f (builder e) = Some b
    /\ sla_mat_is_msr b = true
    /\ obj s' = Some (system_built X b e).
Proof.
  unfold cs_equation_build_system, system_built, field_values. run.
  destruct (ptr_eqb (cs_field_by_id X (field_id e)) NULL);
    [destruct (pre_ts_id e >? -1); discriminate|].
  run.
  destruct (build_system e) as [f|] eqn:Hf;
    [| destruct (pre_ts_id e >? -1); discriminate].
  run.
  destruct (scheme_build_system X f (builder e)) as [b|] eqn:Hb;
    [| destruct (pre_ts_id e >? -1); discriminate].
  run. intros H. exists f, b. split; [reflexivity|]. split; [exact Hb|].
  destruct (sla_mat_is_msr b);
    [| revert H; destruct e; cbn; split_ifs; discriminate].
  split; [reflexivity|]. revert H. destruct e; cbn.
  split_ifs; intros H; injection H as <-; reflexivity.
Qed.

Lemma cs_equation_extra_op_Normal (X : environment) (s s' : state) :
  cs_equation_extra_op X s = Normal tt s' -> obj s' = obj s.
Proof.
  unfold cs_equation_extra_op. run. destruct s as [[e|] calls]; cbn.
  - destruct (has_flag _ _); [intros H; injection H as <-; reflexivity|].
    destruct (postprocess e); run;
      destruct (extra_op_ts_id e >? -1); intros H; try discriminate H;
      injection H as <-; reflexivity.
  - intros H; injection H as <-; reflexivity.
Qed.

Lemma cs_equation_build_system_obj (X : environment) (s s' : state)
    (e : cs_equation_t) (nt_cur : Z) :
  cs_equation_build_system X nt_cur s = Normal tt s' -> obj s = Some e ->
  exists b, obj s' = Some (system_built X b e).
Proof.
  destruct s as [o calls]. cbn. intros H ->.
  destruct (cs_equation_build_system_eq X e calls nt_cur s' H)
    as (f & b & _ & _ & _ & He').
  exists b. exact He'.
Qed.

Lemma kept_refl (e : cs_equation_t) : kept e e.
Proof.
  repeat split; try apply bits_kept_refl; apply H.
Qed.

Lemma kept_trans (a b c : cs_equation_t) : kept a b -> kept b c -> kept a c.
Proof.
  intros (H1 & H2 & H3 & H4 & H5) (K1 & K2 & K3 & K4 & K5).
  split; [congruence|]. split; [congruence|].
  split; [exact (bits_kept_trans _ _ _ H3 K3)|].
  split; [exact (bits_kept_trans _ _ _ H4 K4)|].
  intros H. apply K5, H5, H.
Qed.

Lemma functions_set_set_up (X : environment) (e : cs_equation_t) :
  functions_set (set_up X e).
Proof.
  unfold set_up. destruct (space_scheme (param e)); repeat split; discriminate.
Qed.

Lemma kept_set_up (X : environment) (e : cs_equation_t) : kept e (set_up X e).
Proof.
  split; [| split; [| split; [| split]]].
  - unfold set_up, timers_created.
    destruct (space_scheme (param e)), (verbosity (param e) >? 0),
      (verbosity (param e) >? 1); reflexivity.
  - unfold set_up, timers_created.
    destruct (space_scheme (param e)), (verbosity (param e) >? 0),
      (verbosity (param e) >? 1); reflexivity.
  - unfold set_up. cbn. destruct (needs_hconf_st X (param e)); cbn.
    + apply (bits_kept_trans _ (Z.lor (flag (param e)) (CS_EQUATION_HCONF_ST X)));
        apply bits_kept_lor.
    + apply bits_kept_lor.
  - unfold set_up. cbn. destruct (needs_hconf_st X (param e)); apply bits_kept_refl.
  - intros _. apply functions_set_set_up.
Qed.

Lemma kept_system_built (X : environment) (b : built_system_t) (e : cs_equation_t) :
  kept e (system_built X b e).
Proof.
  unfold system_built. destruct e; cbn.
  split_ifs; repeat split; try apply bits_kept_refl; apply H.
Qed.

Lemma operates_keeps (X : environment) (s s' : state) (e : cs_equation_t) :
  operates X s s' -> obj s = Some e ->
  exists e', obj s' = Some e' /\ kept e e'.
Proof.
  intros H He.
  destruct H as [s s' H | s s' H | nt_cur s s' H | do_logcvg s s' H | s s' H].
  - destruct (configures_obj X s s' e H He) as (p' & He' & Hf & Hp).
    exists (set_param p' e). split; [exact He'|].
    destruct e; repeat split; try assumption; apply H0.
  - destruct s as [o calls]. cbn in He. subst o.
    destruct (cs_equation_last_setup_Normal X e calls s' H) as [He' _].
    exists (set_up X e). split; [exact He' | apply kept_set_up].
  - destruct (cs_equation_build_system_obj X s s' e nt_cur H He) as [b Hb].
    exists (system_built X b e). split; [exact Hb | apply kept_system_built].
  - destruct (cs_equation_solve_Normal X s s' do_logcvg H) as (e0 & He0 & He').
    rewrite He in He0. injection He0 as <-.
    eexists. split; [exact He'|].
    destruct (has_flag _ _); [| apply kept_refl].
    destruct e; repeat split; try apply bits_kept_refl; apply H0.
  - exists e. split; [| apply kept_refl].
    rewrite (cs_equation_extra_op_Normal X s s' H). exact He.
Qed.

Lemma many_operates_keeps (X : environment) (s s' : state) (e : cs_equation_t) :
  many (operates X) s s' -> obj s = Some e ->
  exists e', obj s' = Some e' /\ kept e e'.
Proof.
  intros H. revert e. induction H as [s | s s1 s2 Hc _ IH]; intros e He.
  - exists e. split; [exact He | apply kept_refl].
  - destruct (operates_keeps X s s1 e Hc He) as (e1 & He1 & K1).
    destruct (IH e1 He1) as (e2 & He2 & K2).
    exists e2. split; [exact He2 | exact (kept_trans _ _ _ K1 K2)].
Qed.



(** X3.  Once [cs_equation_set_option] has set the key ["extra_op"] to
    ["none"], post-processing stays disabled: after any sequence of returning
    operations, [cs_equation_extra_op] returns at once, without a call to the
    timer or to the scheme and without a change of the equation.  No value of
    the key and no other operation clears a bit of the process flag. *)
Theorem post_processing_disabled_for_good (X : environment) (s s1 s2 : state) :
  CS_EQUATION_POST_NONE X <> 0 ->
  cs_equation_set_option X "extra_op" "none" s = Normal tt s1 ->
  many (operates X) s1 s2 ->
  cs_equation_extra_op X s2 = Normal tt s2.
Proof.
  intros HN Hs Hm.
  destruct (cs_equation_set_option_Normal X s s1 "extra_op" "none" Hs)
    as (e & f & He & _ & Hf & He1).
  cbn in Hf. injection Hf as <-.
  destruct (many_operates_keeps X s1 s2 _ Hm He1) as (e2 & He2 & K).
  destruct K as (_ & _ & _ & Kp & _).
  assert (Hn : has_flag (process_flag (param e2)) (CS_EQUATION_POST_NONE X) = true).
  { apply (has_flag_kept _ _ _ Kp). cbn. apply has_flag_raised, HN. }
  destruct s2 as [o2 calls2]. cbn in He2. subst o2.
  unfold cs_equation_extra_op. run. rewrite Hn. reflexivity.
Qed.

Lemma post_processing_disabled_for_good_witness :
  CS_EQUATION_POST_NONE Reference.env <> 0
  /\ (let s := Reference.start Sample.fielded_eq in
      let s1 :=
        Sample.next (cs_equation_set_option Reference.env "extra_op" "none") s in
      let s2 :=
        Sample.next (cs_equation_solve Reference.env true)
          (Sample.next (cs_equation_last_setup Reference.env) s1) in
      cs_equation_set_option Reference.env "extra_op" "none" s = Normal tt s1
      /\ many (operates Reference.env) s1 s2
      /\ cs_equation_extra_op Reference.env s2 = Normal tt s2).
Proof.
  assert (H0 : CS_EQUATION_POST_NONE Reference.env <> 0) by discriminate.
  split; [exact H0|]. intros s s1 s2.
  assert (H1 : cs_equation_set_option Reference.env "extra_op" "none" s
               = Normal tt s1) by (vm_compute; reflexivity).
  assert (H2 : many (operates Reference.env) s1 s2).
  { apply many_more
      with (s1 := Sample.next (cs_equation_last_setup Reference.env) s1).
    - apply operates_last_setup. vm_compute. reflexivity.
    - apply many_more with (s1 := s2); [| apply many_none].
      apply (operates_solve Reference.env true). vm_compute. reflexivity. }
  split; [exact H1|]. split; [exact H2|].
  exact (post_processing_disabled_for_good Reference.env s s1 s2 H0 H1 H2).
Defined.

Lemma for_each_call (A : Type) (a : list A) (ev : A -> event) (s : state) :
  for_each a (fun x => call (ev x)) s
  = Normal tt {| obj := obj s; log := (log s ++ map ev a)%list |}.
Proof.
  revert s. induction a as [| x a IH]; intros s.
  - cbn. rewrite app_nil_r. destruct s; reflexivity.
  - cbn [for_each]. unfold bind at 1. unfold call at 1. rewrite IH. cbn.
    rewrite <- app_assoc. reflexivity.
Qed.

Lemma cs_equation_free_eq (e : cs_equation_t) (calls : list event) :
  cs_equation_free {| obj := Some e; log := calls |} =
  match free_builder e with
  | Some f =>
      let stop := if main_ts_id e >? -1
                  then [cs_timer_stats_stop (main_ts_id e)] else [] in
      Normal None
        {| obj := None;
           log := (calls ++ stop
                   ++ map cs_source_term_free
                        (firstn (Z.to_nat (n_source_terms (param e)))
                           (source_terms (param e)))
                   ++ [cs_matrix_structure_destroy (ms e);
                       cs_matrix_destroy (matrix e);
                       scheme_call f (builder e)]
                   ++ stop)%list |}
  | None => Undefined null_function_call
  end.
Proof.
  unfold cs_equation_free.
  cbv beta iota zeta delta [bind ret when eq_is_null deref through obj].
  assert (Hn : (n_source_terms (param e) >? 0) = false ->
               firstn (Z.to_nat (n_source_terms (param e)))
                 (source_terms (param e)) = []).
  { intros H. rewrite Z.gtb_ltb in H. apply Z.ltb_ge in H.
    replace (Z.to_nat _) with 0%nat by lia. reflexivity. }
  destruct (main_ts_id e >? -1);
    [unfold call at 1|]; cbv beta iota;
    (destruct (n_source_terms (param e) >? 0);
     [rewrite for_each_call | rewrite (Hn eq_refl)]); run; cbn [obj log];
    destruct (free_builder e); run; try reflexivity;
    cbn [app map]; rewrite <- ?app_assoc; cbn [app]; reflexivity.
Qed.

Lemma later_obj (X : environment) (s s' : state) (e : cs_equation_t) :
  later X s s' -> obj s = Some e ->
  exists p', obj s' = Some (set_param p' e).
Proof.
  intros H. revert e. induction H as [s | s s1 s2 Hc _ IH]; intros e He.
  - exists (param e). rewrite set_param_param. exact He.
  - destruct (configures_obj X s s1 e Hc He) as (p1 & He1 & _).
    destruct (IH _ He1) as (p2 & He2). exists p2. exact He2.
Qed.

Lemma cs_equation_build_system_defined (X : environment) (e : cs_equation_t)
    (calls : list event) (nt_cur : Z) (u : undefined_t) :
  build_system e <> None ->
  field_exists X e = true ->
  cs_equation_build_system X nt_cur {| obj := Some e; log := calls |}
  <> Undefined u.
Proof.
  intros Hf He. apply negb_true_iff in He.
  unfold cs_equation_build_system, field_values. run. rewrite He. run.
  destruct (build_system e) as [f|]; [| now elim Hf]. run.
  destruct (scheme_build_system X f (builder e)) as [b|]; run;
    [| destruct (pre_ts_id e >? -1); discriminate].
  destruct e; cbn. split_ifs; discriminate.
Qed.

Lemma cs_equation_build_system_no_field (X : environment) (e : cs_equation_t)
    (calls : list event) (nt_cur : Z) :
  field_exists X e = false ->
  cs_equation_build_system X nt_cur {| obj := Some e; log := calls |}
  = Undefined null_pointer_access.
Proof.
  intros He. apply negb_false_iff in He.
  unfold cs_equation_build_system, field_values. run. rewrite He.
  destruct (pre_ts_id e >? -1); reflexivity.
Qed.

Lemma cs_equation_solve_no_field (X : environment) (e : cs_equation_t)
    (calls : list event) (do_logcvg : bool) (t : scheme_function) :
  get_tmpbuf e = Some t ->
  field_solvable X e t = false ->
  (exists s',
     cs_equation_solve X do_logcvg {| obj := Some e; log := calls |}
     = Fatal AssertionFailed s')
  \/ cs_equation_solve X do_logcvg {| obj := Some e; log := calls |}
     = Undefined null_pointer_access.
Proof.
  intros Ht Hs. unfold field_solvable, field_exists in Hs. cbv zeta in Hs.
  unfold cs_equation_solve, field_dim, field_values. run. rewrite Ht. run.
  destruct (ptr_eqb (cs_field_by_id X (field_id e)) NULL);
    [right; destruct (solve_ts_id e >? -1), (sles_verbosity (param e) >? 0);
     reflexivity|].
  run.
  destruct (cs_field_dim X (cs_field_by_id X (field_id e)) =? 1);
    [| left; destruct (solve_ts_id e >? -1), (sles_verbosity (param e) >? 0);
       eexists; reflexivity].
  cbn in Hs.
  destruct (0 <? cs_matrix_get_n_rows X (matrix e)); [| discriminate Hs].
  cbn in Hs. apply negb_false_iff in Hs. rewrite Hs. cbn [negb]. run.
  right. destruct (solve_ts_id e >? -1), (sles_verbosity (param e) >? 0);
    reflexivity.
Qed.

(** X4.  Once [cs_equation_last_setup] has returned on an equation, after
    any sequence of returning operations the equation is still locked and its
    function pointers are still set: [cs_equation_extra_op] returns,
    [cs_equation_free] releases the equation and returns NULL, and
    [cs_equation_solve] and [cs_equation_build_system] call no NULL function.
    They still depend on the field of the equation, which none of these
    operations creates: [cs_equation_solve] returns when the field exists,
    is scalar and can be copied into the buffer of the scheme, and otherwise
    fails the assertion on the dimension or reads through a NULL pointer;
    [cs_equation_build_system] has a defined behaviour when the field exists
    and otherwise reads through a NULL pointer. *)
Theorem set_up_for_good (X : environment) (s s1 s2 : state) :
  CS_EQUATION_LOCKED X <> 0 ->
  obj s <> None ->
  cs_equation_last_setup X s = Normal tt s1 ->
  many (operates X) s1 s2 ->
  exists e2 t,
    obj s2 = Some e2
    /\ is_locked X s2
    /\ functions_set e2
    /\ get_tmpbuf e2 = Some t
    /\ (forall do_logcvg,
          if field_solvable X e2 t
          then exists s3, cs_equation_solve X do_logcvg s2 = Normal tt s3
          else (exists s3,
                  cs_equation_solve X do_logcvg s2 = Fatal AssertionFailed s3)
               \/ cs_equation_solve X do_logcvg s2
                  = Undefined null_pointer_access)
    /\ (exists s3, cs_equation_extra_op X s2 = Normal tt s3)
    /\ (forall nt_cur,
          if field_exists X e2
          then forall u, cs_equation_build_system X nt_cur s2 <> Undefined u
          else cs_equation_build_system X nt_cur s2
               = Undefined null_pointer_access)
    /\ (exists calls,
          cs_equation_free s2 = Normal None {| obj := None; log := calls |}).
Proof.
  intros HL Hobj Hs Hm.
  destruct s as [[e|] calls]; [clear Hobj | now elim Hobj].
  destruct (cs_equation_last_setup_Normal X e calls s1 Hs) as [He1 _].
  destruct (many_operates_keeps X s1 s2 _ Hm He1) as (e2 & He2 & K).
  destruct K as (_ & _ & Kf & _ & Kfun).
  specialize (Kfun (functions_set_set_up X e)).
  pose proof Kfun as (_ & F2 & F3 & _ & F5 & F6 & F7).
  destruct s2 as [o2 calls2]. cbn in He2. subst o2.
  destruct (get_tmpbuf e2) as [t|] eqn:Et; [| now elim F7].
  exists e2, t. split; [reflexivity|].
  split; [| split; [exact Kfun|]; split; [exact Et|];
            split; [| split; [| split]]].
  - exists e2. split; [reflexivity|].
    apply (has_flag_kept _ _ _ Kf). unfold set_up. cbn.
    apply has_flag_raised, HL.
  - intros do_logcvg.
    destruct (field_solvable X e2 t) eqn:Hf.
    + destruct (update_field e2) as [u|] eqn:Eu; [| now elim F5].
      destruct (cs_equation_solve_eq X e2 calls2 do_logcvg t u Et Eu Hf)
        as [c Hc].
      eexists. exact Hc.
    + exact (cs_equation_solve_no_field X e2 calls2 do_logcvg t Et Hf).
  - unfold cs_equation_extra_op. run.
    destruct (has_flag _ _); [eexists; reflexivity|].
    destruct (postprocess e2); [| now elim F6]. run.
    destruct (extra_op_ts_id e2 >? -1); eexists; reflexivity.
  - intros nt_cur. destruct (field_exists X e2) eqn:Hf.
    + intros u. apply cs_equation_build_system_defined; assumption.
    + apply cs_equation_build_system_no_field. exact Hf.
  - rewrite cs_equation_free_eq.
    destruct (free_builder e2); [| now elim F2]. eexists. reflexivity.
Qed.

Lemma set_up_for_good_witness :
  CS_EQUATION_LOCKED Reference.env <> 0
  /\ (let s := Reference.start Sample.fielded_eq in
      let s1 := Sample.next (cs_equation_last_setup Reference.env) s in
      let s2 :=
        Sample.next (cs_equation_solve Reference.env false)
          (Sample.next (cs_equation_build_system Reference.env 0) s1) in
      obj s <> None
      /\ cs_equation_last_setup Reference.env s = Normal tt s1
      /\ many (operates Reference.env) s1 s2
      /\ exists e2,
           obj s2 = Some e2
           /\ is_locked Reference.env s2
           /\ functions_set e2
           /\ field_solvable Reference.env e2 cs_cdovb_scaleq_get_tmpbuf = true
           /\ (forall do_logcvg,
                 exists s3,
                   cs_equation_solve Reference.env do_logcvg s2 = Normal tt s3)
           /\ (exists s3, cs_equation_extra_op Reference.env s2 = Normal tt s3)
           /\ (forall nt_cur u,
                 cs_equation_build_system Reference.env nt_cur s2
                 <> Undefined u)
           /\ (exists calls,
                 cs_equation_free s2
                 = Normal None {| obj := None; log := calls |})).
Proof.
  assert (H0 : CS_EQUATION_LOCKED Reference.env <> 0) by discriminate.
  split; [exact H0|]. intros s s1 s2.
  assert (Hs : obj s <> None) by discriminate.
  assert (H1 : cs_equation_last_setup Reference.env s = Normal tt s1)
    by (vm_compute; reflexivity).
  assert (H2 : many (operates Reference.env) s1 s2).
  { apply many_more
      with (s1 := Sample.next (cs_equation_build_system Reference.env 0) s1).
    - apply (operates_build_system Reference.env 0). vm_compute. reflexivity.
    - apply many_more with (s1 := s2); [| apply many_none].
      apply (operates_solve Reference.env false). vm_compute. reflexivity. }
  split; [exact Hs|]. split; [exact H1|]. split; [exact H2|].
  destruct (set_up_for_good Reference.env s s1 s2 H0 Hs H1 H2)
    as (e2 & t & He2 & HL & HF & Ht & Hsolve & Hextra & Hbuild & Hfree).
  assert (E2 : obj s2 = Some (Sample.after (cs_equation_solve Reference.env false)
                                (Sample.after (cs_equation_build_system
                                                 Reference.env 0)
                                   Sample.set_up_eq)))
    by (vm_compute; reflexivity).
  rewrite E2 in He2. injection He2 as <-.
  assert (Et : t = cs_cdovb_scaleq_get_tmpbuf)
    by (vm_compute in Ht; injection Ht as <-; reflexivity).
  subst t.
  assert (Hf : field_solvable Reference.env
                 (Sample.after (cs_equation_solve Reference.env false)
                    (Sample.after (cs_equation_build_system Reference.env 0)
                       Sample.set_up_eq))
                 cs_cdovb_scaleq_get_tmpbuf = true)
    by (vm_compute; reflexivity).
  assert (He : field_exists Reference.env
                 (Sample.after (cs_equation_solve Reference.env false)
                    (Sample.after (cs_equation_build_system Reference.env 0)
                       Sample.set_up_eq)) = true)
    by (vm_compute; reflexivity).
  eexists. split; [exact E2|]. split; [exact HL|]. split; [exact HF|].
  split; [exact Hf|].
  split; [intros b; specialize (Hsolve b); rewrite Hf in Hsolve; exact Hsolve|].
  split; [exact Hextra|].
  split; [intros n; specialize (Hbuild n); rewrite He in Hbuild; exact Hbuild|].
  exact Hfree.
Defined.

(** X5.  An equation [cs_equation_create] returns has no function pointer
    set and no field, and the calls that configure it set none: before
    [cs_equation_last_setup], [cs_equation_solve], [cs_equation_free] and
    [cs_equation_get_face_values] call through a NULL pointer, and so does
    [cs_equation_extra_op] unless post-processing has been disabled;
    [cs_equation_build_system] reads the values of the field of id -1 before
    it calls through the NULL pointer, so that it reads through a NULL
    pointer when there is no such field. *)
Theorem not_set_up (X : environment) (eqname varname : string)
    (eqtype : cs_equation_type_t) (vartype : cs_param_var_type_t)
    (default_bc : cs_param_bc_type_t) (calls : list event) (s : state)
    (nt_cur : Z) (do_logcvg : bool) :
  later X
    {| obj := Some (cs_equation_create X eqname varname eqtype vartype default_bc);
       log := calls |} s ->
  cs_equation_build_system X nt_cur s
  = Undefined (if ptr_eqb (cs_field_by_id X (-1)) NULL
               then null_pointer_access else null_function_call)
  /\ cs_equation_solve X do_logcvg s = Undefined null_function_call
  /\ cs_equation_free s = Undefined null_function_call
  /\ cs_equation_get_face_values X s = Undefined null_function_call
  /\ cs_equation_extra_op X s
     = match s with
       | {| obj := Some e |} =>
           if has_flag (process_flag (param e)) (CS_EQUATION_POST_NONE X)
           then Normal tt s else Undefined null_function_call
       | _ => Normal tt s
       end.
Proof.
  intros H. destruct (later_obj X _ s _ H eq_refl) as (p' & He).
  destruct s as [o c]. cbn in He. subst o.
  split; [| split; [| split; [| split]]]; try reflexivity.
  - unfold cs_equation_build_system, field_values. run. cbn.
    destruct (ptr_eqb (cs_field_by_id X (-1)) NULL); reflexivity.
  - rewrite cs_equation_free_eq. reflexivity.
  - unfold cs_equation_extra_op. run. cbn.
    destruct (has_flag _ _); reflexivity.
Qed.

Lemma not_set_up_witness :
  let s := Reference.start Reference.eq0 in
  let s1 :=
    Sample.next
      (cs_equation_add_bc Reference.env "boundary_faces" "dirichlet" "value"
         "1.0") s in
  later Reference.env s s1
  /\ cs_equation_build_system Reference.env 0 s1
     = Undefined null_pointer_access
  /\ cs_equation_solve Reference.env true s1 = Undefined null_function_call
  /\ cs_equation_free s1 = Undefined null_function_call
  /\ cs_equation_get_face_values Reference.env s1
     = Undefined null_function_call
  /\ cs_equation_extra_op Reference.env s1 = Undefined null_function_call.
Proof.
  intros s s1.
  assert (H : later Reference.env s s1).
  { apply later_call with (s1 := s1); [| apply later_now].
    apply (configures_add_bc Reference.env "boundary_faces" "dirichlet"
             "value" "1.0"). vm_compute. reflexivity. }
  split; [exact H|].
  exact (not_set_up Reference.env "WallDistance" "WallDistance"
           CS_EQUATION_TYPE_PREDEFINED CS_PARAM_VAR_SCAL
           CS_PARAM_BC_HMG_NEUMANN [] s1 0 true H).
Defined.

(** X6.  The calls of [cs_equation_free] on an equation whose scheme is
    set and whose counter of source terms agrees with its array: it stops the
    main timer when there is one, frees the source terms in the order of
    their registration, destroys the matrix structure, then the matrix, then
    frees the builder through the scheme, stops the main timer a second time
    and returns NULL.  The main timer is never started. *)
Theorem free_releases (e : cs_equation_t) (calls : list event)
    (f : scheme_function) :
  free_builder e = Some f ->
  n_source_terms (param e) = Z.of_nat (length (source_terms (param e))) ->
  let stop := if main_ts_id e >? -1
              then [cs_timer_stats_stop (main_ts_id e)] else [] in
  cs_equation_free {| obj := Some e; log := calls |}
  = Normal None
      {| obj := None;
         log := (calls ++ stop
                 ++ map cs_source_term_free (source_terms (param e))
                 ++ [cs_matrix_structure_destroy (ms e);
                     cs_matrix_destroy (matrix e);
                     scheme_call f (builder e)]
                 ++ stop)%list |}.
Proof.
  intros Hf Hn stop. rewrite cs_equation_free_eq, Hf. cbv zeta.
  rewrite Hn, Nat2Z.id, firstn_all. reflexivity.
Qed.

Lemma free_releases_witness :
  let e := Sample.heated_set_up in
  free_builder e = Some cs_cdovb_scaleq_free
  /\ n_source_terms (param e) = Z.of_nat (length (source_terms (param e)))
  /\ cs_equation_free (Reference.start e)
     = Normal None
         {| obj := None;
            log := [cs_source_term_free (Addr 11);
                    cs_source_term_free (Addr 12);
                    cs_matrix_structure_destroy NULL; cs_matrix_destroy NULL;
                    scheme_call cs_cdovb_scaleq_free NULL] |}.
Proof.
  intros e.
  assert (H : free_builder e = Some cs_cdovb_scaleq_free) by reflexivity.
  assert (Hn : n_source_terms (param e)
               = Z.of_nat (length (source_terms (param e))))
    by (vm_compute; reflexivity).
  split; [exact H|]. split; [exact Hn|].
  exact (free_releases e [] cs_cdovb_scaleq_free H Hn).
Defined.

Lemma ptr_eqb_eq (p q : ptr) : ptr_eqb p q = true <-> p = q.
Proof.
  destruct p, q; cbn; try (split; (discriminate || reflexivity)).
  rewrite Pos.eqb_eq. split; [intros ->; reflexivity | intros H; injection H as ->; reflexivity].
Qed.

(** X7.  [cs_equation_build_system] creates the matrix structure and the
    matrix only when the equation has none: the first call that returns keeps
    those the equation has and creates the others, and a second call keeps
    both. *)
Theorem build_system_reuses_the_matrix (X : environment) (s s1 s2 : state)
    (e : cs_equation_t) (nt_cur nt_cur' : Z) :
  cs_matrix_structure_create_msr X <> NULL ->
  (forall m, cs_matrix_create X m <> NULL) ->
  obj s = Some e ->
  cs_equation_build_system X nt_cur s = Normal tt s1 ->
  cs_equation_build_system X nt_cur' s1 = Normal tt s2 ->
  exists e1 e2,
    obj s1 = Some e1 /\ obj s2 = Some e2
    /\ ms e1 = (if ptr_eqb (ms e) NULL
                then cs_matrix_structure_create_msr X else ms e)
    /\ matrix e1 = (if ptr_eqb (matrix e) NULL
                    then cs_matrix_create X (ms e1) else matrix e)
    /\ ms e2 = ms e1 /\ matrix e2 = matrix e1.
Proof.
  intros Hms Hmx He H1 H2.
  destruct (cs_equation_build_system_obj X s s1 e nt_cur H1 He) as [b1 He1].
  destruct (cs_equation_build_system_obj X s1 s2 _ nt_cur' H2 He1) as [b2 He2].
  exists (system_built X b1 e), (system_built X b2 (system_built X b1 e)).
  split; [exact He1|]. split; [exact He2|].
  assert (Hn : forall p, p <> NULL -> ptr_eqb p NULL = false).
  { intros p Hp. destruct (ptr_eqb p NULL) eqn:E; [| reflexivity].
    apply ptr_eqb_eq in E. contradiction. }
  assert (H1' : ms (system_built X b1 e)
                = (if ptr_eqb (ms e) NULL
                   then cs_matrix_structure_create_msr X else ms e)
                /\ matrix (system_built X b1 e)
                   = (if ptr_eqb (matrix e) NULL
                      then cs_matrix_create X (ms (system_built X b1 e))
                      else matrix e)).
  { unfold system_built.
    destruct e as [e_name e_param e_varname e_field e_ts1 e_ts2 e_ts3 e_ts4 e_do e_ms e_mx
                    e_rhs e_bld e_f1 e_f2 e_f3 e_f4 e_f5 e_f6 e_f7 e_f8].
    cbn. destruct (ptr_eqb e_ms NULL); cbn; destruct (ptr_eqb e_mx NULL); cbn;
      split; reflexivity. }
  destruct H1' as [Ems Emx]. split; [exact Ems|]. split; [exact Emx|].
  assert (N1 : ptr_eqb (ms (system_built X b1 e)) NULL = false).
  { apply Hn. rewrite Ems. destruct (ptr_eqb (ms e) NULL) eqn:E; [exact Hms|].
    intros Hc. rewrite Hc in E. discriminate E. }
  assert (N2 : ptr_eqb (matrix (system_built X b1 e)) NULL = false).
  { apply Hn. rewrite Emx. destruct (ptr_eqb (matrix e) NULL) eqn:E; [apply Hmx|].
    intros Hc. rewrite Hc in E. discriminate E. }
  remember (system_built X b1 e) as e1 eqn:E1. clear - N1 N2.
  unfold system_built.
  destruct e1 as [e_name e_param e_varname e_field e_ts1 e_ts2 e_ts3 e_ts4 e_do e_ms e_mx
                    e_rhs e_bld e_f1 e_f2 e_f3 e_f4 e_f5 e_f6 e_f7 e_f8].
  cbn in *. rewrite N1. cbn. rewrite N2. split; reflexivity.
Qed.

Lemma build_system_reuses_the_matrix_witness :
  cs_matrix_structure_create_msr Reference.env <> NULL
  /\ (forall m, cs_matrix_create Reference.env m <> NULL)
  /\ (let s := Reference.start Sample.set_up_eq in
      let s1 := Sample.next (cs_equation_build_system Reference.env 0) s in
      let s2 := Sample.next (cs_equation_build_system Reference.env 1) s1 in
      obj s = Some Sample.set_up_eq
      /\ cs_equation_build_system Reference.env 0 s = Normal tt s1
      /\ cs_equation_build_system Reference.env 1 s1 = Normal tt s2
      /\ exists e1 e2,
           obj s1 = Some e1 /\ obj s2 = Some e2
           /\ ms e1 = (if ptr_eqb (ms Sample.set_up_eq) NULL
                       then cs_matrix_structure_create_msr Reference.env
                       else ms Sample.set_up_eq)
           /\ matrix e1 = (if ptr_eqb (matrix Sample.set_up_eq) NULL
                           then cs_matrix_create Reference.env (ms e1)
                           else matrix Sample.set_up_eq)
           /\ ms e2 = ms e1 /\ matrix e2 = matrix e1).
Proof.
  assert (H0 : cs_matrix_structure_create_msr Reference.env <> NULL)
    by discriminate.
  assert (H1 : forall m, cs_matrix_create Reference.env m <> NULL)
    by (intros m; discriminate).
  split; [exact H0|]. split; [exact H1|]. intros s s1 s2.
  assert (He : obj s = Some Sample.set_up_eq) by reflexivity.
  assert (H2 : cs_equation_build_system Reference.env 0 s = Normal tt s1)
    by (vm_compute; reflexivity).
  assert (H3 : cs_equation_build_system Reference.env 1 s1 = Normal tt s2)
    by (vm_compute; reflexivity).
  split; [exact He|]. split; [exact H2|]. split; [exact H3|].
  exact (build_system_reuses_the_matrix Reference.env s s1 s2
           Sample.set_up_eq 0 1 H0 H1 He H2 H3).
Defined.

Lemma advances_steady (X : environment) (s s' : state) (e : cs_equation_t) :
  advances X s s' -> obj s = Some e ->
  has_flag (flag (param e)) (CS_EQUATION_UNSTEADY X) = false ->
  obj s' = Some e.
Proof.
  intros H He Hu. destruct H as [do_logcvg s s' H | s s' H].
  - destruct (cs_equation_solve_Normal X s s' do_logcvg H) as (e0 & He0 & He').
    rewrite He in He0. injection He0 as <-. rewrite Hu in He'. exact He'.
  - rewrite (cs_equation_extra_op_Normal X s s' H). exact He.
Qed.

(** X8.  Once [cs_equation_build_system] has returned on a steady
    equation, any number of returning calls of [cs_equation_solve] and
    [cs_equation_extra_op] leave the equation as it is, and
    [cs_equation_needs_build] answers false. *)
Theorem steady_system_is_built_once (X : environment) (s s1 s2 : state)
    (e : cs_equation_t) (nt_cur : Z) :
  obj s = Some e ->
  has_flag (flag (param e)) (CS_EQUATION_UNSTEADY X) = false ->
  cs_equation_build_system X nt_cur s = Normal tt s1 ->
  many (advances X) s1 s2 ->
  obj s2 = obj s1 /\ cs_equation_needs_build s2 = Normal false s2.
Proof.
  intros He Hu Hb Hm.
  destruct (cs_equation_build_system_obj X s s1 e nt_cur Hb He) as [b He1].
  assert (Hu1 : has_flag (flag (param (system_built X b e)))
                  (CS_EQUATION_UNSTEADY X) = false).
  { rewrite <- Hu. unfold system_built. destruct e; cbn. split_ifs; reflexivity. }
  assert (Hd1 : do_build (system_built X b e) = false).
  { unfold system_built. destruct e; cbn. split_ifs; reflexivity. }
  generalize dependent (system_built X b e). intros e1 He1 Hu1 Hd1. clear Hb.
  assert (He2 : obj s2 = Some e1).
  { clear He Hu Hd1. induction Hm as [s1 | s1 s2 s3 Hc _ IH]; [exact He1|].
    apply IH. exact (advances_steady X s1 s2 e1 Hc He1 Hu1). }
  split; [congruence|]. destruct s2 as [o2 c2]. cbn in He2. subst o2.
  unfold cs_equation_needs_build. run. rewrite Hd1. reflexivity.
Qed.

Lemma steady_system_is_built_once_witness :
  let s := Reference.start Sample.set_up_eq in
  let s1 := Sample.next (cs_equation_build_system Reference.env 0) s in
  let s2 :=
    Sample.next (cs_equation_extra_op Reference.env)
      (Sample.next (cs_equation_solve Reference.env true) s1) in
  obj s = Some Sample.set_up_eq
  /\ has_flag (flag (param Sample.set_up_eq))
       (CS_EQUATION_UNSTEADY Reference.env) = false
  /\ cs_equation_build_system Reference.env 0 s = Normal tt s1
  /\ many (advances Reference.env) s1 s2
  /\ obj s2 = obj s1
  /\ cs_equation_needs_build s2 = Normal false s2.
Proof.
  intros s s1 s2.
  assert (He : obj s = Some Sample.set_up_eq) by reflexivity.
  assert (Hf : has_flag (flag (param Sample.set_up_eq))
                 (CS_EQUATION_UNSTEADY Reference.env) = false)
    by (vm_compute; reflexivity).
  assert (H1 : cs_equation_build_system Reference.env 0 s = Normal tt s1)
    by (vm_compute; reflexivity).
  assert (H2 : many (advances Reference.env) s1 s2).
  { apply many_more
      with (s1 := Sample.next (cs_equation_solve Reference.env true) s1).
    - apply (advances_solve Reference.env true). vm_compute. reflexivity.
    - apply many_more with (s1 := s2); [| apply many_none].
      apply advances_extra_op. vm_compute. reflexivity. }
  split; [exact He|]. split; [exact Hf|]. split; [exact H1|].
  split; [exact H2|].
  exact (steady_system_is_built_once Reference.env s s1 s2 Sample.set_up_eq 0
           He Hf H1 H2).
Defined.

(** X9.  [cs_equation_link] on an equation.  It returns exactly for the
    keywords ["diffusion"], ["time"] and ["advection"]: it then raises the flag
    of the term, stores the pointer in the member of the term and changes no
    other member of the parameter set, no other member of the equation and
    makes no call.  For any other keyword it stops with the error of an
    invalid term and leaves the equation as it is. *)
Theorem link_outcome (X : environment) (e : cs_equation_t) (calls : list event)
    (keyword : string) (pointer : ptr) :
  let s := {| obj := Some e; log := calls |} in
  match cs_equation_link X keyword pointer s with
  | Normal _ s' =>
      exists mask m e',
        In (keyword, mask, m) (linked_terms X)
        /\ s' = {| obj := Some e'; log := calls |}
        /\ e' = set_param (param e') e
        /\ flag (param e') = Z.lor (flag (param e)) mask
        /\ linked m (param e') = pointer
        /\ forall m', m' <> m -> m' <> eqp_flag ->
                      agree m' (param e) (param e')
  | Fatal err s' =>
      err = InvalidTerm keyword /\ s' = s
      /\ forall mask m, ~ In (keyword, mask, m) (linked_terms X)
  | Undefined _ => False
  end.
Proof.
  intros s. unfold s. rewrite cs_equation_link_eq. unfold link_update, strcmp_eq.
  destruct (String.eqb_spec "diffusion" keyword) as [<- | H1];
    [| destruct (String.eqb_spec "time" keyword) as [<- | H2];
       [| destruct (String.eqb_spec "advection" keyword) as [<- | H3]]].
  - exists (CS_EQUATION_DIFFUSION X), eqp_diffusion_property.
    eexists. split; [left; reflexivity|]. split; [reflexivity|].
    repeat split. intros m' Hm Hf. destruct m'; try reflexivity; contradiction.
  - exists (CS_EQUATION_UNSTEADY X), eqp_time_property.
    eexists. split; [right; left; reflexivity|]. split; [reflexivity|].
    repeat split. intros m' Hm Hf. destruct m'; try reflexivity; contradiction.
  - exists (CS_EQUATION_CONVECTION X), eqp_advection_field.
    eexists. split; [right; right; left; reflexivity|]. split; [reflexivity|].
    repeat split. intros m' Hm Hf. destruct m'; try reflexivity; contradiction.
  - split; [reflexivity|]. split; [reflexivity|].
    intros mask m [H | [H | [H | []]]]; injection H as H _ _; congruence.
Qed.

Lemma option_update_idempotent (X : environment) (key : eqkey_t) (val : string)
    (f : cs_equation_param_t -> cs_equation_param_t) (p : cs_equation_param_t) :
  option_update X key val = Some f -> f (f p) = f p.
Proof.
  intros H.
  destruct key; cbv beta iota zeta delta [option_update] in H;
    repeat match type of H with
           | context [strcmp_eq val ?x] => destruct (strcmp_eq val x)
           end;
    try discriminate H; inversion H; subst f; clear H; try reflexivity;
    unfold raise_process_flag; cbn [process_flag set_process_flag];
    rewrite <- Z.lor_assoc, Z.lor_diag; reflexivity.
Qed.

Lemma option_update_known (X : environment) (key : eqkey_t) (val : string)
    (f : cs_equation_param_t -> cs_equation_param_t) :
  option_update X key val = Some f -> key <> EQKEY_ERROR.
Proof.
  intros H ->. discriminate H.
Qed.

(** X10.  [cs_equation_set_option] is idempotent: when a call returns, the
    same call made again returns and leaves the equation as the first call
    left it. *)
Theorem set_option_twice (X : environment) (s s1 : state) (keyname val : string) :
  cs_equation_set_option X keyname val s = Normal tt s1 ->
  exists s2,
    cs_equation_set_option X keyname val s1 = Normal tt s2 /\ obj s2 = obj s1.
Proof.
  intros H.
  destruct (cs_equation_set_option_Normal X s s1 keyname val H)
    as (e & f & He & Hl & Hf & He1).
  destruct s1 as [o1 c1]. cbn in He1. subst o1.
  destruct (option_update_flags X _ val f (param e) Hf) as [Hfl _].
  destruct (cs_equation_set_option_accepts X (set_param (f (param e)) e) c1
              keyname val f) as [c2 H2].
  - cbn. rewrite Hfl. exact Hl.
  - exact (option_update_known X _ val f Hf).
  - exact Hf.
  - eexists. split; [exact H2|]. cbn.
    rewrite (option_update_idempotent X _ val f (param e) Hf). reflexivity.
Qed.

Lemma set_option_twice_witness :
  let s := Reference.start Reference.eq0 in
  let s1 :=
    Sample.next (cs_equation_set_option Reference.env "itsol" "gmres") s in
  cs_equation_set_option Reference.env "itsol" "gmres" s = Normal tt s1
  /\ exists s2,
       cs_equation_set_option Reference.env "itsol" "gmres" s1 = Normal tt s2
       /\ obj s2 = obj s1.
Proof.
  intros s s1.
  assert (H : cs_equation_set_option Reference.env "itsol" "gmres" s
              = Normal tt s1) by (vm_compute; reflexivity).
  split; [exact H|].
  exact (set_option_twice Reference.env s s1 "itsol" "gmres" H).
Defined.

Lemma option_update_commute (X : environment) (k1 k2 : eqkey_t) (v1 v2 : string)
  (f1 f2 : cs_equation_param_t -> cs_equation_param_t) (p : cs_equation_param_t) :
  independent k1 k2 = true ->
  option_update X k1 v1 = Some f1 -> option_update X k2 v2 = Some f2 ->
  f1 (f2 p) = f2 (f1 p).
Proof.
  intros Hi H1 H2.
  destruct k1, k2; try discriminate Hi; clear Hi;
  cbv beta iota zeta delta [option_update] in H1, H2;
    repeat match type of H1 with
           | context [strcmp_eq v1 ?x] => destruct (strcmp_eq v1 x)
           end;
    try discriminate H1; inversion H1; subst f1; clear H1;
    repeat match type of H2 with
           | context [strcmp_eq v2 ?x] => destruct (strcmp_eq v2 x)
           end;
    try discriminate H2; inversion H2; subst f2; clear H2; reflexivity.
Qed.

(** X11.  Two calls of [cs_equation_set_option] whose keys assign no
    common member commute: when the calls return in one order, they return in
    the other order and leave the same equation. *)
Theorem set_option_order (X : environment) (s s1 s12 : state)
    (key1 val1 key2 val2 : string) :
  independent (_get_eqkey key1) (_get_eqkey key2) = true ->
  cs_equation_set_option X key1 val1 s = Normal tt s1 ->
  cs_equation_set_option X key2 val2 s1 = Normal tt s12 ->
  exists s2 s21,
    cs_equation_set_option X key2 val2 s = Normal tt s2
    /\ cs_equation_set_option X key1 val1 s2 = Normal tt s21
    /\ obj s21 = obj s12.
Proof.
  intros Hi H1 H2.
  destruct (cs_equation_set_option_Normal X s s1 key1 val1 H1)
    as (e & f1 & He & Hl & Hf1 & He1).
  destruct (cs_equation_set_option_Normal X s1 s12 key2 val2 H2)
    as (e1 & f2 & He1' & _ & Hf2 & He12).
  rewrite He1 in He1'. injection He1' as <-.
  destruct s as [o c]. cbn in He. subst o.
  destruct (option_update_flags X _ val2 f2 (param e) Hf2) as [Hfl _].
  destruct (cs_equation_set_option_accepts X e c key2 val2 f2 Hl
              (option_update_known X _ val2 f2 Hf2) Hf2) as [c2 Hc2].
  destruct (cs_equation_set_option_accepts X (set_param (f2 (param e)) e) c2
              key1 val1 f1) as [c21 Hc21].
  - cbn. rewrite Hfl. exact Hl.
  - exact (option_update_known X _ val1 f1 Hf1).
  - exact Hf1.
  - do 2 eexists. split; [exact Hc2|]. split; [exact Hc21|].
    rewrite He12. cbn.
    rewrite (option_update_commute X _ _ val1 val2 f1 f2 (param e) Hi Hf1 Hf2).
    reflexivity.
Qed.

Lemma set_option_order_witness :
  let s := Reference.start Reference.eq0 in
  let s1 :=
    Sample.next (cs_equation_set_option Reference.env "space_scheme" "cdo_fb")
      s in
  let s12 :=
    Sample.next (cs_equation_set_option Reference.env "itsol" "gmres") s1 in
  independent (_get_eqkey "space_scheme") (_get_eqkey "itsol") = true
  /\ cs_equation_set_option Reference.env "space_scheme" "cdo_fb" s
     = Normal tt s1
  /\ cs_equation_set_option Reference.env "itsol" "gmres" s1 = Normal tt s12
  /\ exists s2 s21,
       cs_equation_set_option Reference.env "itsol" "gmres" s = Normal tt s2
       /\ cs_equation_set_option Reference.env "space_scheme" "cdo_fb" s2
          = Normal tt s21
       /\ obj s21 = obj s12.
Proof.
  intros s s1 s12.
  assert (Hi : independent (_get_eqkey "space_scheme") (_get_eqkey "itsol")
               = true) by (vm_compute; reflexivity).
  assert (H1 : cs_equation_set_option Reference.env "space_scheme" "cdo_fb" s
               = Normal tt s1) by (vm_compute; reflexivity).
  assert (H2 : cs_equation_set_option Reference.env "itsol" "gmres" s1
               = Normal tt s12) by (vm_compute; reflexivity).
  split; [exact Hi|]. split; [exact H1|]. split; [exact H2|].
  exact (set_option_order Reference.env s s1 s12 "space_scheme" "cdo_fb"
           "itsol" "gmres" Hi H1 H2).
Defined.

(** X12.  What [cs_equation_last_setup] leaves when it returns.  The eight
    function pointers are those of the vertex-based scheme, with no function
    for the values at faces, or those of the face-based scheme; the main timer
    is created when the verbosity is positive and the three others when it is
    greater than 1; the flag is the former one with the lock, and with the
    flag of the conforming reconstruction when a vertex-based equation has a
    reaction term discretized by WBS; nothing else changes. *)
Theorem last_setup_outcome (X : environment) (e : cs_equation_t)
    (calls : list event) (s' : state) :
  cs_equation_last_setup X {| obj := Some e; log := calls |} = Normal tt s' ->
  exists e',
    obj s' = Some e'
    /\ functions e'
       = match space_scheme (param e) with
         | CS_SPACE_SCHEME_CDOVB =>
             [Some cs_cdovb_scaleq_init; Some cs_cdovb_scaleq_free;
              Some cs_cdovb_scaleq_build_system;
              Some cs_cdovb_scaleq_compute_source;
              Some cs_cdovb_scaleq_update_field; Some cs_cdovb_scaleq_extra_op;
              None; Some cs_cdovb_scaleq_get_tmpbuf]
         | CS_SPACE_SCHEME_CDOFB =>
             [Some cs_cdofb_scaleq_init; Some cs_cdofb_scaleq_free;
              Some cs_cdofb_scaleq_build_system;
              Some cs_cdofb_scaleq_compute_source;
              Some cs_cdofb_scaleq_update_field; Some cs_cdofb_scaleq_extra_op;
              Some cs_cdofb_scaleq_get_face_values;
              Some cs_cdofb_scaleq_get_tmpbuf]
         | CS_SPACE_N_SCHEMES => []
         end
    /\ main_ts_id e'
       = (if verbosity (param e) >? 0
          then cs_timer_stats_create X "stages" (name e) (name e)
          else main_ts_id e)
    /\ (pre_ts_id e', solve_ts_id e', extra_op_ts_id e')
       = (if verbosity (param e) >? 1
          then (cs_timer_stats_create X (name e) (name e ++ "_pre")
                  (name e ++ "_pre"),
                cs_timer_stats_create X (name e) (name e ++ "_solve")
                  (name e ++ "_solve"),
                cs_timer_stats_create X (name e) (name e ++ "_extra_op")
                  (name e ++ "_extra_op"))
          else (pre_ts_id e, solve_ts_id e, extra_op_ts_id e))
    /\ param e'
       = set_flag
           (Z.lor (if needs_hconf_st X (param e)
                   then Z.lor (flag (param e)) (CS_EQUATION_HCONF_ST X)
                   else flag (param e))
              (CS_EQUATION_LOCKED X))
           (param e)
    /\ same_system e e'.
Proof.
  intros H. destruct (cs_equation_last_setup_Normal X e calls s' H) as [He' Hsch].
  exists (set_up X e). split; [exact He'|].
  unfold set_up, timers_created, same_system, functions.
  destruct (space_scheme (param e)); [| | now elim Hsch];
    (assert (Hv : (verbosity (param e) >? 1) = true ->
                  (verbosity (param e) >? 0) = true)
       by (rewrite !Z.gtb_ltb, !Z.ltb_lt; lia));
    destruct (verbosity (param e) >? 0);
    destruct (verbosity (param e) >? 1);
    try (specialize (Hv eq_refl); discriminate Hv);
    destruct (needs_hconf_st X (param e));
    destruct e as [e_name e_param e_varname e_field e_ts1 e_ts2 e_ts3 e_ts4
                     e_do e_ms e_mx e_rhs e_bld e_f1 e_f2 e_f3 e_f4 e_f5 e_f6
                     e_f7 e_f8];
    destruct e_param; repeat split.
Qed.

Lemma last_setup_outcome_witness :
  let s := Reference.start Reference.eq0 in
  let s' := Sample.next (cs_equation_last_setup Reference.env) s in
  cs_equation_last_setup Reference.env s = Normal tt s'
  /\ exists e',
       obj s' = Some e'
       /\ functions e'
          = [Some cs_cdovb_scaleq_init; Some cs_cdovb_scaleq_free;
             Some cs_cdovb_scaleq_build_system;
             Some cs_cdovb_scaleq_compute_source;
             Some cs_cdovb_scaleq_update_field; Some cs_cdovb_scaleq_extra_op;
             None; Some cs_cdovb_scaleq_get_tmpbuf]
       /\ flag (param e') = CS_EQUATION_LOCKED Reference.env
       /\ same_system Reference.eq0 e'.
Proof.
  intros s s'.
  assert (H : cs_equation_last_setup Reference.env s = Normal tt s')
    by (vm_compute; reflexivity).
  split; [exact H|].
  destruct (last_setup_outcome Reference.env Reference.eq0 [] s' H)
    as (e' & He & Hf & _ & _ & Hp & Hs).
  exists e'. split; [exact He|]. split; [exact Hf|].
  split; [rewrite Hp; reflexivity | exact Hs].
Defined.

(** X13.  [_sles_initialization] for the PETSc family.  In a build with
    PETSc it initializes PETSc when it is not yet, and registers the solver
    with the matrix type and the setup hook of the couple of a solver and a
    preconditioner, after the options of the multigrid for CG with AMG; for a
    couple it does not handle it stops in an error after the initialization.
    In a build without PETSc it stops at once. *)
Theorem petsc_initialization (X : environment) (e : cs_equation_t)
    (calls : list event) :
  algo_type (algo_info (param e)) = CS_EQUATION_ALGO_PETSC_ITSOL ->
  let sv := solver (itsol_info (param e)) in
  let pc := precond (itsol_info (param e)) in
  let init := if PetscInitialized X then [] else [PetscInitializeNoArguments] in
  match _sles_initialization X {| obj := Some e; log := calls |} with
  | Normal _ s' =>
      HAVE_PETSC X = true
      /\ exists mat hook,
           petsc_couple sv pc = Some (mat, hook)
           /\ s' = {| obj := Some e;
                      log := (calls ++ init ++ petsc_options sv pc
                              ++ [cs_sles_petsc_define (field_id e) mat hook])%list |}
  | Fatal err s' =>
      if HAVE_PETSC X then
        petsc_couple sv pc = None
        /\ err = match sv with
                 | CS_PARAM_ITSOL_AMG => PetscSolverNotHandled
                 | _ => PetscCoupleNotHandled
                 end
        /\ s' = {| obj := Some e; log := (calls ++ init)%list |}
      else
        err = BackendUnavailable (name e)
        /\ s' = {| obj := Some e; log := calls |}
  | Undefined _ => False
  end.
Proof.
  intros Ha sv pc init. unfold sv, pc, init, _sles_initialization. run.
  rewrite Ha. destruct (HAVE_PETSC X); [| split; reflexivity].
  destruct (PetscInitialized X); cbn;
    destruct (solver (itsol_info (param e))),
             (precond (itsol_info (param e))); cbn;
    try (split; [reflexivity | do 2 eexists; split; [reflexivity|]]);
    repeat split; rewrite <- ?app_assoc; try rewrite app_nil_r; reflexivity.
Qed.

Lemma petsc_initialization_witness :
  let e :=
    cs_equation_create Reference.env_petsc "WallDistance" "WallDistance"
      CS_EQUATION_TYPE_PREDEFINED CS_PARAM_VAR_SCAL CS_PARAM_BC_HMG_NEUMANN in
  algo_type (algo_info (param e)) = CS_EQUATION_ALGO_PETSC_ITSOL
  /\ _sles_initialization Reference.env_petsc (Reference.start e)
     = Normal tt
         {| obj := Some e;
            log := [PetscInitializeNoArguments;
                    cs_sles_petsc_define (field_id e) MATSEQAIJ
                      _bicg_ilu_setup_hook] |}.
Proof.
  intros e.
  assert (H : algo_type (algo_info (param e)) = CS_EQUATION_ALGO_PETSC_ITSOL)
    by reflexivity.
  split; [exact H|].
  pose proof (petsc_initialization Reference.env_petsc e [] H) as P.
  cbv zeta in P. unfold Reference.start.
  destruct (_sles_initialization Reference.env_petsc
              {| obj := Some e; log := [] |}) as [[] s' | err s' | u] eqn:E.
  - destruct P as (_ & mat & hook & Hc & Hs).
    vm_compute in Hc. injection Hc as <- <-. rewrite Hs. reflexivity.
  - vm_compute in E. discriminate E.
  - destruct P.
Defined.

(** X14.  [cs_equation_add_bc] on an equation whose counter of definitions
    agrees with its array.  It counts the new definition first, then checks
    the mesh location, the kind of definition and the kind of boundary
    condition, in that order: when a check fails it stops with the counter
    incremented and the array unchanged; otherwise it appends one definition,
    of the location, the kind of definition, the type of variable and the
    value given, and changes no other member. *)
Theorem add_bc_outcome (X : environment) (e : cs_equation_t)
    (calls : list event) (ml_name bc_key def_key val : string) :
  definitions_consistent (param e) ->
  let s := {| obj := Some e; log := calls |} in
  match cs_equation_add_bc X ml_name bc_key def_key val s with
  | Normal _ s' =>
      add_bc_error X ml_name bc_key def_key = None
      /\ exists e' d,
           s' = {| obj := Some e'; log := calls |}
           /\ e' = set_param (param e') e
           /\ defs (bc (param e')) = (defs (bc (param e)) ++ [d])%list
           /\ n_defs (bc (param e')) = n_defs (bc (param e)) + 1
           /\ loc_id d = cs_mesh_location_get_id_by_name X ml_name
           /\ Some (bc_def_type d) = def_type_of_key def_key
           /\ bc_var_type d = var_type (param e)
           /\ bc_def_coef1 d = val
           /\ (bc_key = "robin" \/ def_key <> "value"
               \/ var_type (param e) <> CS_PARAM_VAR_SCAL ->
               Some (bc_type d) = bc_type_of_key bc_key)
           /\ forall m, m <> eqp_bc_n_defs -> m <> eqp_bc_defs ->
                        agree m (param e) (param e')
  | Fatal err s' =>
      add_bc_error X ml_name bc_key def_key = Some err
      /\ exists e',
           s' = {| obj := Some e'; log := calls |}
           /\ e' = set_param (param e') e
           /\ defs (bc (param e')) = defs (bc (param e))
           /\ n_defs (bc (param e')) = n_defs (bc (param e)) + 1
  | Undefined _ => False
  end.
Proof.
  intros Hn s. unfold s, add_bc_error. rewrite cs_equation_add_bc_eq. cbv zeta.
  destruct (cs_mesh_location_get_id_by_name X ml_name =? -1);
    [split; [reflexivity|]; eexists; repeat split|].
  destruct (def_type_of_key def_key) as [dt|] eqn:Hd;
    [| split; [reflexivity|]; eexists; repeat split].
  destruct (bc_type_of_key bc_key) as [bt|] eqn:Hb;
    [| split; [reflexivity|]; eexists; repeat split].
  split; [reflexivity|]. do 2 eexists. split; [reflexivity|].
  split; [reflexivity|]. cbn. rewrite Hn, array_store_end.
  split; [reflexivity|]. split; [reflexivity|]. split; [reflexivity|].
  split; [reflexivity|]. split; [reflexivity|]. split; [reflexivity|]. split.
  - intros H. f_equal. unfold recorded_bc_type.
    destruct H as [-> | [H | H]].
    + cbn in Hb. injection Hb as <-.
      destruct dt, (var_type (param e)); try reflexivity.
      destruct (PrimFloat.ltb _ _); reflexivity.
    + destruct dt; try reflexivity. elim H.
      unfold def_type_of_key, strcmp_eq in Hd.
      destruct (String.eqb_spec def_key "value") as [E|_]; [exact E|].
      repeat match type of Hd with
             | context [String.eqb ?a ?b] => destruct (String.eqb a b)
             end; discriminate Hd.
    + destruct dt, (var_type (param e)); try reflexivity. now elim H.
  - intros m H1 H2. destruct m; try reflexivity; contradiction.
Qed.

Lemma add_bc_outcome_witness :
  definitions_consistent (param Reference.eq0)
  /\ exists e' d,
       cs_equation_add_bc Reference.env "boundary_faces" "dirichlet" "value"
         "1.0" (Reference.start Reference.eq0)
       = Normal tt (Reference.start e')
       /\ defs (bc (param e')) = [d]
       /\ n_defs (bc (param e')) = 1
       /\ loc_id d = 3
       /\ bc_def_coef1 d = "1.0".
Proof.
  assert (H : definitions_consistent (param Reference.eq0)) by reflexivity.
  split; [exact H|].
  pose proof (add_bc_outcome Reference.env Reference.eq0 [] "boundary_faces"
                "dirichlet" "value" "1.0" H) as P.
  cbv zeta in P. unfold Reference.start.
  destruct (cs_equation_add_bc Reference.env "boundary_faces" "dirichlet"
              "value" "1.0" {| obj := Some Reference.eq0; log := [] |})
    as [[] s' | err s' | u] eqn:E.
  - destruct P as (_ & e' & d & Hs & _ & Hd & Hn & Hl & _ & _ & Hv & _).
    exists e', d. rewrite Hs. split; [reflexivity|].
    split; [exact Hd|]. split; [exact Hn|]. split; [exact Hl | exact Hv].
  - vm_compute in E. discriminate E.
  - destruct P.
Defined.

(** ** The name of a reaction term registered without a name *)

Lemma reaction_default_name_distinct :
  forallb
    (fun i =>
       forallb
         (fun j =>
            Bool.eqb
              (String.eqb (reaction_default_name (Z.of_nat i))
                 (reaction_default_name (Z.of_nat j)))
              (Nat.eqb i j))
         (seq 0 100))
    (seq 0 100) = true.
Proof.
  vm_compute. reflexivity.
Qed.

Lemma reaction_default_name_other (i j : nat) :
  (i < 100)%nat -> (j < 100)%nat -> i <> j ->
  strcmp_eq (reaction_default_name (Z.of_nat i))
    (reaction_default_name (Z.of_nat j)) = false.
Proof.
  intros Hi Hj Hij. pose proof reaction_default_name_distinct as H.
  rewrite forallb_forall in H. specialize (H i).
  rewrite forallb_forall in H.
  assert (Hin : forall k, (k < 100)%nat -> In k (seq 0 100)).
  { intros k Hk. apply in_seq. lia. }
  specialize (H (Hin i Hi) j (Hin j Hj)).
  apply Bool.eqb_prop in H. unfold strcmp_eq. rewrite H.
  apply Nat.eqb_neq. exact Hij.
Qed.

Lemma unnamed_terms_unused (p : cs_equation_param_t) :
  unnamed_terms p -> (length (reaction_terms p) < 100)%nat ->
  unused_name (reaction_default_name (Z.of_nat (length (reaction_terms p))))
    (reaction_terms p).
Proof.
  intros Hu Hn. unfold unused_name. apply Forall_forall. intros t Ht.
  apply In_nth_error in Ht. destruct Ht as [i Hi].
  rewrite (Hu i t Hi).
  assert (Hlt : (i < length (reaction_terms p))%nat).
  { apply nth_error_Some. rewrite Hi. discriminate. }
  apply reaction_default_name_other; lia.
Qed.

(** X15.  Reaction terms registered without a name.  On a vertex-based
    equation whose reaction terms were all registered without a name,
    [cs_equation_add_reaction] with a NULL name registers the next term under
    the name of its index, under which [cs_equation_get_reaction_property]
    finds the property just given; from the hundredth term on the assertion
    on the index fails. *)
Theorem unnamed_reaction_terms (X : environment) (e : cs_equation_t)
    (calls : list event) (property : ptr) :
  space_scheme (param e) = CS_SPACE_SCHEME_CDOVB ->
  reactions_consistent (param e) ->
  unnamed_terms (param e) ->
  let s := {| obj := Some e; log := calls |} in
  let r_id := n_reaction_terms (param e) in
  if r_id <? 100 then
    exists s' e',
      cs_equation_add_reaction X None "linear" property s = Normal tt s'
      /\ obj s' = Some e'
      /\ cs_equation_get_reaction_property (Some (reaction_default_name r_id)) s'
         = Normal property s'
      /\ reactions_consistent (param e') /\ unnamed_terms (param e')
  else
    exists s', cs_equation_add_reaction X None "linear" property s
               = Fatal AssertionFailed s'.
Proof.
  intros Hsch [Hn Hlen] Hu s r_id. unfold s, r_id.
  rewrite cs_equation_add_reaction_eq. cbv zeta. rewrite Hsch.
  destruct (n_reaction_terms (param e) <? 100) eqn:Hlt; cbn [negb];
    [| eexists; reflexivity].
  apply Z.ltb_lt in Hlt.
  change (strcmp_eq "linear" "linear") with true. cbn [negb].
  do 2 eexists. split; [reflexivity|]. split; [reflexivity|].
  assert (Hterms : reaction_terms
                     (reaction_stored X
                        (cs_param_reaction_add X
                           (reaction_default_name (n_reaction_terms (param e)))
                           CS_PARAM_HODGE_TYPE_VPCD CS_PARAM_HODGE_ALGO_WBS
                           CS_PARAM_REACTION_TYPE_LINEAR) property (param e))
                   = (reaction_terms (param e)
                      ++ [cs_param_reaction_add X
                            (reaction_default_name (n_reaction_terms (param e)))
                            CS_PARAM_HODGE_TYPE_VPCD CS_PARAM_HODGE_ALGO_WBS
                            CS_PARAM_REACTION_TYPE_LINEAR])%list).
  { cbn. rewrite Hn, array_store_end. reflexivity. }
  assert (Hprops : reaction_properties
                     (reaction_stored X
                        (cs_param_reaction_add X
                           (reaction_default_name (n_reaction_terms (param e)))
                           CS_PARAM_HODGE_TYPE_VPCD CS_PARAM_HODGE_ALGO_WBS
                           CS_PARAM_REACTION_TYPE_LINEAR) property (param e))
                   = (reaction_properties (param e) ++ [property])%list).
  { cbn. rewrite Hn, <- Hlen, array_store_end. reflexivity. }
  split; [| split].
  - rewrite cs_equation_get_reaction_property_eq. cbv zeta.
    cbn [param set_param]. rewrite Hterms, Hprops.
    replace (n_reaction_terms (reaction_stored X _ property (param e)))
      with (n_reaction_terms (param e) + 1) by reflexivity.
    rewrite find_reaction_term_first;
      [| rewrite Hn; apply unnamed_terms_unused; [exact Hu | lia]
       | apply String.eqb_refl | lia].
    destruct (0 + Z.of_nat (length (reaction_terms (param e))) =? -1) eqn:E;
      [apply Z.eqb_eq in E; lia|].
    replace (Z.to_nat (0 + Z.of_nat (length (reaction_terms (param e)))))
      with (length (reaction_properties (param e))) by lia.
    rewrite nth_error_app2, Nat.sub_diag by lia. reflexivity.
  - unfold reactions_consistent. cbn [param set_param].
    rewrite Hterms, Hprops, !length_app. cbn. lia.
  - unfold unnamed_terms. cbn [param set_param]. rewrite Hterms. intros i t Hi.
    destruct (Nat.lt_ge_cases i (length (reaction_terms (param e)))) as [Hl | Hg].
    + rewrite nth_error_app1 in Hi by exact Hl. exact (Hu i t Hi).
    + rewrite nth_error_app2 in Hi by exact Hg.
      destruct (i - length (reaction_terms (param e)))%nat as [| k] eqn:Ek.
      * cbn [nth_error] in Hi. injection Hi as <-.
        cbn [reaction_name cs_param_reaction_add].
        rewrite Hn. f_equal. lia.
      * cbn [nth_error] in Hi. destruct k; discriminate Hi.
Qed.

Lemma unnamed_reaction_terms_witness :
  space_scheme (param Sample.reacting_eq) = CS_SPACE_SCHEME_CDOVB
  /\ reactions_consistent (param Sample.reacting_eq)
  /\ unnamed_terms (param Sample.reacting_eq)
  /\ exists s' e',
       cs_equation_add_reaction Reference.env None "linear" (Addr 8)
         (Reference.start Sample.reacting_eq) = Normal tt s'
       /\ obj s' = Some e'
       /\ cs_equation_get_reaction_property (Some (reaction_default_name 1)) s'
          = Normal (Addr 8) s'
       /\ reactions_consistent (param e') /\ unnamed_terms (param e').
Proof.
  assert (H1 : space_scheme (param Sample.reacting_eq) = CS_SPACE_SCHEME_CDOVB)
    by reflexivity.
  assert (H2 : reactions_consistent (param Sample.reacting_eq))
    by (split; reflexivity).
  assert (H3 : unnamed_terms (param Sample.reacting_eq)).
  { intros i t. destruct i as [| [| i]]; cbn; intros Hi; inversion Hi.
    reflexivity. }
  split; [exact H1|]. split; [exact H2|]. split; [exact H3|].
  exact (unnamed_reaction_terms Reference.env Sample.reacting_eq [] (Addr 8)
           H1 H2 H3).
Defined.

(** X16.  A reaction term registered by [cs_equation_add_reaction] is
    discretized by WBS, so that [cs_equation_last_setup] called next raises
    the flag of the conforming reconstruction. *)
Theorem reaction_term_asks_for_hconf (X : environment) (s s1 s2 : state)
    (e : cs_equation_t) (r_name : option string) (type_name : string)
    (property : ptr) :
  CS_EQUATION_REACTION X <> 0 ->
  CS_EQUATION_HCONF_ST X <> 0 ->
  obj s = Some e ->
  reactions_consistent (param e) ->
  cs_equation_add_reaction X r_name type_name property s = Normal tt s1 ->
  cs_equation_last_setup X s1 = Normal tt s2 ->
  exists e2,
    obj s2 = Some e2
    /\ has_flag (flag (param e2)) (CS_EQUATION_HCONF_ST X) = true.
Proof.
  intros HR HH He [Hn Hlen] Ha Hs.
  destruct s as [o calls]. cbn in He. subst o.
  rewrite cs_equation_add_reaction_eq in Ha. cbv zeta in Ha.
  destruct (match r_name with None => _ | Some _ => _ end); [discriminate|].
  destruct (negb _); [discriminate|].
  destruct (space_scheme (param e)) eqn:Hsch; try discriminate.
  injection Ha as <-.
  destruct (cs_equation_last_setup_Normal X _ calls s2 Hs) as [He2 _].
  eexists. split; [exact He2|].
  unfold set_up. cbn [param set_param].
  match goal with
  | |- context [needs_hconf_st X ?p] =>
      assert (Hh : needs_hconf_st X p = true)
  end.
  { unfold needs_hconf_st. cbn. rewrite Hsch. cbn.
    rewrite (has_flag_raised _ _ HR). cbn.
    rewrite Hn, array_store_end.
    replace (Z.to_nat (Z.of_nat (length (reaction_terms (param e))) + 1))
      with (length (reaction_terms (param e)) + 1)%nat by lia.
    rewrite firstn_app, firstn_all2 by lia.
    rewrite existsb_app.
    replace (length (reaction_terms (param e)) + 1
             - length (reaction_terms (param e)))%nat with 1%nat by lia.
    cbn. apply orb_true_r. }
  rewrite Hh. cbn [flag raise_flag set_flag].
  apply has_flag_lor, has_flag_raised, HH.
Qed.

Lemma reaction_term_asks_for_hconf_witness :
  CS_EQUATION_REACTION Reference.env <> 0
  /\ CS_EQUATION_HCONF_ST Reference.env <> 0
  /\ (let s := Reference.start Reference.eq0 in
      let s1 :=
        Sample.next
          (cs_equation_add_reaction Reference.env (Some "decay") "linear"
             (Addr 6)) s in
      let s2 := Sample.next (cs_equation_last_setup Reference.env) s1 in
      obj s = Some Reference.eq0
      /\ reactions_consistent (param Reference.eq0)
      /\ cs_equation_add_reaction Reference.env (Some "decay") "linear"
           (Addr 6) s = Normal tt s1
      /\ cs_equation_last_setup Reference.env s1 = Normal tt s2
      /\ exists e2,
           obj s2 = Some e2
           /\ has_flag (flag (param e2)) (CS_EQUATION_HCONF_ST Reference.env)
              = true).
Proof.
  assert (H0 : CS_EQUATION_REACTION Reference.env <> 0) by discriminate.
  assert (H1 : CS_EQUATION_HCONF_ST Reference.env <> 0) by discriminate.
  split; [exact H0|]. split; [exact H1|]. intros s s1 s2.
  assert (He : obj s = Some Reference.eq0) by reflexivity.
  assert (Hc : reactions_consistent (param Reference.eq0))
    by (split; reflexivity).
  assert (H2 : cs_equation_add_reaction Reference.env (Some "decay") "linear"
                 (Addr 6) s = Normal tt s1) by (vm_compute; reflexivity).
  assert (H3 : cs_equation_last_setup Reference.env s1 = Normal tt s2)
    by (vm_compute; reflexivity).
  split; [exact He|]. split; [exact Hc|]. split; [exact H2|].
  split; [exact H3|].
  exact (reaction_term_asks_for_hconf Reference.env s s1 s2 Reference.eq0
           (Some "decay") "linear" (Addr 6) H0 H1 He Hc H2 H3).
Defined.

(** * Properties of the terms, of the field and of the initialization *)

(** ** Running the operations, continued *)

Ltac run' :=
  cbv beta iota zeta delta
    [bind' ret' when' eq_is_null' deref' call' bft_error' undefined' assign'
     assign_param' through' entries obj' log'].

Lemma cs_equation_set_reaction_option_eq (X : environment) (e : cs_equation_t)
    (calls : list event') (r_name : option string) (keyname keyval : string) :
  cs_equation_set_reaction_option X r_name keyname keyval
    {| obj' := Some e; log' := calls |} =
  let p := param e in
  let r_id :=
    match r_name with
    | Some n =>
        find_reaction_term n (reaction_terms p) (Z.to_nat (n_reaction_terms p)) 0
    | None => -1
    end in
  let started := {| obj' := Some e; log' := (calls ++ timer_started e)%list |} in
  if match r_name with Some _ => r_id =? -1 | None => false end then
    Fatal' (ReactionTermNotFound match r_name with Some n => n | None => EmptyString end)
      started
  else
    match _get_reakey keyname with
    | REAKEY_ERROR =>
        Fatal' (InvalidReactionKey r_name)
          {| obj' := Some e;
             log' := (calls ++ timer_started e
                      ++ [bft_printf_possible_reakeys keyname])%list |}
    | key =>
        match reaction_update X key keyval with
        | None => Fatal' (base_error (InvalidValue keyval keyname)) started
        | Some f =>
            match reaction_terms_updated r_id f p with
            | Some terms =>
                Normal' tt
                  {| obj' := Some (set_param (set_reaction_terms terms p) e);
                     log' := (calls ++ timer_started e ++ timer_stopped e)%list |}
            | None => Undefined' out_of_bounds_access
            end
        end
    end.
Proof.
  unfold cs_equation_set_reaction_option, assign_reaction_terms,
    reaction_terms_updated, timer_started, timer_stopped.
  destruct e as [e_name e_param e_varname e_field e_ts1 e_ts2 e_ts3 e_ts4
                   e_do e_ms e_mx e_rhs e_bld e_f1 e_f2 e_f3 e_f4 e_f5 e_f6
                   e_f7 e_f8].
  run'. cbn [main_ts_id param].
  destruct (e_ts1 >? -1) eqn:Hts; run';
    (destruct r_name as [n|]; run';
     [destruct (find_reaction_term n _ _ 0 =? -1) eqn:Hid; run';
      [rewrite ?app_nil_r; reflexivity|] |]);
    (destruct (_get_reakey keyname); cbn [reaction_update];
     try (rewrite <- ?app_assoc, ?app_nil_r; reflexivity);
     split_tests keyval; run'; cbn [param negb]; rewrite ?Hid; cbn [negb];
     try (rewrite ?app_nil_r; reflexivity);
     try (destruct (nth_error (reaction_terms e_param) _); run'; cbn;
          rewrite ?Hts, <- ?app_assoc, ?app_nil_r; reflexivity);
     try (destruct (_ <? _)%nat; run'; cbn;
          rewrite ?Hts, <- ?app_assoc, ?app_nil_r; reflexivity)).
Qed.

Lemma array_store_middle (A : Type) (before after : list A) (t v : A) :
  array_store (before ++ t :: after) (Z.of_nat (length before)) v
  = (before ++ v :: after)%list.
Proof.
  unfold array_store. rewrite Nat2Z.id.
  rewrite firstn_app, Nat.sub_diag, firstn_all. cbn [firstn].
  rewrite app_nil_r. f_equal. f_equal.
  change (S (length before)) with (1 + length before)%nat.
  rewrite <- skipn_skipn.
  replace (skipn (length before) (before ++ t :: after)) with (t :: after).
  - reflexivity.
  - rewrite skipn_app, Nat.sub_diag, skipn_all. reflexivity.
Qed.

(** X17.  [cs_equation_set_reaction_option] with a name changes the first
    reaction term of that name and no other: the terms before it, which have
    other names, and the terms after it, whatever their names, are kept. *)
Theorem set_reaction_option_by_name (X : environment) (e : cs_equation_t)
    (calls : list event') (r_name keyname keyval : string)
    (before after : list cs_param_reaction_t) (t : cs_param_reaction_t)
    (f : cs_param_reaction_t -> cs_param_reaction_t) :
  reaction_terms (param e) = (before ++ t :: after)%list ->
  (length before < Z.to_nat (n_reaction_terms (param e)))%nat ->
  unused_name r_name before ->
  strcmp_eq (reaction_name t) r_name = true ->
  reaction_update X (_get_reakey keyname) keyval = Some f ->
  cs_equation_set_reaction_option X (Some r_name) keyname keyval
    {| obj' := Some e; log' := calls |}
  = Normal' tt
      {| obj' := Some (set_param
                         (set_reaction_terms (before ++ f t :: after) (param e))
                         e);
         log' := (calls ++ timer_started e ++ timer_stopped e)%list |}.
Proof.
  intros Hterms Hn Hbefore Ht Hf.
  rewrite cs_equation_set_reaction_option_eq. cbv zeta.
  rewrite Hterms, (find_reaction_term_first r_name before after t _ 0 Hbefore Ht Hn).
  destruct (0 + Z.of_nat (length before) =? -1) eqn:E;
    [apply Z.eqb_eq in E; lia|].
  destruct (_get_reakey keyname); try discriminate Hf; rewrite Hf;
    unfold reaction_terms_updated; rewrite E, Hterms; cbn [negb];
    replace (Z.to_nat (0 + Z.of_nat (length before))) with (length before) by lia;
    rewrite nth_error_app2, Nat.sub_diag by lia; cbn [nth_error];
    replace (0 + Z.of_nat (length before)) with (Z.of_nat (length before)) by lia;
    rewrite array_store_middle; reflexivity.
Qed.

Lemma set_reaction_option_by_name_witness :
  let e := Sample.reacting_twice in
  let f := set_reaction_do_lumping true in
  reaction_terms (param e) = ([Sample.term 0] ++ Sample.term 1 :: [])%list
  /\ (length [Sample.term 0] < Z.to_nat (n_reaction_terms (param e)))%nat
  /\ unused_name "reaction_01" [Sample.term 0]
  /\ strcmp_eq (reaction_name (Sample.term 1)) "reaction_01" = true
  /\ reaction_update Reference.env (_get_reakey "lumping") "true" = Some f
  /\ cs_equation_set_reaction_option Reference.env (Some "reaction_01")
       "lumping" "true" (Sample.start' e)
     = Normal' tt
         (Sample.start'
            (set_param
               (set_reaction_terms [Sample.term 0; f (Sample.term 1)]
                  (param e))
               e)).
Proof.
  intros e f.
  assert (H1 : reaction_terms (param e)
               = ([Sample.term 0] ++ Sample.term 1 :: [])%list)
    by (vm_compute; reflexivity).
  assert (H2 : (length [Sample.term 0]
                < Z.to_nat (n_reaction_terms (param e)))%nat)
    by (vm_compute; lia).
  assert (H3 : unused_name "reaction_01" [Sample.term 0])
    by (repeat constructor).
  assert (H4 : strcmp_eq (reaction_name (Sample.term 1)) "reaction_01" = true)
    by (vm_compute; reflexivity).
  assert (H5 : reaction_update Reference.env (_get_reakey "lumping") "true"
               = Some f) by reflexivity.
  split; [exact H1|]. split; [exact H2|]. split; [exact H3|].
  split; [exact H4|]. split; [exact H5|].
  exact (set_reaction_option_by_name Reference.env e [] "reaction_01"
           "lumping" "true" [Sample.term 0] [] (Sample.term 1) f
           H1 H2 H3 H4 H5).
Defined.

Lemma reaction_terms_updated_all
    (f : cs_param_reaction_t -> cs_param_reaction_t)
    (p : cs_equation_param_t) :
  n_reaction_terms p = Z.of_nat (length (reaction_terms p)) ->
  reaction_terms_updated (-1) f p = Some (map f (reaction_terms p)).
Proof.
  intros Hn. unfold reaction_terms_updated. cbn [Z.eqb negb].
  rewrite Hn, Nat2Z.id, Nat.ltb_irrefl, firstn_all, skipn_all, app_nil_r.
  reflexivity.
Qed.

(** X18.  [cs_equation_set_reaction_option] with a NULL name applies the
    assignment of the key to every reaction term. *)
Theorem set_reaction_option_for_all (X : environment) (e : cs_equation_t)
    (calls : list event') (keyname keyval : string)
    (f : cs_param_reaction_t -> cs_param_reaction_t) :
  n_reaction_terms (param e) = Z.of_nat (length (reaction_terms (param e))) ->
  reaction_update X (_get_reakey keyname) keyval = Some f ->
  cs_equation_set_reaction_option X None keyname keyval
    {| obj' := Some e; log' := calls |}
  = Normal' tt
      {| obj' := Some (set_param
                         (set_reaction_terms (map f (reaction_terms (param e)))
                            (param e))
                         e);
         log' := (calls ++ timer_started e ++ timer_stopped e)%list |}.
Proof.
  intros Hn Hf. rewrite cs_equation_set_reaction_option_eq. cbv zeta.
  destruct (_get_reakey keyname); try discriminate Hf; rewrite Hf;
    rewrite (reaction_terms_updated_all f _ Hn); reflexivity.
Qed.

Lemma set_reaction_option_for_all_witness :
  let e := Sample.reacting_twice in
  let f := in_reaction_hodge (set_hodge_algo CS_PARAM_HODGE_ALGO_VORONOI) in
  n_reaction_terms (param e) = Z.of_nat (length (reaction_terms (param e)))
  /\ reaction_update Reference.env (_get_reakey "hodge_algo") "voronoi"
     = Some f
  /\ cs_equation_set_reaction_option Reference.env None "hodge_algo"
       "voronoi" (Sample.start' e)
     = Normal' tt
         (Sample.start'
            (set_param
               (set_reaction_terms (map f (reaction_terms (param e)))
                  (param e))
               e)).
Proof.
  intros e f.
  assert (H1 : n_reaction_terms (param e)
               = Z.of_nat (length (reaction_terms (param e))))
    by (vm_compute; reflexivity).
  assert (H2 : reaction_update Reference.env (_get_reakey "hodge_algo")
                 "voronoi" = Some f) by reflexivity.
  split; [exact H1|]. split; [exact H2|].
  exact (set_reaction_option_for_all Reference.env e [] "hodge_algo" "voronoi"
           f H1 H2).
Defined.

(** X19.  What [cs_equation_set_reaction_option] refuses.  A name no
    reaction term has is refused before the key is looked at; an unknown key
    is refused after its listing; the key ["hodge_algo"] refuses every value
    but ["cost"], ["voronoi"] and ["wbs"]; the three other keys refuse no
    value.  Each refusal leaves the equation as it is and the main timer
    running. *)
Theorem set_reaction_option_refusals (X : environment) (e : cs_equation_t)
    (calls : list event') (r_name : option string) (keyname keyval : string) :
  let s := {| obj' := Some e; log' := calls |} in
  let started := {| obj' := Some e; log' := (calls ++ timer_started e)%list |} in
  let found :=
    match r_name with
    | Some n =>
        negb (find_reaction_term n (reaction_terms (param e))
                (Z.to_nat (n_reaction_terms (param e))) 0 =? -1)
    | None => true
    end in
  (forall n, r_name = Some n -> unused_name n (reaction_terms (param e)) ->
             cs_equation_set_reaction_option X r_name keyname keyval s
             = Fatal' (ReactionTermNotFound n) started)
  /\ (found = true -> _get_reakey keyname = REAKEY_ERROR ->
      cs_equation_set_reaction_option X r_name keyname keyval s
      = Fatal' (InvalidReactionKey r_name)
          {| obj' := Some e;
             log' := (calls ++ timer_started e
                      ++ [bft_printf_possible_reakeys keyname])%list |})
  /\ (found = true -> keyname = "hodge_algo" ->
      ~ In keyval ["cost"; "voronoi"; "wbs"] ->
      cs_equation_set_reaction_option X r_name keyname keyval s
      = Fatal' (base_error (InvalidValue keyval keyname)) started)
  /\ (_get_reakey keyname <> REAKEY_ERROR -> keyname <> "hodge_algo" ->
      reaction_update X (_get_reakey keyname) keyval <> None).
Proof.
  intros s started found. unfold s, started, found.
  split; [| split; [| split]].
  - intros n -> Hn. rewrite cs_equation_set_reaction_option_eq. cbv zeta.
    rewrite (find_reaction_term_unused n _ _ 0 Hn). reflexivity.
  - intros Hfound Hk. rewrite cs_equation_set_reaction_option_eq. cbv zeta.
    destruct r_name as [n|]; [apply negb_true_iff in Hfound; rewrite Hfound|];
      rewrite Hk; reflexivity.
  - intros Hfound -> Hv. rewrite cs_equation_set_reaction_option_eq. cbv zeta.
    not_in_vocabulary Hv.
    change (_get_reakey "hodge_algo") with REAKEY_HODGE_ALGO.
    cbn [reaction_update]. rewrite E, E0, E1.
    destruct r_name as [n|]; [apply negb_true_iff in Hfound; rewrite Hfound|];
      reflexivity.
  - intros Hk Hn. unfold _get_reakey, strcmp_eq in *.
    destruct (String.eqb_spec keyname "lumping"); [discriminate|].
    destruct (String.eqb_spec keyname "hodge_algo"); [contradiction|].
    destruct (String.eqb_spec keyname "hodge_coef"); [discriminate|].
    destruct (String.eqb_spec keyname "inv_pty"); [discriminate|].
    now elim Hk.
Qed.

(** X20.  [cs_equation_set_ic] on an equation whose counter of initial
    conditions agrees with its array.  For the keys ["value"] and
    ["analytic"] it appends one definition, of the mesh location given, or of
    the empty name for a NULL name, and changes no other member; for any other
    key it stops and leaves the equation as it is.  It tests neither the mesh
    location nor the lock. *)
Theorem set_ic_outcome (Y : collaborators) (e : cs_equation_t)
    (calls : list event')
    (location : option string) (def_key val : string) :
  n_ic_definitions (time_info (param e))
  = Z.of_nat (length (ic_definitions (time_info (param e)))) ->
  let s := {| obj' := Some e; log' := calls |} in
  match cs_equation_set_ic Y location def_key val s with
  | Normal' _ s' =>
      exists e' ic,
        s' = {| obj' := Some e'; log' := calls |}
        /\ e' = set_param (param e') e
        /\ ic_definitions (time_info (param e'))
           = (ic_definitions (time_info (param e)) ++ [ic])%list
        /\ n_ic_definitions (time_info (param e'))
           = n_ic_definitions (time_info (param e)) + 1
        /\ ml_name ic
           = match location with Some n => n | None => EmptyString end
        /\ ic_def ic
           = cs_param_set_def Y (ic_def_type ic) (var_type (param e)) val
        /\ In (def_key, ic_def_type ic)
             [("value", CS_PARAM_DEF_BY_VALUE);
              ("analytic", CS_PARAM_DEF_BY_ANALYTIC_FUNCTION)]
        /\ forall m, m <> eqp_n_ic_definitions -> m <> eqp_ic_definitions ->
                     agree m (param e) (param e')
  | Fatal' err s' =>
      err = InvalidInitialConditionKey def_key /\ s' = s
      /\ def_key <> "value" /\ def_key <> "analytic"
  | Undefined' _ => False
  end.
Proof.
  intros Hn s. unfold s, cs_equation_set_ic, strcmp_eq. run'.
  destruct (String.eqb_spec def_key "value") as [-> | H1];
    [| destruct (String.eqb_spec def_key "analytic") as [-> | H2]]; run'.
  - do 2 eexists. split; [reflexivity|]. split; [reflexivity|].
    cbn. rewrite Hn, array_store_end.
    split; [reflexivity|]. split; [reflexivity|]. split; [reflexivity|].
    split; [reflexivity|]. split; [left; reflexivity|].
    intros m Hm1 Hm2. destruct m; try reflexivity; contradiction.
  - do 2 eexists. split; [reflexivity|]. split; [reflexivity|].
    cbn. rewrite Hn, array_store_end.
    split; [reflexivity|]. split; [reflexivity|]. split; [reflexivity|].
    split; [reflexivity|]. split; [right; left; reflexivity|].
    intros m Hm1 Hm2. destruct m; try reflexivity; contradiction.
  - repeat split; assumption.
Qed.

Lemma set_ic_outcome_witness :
  n_ic_definitions (time_info (param Reference.eq0))
  = Z.of_nat (length (ic_definitions (time_info (param Reference.eq0))))
  /\ exists e' ic,
       cs_equation_set_ic Sample.collab None "value" "1.0"
         (Sample.start' Reference.eq0) = Normal' tt (Sample.start' e')
       /\ ic_definitions (time_info (param e')) = [ic]
       /\ n_ic_definitions (time_info (param e')) = 1
       /\ ml_name ic = EmptyString
       /\ ic_def ic = "1.0".
Proof.
  assert (H : n_ic_definitions (time_info (param Reference.eq0))
              = Z.of_nat
                  (length (ic_definitions (time_info (param Reference.eq0)))))
    by reflexivity.
  split; [exact H|].
  pose proof (set_ic_outcome Sample.collab Reference.eq0 [] None "value" "1.0"
                H) as P.
  cbv zeta in P. unfold Sample.start'.
  destruct (cs_equation_set_ic Sample.collab None "value" "1.0"
              {| obj' := Some Reference.eq0; log' := [] |})
    as [[] s' | err s' | u] eqn:E.
  - destruct P as (e' & ic & Hs & _ & Hd & Hn & Hl & Hv & _).
    exists e', ic. rewrite Hs. split; [reflexivity|].
    split; [exact Hd|]. split; [exact Hn|]. split; [exact Hl | exact Hv].
  - vm_compute in E. discriminate E.
  - destruct P.
Defined.

Lemma lift_check_ml_name (X : environment) (ml_name : string) (s : state') :
  lift (_check_ml_name X ml_name) s
  = if cs_mesh_location_get_id_by_name X ml_name =? -1
    then Fatal' (base_error (InvalidMeshLocation ml_name)) s
    else Normal' (cs_mesh_location_get_id_by_name X ml_name) s.
Proof.
  unfold lift, _check_ml_name. run.
  destruct (_ =? -1); cbn; rewrite app_nil_r; destruct s; reflexivity.
Qed.

Lemma cs_equation_add_source_term_by_val_eq (X : environment)
    (Y : collaborators) (e : cs_equation_t) (calls : list event')
    (st_name : option string) (ml_name val : string) :
  cs_equation_add_source_term_by_val X Y st_name ml_name val
    {| obj' := Some e; log' := calls |} =
  match user_source_term X Y (param e) st_name ml_name with
  | inl err =>
      Fatal' (base_error err)
        {| obj' := Some (set_param (source_term_counted (param e)) e);
           log' := calls |}
  | inr st =>
      Normal' tt
        {| obj' := Some (set_param (source_term_stored st (param e)) e);
           log' := (calls ++ [cs_source_term_def_by_value st val])%list |}
  end.
Proof.
  unfold cs_equation_add_source_term_by_val, user_source_term,
    source_term_default_name.
  destruct e as [e_name e_param e_varname e_field e_ts1 e_ts2 e_ts3 e_ts4
                   e_do e_ms e_mx e_rhs e_bld e_f1 e_f2 e_f3 e_f4 e_f5 e_f6
                   e_f7 e_f8].
  run'. cbn [param].
  destruct st_name as [n|]; run';
    [| destruct (n_source_terms e_param <? 100); cbn [negb]; run';
       [| reflexivity]];
    rewrite lift_check_ml_name;
    destruct (cs_mesh_location_get_id_by_name X ml_name =? -1); reflexivity.
Qed.

Lemma cs_equation_add_source_term_by_analytic_eq (X : environment)
    (Y : collaborators) (e : cs_equation_t) (calls : list event')
    (st_name : option string) (ml_name : string) (ana : ptr) :
  cs_equation_add_source_term_by_analytic X Y st_name ml_name ana
    {| obj' := Some e; log' := calls |} =
  match user_source_term X Y (param e) st_name ml_name with
  | inl err =>
      Fatal' (base_error err)
        {| obj' := Some (set_param (source_term_counted (param e)) e);
           log' := calls |}
  | inr st =>
      Normal' tt
        {| obj' := Some (set_param (source_term_stored st (param e)) e);
           log' := (calls ++ [cs_source_term_def_by_analytic st ana])%list |}
  end.
Proof.
  unfold cs_equation_add_source_term_by_analytic, user_source_term,
    source_term_default_name.
  destruct e as [e_name e_param e_varname e_field e_ts1 e_ts2 e_ts3 e_ts4
                   e_do e_ms e_mx e_rhs e_bld e_f1 e_f2 e_f3 e_f4 e_f5 e_f6
                   e_f7 e_f8].
  run'. cbn [param].
  destruct st_name as [n|]; run';
    [| destruct (n_source_terms e_param <? 100); cbn [negb]; run';
       [| reflexivity]];
    rewrite lift_check_ml_name;
    destruct (cs_mesh_location_get_id_by_name X ml_name =? -1); reflexivity.
Qed.

Lemma source_term_stored_frame (st : ptr) (p : cs_equation_param_t) :
  n_source_terms p = Z.of_nat (length (source_terms p)) ->
  source_terms (source_term_stored st p) = (source_terms p ++ [st])%list
  /\ n_source_terms (source_term_stored st p) = n_source_terms p + 1
  /\ forall m, m <> eqp_n_source_terms -> m <> eqp_source_terms ->
               agree m p (source_term_stored st p).
Proof.
  intros Hn. cbn. rewrite Hn, array_store_end. repeat split.
  intros m H1 H2. destruct m; try reflexivity; contradiction.
Qed.

Lemma sprintf_2d_blank :
  forallb
    (fun i => String.eqb (sprintf_2d (Z.of_nat i))
                (String " " (String (ascii_of_nat (48 + i)) EmptyString)))
    (seq 0 10) = true.
Proof.
  vm_compute. reflexivity.
Qed.

Lemma cs_equation_add_gravity_source_term_eq (Y : collaborators)
    (e : cs_equation_t) (calls : list event') (ml_id array_desc : Z)
    (array_values : ptr) :
  cs_equation_add_gravity_source_term Y ml_id array_desc array_values
    {| obj' := Some e; log' := calls |} =
  let st := cs_source_term_create Y "gravity_source" ml_id
              CS_SOURCE_TERM_GRAVITY (var_type (param e)) in
  Normal' tt
    {| obj' := Some (set_param (source_term_stored st (param e)) e);
       log' := (calls
                ++ [cs_source_term_def_by_array st array_desc array_values])%list |}.
Proof.
  unfold cs_equation_add_gravity_source_term.
  destruct e as [e_name e_param e_varname e_field e_ts1 e_ts2 e_ts3 e_ts4
                   e_do e_ms e_mx e_rhs e_bld e_f1 e_f2 e_f3 e_f4 e_f5 e_f6
                   e_f7 e_f8].
  reflexivity.
Qed.

Lemma user_source_term_registered (X : environment) (Y : collaborators)
    (e : cs_equation_t) (calls : list event') (st_name : option string)
    (ml_name : string) (def : ptr -> event') :
  n_source_terms (param e) = Z.of_nat (length (source_terms (param e))) ->
  let st := cs_source_term_create Y
              match st_name with
              | Some n => n
              | None => source_term_default_name (n_source_terms (param e))
              end
              (cs_mesh_location_get_id_by_name X ml_name)
              CS_SOURCE_TERM_USER (var_type (param e)) in
  source_term_registered X e calls
    match st_name with None => true | Some _ => false end (Some ml_name)
    st (def st)
    match user_source_term X Y (param e) st_name ml_name with
    | inl err =>
        Fatal' (base_error err)
          {| obj' := Some (set_param (source_term_counted (param e)) e);
             log' := calls |}
    | inr st =>
        Normal' tt
          {| obj' := Some (set_param (source_term_stored st (param e)) e);
             log' := (calls ++ [def st])%list |}
    end.
Proof.
  intros Hn st. unfold st, user_source_term, source_term_registered.
  destruct (match st_name with None => negb _ | Some _ => false end) eqn:Ha.
  - eexists. split; [reflexivity|]. split; [reflexivity|].
    split; [reflexivity|]. left.
    destruct st_name; [discriminate|]. apply negb_true_iff, Z.ltb_ge in Ha.
    repeat split. exact Ha.
  - destruct (cs_mesh_location_get_id_by_name X ml_name =? -1) eqn:Hml.
    + eexists. split; [reflexivity|]. split; [reflexivity|].
      split; [reflexivity|]. right. exists ml_name.
      apply Z.eqb_eq in Hml. repeat split. exact Hml.
    + eexists. split; [reflexivity|].
      destruct (source_term_stored_frame
                  (cs_source_term_create Y
                     match st_name with
                     | Some n => n
                     | None => source_term_default_name (n_source_terms (param e))
                     end
                     (cs_mesh_location_get_id_by_name X ml_name)
                     CS_SOURCE_TERM_USER (var_type (param e)))
                  (param e) Hn) as (H1 & H2 & H3).
      split; [exact H1|]. split; [exact H2|]. split; [exact H3|]. split.
      * intros Hu. destruct st_name; [discriminate|].
        apply negb_false_iff, Z.ltb_lt in Ha. exact Ha.
      * intros n Hs. injection Hs as <-. apply Z.eqb_neq in Hml. exact Hml.
Qed.

(** X21.  The three registrations of a source term, on an equation whose
    counter of source terms agrees with its array.  Each counts the source
    term first; when it returns, the source term it created is appended, is
    defined by one call and no other member changes; when a registration of
    a user stops, on the assertion for a NULL name or on the mesh location,
    the counter is incremented and the array is unchanged.  The registration
    of the gravity always returns.  The name given to a source term without
    a name has a blank before an index of one digit. *)
Theorem source_term_registration (X : environment) (Y : collaborators)
    (e : cs_equation_t) (calls : list event') (st_name : option string)
    (ml_name val : string) (ana : ptr) (ml_id array_desc : Z)
    (array_values : ptr) :
  n_source_terms (param e) = Z.of_nat (length (source_terms (param e))) ->
  let s := {| obj' := Some e; log' := calls |} in
  let unnamed := match st_name with None => true | Some _ => false end in
  let st :=
    cs_source_term_create Y
      match st_name with
      | Some n => n
      | None => "sourceterm_" ++ sprintf_2d (n_source_terms (param e))
      end
      (cs_mesh_location_get_id_by_name X ml_name)
      CS_SOURCE_TERM_USER (var_type (param e)) in
  let gravity :=
    cs_source_term_create Y "gravity_source" ml_id CS_SOURCE_TERM_GRAVITY
      (var_type (param e)) in
  source_term_registered X e calls unnamed (Some ml_name) st
    (cs_source_term_def_by_value st val)
    (cs_equation_add_source_term_by_val X Y st_name ml_name val s)
  /\ source_term_registered X e calls unnamed (Some ml_name) st
       (cs_source_term_def_by_analytic st ana)
       (cs_equation_add_source_term_by_analytic X Y st_name ml_name ana s)
  /\ source_term_registered X e calls false None gravity
       (cs_source_term_def_by_array gravity array_desc array_values)
       (cs_equation_add_gravity_source_term Y ml_id array_desc array_values s)
  /\ (exists s',
        cs_equation_add_gravity_source_term Y ml_id array_desc array_values s
        = Normal' tt s')
  /\ forall i, (i < 10)%nat ->
               sprintf_2d (Z.of_nat i)
               = String " " (String (ascii_of_nat (48 + i)) EmptyString).
Proof.
  intros Hn s unnamed st gravity. unfold s, unnamed, st, gravity.
  split; [| split; [| split; [| split]]].
  - rewrite cs_equation_add_source_term_by_val_eq.
    apply (user_source_term_registered X Y e calls st_name ml_name
             (fun st => cs_source_term_def_by_value st val) Hn).
  - rewrite cs_equation_add_source_term_by_analytic_eq.
    apply (user_source_term_registered X Y e calls st_name ml_name
             (fun st => cs_source_term_def_by_analytic st ana) Hn).
  - rewrite cs_equation_add_gravity_source_term_eq. cbv zeta.
    unfold source_term_registered. eexists. split; [reflexivity|].
    destruct (source_term_stored_frame
                (cs_source_term_create Y "gravity_source" ml_id
                   CS_SOURCE_TERM_GRAVITY (var_type (param e)))
                (param e) Hn) as (H1 & H2 & H3).
    split; [exact H1|]. split; [exact H2|]. split; [exact H3|].
    split; [discriminate|]. discriminate.
  - rewrite cs_equation_add_gravity_source_term_eq. eexists. reflexivity.
  - intros i Hi. pose proof sprintf_2d_blank as H.
    rewrite forallb_forall in H. apply String.eqb_eq, H, in_seq. lia.
Qed.

Lemma source_term_registration_witness :
  n_source_terms (param Reference.eq0)
  = Z.of_nat (length (source_terms (param Reference.eq0)))
  /\ exists p',
       cs_equation_add_source_term_by_val Reference.env Sample.collab None
         "cells" "1.0" (Sample.start' Reference.eq0)
       = Normal' tt
           {| obj' := Some (set_param p' Reference.eq0);
              log' := [cs_source_term_def_by_value (Addr 13) "1.0"] |}
       /\ source_terms p' = [Addr 13]
       /\ n_source_terms p' = 1.
Proof.
  assert (H : n_source_terms (param Reference.eq0)
              = Z.of_nat (length (source_terms (param Reference.eq0))))
    by reflexivity.
  split; [exact H|].
  destruct (source_term_registration Reference.env Sample.collab Reference.eq0
              [] None "cells" "1.0" NULL 1 0 NULL H) as (P & _).
  unfold source_term_registered in P. cbv zeta in P. unfold Sample.start'.
  destruct (cs_equation_add_source_term_by_val Reference.env Sample.collab
              None "cells" "1.0" {| obj' := Some Reference.eq0; log' := [] |})
    as [[] s' | err s' | u] eqn:E.
  - destruct P as (p' & Hs & Ht & Hn & _).
    exists p'. rewrite Hs. split; [reflexivity|].
    split; [exact Ht | exact Hn].
  - vm_compute in E. discriminate E.
  - destruct P.
Defined.

Lemma for_each'_calls (A : Type) (a : list A) (body : A -> M' unit)
    (evs : A -> list event') (s : state') :
  (forall x s0, body x s0
                = Normal' tt {| obj' := obj' s0;
                                log' := (log' s0 ++ evs x)%list |}) ->
  for_each' a body s
  = Normal' tt {| obj' := obj' s; log' := (log' s ++ flat_map evs a)%list |}.
Proof.
  intros Hb. revert s. induction a as [| x a IH]; intros s.
  - cbn. rewrite app_nil_r. destruct s; reflexivity.
  - cbn [for_each' flat_map]. unfold bind'. rewrite Hb, IH. cbn.
    rewrite <- app_assoc. reflexivity.
Qed.

Lemma flat_map_singleton (A B : Type) (f : A -> B) (a : list A) :
  flat_map (fun x => [f x]) a = map f a.
Proof.
  induction a as [| x a IH]; cbn; [reflexivity | now rewrite IH].
Qed.

Lemma find_source_term_unused (Y : collaborators) (st_name : string)
    (terms : list ptr) (i : Z) :
  unused_source_name Y st_name terms -> find_source_term Y st_name terms i = -1.
Proof.
  intros H. revert i. induction H as [| st terms Hst _ IH]; intros i; cbn.
  - reflexivity.
  - rewrite Hst. apply IH.
Qed.

Lemma find_source_term_first (Y : collaborators) (st_name : string)
    (before after : list ptr) (st : ptr) (i : Z) :
  unused_source_name Y st_name before ->
  strcmp_eq (cs_source_term_get_name Y st) st_name = true ->
  find_source_term Y st_name (before ++ st :: after) i
  = i + Z.of_nat (length before).
Proof.
  intros H Hst. revert i. induction H as [| u before Hu _ IH]; intros i.
  - cbn. rewrite Hst. lia.
  - cbn [app find_source_term length]. rewrite Hu, IH. lia.
Qed.

(** X22.  [cs_equation_set_source_term_option] sets the option of the
    first source term of the name given, of every source term in the order of
    the registrations for a NULL name, and stops, the main timer running,
    when no source term has the name.  The equation is unchanged. *)
Theorem set_source_term_option_targets (Y : collaborators) (e : cs_equation_t)
    (calls : list event') (keyname keyval : string) :
  n_source_terms (param e) = Z.of_nat (length (source_terms (param e))) ->
  let s := {| obj' := Some e; log' := calls |} in
  (forall st_name before st after,
     source_terms (param e) = (before ++ st :: after)%list ->
     unused_source_name Y st_name before ->
     strcmp_eq (cs_source_term_get_name Y st) st_name = true ->
     cs_equation_set_source_term_option Y (Some st_name) keyname keyval s
     = Normal' tt
         {| obj' := Some e;
            log' := (calls ++ timer_started e
                     ++ [cs_source_term_set_option st keyname keyval]
                     ++ timer_stopped e)%list |})
  /\ (forall st_name,
        unused_source_name Y st_name (source_terms (param e)) ->
        cs_equation_set_source_term_option Y (Some st_name) keyname keyval s
        = Fatal' (SourceTermNotFound st_name (name e))
            {| obj' := Some e; log' := (calls ++ timer_started e)%list |})
  /\ cs_equation_set_source_term_option Y None keyname keyval s
     = Normal' tt
         {| obj' := Some e;
            log' := (calls ++ timer_started e
                     ++ map (fun st => cs_source_term_set_option st keyname keyval)
                          (source_terms (param e))
                     ++ timer_stopped e)%list |}.
Proof.
  intros Hn s. unfold s, cs_equation_set_source_term_option, timer_started,
    timer_stopped.
  split; [| split].
  - intros st_name before st after Hterms Hbefore Hst.
    assert (E : (0 + Z.of_nat (length before) =? -1) = false)
      by (apply Z.eqb_neq; lia).
    destruct (main_ts_id e >? -1) eqn:Hts; run'; rewrite Hts; run';
      rewrite Hn, Nat2Z.id, firstn_all, Hterms;
      rewrite (find_source_term_first Y st_name before after st 0 Hbefore Hst);
      rewrite E; run'; cbn [negb];
      replace (Z.to_nat (0 + Z.of_nat (length before))) with (length before)
        by lia;
      rewrite nth_error_app2, Nat.sub_diag by lia; cbn [nth_error];
      repeat progress (run'; rewrite ?Hts, ?E; cbn [negb]);
      rewrite <- ?app_assoc, ?app_nil_r; reflexivity.
  - intros st_name Hall.
    destruct (main_ts_id e >? -1) eqn:Hts; run'; rewrite Hts; run';
      rewrite Hn, Nat2Z.id, firstn_all;
      rewrite (find_source_term_unused Y st_name _ 0 Hall);
      run'; rewrite ?app_nil_r; reflexivity.
  - destruct (main_ts_id e >? -1) eqn:Hts;
      cbv beta iota zeta delta
        [bind' ret' when' eq_is_null' deref' bft_error' entries obj'];
      rewrite Hts, Hn, Nat2Z.id, Nat.ltb_irrefl, firstn_all;
      change (negb (-1 =? -1)) with false; cbv beta iota;
      try (unfold call' at 1; cbv beta iota);
      rewrite (for_each'_calls _ _ _
                 (fun st => [cs_source_term_set_option st keyname keyval]))
        by reflexivity;
      rewrite flat_map_singleton; unfold call'; cbn [log' obj'];
      rewrite <- ?app_assoc, ?app_nil_r; reflexivity.
Qed.

Lemma set_source_term_option_targets_witness :
  let e := Sample.heated_eq in
  n_source_terms (param e) = Z.of_nat (length (source_terms (param e)))
  /\ cs_equation_set_source_term_option Sample.collab (Some "heat")
       "quadrature" "bary" (Sample.start' e)
     = Normal' tt
         {| obj' := Some e;
            log' := [cs_source_term_set_option (Addr 12) "quadrature" "bary"]
         |}
  /\ cs_equation_set_source_term_option Sample.collab (Some "cooling")
       "quadrature" "bary" (Sample.start' e)
     = Fatal' (SourceTermNotFound "cooling" (name e)) (Sample.start' e)
  /\ cs_equation_set_source_term_option Sample.collab None
       "quadrature" "bary" (Sample.start' e)
     = Normal' tt
         {| obj' := Some e;
            log' := [cs_source_term_set_option (Addr 11) "quadrature" "bary";
                     cs_source_term_set_option (Addr 12) "quadrature" "bary"]
         |}.
Proof.
  intros e.
  assert (H : n_source_terms (param e)
              = Z.of_nat (length (source_terms (param e))))
    by (vm_compute; reflexivity).
  split; [exact H|].
  destruct (set_source_term_option_targets Sample.collab e [] "quadrature"
              "bary" H) as (P1 & P2 & P3).
  split; [| split].
  - apply (P1 "heat" [Addr 11] (Addr 12) []).
    + vm_compute. reflexivity.
    + repeat constructor.
    + vm_compute. reflexivity.
  - apply (P2 "cooling"). repeat constructor.
  - exact P3.
Defined.

(** X23.  [cs_equation_create_field] on an equation.  It returns exactly
    for a scalar, vector or tensor variable, a vertex-based or face-based
    scheme and a known mesh location: the field it creates has 1, 3 or 9
    components, lies on the vertices or on the cells, and keeps its previous
    values exactly when the equation is unsteady; its id is stored in the
    equation.  Otherwise it stops, on the type of variable first, then on
    the scheme, then on the location, with the main timer running. *)
Theorem create_field_outcome (X : environment) (Y : collaborators)
    (e : cs_equation_t) (calls : list event') :
  let s := {| obj' := Some e; log' := calls |} in
  let p := param e in
  match cs_equation_create_field X Y s with
  | Normal' _ s' =>
      exists dim location,
        field_dimension (var_type p) = Some dim
        /\ field_location (space_scheme p) = Some location
        /\ cs_mesh_location_get_id_by_name X location <> -1
        /\ let fld :=
             cs_field_create Y (varname e)
               (Z.lor (CS_FIELD_INTENSIVE Y) (CS_FIELD_VARIABLE Y))
               (cs_mesh_location_get_id_by_name X location) dim true
               (has_flag (flag p) (CS_EQUATION_UNSTEADY X)) in
           s' = {| obj' := Some (set_field_id
                                   (cs_field_id_by_name Y (varname e)) e);
                   log' := (calls ++ timer_started e
                            ++ [cs_field_set_key_int fld
                                  (cs_field_key_id Y "log") 1;
                                cs_field_set_key_int fld
                                  (cs_field_key_id Y "post_vis") 1;
                                cs_field_allocate_values fld]
                            ++ timer_stopped e)%list |}
  | Fatal' err s' =>
      s' = {| obj' := Some e; log' := (calls ++ timer_started e)%list |}
      /\ match field_dimension (var_type p),
               field_location (space_scheme p) with
         | None, _ => err = FieldOfIncompatibleType (name e)
         | Some _, None => err = FieldOfIncompatibleScheme (name e)
         | Some _, Some location =>
             err = InvalidFieldLocation
             /\ cs_mesh_location_get_id_by_name X location = -1
         end
  | Undefined' _ => False
  end.
Proof.
  intros s p. unfold s, p, cs_equation_create_field, timer_started,
    timer_stopped.
  destruct (main_ts_id e >? -1) eqn:Hts; run'; rewrite Hts; run';
    (destruct (var_type (param e)); cbn [field_dimension]; run';
     [| | | rewrite ?app_nil_r; split; reflexivity]);
    (destruct (space_scheme (param e)); cbn [field_location]; run';
     [| | rewrite ?app_nil_r; split; reflexivity]);
    match goal with
    | |- context [cs_mesh_location_get_id_by_name X ?l =? -1] =>
        destruct (cs_mesh_location_get_id_by_name X l =? -1) eqn:E
    end; run'; rewrite ?Hts; run';
    try (apply Z.eqb_eq in E; rewrite ?app_nil_r; repeat split;
         solve [reflexivity | exact E]);
    apply Z.eqb_neq in E;
    (eexists; eexists; split; [reflexivity|]; split; [reflexivity|];
     split; [exact E|]; cbn; rewrite <- ?app_assoc, ?app_nil_r;
     reflexivity).
Qed.

Lemma state'_eta (s : state') :
  s = {| obj' := obj' s; log' := (log' s ++ [])%list |}.
Proof. destruct s; cbn; rewrite app_nil_r; reflexivity. Qed.

(** X24.  [cs_equation_init_system] on an equation that is set up and is
    steady or has no initial condition: it allocates the builder through the
    scheme, computes the source term with it, and evaluates no initial
    condition, whatever definitions the equation holds. *)
Theorem init_system_without_initial_condition (X : environment)
    (Y : collaborators) (e : cs_equation_t) (calls : list event')
    (init source : scheme_function) :
  init_builder e = Some init ->
  compute_source e = Some source ->
  has_flag (flag (param e)) (CS_EQUATION_UNSTEADY X) = false
  \/ n_ic_definitions (time_info (param e)) = 0 ->
  let b := scheme_init_builder Y init (param e) in
  cs_equation_init_system X Y {| obj' := Some e; log' := calls |}
  = Normal' tt
      {| obj' := Some (set_builder b e);
         log' := (calls ++ timer_started e
                  ++ [scheme_init init (param e);
                      base_event (scheme_call source b)]
                  ++ timer_stopped e)%list |}.
Proof.
  intros Hi Hc Hs b. unfold b, cs_equation_init_system, timer_started,
    timer_stopped.
  destruct e as [e_name e_param e_varname e_field e_ts1 e_ts2 e_ts3 e_ts4
                   e_do e_ms e_mx e_rhs e_bld e_f1 e_f2 e_f3 e_f4 e_f5 e_f6
                   e_f7 e_f8].
  cbn in Hi, Hc, Hs. subst.
  destruct (e_ts1 >? -1) eqn:Hts; run'; cbn; rewrite ?Hts; run'; cbn;
    (destruct Hs as [Hs | Hs]; rewrite Hs;
     [| destruct (has_flag _ _)]); cbn; rewrite ?Hts; run';
    rewrite <- ?app_assoc, ?app_nil_r; reflexivity.
Qed.

Lemma init_system_without_initial_condition_witness :
  let e := Sample.set_up_eq in
  init_builder e = Some cs_cdovb_scaleq_init
  /\ compute_source e = Some cs_cdovb_scaleq_compute_source
  /\ (has_flag (flag (param e)) (CS_EQUATION_UNSTEADY Reference.env) = false
      \/ n_ic_definitions (time_info (param e)) = 0)
  /\ cs_equation_init_system Reference.env Sample.collab (Sample.start' e)
     = Normal' tt
         {| obj' := Some (set_builder (Addr 40) e);
            log' := [scheme_init cs_cdovb_scaleq_init (param e);
                     base_event
                       (scheme_call cs_cdovb_scaleq_compute_source (Addr 40))]
         |}.
Proof.
  intros e.
  assert (H1 : init_builder e = Some cs_cdovb_scaleq_init) by reflexivity.
  assert (H2 : compute_source e = Some cs_cdovb_scaleq_compute_source)
    by reflexivity.
  assert (H3 : has_flag (flag (param e)) (CS_EQUATION_UNSTEADY Reference.env)
               = false
               \/ n_ic_definitions (time_info (param e)) = 0)
    by (left; vm_compute; reflexivity).
  split; [exact H1|]. split; [exact H2|]. split; [exact H3|].
  exact (init_system_without_initial_condition Reference.env Sample.collab e
           [] cs_cdovb_scaleq_init cs_cdovb_scaleq_compute_source H1 H2 H3).
Defined.

Lemma field_values_set (X : environment) (field : ptr) (s : state') :
  ptr_eqb field NULL = false ->
  field_values' X field s = Normal' (cs_field_val X field) s.
Proof. intros H. unfold field_values'. rewrite H. reflexivity. Qed.

Lemma _initialize_field_from_ic_vertex_based (X : environment)
    (Y : collaborators) (e : cs_equation_t) (calls : list event') (dof : Z) :
  n_ic_definitions (time_info (param e))
  = Z.of_nat (length (ic_definitions (time_info (param e)))) ->
  space_scheme (param e) = CS_SPACE_SCHEME_CDOVB ->
  dof_flag_of Y (var_type (param e)) = Some dof ->
  ptr_eqb (cs_field_by_id X (field_id e)) NULL = false ->
  _initialize_field_from_ic X Y {| obj' := Some e; log' := calls |}
  = Normal' tt
      {| obj' := Some e;
         log' := (calls
                  ++ flat_map
                       (ic_evaluated X (Z.lor dof (cs_cdo_primal_vtx Y))
                          "vertices"
                          (cs_field_val X (cs_field_by_id X (field_id e))))
                       (ic_definitions (time_info (param e))))%list |}.
Proof.
  intros Hn Hs Hd Hf. unfold _initialize_field_from_ic.
  cbv beta iota zeta delta [bind' ret' deref' bft_error' entries obj'].
  rewrite Hs, Hn, Nat2Z.id, Nat.ltb_irrefl, firstn_all.
  destruct (var_type (param e)); try discriminate Hd;
    injection Hd as <-; cbv beta iota;
    apply (for_each'_calls _ _ _
             (ic_evaluated X _ "vertices"
                (cs_field_val X (cs_field_by_id X (field_id e)))));
    intros ic s0; unfold ic_evaluated, ic_location, bind';
    destruct (ic_def_type ic); rewrite ?(field_values_set _ _ _ Hf);
    try reflexivity; unfold ret'; f_equal; apply state'_eta.
Qed.

(** X25.  [cs_equation_init_system] on an unsteady vertex-based equation
    with initial conditions: after the builder and the source term, each
    definition by value or by analytic function is evaluated once, in the
    order of the definitions, at the vertices of its mesh location, or of all
    the vertices when its name is empty, into the values of the field. *)
Theorem init_system_vertex_based (X : environment) (Y : collaborators)
    (e : cs_equation_t) (calls : list event')
    (init source : scheme_function) (dof : Z) :
  init_builder e = Some init ->
  compute_source e = Some source ->
  has_flag (flag (param e)) (CS_EQUATION_UNSTEADY X) = true ->
  n_ic_definitions (time_info (param e))
  = Z.of_nat (length (ic_definitions (time_info (param e)))) ->
  ic_definitions (time_info (param e)) <> [] ->
  space_scheme (param e) = CS_SPACE_SCHEME_CDOVB ->
  dof_flag_of Y (var_type (param e)) = Some dof ->
  ptr_eqb (cs_field_by_id X (field_id e)) NULL = false ->
  let b := scheme_init_builder Y init (param e) in
  let values := cs_field_val X (cs_field_by_id X (field_id e)) in
  cs_equation_init_system X Y {| obj' := Some e; log' := calls |}
  = Normal' tt
      {| obj' := Some (set_builder b e);
         log' := (calls ++ timer_started e
                  ++ [scheme_init init (param e);
                      base_event (scheme_call source b)]
                  ++ flat_map
                       (ic_evaluated X (Z.lor dof (cs_cdo_primal_vtx Y))
                          "vertices" values)
                       (ic_definitions (time_info (param e)))
                  ++ timer_stopped e)%list |}.
Proof.
  intros Hi Hc Hu Hn Hne Hs Hd Hf b values.
  assert (Hz : (n_ic_definitions (time_info (param e)) =? 0) = false).
  { apply Z.eqb_neq. rewrite Hn.
    destruct (ic_definitions (time_info (param e))); [congruence | cbn; lia]. }
  pose proof (fun l =>
    _initialize_field_from_ic_vertex_based X Y (set_builder b e) l dof
      Hn Hs Hd Hf) as Hic.
  unfold b, values, cs_equation_init_system, timer_started, timer_stopped
    in *.
  destruct (main_ts_id e >? -1) eqn:Hts; run'; rewrite ?Hts, ?Hi; run';
    change (compute_source (set_builder ?x e)) with (compute_source e);
    rewrite Hc; run'; rewrite Hu, Hz; cbn [negb]; run';
    rewrite Hic; cbn [set_builder main_ts_id]; rewrite ?Hts; run';
    cbn [builder set_builder field_id param];
    rewrite <- ?app_assoc, ?app_nil_r; reflexivity.
Qed.

Lemma init_system_vertex_based_witness :
  let e := Sample.unsteady_vb in
  init_builder e = Some cs_cdovb_scaleq_init
  /\ compute_source e = Some cs_cdovb_scaleq_compute_source
  /\ has_flag (flag (param e)) (CS_EQUATION_UNSTEADY Reference.env) = true
  /\ n_ic_definitions (time_info (param e))
     = Z.of_nat (length (ic_definitions (time_info (param e))))
  /\ ic_definitions (time_info (param e)) <> []
  /\ space_scheme (param e) = CS_SPACE_SCHEME_CDOVB
  /\ dof_flag_of Sample.collab (var_type (param e)) = Some 16
  /\ ptr_eqb (cs_field_by_id Reference.env (field_id e)) NULL = false
  /\ cs_equation_init_system Reference.env Sample.collab (Sample.start' e)
     = Normal' tt
         {| obj' := Some (set_builder (Addr 40) e);
            log' := [scheme_init cs_cdovb_scaleq_init (param e);
                     base_event
                       (scheme_call cs_cdovb_scaleq_compute_source (Addr 40));
                     cs_evaluate_potential_from_value 17 4 "1.0" (Addr 30)]
         |}.
Proof.
  intros e.
  assert (H1 : init_builder e = Some cs_cdovb_scaleq_init) by reflexivity.
  assert (H2 : compute_source e = Some cs_cdovb_scaleq_compute_source)
    by reflexivity.
  assert (H3 : has_flag (flag (param e)) (CS_EQUATION_UNSTEADY Reference.env)
               = true) by (vm_compute; reflexivity).
  assert (H4 : n_ic_definitions (time_info (param e))
               = Z.of_nat (length (ic_definitions (time_info (param e)))))
    by (vm_compute; reflexivity).
  assert (H5 : ic_definitions (time_info (param e)) <> [])
    by (vm_compute; discriminate).
  assert (H6 : space_scheme (param e) = CS_SPACE_SCHEME_CDOVB)
    by (vm_compute; reflexivity).
  assert (H7 : dof_flag_of Sample.collab (var_type (param e)) = Some 16)
    by (vm_compute; reflexivity).
  assert (H8 : ptr_eqb (cs_field_by_id Reference.env (field_id e)) NULL
               = false) by (vm_compute; reflexivity).
  split; [exact H1|]. split; [exact H2|]. split; [exact H3|].
  split; [exact H4|]. split; [exact H5|]. split; [exact H6|].
  split; [exact H7|]. split; [exact H8|].
  exact (init_system_vertex_based Reference.env Sample.collab e []
           cs_cdovb_scaleq_init cs_cdovb_scaleq_compute_source 16
           H1 H2 H3 H4 H5 H6 H7 H8).
Defined.

Lemma _initialize_field_from_ic_face_based (X : environment)
    (Y : collaborators) (e : cs_equation_t) (calls : list event') (dof : Z)
    (get : scheme_function) :
  n_ic_definitions (time_info (param e))
  = Z.of_nat (length (ic_definitions (time_info (param e)))) ->
  space_scheme (param e) <> CS_SPACE_SCHEME_CDOVB ->
  dof_flag_of Y (var_type (param e)) = Some dof ->
  ptr_eqb (cs_field_by_id X (field_id e)) NULL = false ->
  get_f_values e = Some get ->
  ptr_eqb (scheme_get_face_values X get (builder e) (field_id e)) NULL
  = false ->
  _initialize_field_from_ic X Y {| obj' := Some e; log' := calls |}
  = Normal' tt
      {| obj' := Some e;
         log' := (calls ++ [base_event (scheme_call get (builder e))]
                  ++ flat_map
                       (fun ic =>
                          ic_evaluated X (Z.lor dof (cs_cdo_primal_cell Y))
                            "cells"
                            (cs_field_val X (cs_field_by_id X (field_id e)))
                            ic
                          ++ ic_evaluated X
                               (Z.lor dof (cs_cdo_primal_face Y)) "cells"
                               (scheme_get_face_values X get (builder e)
                                  (field_id e))
                               ic)
                       (ic_definitions (time_info (param e))))%list |}.
Proof.
  intros Hn Hs Hd Hf Hg Hv. unfold _initialize_field_from_ic.
  assert (Hface :
            forall l,
              lift (cs_equation_get_face_values X)
                {| obj' := Some e; log' := l |}
              = Normal' (scheme_get_face_values X get (builder e) (field_id e))
                  {| obj' := Some e;
                     log' := (l ++ [base_event
                                      (scheme_call get (builder e))])%list |}).
  { intros l. unfold lift, cs_equation_get_face_values. run. cbn.
    rewrite Hg. run. cbn. reflexivity. }
  cbv beta iota zeta delta [bind' ret' deref' bft_error' entries obj' when'].
  rewrite Hn, Nat2Z.id, Nat.ltb_irrefl, firstn_all.
  destruct (var_type (param e)); try discriminate Hd;
    injection Hd as Hd; cbv beta iota;
    (destruct (space_scheme (param e)); [congruence | |]);
    rewrite Hface, Hv; cbv beta iota;
    rewrite (for_each'_calls _ _ _
               (fun ic =>
                  ic_evaluated X (Z.lor dof (cs_cdo_primal_cell Y)) "cells"
                    (cs_field_val X (cs_field_by_id X (field_id e))) ic
                  ++ ic_evaluated X (Z.lor dof (cs_cdo_primal_face Y)) "cells"
                       (scheme_get_face_values X get (builder e) (field_id e))
                       ic)%list);
    try (cbn [obj' log']; rewrite <- app_assoc; reflexivity);
    intros ic s0; rewrite <- Hd; unfold ic_evaluated, ic_location;
    destruct (ic_def_type ic); rewrite ?(field_values_set _ _ _ Hf);
    unfold call'; cbn; rewrite <- ?app_assoc; try reflexivity;
    f_equal; apply state'_eta.
Qed.

(** X26.  [cs_equation_init_system] on an unsteady equation whose scheme is
    not the vertex-based one, with initial conditions: the values at faces
    are asked once to the scheme, and each definition is evaluated twice, at
    the cells into the values of the field and then at the faces into the
    values at faces, on its mesh location or on all the cells. *)
Theorem init_system_face_based (X : environment) (Y : collaborators)
    (e : cs_equation_t) (calls : list event')
    (init source get : scheme_function) (dof : Z) :
  init_builder e = Some init ->
  compute_source e = Some source ->
  has_flag (flag (param e)) (CS_EQUATION_UNSTEADY X) = true ->
  n_ic_definitions (time_info (param e))
  = Z.of_nat (length (ic_definitions (time_info (param e)))) ->
  ic_definitions (time_info (param e)) <> [] ->
  space_scheme (param e) <> CS_SPACE_SCHEME_CDOVB ->
  dof_flag_of Y (var_type (param e)) = Some dof ->
  ptr_eqb (cs_field_by_id X (field_id e)) NULL = false ->
  get_f_values e = Some get ->
  let b := scheme_init_builder Y init (param e) in
  let values := cs_field_val X (cs_field_by_id X (field_id e)) in
  let face_values := scheme_get_face_values X get b (field_id e) in
  ptr_eqb face_values NULL = false ->
  cs_equation_init_system X Y {| obj' := Some e; log' := calls |}
  = Normal' tt
      {| obj' := Some (set_builder b e);
         log' := (calls ++ timer_started e
                  ++ [scheme_init init (param e);
                      base_event (scheme_call source b);
                      base_event (scheme_call get b)]
                  ++ flat_map
                       (fun ic =>
                          ic_evaluated X (Z.lor dof (cs_cdo_primal_cell Y))
                            "cells" values ic
                          ++ ic_evaluated X (Z.lor dof (cs_cdo_primal_face Y))
                               "cells" face_values ic)
                       (ic_definitions (time_info (param e)))
                  ++ timer_stopped e)%list |}.
Proof.
  intros Hi Hc Hu Hn Hne Hs Hd Hf Hg b values face_values Hv.
  assert (Hz : (n_ic_definitions (time_info (param e)) =? 0) = false).
  { apply Z.eqb_neq. rewrite Hn.
    destruct (ic_definitions (time_info (param e))); [congruence | cbn; lia]. }
  pose proof (fun l =>
    _initialize_field_from_ic_face_based X Y (set_builder b e) l dof get
      Hn Hs Hd Hf Hg Hv) as Hic.
  unfold face_values, b, values, cs_equation_init_system, timer_started,
    timer_stopped in *.
  destruct (main_ts_id e >? -1) eqn:Hts; run'; rewrite ?Hts, ?Hi; run';
    change (compute_source (set_builder ?x e)) with (compute_source e);
    rewrite Hc; run'; rewrite Hu, Hz; cbn [negb]; run';
    rewrite Hic; cbn [set_builder main_ts_id]; rewrite ?Hts; run';
    cbn [builder set_builder field_id param];
    rewrite <- ?app_assoc, ?app_nil_r; reflexivity.
Qed.

Lemma init_system_face_based_witness :
  let e := Sample.unsteady_fb in
  init_builder e = Some cs_cdofb_scaleq_init
  /\ compute_source e = Some cs_cdofb_scaleq_compute_source
  /\ has_flag (flag (param e)) (CS_EQUATION_UNSTEADY Reference.env) = true
  /\ n_ic_definitions (time_info (param e))
     = Z.of_nat (length (ic_definitions (time_info (param e))))
  /\ ic_definitions (time_info (param e)) <> []
  /\ space_scheme (param e) <> CS_SPACE_SCHEME_CDOVB
  /\ dof_flag_of Sample.collab (var_type (param e)) = Some 16
  /\ ptr_eqb (cs_field_by_id Reference.env (field_id e)) NULL = false
  /\ get_f_values e = Some cs_cdofb_scaleq_get_face_values
  /\ ptr_eqb
       (scheme_get_face_values Reference.env cs_cdofb_scaleq_get_face_values
          (Addr 40) (field_id e)) NULL = false
  /\ cs_equation_init_system Reference.env Sample.collab (Sample.start' e)
     = Normal' tt
         {| obj' := Some (set_builder (Addr 40) e);
            log' := [scheme_init cs_cdofb_scaleq_init (param e);
                     base_event
                       (scheme_call cs_cdofb_scaleq_compute_source (Addr 40));
                     base_event
                       (scheme_call cs_cdofb_scaleq_get_face_values (Addr 40));
                     cs_evaluate_potential_from_analytic 20 1 "f" (Addr 30);
                     cs_evaluate_potential_from_analytic 18 1 "f" (Addr 4)]
         |}.
Proof.
  intros e.
  assert (H1 : init_builder e = Some cs_cdofb_scaleq_init) by reflexivity.
  assert (H2 : compute_source e = Some cs_cdofb_scaleq_compute_source)
    by reflexivity.
  assert (H3 : has_flag (flag (param e)) (CS_EQUATION_UNSTEADY Reference.env)
               = true) by (vm_compute; reflexivity).
  assert (H4 : n_ic_definitions (time_info (param e))
               = Z.of_nat (length (ic_definitions (time_info (param e)))))
    by (vm_compute; reflexivity).
  assert (H5 : ic_definitions (time_info (param e)) <> [])
    by (vm_compute; discriminate).
  assert (H6 : space_scheme (param e) <> CS_SPACE_SCHEME_CDOVB)
    by (vm_compute; discriminate).
  assert (H7 : dof_flag_of Sample.collab (var_type (param e)) = Some 16)
    by (vm_compute; reflexivity).
  assert (H8 : ptr_eqb (cs_field_by_id Reference.env (field_id e)) NULL
               = false) by (vm_compute; reflexivity).
  assert (H9 : get_f_values e = Some cs_cdofb_scaleq_get_face_values)
    by reflexivity.
  assert (H10 : ptr_eqb
                  (scheme_get_face_values Reference.env
                     cs_cdofb_scaleq_get_face_values
                     (scheme_init_builder Sample.collab cs_cdofb_scaleq_init
                        (param e))
                     (field_id e)) NULL = false) by reflexivity.
  split; [exact H1|]. split; [exact H2|]. split; [exact H3|].
  split; [exact H4|]. split; [exact H5|]. split; [exact H6|].
  split; [exact H7|]. split; [exact H8|]. split; [exact H9|].
  split; [exact H10|].
  exact (init_system_face_based Reference.env Sample.collab e []
           cs_cdofb_scaleq_init cs_cdofb_scaleq_compute_source
           cs_cdofb_scaleq_get_face_values 16
           H1 H2 H3 H4 H5 H6 H7 H8 H9 H10).
Defined.

(** X27.  [cs_equation_init_system] returns at once, without a call, on a
    NULL equation; it calls through a NULL pointer on an equation that is not
    set up; and on an unsteady equation with initial conditions whose type of
    variable is unknown it stops once the builder is allocated and the source
    term computed, with the main timer running. *)
Theorem init_system_refusals (X : environment) (Y : collaborators)
    (e : cs_equation_t) (calls : list event') :
  cs_equation_init_system X Y {| obj' := None; log' := calls |}
  = Normal' tt {| obj' := None; log' := calls |}
  /\ (init_builder e = None \/ compute_source e = None ->
      cs_equation_init_system X Y {| obj' := Some e; log' := calls |}
      = Undefined' null_function_call)
  /\ (forall init source,
        init_builder e = Some init ->
        compute_source e = Some source ->
        has_flag (flag (param e)) (CS_EQUATION_UNSTEADY X) = true ->
        n_ic_definitions (time_info (param e)) <> 0 ->
        var_type (param e) = CS_PARAM_N_VAR_TYPES ->
        cs_equation_init_system X Y {| obj' := Some e; log' := calls |}
        = Fatal' (IncompatibleVariable (name e))
            {| obj' := Some (set_builder
                               (scheme_init_builder Y init (param e)) e);
               log' := (calls ++ timer_started e
                        ++ [scheme_init init (param e);
                            base_event
                              (scheme_call source
                                 (scheme_init_builder Y init (param e)))])%list
            |}).
Proof.
  split; [reflexivity|]. unfold cs_equation_init_system, timer_started.
  split.
  - intros H. destruct (main_ts_id e >? -1) eqn:Hts; run'; rewrite ?Hts; run';
      (destruct (init_builder e) eqn:Hi; run'; [| reflexivity]);
      change (compute_source (set_builder ?x e)) with (compute_source e);
      (destruct (compute_source e) eqn:Hc; run'; [| reflexivity]);
      destruct H; discriminate.
  - intros init source Hi Hc Hu Hn Hv. apply Z.eqb_neq in Hn.
    destruct (main_ts_id e >? -1) eqn:Hts; run'; rewrite ?Hts, ?Hi; run';
      change (compute_source (set_builder ?x e)) with (compute_source e);
      rewrite Hc; run'; rewrite Hu, Hn; cbn [negb]; run';
      unfold _initialize_field_from_ic; run';
      change (var_type (param (set_builder ?x e))) with (var_type (param e));
      rewrite Hv; run'; cbn [set_builder name builder];
      rewrite <- ?app_assoc, ?app_nil_r; reflexivity.
Qed.

(** * Properties that compose the operations *)

Lemma find_reaction_term_bound (r_name : string)
    (terms : list cs_param_reaction_t) (n : nat) (i : Z) :
  find_reaction_term r_name terms n i = -1
  \/ i <= find_reaction_term r_name terms n i < i + Z.of_nat (length terms).
Proof.
  revert n i. induction terms as [| t terms IH]; intros n i; destruct n; cbn;
    try (left; reflexivity).
  destruct (strcmp_eq (reaction_name t) r_name).
  - right. lia.
  - destruct (IH n (i + 1)) as [H | H]; [left; exact H | right; lia].
Qed.

Lemma find_reaction_term_none (r_name : string)
    (terms : list cs_param_reaction_t) (n : nat) (i : Z) :
  0 <= i ->
  find_reaction_term r_name terms n i = -1 ->
  unused_name r_name (firstn n terms).
Proof.
  unfold unused_name. revert n i.
  induction terms as [| t terms IH]; intros n i Hi H; destruct n; cbn;
    try constructor.
  - cbn in H. destruct (strcmp_eq (reaction_name t) r_name);
      [lia | reflexivity].
  - cbn in H. destruct (strcmp_eq (reaction_name t) r_name); [lia|].
    apply (IH n (i + 1)); [lia | exact H].
Qed.

(** X28.  [cs_equation_get_reaction_property] never reads outside the
    arrays: on an equation [cs_equation_create] returned, after any sequence
    of returning calls that configure it, the lookup leaves the equation as it
    is and either returns, or stops in the error of a name that is not found,
    and then none of the reaction terms has the name. *)
Theorem reaction_property_lookup_in_bounds (X : environment)
    (eqname varname : string) (eqtype : cs_equation_type_t)
    (vartype : cs_param_var_type_t) (default_bc : cs_param_bc_type_t)
    (calls : list event) (s : state) (r_name : option string) :
  later X
    {| obj := Some (cs_equation_create X eqname varname eqtype vartype
                      default_bc);
       log := calls |} s ->
  (exists property, cs_equation_get_reaction_property r_name s
                    = Normal property s)
  \/ (exists n e,
        r_name = Some n /\ obj s = Some e
        /\ unused_name n (firstn (Z.to_nat (n_reaction_terms (param e)))
                            (reaction_terms (param e)))
        /\ cs_equation_get_reaction_property r_name s
           = Fatal (NotFound n (name e)) s).
Proof.
  intros H.
  destruct (cs_equation_create_consistent X eqname varname eqtype vartype
              default_bc) as [Hr Hd].
  destruct (later_keeps_counters X _ s _ (eq_refl : obj {| obj := Some _; log := calls |} = Some _) Hr Hd H)
    as (e & He & [Hn Hlen] & _).
  destruct s as [o l]. cbn in He. subst o.
  destruct r_name as [n|]; [| left; exists NULL; reflexivity].
  rewrite cs_equation_get_reaction_property_eq. cbv zeta.
  destruct (find_reaction_term_bound n (reaction_terms (param e))
              (Z.to_nat (n_reaction_terms (param e))) 0) as [Hu | Hb].
  - right. exists n, e. rewrite Hu. cbn. repeat split.
    apply (find_reaction_term_none n _ _ 0); [lia | exact Hu].
  - left. destruct (_ =? -1) eqn:E; [apply Z.eqb_eq in E; lia|].
    destruct (nth_error (reaction_properties (param e)) _) eqn:Hq.
    + eexists. reflexivity.
    + apply nth_error_None in Hq. lia.
Qed.

Lemma reaction_property_lookup_in_bounds_witness :
  let s := Reference.start Reference.eq0 in
  let s1 :=
    Sample.next
      (cs_equation_add_reaction Reference.env None "linear" (Addr 6)) s in
  later Reference.env s s1
  /\ ((exists property,
         cs_equation_get_reaction_property (Some "reaction_00") s1
         = Normal property s1)
      \/ (exists n e,
            Some "reaction_00" = Some n /\ obj s1 = Some e
            /\ unused_name n
                 (firstn (Z.to_nat (n_reaction_terms (param e)))
                    (reaction_terms (param e)))
            /\ cs_equation_get_reaction_property (Some "reaction_00") s1
               = Fatal (NotFound n (name e)) s1)).
Proof.
  intros s s1.
  assert (H : later Reference.env s s1).
  { apply later_call with (s1 := s1); [| apply later_now].
    apply (configures_add_reaction Reference.env None "linear" (Addr 6)).
    vm_compute. reflexivity. }
  split; [exact H|].
  exact (reaction_property_lookup_in_bounds Reference.env "WallDistance"
           "WallDistance" CS_EQUATION_TYPE_PREDEFINED CS_PARAM_VAR_SCAL
           CS_PARAM_BC_HMG_NEUMANN [] s1 (Some "reaction_00") H).
Defined.

Lemma existsb_hodge_algo (algo : cs_param_hodge_algo_t)
    (terms : list cs_param_reaction_t) :
  terms <> [] ->
  existsb
    (fun r_info =>
       match hodge_algo (reaction_hodge r_info) with
       | CS_PARAM_HODGE_ALGO_WBS => true
       | _ => false
       end)
    (map (in_reaction_hodge (set_hodge_algo algo)) terms)
  = match algo with CS_PARAM_HODGE_ALGO_WBS => true | _ => false end.
Proof.
  intros H. destruct terms as [| t terms]; [congruence|]. clear H.
  revert t. induction terms as [| u terms IH]; intros t.
  - cbn. apply orb_false_r.
  - cbn [map existsb]. cbn [map existsb] in IH. rewrite IH.
    cbn. destruct algo; reflexivity.
Qed.

(** X29.  The Hodge algorithm set on all the reaction terms decides on
    the conforming reconstruction.  On a vertex-based equation with reaction
    terms, after [cs_equation_set_reaction_option] has set the key
    ["hodge_algo"] for a NULL name, [cs_equation_last_setup] raises the flag
    of the conforming reconstruction exactly when the value is ["wbs"],
    whatever the algorithms of the terms were. *)
Theorem reaction_hodge_algo_decides_hconf (X : environment)
    (e : cs_equation_t) (calls : list event') (keyval : string)
    (s1 : state') (l : list event) (s2 : state) :
  n_reaction_terms (param e) = Z.of_nat (length (reaction_terms (param e))) ->
  reaction_terms (param e) <> [] ->
  space_scheme (param e) = CS_SPACE_SCHEME_CDOVB ->
  has_flag (flag (param e)) (CS_EQUATION_REACTION X) = true ->
  cs_equation_set_reaction_option X None "hodge_algo" keyval
    {| obj' := Some e; log' := calls |} = Normal' tt s1 ->
  cs_equation_last_setup X {| obj := obj' s1; log := l |} = Normal tt s2 ->
  exists e2,
    obj s2 = Some e2
    /\ flag (param e2)
       = Z.lor (if strcmp_eq keyval "wbs"
                then Z.lor (flag (param e)) (CS_EQUATION_HCONF_ST X)
                else flag (param e))
           (CS_EQUATION_LOCKED X).
Proof.
  intros Hn Hne Hs Hr Ho Hl.
  assert (Hf : exists algo,
             reaction_update X REAKEY_HODGE_ALGO keyval
             = Some (in_reaction_hodge (set_hodge_algo algo))
             /\ strcmp_eq keyval "wbs"
                = match algo with
                  | CS_PARAM_HODGE_ALGO_WBS => true
                  | _ => false
                  end).
  { rewrite cs_equation_set_reaction_option_eq in Ho. cbv zeta in Ho.
    change (_get_reakey "hodge_algo") with REAKEY_HODGE_ALGO in Ho.
    cbv beta iota in Ho. unfold reaction_update, strcmp_eq in *.
    destruct (keyval =? "cost")%string eqn:E1.
    { apply String.eqb_eq in E1. subst keyval. eexists. split; reflexivity. }
    destruct (keyval =? "voronoi")%string eqn:E2.
    { apply String.eqb_eq in E2. subst keyval. eexists. split; reflexivity. }
    destruct (keyval =? "wbs")%string eqn:E3; [| discriminate Ho].
    eexists. split; reflexivity. }
  destruct Hf as (algo & Hf & Hw).
  rewrite cs_equation_set_reaction_option_eq in Ho. cbv zeta in Ho.
  change (_get_reakey "hodge_algo") with REAKEY_HODGE_ALGO in Ho.
  rewrite Hf, (reaction_terms_updated_all _ _ Hn) in Ho.
  injection Ho as <-. cbn [obj'] in Hl.
  destruct (cs_equation_last_setup_Normal X _ l s2 Hl) as [He2 _].
  eexists. split; [exact He2|].
  unfold set_up. cbn [param set_param].
  match goal with
  | |- context [needs_hconf_st X ?p] =>
      assert (Hh : needs_hconf_st X p = strcmp_eq keyval "wbs")
  end.
  { unfold needs_hconf_st. cbn [space_scheme set_reaction_terms flag
      n_reaction_terms reaction_terms]. rewrite Hs, Hr, Hn. cbn [andb].
    rewrite Nat2Z.id, firstn_all2 by (rewrite length_map; lia).
    rewrite (existsb_hodge_algo algo _ Hne). symmetry. exact Hw. }
  rewrite Hh. destruct (strcmp_eq keyval "wbs"); reflexivity.
Qed.

Lemma reaction_hodge_algo_decides_hconf_witness :
  let e := Sample.reacting_eq in
  let s1 :=
    Sample.next'
      (cs_equation_set_reaction_option Reference.env None "hodge_algo"
         "voronoi") (Sample.start' e) in
  let s := {| obj := obj' s1; log := [] |} in
  let s2 := Sample.next (cs_equation_last_setup Reference.env) s in
  n_reaction_terms (param e) = Z.of_nat (length (reaction_terms (param e)))
  /\ reaction_terms (param e) <> []
  /\ space_scheme (param e) = CS_SPACE_SCHEME_CDOVB
  /\ has_flag (flag (param e)) (CS_EQUATION_REACTION Reference.env) = true
  /\ cs_equation_set_reaction_option Reference.env None "hodge_algo"
       "voronoi" (Sample.start' e) = Normal' tt s1
  /\ cs_equation_last_setup Reference.env s = Normal tt s2
  /\ exists e2,
       obj s2 = Some e2
       /\ flag (param e2)
          = Z.lor (flag (param e)) (CS_EQUATION_LOCKED Reference.env).
Proof.
  intros e s1 s s2.
  assert (H1 : n_reaction_terms (param e)
               = Z.of_nat (length (reaction_terms (param e))))
    by (vm_compute; reflexivity).
  assert (H2 : reaction_terms (param e) <> []) by (vm_compute; discriminate).
  assert (H3 : space_scheme (param e) = CS_SPACE_SCHEME_CDOVB)
    by (vm_compute; reflexivity).
  assert (H4 : has_flag (flag (param e)) (CS_EQUATION_REACTION Reference.env)
               = true) by (vm_compute; reflexivity).
  assert (H5 : cs_equation_set_reaction_option Reference.env None "hodge_algo"
                 "voronoi" (Sample.start' e) = Normal' tt s1)
    by (vm_compute; reflexivity).
  assert (H6 : cs_equation_last_setup Reference.env s = Normal tt s2)
    by (vm_compute; reflexivity).
  split; [exact H1|]. split; [exact H2|]. split; [exact H3|].
  split; [exact H4|]. split; [exact H5|]. split; [exact H6|].
  exact (reaction_hodge_algo_decides_hconf Reference.env e [] "voronoi" s1 []
           s2 H1 H2 H3 H4 H5 H6).
Defined.
